(* ===== verification/_CoqProject ===== *)
-Q . S2P
Prelude.v
PyRuntime.v
XTime.v
PyDict.v
Sampler.v
Engine.v
Spec.v
Invariants.v
Stats.v
Simulate.v
Termination.v
Scenarios.v
Busy.v
Format.v
Console.v
Driver.v
Analysis.v
Fifo.v
Little.v
Overshoot.v
Utilization.v
Replay.v
Bisim.v
Complete.v
WellFormed.v
Liveness.v
Figure.v
Balance.v
Horizon.v
Units.v
Zeno.v
Overlap.v
Errors.v
LeftOut.v
