(* ===== verification/Prelude.v ===== *)
(** * Verification of the M/M/1 queue simulator

    The repository holds two Python files.  [src/mm1_queue_simulation.py]
    defines [simulate_mm1_queue], a discrete-event simulation of a
    single-server FIFO queue over a finite horizon which reduces its event
    trace to statistics, and [run_mm1_simulation], a driver that prints them.
    [src/mm1_queue_analysis.py] is a script which runs three scenarios and
    plots the simulated waiting time against the analytic curve.

    ** Parts of the program and where they are modelled

    - Python runtime used by the code (exceptions, true division, [sum],
      [len], [np.mean], counting generators): [PyRuntime.v].  A computation
      that can raise is a value of [outcome]; the monad instances give the
      [x ← c; k] notation.  [OutOfFuel] is the model's own third outcome:
      the event loop is a [Fixpoint] on a fuel argument.
    - [float('inf')] as the sentinel "no departure pending": [XTime.v], type
      [xtime] with constructors [Fin] and [PosInf] and the two comparisons the
      code performs on it.
    - The [state_time] dictionary: [PyDict.v], an insertion-ordered
      association list with [dict_get] ([d.get(k, default)]), [dict_set]
      ([d[k] = v]), [dict_add] (the get-then-set of lines 33, 58 and 78),
      [dict_items], [dict_values] and [dict_map_values] (a dict
      comprehension over [items()]), its well-formedness ([NoDup] on keys)
      and its abstraction [dict_to_gmap] to stdpp's [gmap].
    - The sample source ([np.random.seed], [random.seed],
      [np.random.exponential]): [Sampler.v].  The generator is an interface,
      [Class SampleSource], whose only law is that a standard exponential
      variate is non-negative; the engine is proved against the interface.
      [np_random_seed] raises [ValueError] on a seed outside
      [0, 2**32 - 1] ([numpy_seed_ok]), as numpy does, and installs the
      generator of the seed otherwise.  [world] pairs the numpy generator
      state with the seed last given to the [random] module; [sim] is the
      state-and-exception monad over it.
      [replay] is the executable instance used by the witnesses: a tape of
      recorded variates followed by a default value; [demo_tape] is the tape
      the witnesses run on.
    - The event clock, state tracker, queueing discipline and trace recorder
      (lines 10-78 of [simulate_mm1_queue]): [Engine.v].  [sim_state] has
      one field per local variable of the function.  Each branch of the loop
      body is a pure function of the state and of the durations drawn
      ([arrival_starts_service], [arrival_joins_queue],
      [departure_starts_next], [departure_leaves_idle]); [init_state],
      [process_arrival], [process_departure], [step] and [event_loop] draw
      the durations in the order of the code and apply them; [next_event] is
      the comparison of line 29; [final_update] is line 78.  [reachable] is
      the set of states at the head of the loop.  A departure that finds
      nobody waiting leaves [queue] as it is (lines 73-75).
    - The abstract queue: [Spec.v], a transition system on [sim_state] with
      one rule per branch and arbitrary non-negative durations.  The rules
      give the state after the event field by field, as section 4.2 of the
      specification does, and do not use the functions of [Engine.v]; the
      lemmas of the file show that each branch of the code, under its
      guard, is the rule ([transition_branches] for the converse), and
      that a step of the code is a transition.
    - The invariants of the loop: [Invariants.v], proved on the transition
      system and carried to the code by the refinement.
    - The statistics reducer (lines 80-128): [Stats.v], with the record
      [sim_result] (one field per key of the returned dictionary).
    - The entry point [simulate_mm1_queue] (lines 5-128) and its theorems:
      [Simulate.v].  [seed_ok] says that the seed is [None] or an integer
      that numpy accepts; the theorems that a call returns, or raises at a
      later line, assume it, and [Errors.v] gives the exception of every
      call, accepted seed or not, as a function [expected_exception] of the
      four arguments.
    - Termination of the loop with an explicit fuel bound: [Termination.v];
      the run that never reaches the horizon: [Zeno.v].
    - Runs whose first arrival falls after the horizon, where the code
      departs from the specification: [Scenarios.v].
    - The busy time of the server: [Busy.v], with the invariant that the
      service intervals of the records follow one another.
    - The queueing discipline: [Fifo.v], with the invariant that the
      arrival times of the records followed by those of the waiting line
      are in order.
    - The console: [Console.v].  A line printed is the list of the pieces
      of its f-string ([piece]: literal text, [str] of a number, a number
      in a fixed-point format); [number] tells an int from a float, as
      [str] does; a program that prints is a value of the monad [console],
      the lines written in order and the outcome, so that the lines
      written before an exception stay written.  The text of the pieces:
      [Format.v], with [py_str_int] ([str] of an int), [format_fixed] (the
      formats [.2f] and [.4f]: the nearest decimal, a tie to the even
      digit) and the readers [read_int] and [read_fixed].
    - The driver [run_mm1_simulation] and the main block (lines 130-175):
      [Driver.v].  [display] is the sequence of the prints of lines
      138-163, one [print] per call, with the division of line 143 and the
      [max] of line 160 where the code evaluates them and [for_each] for
      the loop of line 161; [run_mm1_simulation] runs the entry point, then
      the display, and returns the result; [main] passes the ints of lines
      169-172.
    - The analysis script [src/mm1_queue_analysis.py]: [Analysis.v], with
      the scenarios, the loop that runs them ([run_scenarios]), the grid
      ([linspace], [rho_curve]) and the analytic curve ([wq_theoretical]);
      [Figure.v], with the calls to [matplotlib.pyplot] of lines 31-42 as
      the list of the calls issued ([plot_call], [canvas], [draw_figure]),
      the line printed ([observation]) and the whole script
      ([analysis_script]).
    - The dependence of a call on its generator: [Replay.v], with the
      relation [agree] between two worlds over two implementations of the
      generator, the recording of a generator on a tape ([record],
      [recording]) and the run on the recording.
    - The equivalence of states, results and outcomes that compares the
      numbers with [==] ([state_equiv], [result_equiv], [outcome_equiv]),
      and the [Proper] instances of the operations: [Bisim.v].
    - The converse of the refinement: [Complete.v], where every transition
      of the abstract queue is an iteration of the code on a tape.
    - The invariants as an executable check of a state ([well_formed]):
      [WellFormed.v].
    - Paths that count departures ([departs]) and the service of the
      waiting line along them: [Liveness.v].  Paths that count arrivals and
      departures ([path]), the customers a state knows of ([known]) and the
      variates it accounts for ([draws_of]): [Balance.v].
    - The time the customers have spent in the system ([sojourn]) against
      the time-weighted sum of the ledger ([area]): [Little.v].
    - The time that customers a given number of places apart in the order
      of arrival spend together in the system ([overlap]), and the time
      spent with exactly [n] customers that follows from it
      ([level_time]), against the entries of the ledger: [Overlap.v].
    - The last event of a run, which crosses the horizon, and the ledger
      closed at the horizon before it ([intended_ledger]): [Overshoot.v].
    - The time the server has worked by a given time according to the
      records ([busy_by]) against the time the ledger charges to the empty
      system ([idle_time]), and what the reducer makes of them after the
      crossing event: [Utilization.v].  The records that are not counted
      as completed ([left_out]): [LeftOut.v].
    - Two calls that differ in the horizon only: [Horizon.v], with the
      relation [extends] between the state in which the shorter run leaves
      the loop and the last state of the longer one.
    - Two calls that differ in the unit of time: [Units.v], with the state
      and the result in a unit [c] times smaller ([scale_state],
      [scale_result]), the relation [scaled] between the states of the two
      runs and the relation [sim_rel] between two computations.

    ** Numbers

    Python floats are modelled as exact rationals ([Q] of the Standard
    Library): rounding, NaN and overflow to infinity are not modelled, and
    what the specification states "within floating-point tolerance" is
    proved as [==] ([Qeq]).  A rational has many representations where a
    float has one; [Bisim.v] shows that no operation of the model tells
    them apart.  The one infinity the code creates on purpose,
    [float('inf')], is modelled explicitly ([XTime.v]).  Python integers
    ([current_state], the keys of [state_time]) are [Z]; lengths are [nat].
    Where the text printed depends on the type of a number (the arguments
    of the driver under [str]), the number is a [number]: [PyInt] of a [Z]
    or [PyFloat] of a [Q].  A fixed-point format rounds the rational, not a
    binary float: the two differ on decimals that are ties as rationals and
    not as floats (0.005 prints as 0.01 with [.2f] in Python, as 0.00
    here).

    ** Fuel for digits

    [Format.print_nat] writes at most [fuel] digits; [py_str_nat] gives it
    one more than the binary logarithm of the number, which is enough since
    a number has no more decimal digits than binary ones
    ([Format.read_py_str_nat]).

    ** Fuel

    [event_loop] takes the number of iterations it may perform and returns
    [OutOfFuel] when they do not suffice.  Theorems about runs that return
    hold for every fuel.  That runs do return is [Termination.v]: when every
    unit-rate variate is at least [d > 0], successive arrivals are at least
    [d / arrival_rate] apart, so at most [ceil (T * arrival_rate / d)]
    arrivals precede the horizon, each customer is one arrival and at most
    one departure, and [2 * ceil (T * arrival_rate / d) + 1] iterations are
    enough ([fuel_bound]).  Without a lower bound on the variates no fuel is
    enough for every generator: on the generator that returns zero the call
    is [OutOfFuel] for every fuel ([Zeno.v]), which is how the model says
    that the Python loop does not end.  More fuel never changes an outcome
    other than [OutOfFuel] ([Simulate.more_fuel_same_outcome]).  The
    exceptions of [Errors.v] are those of a call with at least one
    iteration of fuel: an invalid service rate raises in the first
    iteration.

    ** What the theorems show

    - [PyRuntime], [XTime], [PyDict]: the laws of the runtime operations the
      engine relies on ([py_sum] over append, [dict_get] after [dict_set],
      agreement of the ledger update with [gmap]).
    - [Spec]: each branch of the loop body computes the state that the
      rule of the transition system describes; the loop refines the
      transition system.
    - [Invariants]: every state at the head of the loop satisfies the clock,
      population, ledger and trace invariants: time does not go back, the
      pending events are in the future, the count is the line plus the
      server, the ledger has distinct keys forming an initial segment of the
      naturals and sums to the clock, every record is ordered.
    - [Stats]: the loop over the records in closed form; every field of a
      returned result; averages against totals.
    - [Simulate]: on every run that returns, the ledger sums to the horizon,
      the state probabilities to one and the records are ordered; the
      exceptions raised on invalid rates and on a zero horizon, and the
      result returned on a negative one, with a seed that numpy accepts;
      [ValueError] at line 7 with any other seed; independence of the
      outcome from the ambient generator state when a seed is given.
    - [Errors]: a call with at least one iteration of fuel raises [e]
      exactly when [expected_exception] gives [e]: the seed is looked at
      first, then the arrival rate, then the service rate under a positive
      horizon only, then the horizon; a call at positive rates with a
      positive horizon and an accepted seed raises nothing, on any
      generator.
    - [Termination]: the fuel bound above.
    - [Zeno]: the bound needs its hypothesis; when every variate is zero
      each iteration is an arrival at time 0 that leaves the clock at 0
      and one more customer in the records or the line, and the call does
      not return on any fuel.
    - [Scenarios]: when the first arrival falls after the horizon the
      utilization and a state probability are negative and another
      probability exceeds one.
    - [Busy]: with a positive horizon the busy time is at most the horizon
      and the utilization at most one.
    - [Fifo]: customers are served in the order of their arrival, service
      intervals do not overlap, and each service starts at the later of the
      arrival and the previous departure.
    - [Format], [Console]: the laws of the monad [console]; the text of an
      int reads back as the int; the text of a number in a fixed-point
      format reads back as a decimal within half a unit of the last digit
      of the number, which is written exactly when written again; a tie is
      rounded to the even digit.
    - [Driver]: the lines written on each path of the display (all of
      them; the five lines of the parameters before [ZeroDivisionError] on
      a zero service rate); the table printed is exactly the distribution
      returned; the main block terminates under the fuel bound, every line it writes has a
      text, and its first nine lines are given as strings.
    - [Analysis]: the utilizations of the scenarios are those of their
      labels; the grid lies in [0.01, 0.99]; the analytic curve is positive
      and increasing; the loop over the scenarios returns, for each
      scenario in order, its utilization and the mean waiting time that a
      call of the entry point on its own returns with the seed 42 from any
      state of the generators.
    - [Figure]: with one point per scenario the figure is drawn in full,
      each label at its point; with a point missing the subscript raises
      after the curve and the scatter were issued; under the fuel bound the
      script runs its three scenarios, draws the figure with the points of
      three calls on their own and prints.
    - [Replay]: lemmas on the generators of the examples: a call reads at
      most [2 * fuel + 1] variates (one at line 24, at most two per
      iteration), two generators that agree on them give the same outcome,
      and a call on a generator is the call on its recording.
    - [Bisim]: every operation, from the ledger update to the whole call,
      maps arguments that are equal as numbers to outcomes that are equal
      as numbers, whatever fractions represent them; with that, two calls
      with the same seed are equivalent from any two states of the
      generators, because the call reseeds before its first draw, while
      two calls without a seed are not; the equivalence of states is a
      bisimulation of the transition system.
    - [Complete]: at unit rates every state of the transition system is
      reached by the code on some tape, fraction for fraction; at any
      positive rates it is reached up to equivalence, so the system has
      exactly the states of the code.
    - [WellFormed]: the invariants are decidable; the initialisation
      establishes them and an iteration preserves them from any state that
      satisfies them, reached or not.
    - [Liveness]: a branch applies in every state and an iteration returns
      at positive rates; the customer at position [i] of the line gets the
      [i]-th next record once more than [i] departures are processed.
    - [Balance]: a run is a path of at most as many events as iterations;
      the records and the line together are the arrivals processed, the
      counter is the arrivals less the departures, and a result for a
      positive horizon has at least one customer; a call that returns has
      advanced numpy's generator, as seeded, by one variate for the first
      arrival, one per customer that arrived and one per record, and has
      not touched the state of [random] after the seeding.
    - [Little]: at every event the time-weighted sum of the ledger is the
      time the customers have spent in the system, and in a result
      [average_system_length] times the horizon is that time at the last
      event less the overshoot charged to the population after it; the
      same for the line and [average_queue_length].  The averages of the
      reducer cover the completed customers only, so Little's law on the
      returned fields has an exact remainder: the mean length times the
      horizon is the mean time times [completed_customers] plus the time
      spent so far by the customers that have not completed
      ([residual_sojourn], [residual_wait]), less the same charge.
    - [Overlap]: the records determine the ledger.  At every event, for
      every distance [j], the sum of the ledger weighted by the number of
      customers above [j] is the time that customers [j] places apart
      have spent together ([Little] is the distances 0 and 1); so every
      entry of the ledger is the second difference of these times, and
      every probability returned times the horizon is that difference
      plus the overshoot charged to the population after the last event.
      The proof uses that service is first come, first served; with the
      line served last come first the statement is false.  The same
      records cut at the horizon ([horizon_time]) give the ledger closed
      at the horizon of [Overshoot], so the distribution the
      specification describes can be computed from what a run returns,
      and the one returned differs from it by the overshoot at two
      populations.
    - [Overshoot]: with a positive horizon the last event starts before
      the horizon and ends at or after it; against the ledger closed at
      the horizon two entries of the ledger returned are off by the
      overshoot, one upwards and one downwards, and the time-weighted sum
      is off by the overshoot.
    - [Utilization]: at every event the server has worked exactly while
      the system was not empty; a reducer run on a state that is not later
      than the horizon returns the time the server worked by the horizon;
      after the crossing event [server_busy_time] is that time less the
      overshoot when the event starts a service, and less the service
      before the horizon of the customer that leaves when the event is a
      departure later than the horizon, so that the utilization and the
      probability of the empty system sum to one less the whole service
      time of that customer over the horizon, and the mean number in the
      system exceeds the mean number in the line by the utilization plus
      that same share.
    - [LeftOut]: the departures of the records are in order, so the
      records that the reducer does not count as completed are the last of
      the trace; they are at most the services under way at the crossing
      event, so [total_customers] exceeds [completed_customers] by at most
      two.
    - [Horizon]: the loop to a horizon goes through the exit of the loop
      to any earlier horizon and the two parts make one loop again; when
      the call with the later horizon returns so does the call with the
      earlier one on the same fuel, its records are the first records of
      the longer run, and its customers, completed customers and total
      times are at most those of the longer run.
    - [Units]: with the rates divided by [c > 0] and the horizon
      multiplied by [c] the call processes the same events at the times
      multiplied by [c], raises the same exception if any, and returns the
      same counts, utilization, mean lengths and probabilities and the
      times multiplied by [c]; so the mean times that the driver prints
      multiplied by 60 are those of the run in the unit sixty times
      smaller than the unit of the totals it prints beside them.

    ** Not modelled

    Of the text printed by [run_mm1_simulation], [str] of a float argument
    has no rendering: Python writes the shortest decimal that reads back as
    the same binary float, which the rational model does not determine.
    Of the plotting, the calls and their arguments
    are modelled; what matplotlib renders and how it validates its
    arguments are not, the library being only called.
    A seed is [None] or an int, as the specification says: the other
    values that [np.random.seed] takes (arrays of ints) or rejects with
    [TypeError] (floats, strings) have no counterpart in [option Z].
    The bit-level algorithm of numpy's generator and the
    distribution of its variates are not modelled (the interface only fixes
    the contract), so the statistical statements of the specification
    (convergence of the utilization, agreement of the simulated waiting
    times with the analytic curve) are out of reach of this development.
    Of the agreement with Little's law the development proves the exact
    form on every run ([Little.v]); that its remainder is small on long
    runs, and that the observed rate of completion is close to
    [arrival_rate], are statistical statements.

    This file is the prelude: the rational-number setoid as stdpp's [≡],
    decision procedures and boolean comparisons on [Q], the notation scope
    [sim_scope], the hint databases [sim] and [qbool] and the tactics shared by the
    component files. *)

From Stdlib Require Export QArith Qround Qminmax Lqa Lia.
From stdpp Require Export base tactics option list.

#[local] Open Scope Q_scope.

(** ** Boolean comparisons on rationals, as the code evaluates them *)

Definition Qlt_bool (x y : Q) : bool := negb (Qle_bool y x).

Declare Scope sim_scope.
Delimit Scope sim_scope with sim.
Notation "x <=? y" := (Qle_bool x y) (at level 70, no associativity) : sim_scope.
Notation "x <? y" := (Qlt_bool x y) (at level 70, no associativity) : sim_scope.
Notation "x =? y" := (Qeq_bool x y) (at level 70, no associativity) : sim_scope.

(** ** The setoid of rationals under stdpp's classes *)

#[export] Instance Q_equiv : Equiv Q := Qeq.

#[export] Instance Q_equivalence : Equivalence (≡@{Q}).
Proof. exact Q_Setoid. Qed.

#[export] Instance Qeq_decision : RelDecision Qeq := Qeq_dec.

(** Equality of representations, which is what the model's records carry. *)
#[export] Instance Q_eq_dec : EqDecision Q.
Proof. solve_decision. Defined.

#[export] Instance Qle_decision : RelDecision Qle.
Proof.
  intros x y. destruct (Qlt_le_dec y x) as [Hlt | Hle].
  - right. intros Hle. exact (Qlt_not_le _ _ Hlt Hle).
  - left. exact Hle.
Defined.

#[export] Instance Qlt_decision : RelDecision Qlt.
Proof.
  intros x y. destruct (Qlt_le_dec x y) as [Hlt | Hle].
  - left. exact Hlt.
  - right. intros Hlt. exact (Qlt_not_le _ _ Hlt Hle).
Defined.

(** ** Reflection of the boolean comparisons *)

Lemma Qlt_bool_iff (x y : Q) : Qlt_bool x y = true <-> x < y.
Proof.
  unfold Qlt_bool. rewrite negb_true_iff, <- not_true_iff_false, Qle_bool_iff.
  split; [apply Qnot_le_lt | apply Qlt_not_le].
Qed.

Lemma Qle_bool_false_iff (x y : Q) : Qle_bool x y = false <-> y < x.
Proof.
  rewrite <- not_true_iff_false, Qle_bool_iff.
  split; [apply Qnot_le_lt | apply Qlt_not_le].
Qed.

Lemma Qlt_bool_false_iff (x y : Q) : Qlt_bool x y = false <-> y <= x.
Proof. unfold Qlt_bool. rewrite negb_false_iff. apply Qle_bool_iff. Qed.

Lemma Qeq_bool_false_iff (x y : Q) : Qeq_bool x y = false <-> ~ x == y.
Proof. rewrite <- not_true_iff_false, Qeq_bool_iff. reflexivity. Qed.

#[export] Instance Qlt_bool_proper : Proper (Qeq ==> Qeq ==> eq) Qlt_bool.
Proof. intros x x' Hx y y' Hy. unfold Qlt_bool. now rewrite Hx, Hy. Qed.

(** ** Order facts the component files share *)

Lemma Qdiv_nonneg (a b : Q) : 0 <= a -> 0 < b -> 0 <= a / b.
Proof. intros Ha Hb. apply Qle_shift_div_l; lra. Qed.

Lemma Qdiv_pos (a b : Q) : 0 < a -> 0 < b -> 0 < a / b.
Proof. intros Ha Hb. apply Qlt_shift_div_l; lra. Qed.

Lemma Qdiv_mult_cancel (a b : Q) : ~ b == 0 -> a / b * b == a.
Proof. intros Hb. field. exact Hb. Qed.

Lemma Qdiv_le_mono (a b c : Q) : 0 < c -> a <= b -> a / c <= b / c.
Proof.
  intros Hc Hab. unfold Qdiv.
  pose proof (Qinv_lt_0_compat c Hc). nra.
Qed.

Lemma Qdiv_self (a : Q) : ~ a == 0 -> a / a == 1.
Proof. intros Ha. field. exact Ha. Qed.

Lemma inject_Z_succ (n : Z) : inject_Z (n + 1) == inject_Z n + 1.
Proof. rewrite inject_Z_plus. reflexivity. Qed.

Lemma inject_Z_nonneg (n : Z) : (0 <= n)%Z -> 0 <= inject_Z n.
Proof. intros Hn. change 0 with (inject_Z 0). now rewrite <- Zle_Qle. Qed.

(** ** Hints and tactics *)

Create HintDb sim discriminated.
Create Rewrite HintDb qbool.

#[export] Hint Resolve Qle_refl Qdiv_nonneg Qdiv_pos inject_Z_nonneg : sim.
#[export] Hint Rewrite Qle_bool_iff Qlt_bool_iff Qeq_bool_iff
  Qle_bool_false_iff Qlt_bool_false_iff Qeq_bool_false_iff : qbool.

(** [q_bool] turns the boolean tests on rationals in the context and the goal
    into the propositions they decide. *)
Ltac q_bool :=
  repeat match goal with
  | H : Qle_bool _ _ = true |- _ => apply Qle_bool_iff in H
  | H : Qle_bool _ _ = false |- _ => apply Qle_bool_false_iff in H
  | H : Qlt_bool _ _ = true |- _ => apply Qlt_bool_iff in H
  | H : Qlt_bool _ _ = false |- _ => apply Qlt_bool_false_iff in H
  | H : Qeq_bool _ _ = true |- _ => apply Qeq_bool_iff in H
  | H : Qeq_bool _ _ = false |- _ => apply Qeq_bool_false_iff in H
  | |- Qle_bool _ _ = true => apply Qle_bool_iff
  | |- Qle_bool _ _ = false => apply Qle_bool_false_iff
  | |- Qlt_bool _ _ = true => apply Qlt_bool_iff
  | |- Qlt_bool _ _ = false => apply Qlt_bool_false_iff
  | |- Qeq_bool _ _ = true => apply Qeq_bool_iff
  | |- Qeq_bool _ _ = false => apply Qeq_bool_false_iff
  end.

(** [case_qle x y] splits on the test [x <= y] the way the code branches on
    it, leaving the decided proposition in the context. *)
Ltac case_qle x y :=
  let H := fresh "Hcmp" in
  destruct (Qle_bool x y) eqn:H; q_bool.

Ltac case_qlt x y :=
  let H := fresh "Hcmp" in
  destruct (Qlt_bool x y) eqn:H; q_bool.

Ltac case_qeq x y :=
  let H := fresh "Hcmp" in
  destruct (Qeq_bool x y) eqn:H; q_bool.

(** [q_solve] closes the linear goals over [Q] that remain after the
    boolean tests have been reflected. *)
Ltac q_solve := q_bool; simpl in *; first [ lra | nra | auto with sim ].

(** ** Lists *)

(** What holds of every element holds of every element kept by a filter. *)
Lemma Forall_filter_keep {A} (P R : A -> Prop) `{forall x, Decision (P x)} (l : list A) :
  Forall R l -> Forall R (filter P l).
Proof.
  rewrite !Forall_forall. intros Hl x Hx.
  apply list_elem_of_filter in Hx as [_ Hx]. now apply Hl.
Qed.
