(* ===== verification/PyRuntime.v ===== *)
(** * The Python runtime the simulator relies on

    Exceptions as values ([exn], [outcome]) with the monad instances that give
    the [x ← c; k] notation, true division with its [ZeroDivisionError], the
    builtin [sum] (a left fold from [0]), [np.mean], the generator
    expression [sum(1 for ... if ...)], subscripts with their [IndexError]
    and [enumerate].  [OutOfFuel] is not a Python
    behaviour: it is what a fuel-indexed loop of the model returns when the
    fuel is spent. *)

From S2P Require Import Prelude.

#[local] Open Scope Q_scope.

(** ** Exceptions and outcomes *)

Inductive exn : Type :=
| ZeroDivisionError
| ValueError
| IndexError.

Inductive outcome (A : Type) : Type :=
| Ok (a : A)
| Raise (e : exn)
| OutOfFuel.

Arguments Ok {A} a.
Arguments Raise {A} e.
Arguments OutOfFuel {A}.

#[export] Instance exn_eq_dec : EqDecision exn.
Proof. solve_decision. Defined.

#[export] Instance outcome_eq_dec `{EqDecision A} : EqDecision (outcome A).
Proof. solve_decision. Defined.

#[export] Instance outcome_ret : MRet outcome := @Ok.

#[export] Instance outcome_bind : MBind outcome := λ A B f m,
  match m with
  | Ok a => f a
  | Raise e => Raise e
  | OutOfFuel => OutOfFuel
  end.

#[export] Instance outcome_fmap : FMap outcome := λ A B f m,
  match m with
  | Ok a => Ok (f a)
  | Raise e => Raise e
  | OutOfFuel => OutOfFuel
  end.

Definition is_Ok {A} (m : outcome A) : Prop := ∃ a, m = Ok a.

Definition raises {A} (m : outcome A) (e : exn) : Prop := m = Raise e.

(** ** Arithmetic *)

(** [x / y] on Python numbers: [ZeroDivisionError] when [y] is zero. *)
Definition py_div (x y : Q) : outcome Q :=
  if Qeq_bool y 0 then Raise ZeroDivisionError else Ok (x / y).

(** [sum(l)]: the accumulator starts at [0] and the elements are added from
    the left. *)
Definition py_sum (l : list Q) : Q := fold_left Qplus l 0.

(** [float(len(l))]. *)
Definition py_len (l : list Q) : Q := inject_Z (Z.of_nat (length l)).

(** [np.mean(l)] on a non-empty list (the code guards every call). *)
Definition np_mean (l : list Q) : Q := py_sum l / py_len l.

(** [sum(1 for x in l if p x)]. *)
Definition py_count {A} (p : A → bool) (l : list A) : nat :=
  length (filter (λ x, p x = true) l).

(** [l[i]] at an index that is not negative: [IndexError] past the end. *)
Definition py_getitem {A} (l : list A) (i : nat) : outcome A :=
  match l !! i with
  | Some x => Ok x
  | None => Raise IndexError
  end.

(** [enumerate(l)]. *)
Definition py_enumerate {A} (l : list A) : list (nat * A) := imap pair l.

(** ** Laws of the outcome monad *)

Section outcome_laws.
Context {A B C : Type}.
Implicit Types (m : outcome A) (f : A → outcome B) (g : B → outcome C).

Lemma outcome_bind_Ok m f b :
  m ≫= f = Ok b ↔ ∃ a, m = Ok a ∧ f a = Ok b.
Proof. destruct m; simpl; naive_solver. Qed.

Lemma outcome_bind_Raise m f e :
  m ≫= f = Raise e ↔ m = Raise e ∨ ∃ a, m = Ok a ∧ f a = Raise e.
Proof. destruct m; simpl; naive_solver. Qed.

Lemma outcome_bind_OutOfFuel m f :
  m ≫= f = OutOfFuel ↔ m = OutOfFuel ∨ ∃ a, m = Ok a ∧ f a = OutOfFuel.
Proof. destruct m; simpl; naive_solver. Qed.

Lemma outcome_ret_bind (a : A) f : mret a ≫= f = f a.
Proof. reflexivity. Qed.

Lemma outcome_bind_ret m : m ≫= mret = m.
Proof. now destruct m. Qed.

Lemma outcome_bind_assoc m f g : (m ≫= f) ≫= g = m ≫= (λ a, f a ≫= g).
Proof. now destruct m. Qed.

Lemma outcome_fmap_Ok (h : A → B) m b :
  h <$> m = Ok b ↔ ∃ a, m = Ok a ∧ b = h a.
Proof. destruct m; simpl; naive_solver. Qed.

Lemma is_Ok_bind m f : is_Ok (m ≫= f) ↔ ∃ a, m = Ok a ∧ is_Ok (f a).
Proof. unfold is_Ok. destruct m; simpl; naive_solver. Qed.

End outcome_laws.

Lemma is_Ok_Ok {A} (a : A) : is_Ok (Ok a).
Proof. now exists a. Qed.

Lemma not_is_Ok_Raise {A} (e : exn) : ¬ is_Ok (@Raise A e).
Proof. now intros [a Ha]. Qed.

Lemma not_is_Ok_OutOfFuel {A} : ¬ is_Ok (@OutOfFuel A).
Proof. now intros [a Ha]. Qed.

(** [mapM] over outcomes succeeds exactly when every element does. *)
Lemma outcome_mapM_Ok {A B} (f : A → outcome B) (h : A → B) (l : list A) :
  Forall (λ a, f a = Ok (h a)) l → mapM f l = Ok (h <$> l).
Proof.
  induction 1 as [| a l Ha _ IH]; [reflexivity |].
  cbn. rewrite Ha. cbn. now rewrite IH.
Qed.

Lemma outcome_mapM_Raise {A B} (f : A → outcome B) (e : exn) (a : A) l :
  f a = Raise e → mapM f (a :: l) = Raise e.
Proof. intros Ha. cbn. now rewrite Ha. Qed.

(** ** Laws of division *)

Lemma py_div_Ok (x y : Q) : ¬ y == 0 → py_div x y = Ok (x / y).
Proof. intros Hy. unfold py_div. now case_qeq y 0. Qed.

Lemma py_div_zero (x y : Q) : y == 0 → py_div x y = Raise ZeroDivisionError.
Proof. intros Hy. unfold py_div. now case_qeq y 0. Qed.

Lemma py_div_inv (x y q : Q) : py_div x y = Ok q → ¬ y == 0 ∧ q = x / y.
Proof. unfold py_div. case_qeq y 0; naive_solver. Qed.

Lemma py_div_Raise (x y : Q) (e : exn) :
  py_div x y = Raise e → y == 0 ∧ e = ZeroDivisionError.
Proof. unfold py_div. case_qeq y 0; naive_solver. Qed.

(** [mapM] returns when the function returns on every element. *)
Lemma mapM_Ok_Forall2 {A B} (f : A → outcome B) (l : list A) (k : list B) :
  Forall2 (λ a b, f a = Ok b) l k → mapM f l = Ok k.
Proof.
  induction 1 as [| a b l k Hab _ IH]; [done |].
  simpl. rewrite Hab. simpl. now rewrite IH.
Qed.

Lemma py_getitem_Ok {A} (l : list A) (i : nat) (x : A) :
  l !! i = Some x → py_getitem l i = Ok x.
Proof. unfold py_getitem. now intros ->. Qed.

Lemma py_getitem_Raise {A} (l : list A) (i : nat) :
  (length l ≤ i)%nat → py_getitem l i = Raise IndexError.
Proof. intros Hi. unfold py_getitem. now rewrite lookup_ge_None_2. Qed.

Lemma py_div_not_OutOfFuel (x y : Q) : py_div x y ≠ OutOfFuel.
Proof. unfold py_div. now destruct (Qeq_bool y 0). Qed.

(** ** Laws of [sum] *)

Lemma fold_left_Qplus_acc (l : list Q) (a : Q) :
  fold_left Qplus l a == a + fold_left Qplus l 0.
Proof.
  revert a. induction l as [| x l IH]; intros a; simpl; [lra |].
  rewrite (IH (a + x)), (IH (0 + x)). lra.
Qed.

Lemma py_sum_nil : py_sum [] = 0.
Proof. reflexivity. Qed.

Lemma py_sum_cons (x : Q) (l : list Q) : py_sum (x :: l) == x + py_sum l.
Proof. unfold py_sum. simpl. rewrite fold_left_Qplus_acc. lra. Qed.

Lemma py_sum_app (l1 l2 : list Q) : py_sum (l1 ++ l2) == py_sum l1 + py_sum l2.
Proof.
  unfold py_sum. rewrite fold_left_app. apply fold_left_Qplus_acc.
Qed.

Lemma py_sum_snoc (l : list Q) (x : Q) : py_sum (l ++ [x]) == py_sum l + x.
Proof. rewrite py_sum_app, py_sum_cons, py_sum_nil. lra. Qed.

#[export] Instance py_sum_proper : Proper (Forall2 Qeq ==> Qeq) py_sum.
Proof.
  intros l1 l2 Hl. induction Hl as [| x y l1 l2 Hxy _ IH]; [reflexivity |].
  now rewrite !py_sum_cons, Hxy, IH.
Qed.

(** The sum does not depend on the order of the terms. *)
#[export] Instance py_sum_Permutation : Proper (Permutation ==> Qeq) py_sum.
Proof.
  intros l1 l2 Hl.
  induction Hl as [| x l1 l2 _ IH | x y l | l1 l2 l3 _ IH1 _ IH2].
  - reflexivity.
  - now rewrite !py_sum_cons, IH.
  - rewrite !py_sum_cons. lra.
  - now rewrite IH1.
Qed.

Lemma py_sum_nonneg (l : list Q) : Forall (λ x, 0 <= x) l → 0 <= py_sum l.
Proof.
  induction 1 as [| x l Hx _ IH]; [now rewrite py_sum_nil |].
  rewrite py_sum_cons. lra.
Qed.

Lemma py_sum_le (l1 l2 : list Q) : Forall2 Qle l1 l2 → py_sum l1 <= py_sum l2.
Proof.
  induction 1 as [| x y l1 l2 Hxy _ IH]; [now rewrite py_sum_nil |].
  rewrite !py_sum_cons. lra.
Qed.

(** Scaling distributes over [sum]: the form in which the reducer divides
    every entry of the ledger by the horizon. *)
Lemma py_sum_scale (c : Q) (l : list Q) :
  py_sum ((λ x, x * c) <$> l) == py_sum l * c.
Proof.
  induction l as [| x l IH]; [change (0 == 0 * c); ring |].
  rewrite fmap_cons, !py_sum_cons, IH. lra.
Qed.

Lemma py_sum_div (c : Q) (l : list Q) :
  py_sum ((λ x, x / c) <$> l) == py_sum l / c.
Proof. unfold Qdiv. apply py_sum_scale. Qed.

(** Sums of a quantity over a list of records. *)
Section sum_over.
Context {A : Type}.
Implicit Types (f g : A → Q) (l : list A).

Lemma py_sum_fmap_nonneg f l :
  Forall (λ a, 0 <= f a) l → 0 <= py_sum (f <$> l).
Proof. intros Hl. apply py_sum_nonneg. now rewrite Forall_fmap. Qed.

Lemma py_sum_fmap_le f g l :
  Forall (λ a, f a <= g a) l → py_sum (f <$> l) <= py_sum (g <$> l).
Proof.
  intros Hl. apply py_sum_le, Forall2_fmap, Forall_Forall2_diag.
  exact Hl.
Qed.

Lemma py_sum_fmap_plus f g l :
  py_sum ((λ a, f a + g a) <$> l) == py_sum (f <$> l) + py_sum (g <$> l).
Proof.
  induction l as [| a l IH]; [now vm_compute |].
  rewrite !fmap_cons, !py_sum_cons, IH. lra.
Qed.

Lemma py_sum_fmap_ext f g l :
  (∀ a, f a == g a) → py_sum (f <$> l) == py_sum (g <$> l).
Proof.
  intros Hfg. induction l as [| a l IH]; [done |].
  rewrite !fmap_cons, !py_sum_cons, IH, Hfg. done.
Qed.

Lemma py_sum_fmap_cons f a l :
  py_sum (f <$> a :: l) == f a + py_sum (f <$> l).
Proof. rewrite fmap_cons. apply py_sum_cons. Qed.

Lemma py_sum_fmap_snoc f l a :
  py_sum (f <$> l ++ [a]) == py_sum (f <$> l) + f a.
Proof.
  rewrite fmap_app. change (f <$> [a]) with [f a]. apply py_sum_snoc.
Qed.

Lemma py_sum_fmap_ext_Forall f g l :
  Forall (λ a, f a == g a) l → py_sum (f <$> l) == py_sum (g <$> l).
Proof.
  induction 1 as [| a l Ha _ IH]; [done |].
  rewrite !fmap_cons, !py_sum_cons, IH, Ha. done.
Qed.

(** Adding [c] to every term adds [c] times the length. *)
Lemma py_sum_fmap_shift f l (c : Q) :
  py_sum ((λ a, f a + c) <$> l) ==
  py_sum (f <$> l) + inject_Z (Z.of_nat (length l)) * c.
Proof.
  induction l as [| a l IH]; [change (0 == 0 + 0 * c); ring |].
  rewrite !fmap_cons, !py_sum_cons, IH. cbn [length].
  rewrite Nat2Z.inj_succ. unfold Z.succ. rewrite inject_Z_succ. ring.
Qed.

End sum_over.

(** ** Laws of [len] and of the counting generator *)

Lemma py_len_nonneg (l : list Q) : 0 <= py_len l.
Proof. unfold py_len. apply inject_Z_nonneg. lia. Qed.

Lemma py_len_pos (l : list Q) : l ≠ [] → 0 < py_len l.
Proof.
  intros Hl. unfold py_len. change 0 with (inject_Z 0). rewrite <- Zlt_Qlt.
  destruct l; [done | simpl; lia].
Qed.

Lemma py_count_le {A} (p : A → bool) (l : list A) : (py_count p l ≤ length l)%nat.
Proof. unfold py_count. apply length_filter. Qed.

Lemma py_count_app {A} (p : A → bool) (l1 l2 : list A) :
  py_count p (l1 ++ l2) = (py_count p l1 + py_count p l2)%nat.
Proof. unfold py_count. now rewrite filter_app, length_app. Qed.

#[export] Hint Resolve is_Ok_Ok py_len_nonneg py_sum_nonneg : sim.
