(* ===== verification/XTime.v ===== *)
(** * Event times that may be infinite

    [next_departure_time] is a float that the code sets to [float('inf')]
    when no departure is pending (lines 14 and 75 of
    [src/mm1_queue_simulation.py]).  [xtime] is a finite rational or that
    infinity; [xle_bool] and [xgt_bool] are the two comparisons the code
    performs on it (lines 29 and 100). *)

From S2P Require Import Prelude.

#[local] Open Scope Q_scope.

Inductive xtime : Type :=
| Fin (t : Q)
| PosInf.

(** [a <= b] on floats, one of which may be [inf]. *)
Definition xle_bool (a b : xtime) : bool :=
  match a, b with
  | _, PosInf => true
  | PosInf, Fin _ => false
  | Fin x, Fin y => Qle_bool x y
  end.

(** [a > b]. *)
Definition xgt_bool (a b : xtime) : bool := negb (xle_bool a b).

Definition is_finite (a : xtime) : bool :=
  match a with
  | Fin _ => true
  | PosInf => false
  end.

(** The order and the equivalence the comparisons decide. *)
Definition xle (a b : xtime) : Prop :=
  match a, b with
  | _, PosInf => True
  | PosInf, Fin _ => False
  | Fin x, Fin y => x <= y
  end.

Definition xlt (a b : xtime) : Prop :=
  match a, b with
  | PosInf, _ => False
  | Fin _, PosInf => True
  | Fin x, Fin y => x < y
  end.

#[export] Instance xtime_equiv : Equiv xtime := λ a b,
  match a, b with
  | Fin x, Fin y => x == y
  | PosInf, PosInf => True
  | _, _ => False
  end.

Declare Scope xtime_scope.
Delimit Scope xtime_scope with xtime.
Bind Scope xtime_scope with xtime.
Infix "<=" := xle : xtime_scope.
Infix "<" := xlt : xtime_scope.

(** ** The comparisons decide the order *)

Lemma xle_bool_iff (a b : xtime) : xle_bool a b = true ↔ xle a b.
Proof. destruct a, b; simpl; [apply Qle_bool_iff | done..]. Qed.

Lemma xgt_bool_iff (a b : xtime) : xgt_bool a b = true ↔ xlt b a.
Proof.
  unfold xgt_bool. destruct a as [x |], b as [y |]; simpl; [| done..].
  rewrite negb_true_iff. apply Qle_bool_false_iff.
Qed.

Lemma xle_bool_false_iff (a b : xtime) : xle_bool a b = false ↔ xlt b a.
Proof. rewrite <- xgt_bool_iff. unfold xgt_bool. now rewrite negb_true_iff. Qed.

#[export] Instance xle_decision : RelDecision xle.
Proof.
  intros a b. destruct (xle_bool a b) eqn:E.
  - left. now apply xle_bool_iff.
  - right. rewrite <- xle_bool_iff. congruence.
Defined.

(** ** Order laws *)

#[export] Instance xtime_equivalence : Equivalence (≡@{xtime}).
Proof.
  split.
  - intros [x |]; simpl; [reflexivity | done].
  - intros [x |] [y |]; simpl; done.
  - intros [x |] [y |] [z |]; simpl; try done. apply Qeq_trans.
Qed.

#[export] Instance xle_preorder : PreOrder xle.
Proof.
  split.
  - intros [x |]; simpl; [apply Qle_refl | done].
  - intros [x |] [y |] [z |]; simpl; try done. apply Qle_trans.
Qed.

#[export] Instance Fin_proper : Proper (Qeq ==> (≡)) Fin.
Proof. intros x y Hxy. exact Hxy. Qed.

#[export] Instance xle_proper : Proper ((≡) ==> (≡) ==> iff) xle.
Proof.
  intros [x |] [x' |] Hx [y |] [y' |] Hy; simpl in *; try done.
  unfold equiv, xtime_equiv in *. now rewrite Hx, Hy.
Qed.

#[export] Instance xle_bool_proper : Proper ((≡) ==> (≡) ==> eq) xle_bool.
Proof.
  intros a a' Ha b b' Hb. apply eq_bool_prop_intro.
  rewrite !Is_true_true, !xle_bool_iff. now rewrite Ha, Hb.
Qed.

Lemma xle_PosInf (a : xtime) : xle a PosInf.
Proof. now destruct a. Qed.

Lemma xle_Fin (x y : Q) : xle (Fin x) (Fin y) ↔ x <= y.
Proof. reflexivity. Qed.

Lemma xlt_Fin (x y : Q) : xlt (Fin x) (Fin y) ↔ x < y.
Proof. reflexivity. Qed.

Lemma xle_Fin_trans (x y : Q) (b : xtime) : x <= y → xle (Fin y) b → xle (Fin x) b.
Proof. intros Hxy Hyb. transitivity (Fin y); done. Qed.

Lemma xlt_not_xle (a b : xtime) : xlt a b ↔ ¬ xle b a.
Proof.
  destruct a as [x |], b as [y |]; simpl; try tauto.
  split; [apply Qlt_not_le | apply Qnot_le_lt].
Qed.

Lemma is_finite_Fin (a : xtime) : is_finite a = true ↔ ∃ t, a = Fin t.
Proof. destruct a; simpl; naive_solver. Qed.

(** A finite time is never above the sentinel, so a pending arrival always
    wins against "no departure pending". *)
Lemma xle_bool_Fin_PosInf (x : Q) : xle_bool (Fin x) PosInf = true.
Proof. reflexivity. Qed.

#[export] Hint Resolve xle_PosInf : sim.
#[export] Hint Rewrite xle_bool_iff xgt_bool_iff xle_bool_false_iff : qbool.
