(* ===== verification/PyDict.v ===== *)
(** * Python dictionaries in insertion order

    [state_time] (line 20 of [src/mm1_queue_simulation.py]) is a [dict] from
    population counts to durations.  A Python dictionary iterates in the
    order in which its keys were first inserted, and the reducer folds over
    [state_time.items()], so the model is an association list that keeps
    that order: [dict_set] overwrites the binding of a key in place and
    appends a new key at the end.  [dict_to_gmap] is the abstraction to a
    finite map, under which [dict_set] is [insert] and [dict_get] is a
    lookup with a default. *)

From stdpp Require Import gmap.
From S2P Require Import Prelude PyRuntime.

#[local] Open Scope Q_scope.

Section pydict.
Context {K V : Type} `{EqDecision K}.

(** [d.get(k, default)]. *)
Fixpoint dict_get (d : list (K * V)) (k : K) (dflt : V) : V :=
  match d with
  | [] => dflt
  | (k', v) :: d' => if decide (k = k') then v else dict_get d' k dflt
  end.

(** [d[k] = v]. *)
Fixpoint dict_set (d : list (K * V)) (k : K) (v : V) : list (K * V) :=
  match d with
  | [] => [(k, v)]
  | (k', v') :: d' =>
      if decide (k = k') then (k', v) :: d' else (k', v') :: dict_set d' k v
  end.

(** [{k: v for k, v in kvs}]: a comprehension inserts its pairs one after
    the other into an empty dictionary. *)
Definition dict_of_items (kvs : list (K * V)) : list (K * V) :=
  fold_left (λ acc kv, dict_set acc kv.1 kv.2) kvs [].

(** [k in d]. *)
Definition dict_mem (d : list (K * V)) (k : K) : bool :=
  bool_decide (k ∈ d.*1).

(** [d.items()], [d.keys()] and [d.values()], in iteration order. *)
Definition dict_items (d : list (K * V)) : list (K * V) := d.
Definition dict_keys (d : list (K * V)) : list K := d.*1.
Definition dict_values (d : list (K * V)) : list V := d.*2.

(** A dictionary holds each key once. *)
Definition dict_wf (d : list (K * V)) : Prop := NoDup d.*1.

(** ** Lookup after update *)

Lemma dict_get_set_eq d k v dflt : dict_get (dict_set d k v) k dflt = v.
Proof.
  induction d as [| [k' v'] d IH]; simpl.
  - now rewrite decide_True.
  - destruct (decide (k = k')) as [-> | Hne]; simpl.
    + now rewrite decide_True.
    + now rewrite decide_False.
Qed.

Lemma dict_get_set_ne d k k' v dflt :
  k ≠ k' → dict_get (dict_set d k v) k' dflt = dict_get d k' dflt.
Proof.
  intros Hne. induction d as [| [k0 v0] d IH]; simpl.
  - now rewrite decide_False.
  - destruct (decide (k = k0)) as [-> | Hne0]; simpl.
    + now rewrite !decide_False.
    + destruct (decide (k' = k0)); [done | apply IH].
Qed.

Lemma dict_get_set d k k' v dflt :
  dict_get (dict_set d k v) k' dflt =
  if decide (k = k') then v else dict_get d k' dflt.
Proof.
  destruct (decide (k = k')) as [-> | Hne].
  - apply dict_get_set_eq.
  - now apply dict_get_set_ne.
Qed.

Lemma dict_get_not_mem d k dflt : k ∉ d.*1 → dict_get d k dflt = dflt.
Proof.
  induction d as [| [k' v'] d IH]; csimpl; [done |].
  rewrite not_elem_of_cons. intros [Hne Hnin]. now rewrite decide_False, IH.
Qed.

Lemma dict_get_elem_of d k dflt :
  k ∈ d.*1 → (k, dict_get d k dflt) ∈ d.
Proof.
  induction d as [| [k' v'] d IH]; csimpl; [by rewrite elem_of_nil |].
  destruct (decide (k = k')) as [-> | Hne].
  - intros _. apply elem_of_cons. now left.
  - rewrite !elem_of_cons. intros [? | Hin]; [done |]. right. now apply IH.
Qed.

(** Reading every key of a well-formed dictionary gives its items back. *)
Lemma dict_items_get d dflt :
  dict_wf d → (λ k, (k, dict_get d k dflt)) <$> d.*1 = d.
Proof.
  unfold dict_wf. induction d as [| [k v] d IH]; csimpl; [done |].
  intros [Hk Hd]%NoDup_cons. rewrite decide_True by done. f_equal.
  rewrite <- (IH Hd) at 2. apply Forall_fmap_ext_1, Forall_forall.
  intros k' Hk'. rewrite decide_False; [done |]. now intros ->.
Qed.

(** ** Keys after update: in place for a known key, at the end for a new one *)

Lemma dict_keys_set_mem d k v : k ∈ d.*1 → (dict_set d k v).*1 = d.*1.
Proof.
  induction d as [| [k' v'] d IH]; csimpl; [by rewrite elem_of_nil |].
  destruct (decide (k = k')) as [-> | Hne]; csimpl; [done |].
  rewrite elem_of_cons. intros [? | Hin]; [done |]. now rewrite IH.
Qed.

Lemma dict_keys_set_not_mem d k v : k ∉ d.*1 → (dict_set d k v).*1 = d.*1 ++ [k].
Proof.
  induction d as [| [k' v'] d IH]; csimpl; [done |].
  rewrite not_elem_of_cons. intros [Hne Hnin].
  rewrite decide_False by done. csimpl. now rewrite IH.
Qed.

Lemma dict_keys_set_elem_of d k k' v :
  k' ∈ (dict_set d k v).*1 ↔ k' = k ∨ k' ∈ d.*1.
Proof.
  destruct (decide (k ∈ d.*1)) as [Hin | Hnin].
  - rewrite dict_keys_set_mem by done. naive_solver.
  - rewrite dict_keys_set_not_mem, elem_of_app, list_elem_of_singleton by done.
    naive_solver.
Qed.

Lemma dict_set_wf d k v : dict_wf d → dict_wf (dict_set d k v).
Proof.
  unfold dict_wf. intros Hwf. destruct (decide (k ∈ d.*1)) as [Hin | Hnin].
  - now rewrite dict_keys_set_mem.
  - rewrite dict_keys_set_not_mem by done. apply NoDup_app.
    split_and!; [done | | apply NoDup_singleton].
    intros x Hx ->%list_elem_of_singleton. done.
Qed.

Lemma dict_set_length_mem d k v : k ∈ d.*1 → length (dict_set d k v) = length d.
Proof.
  intros Hin. rewrite <- (length_fmap fst (dict_set d k v)), dict_keys_set_mem by done.
  apply length_fmap.
Qed.

Lemma dict_mem_spec d k : dict_mem d k = true ↔ k ∈ d.*1.
Proof. unfold dict_mem. apply bool_decide_eq_true. Qed.

Lemma dict_set_not_mem d k v : k ∉ d.*1 → dict_set d k v = d ++ [(k, v)].
Proof.
  induction d as [| [k' v'] d IH]; csimpl; [done |].
  rewrite not_elem_of_cons. intros [Hne Hnin].
  rewrite decide_False by done. now rewrite IH.
Qed.

Lemma dict_of_items_acc kvs acc :
  NoDup (acc.*1 ++ kvs.*1) →
  fold_left (λ acc kv, dict_set acc kv.1 kv.2) kvs acc = acc ++ kvs.
Proof.
  revert acc. induction kvs as [| [k v] kvs IH]; intros acc; csimpl.
  - intros _. now rewrite app_nil_r.
  - intros Hnd. rewrite dict_set_not_mem.
    + rewrite IH, <- app_assoc; [done |].
      now rewrite fmap_app, <- app_assoc.
    + apply NoDup_app in Hnd as (_ & Hdisj & _). intros Hin.
      apply (Hdisj k Hin), elem_of_cons. now left.
Qed.

(** A comprehension over pairs with distinct keys keeps them as they are. *)
Lemma dict_of_items_NoDup kvs : NoDup kvs.*1 → dict_of_items kvs = kvs.
Proof. intros Hnd. unfold dict_of_items. now rewrite dict_of_items_acc. Qed.

End pydict.

(** ** Dict comprehension over the values *)

(** [{k: f(v) for k, v in d.items()}]: the keys of [d] are distinct, so the
    comprehension inserts each of them once, in the order of [d]. *)
Definition dict_map_values {K V W} (f : V → W) (d : list (K * V)) : list (K * W) :=
  prod_map id f <$> d.

Lemma dict_map_values_keys {K V W} (f : V → W) (d : list (K * V)) :
  (dict_map_values f d).*1 = d.*1.
Proof.
  unfold dict_map_values. rewrite <- list_fmap_compose.
  apply list_fmap_ext. now intros i [k v].
Qed.

Lemma dict_map_values_values {K V W} (f : V → W) (d : list (K * V)) :
  (dict_map_values f d).*2 = f <$> d.*2.
Proof.
  unfold dict_map_values. rewrite <- !list_fmap_compose.
  apply list_fmap_ext. now intros i [k v].
Qed.

Lemma dict_map_values_wf {K V W} (f : V → W) (d : list (K * V)) :
  dict_wf d → dict_wf (dict_map_values f d).
Proof. unfold dict_wf. now rewrite dict_map_values_keys. Qed.

Lemma dict_map_values_get {K V W} `{EqDecision K} (f : V → W) (d : list (K * V)) k x :
  dict_get (dict_map_values f d) k (f x) = f (dict_get d k x).
Proof.
  induction d as [| [k' v'] d IH]; simpl; [done |].
  destruct (decide (k = k')); [done | apply IH].
Qed.

(** ** Abstraction to finite maps *)

Section abstraction.
Context {K V : Type} `{Countable K}.

Definition dict_to_gmap (d : list (K * V)) : gmap K V := list_to_map d.

Lemma dict_to_gmap_get (d : list (K * V)) k dflt :
  dict_get d k dflt = default dflt (dict_to_gmap d !! k).
Proof.
  unfold dict_to_gmap. induction d as [| [k' v'] d IH]; simpl; [done |].
  destruct (decide (k = k')) as [-> | Hne].
  - now rewrite lookup_insert_eq.
  - now rewrite lookup_insert_ne.
Qed.

Lemma dict_to_gmap_set (d : list (K * V)) k v :
  dict_to_gmap (dict_set d k v) = <[k := v]> (dict_to_gmap d).
Proof.
  unfold dict_to_gmap. induction d as [| [k' v'] d IH]; simpl; [done |].
  destruct (decide (k = k')) as [-> | Hne]; simpl.
  - now rewrite insert_insert_eq.
  - rewrite IH. now apply insert_insert_ne.
Qed.

Lemma dict_to_gmap_dom (d : list (K * V)) k :
  is_Some (dict_to_gmap d !! k) ↔ k ∈ d.*1.
Proof.
  unfold dict_to_gmap. rewrite <- not_eq_None_Some.
  pose proof (not_elem_of_list_to_map (M := gmap K) d k) as Hnone.
  destruct (decide (k ∈ d.*1)); naive_solver.
Qed.

Lemma dict_to_gmap_lookup (d : list (K * V)) k v :
  dict_wf d → dict_to_gmap d !! k = Some v ↔ (k, v) ∈ d.
Proof. intros Hwf. symmetry. now apply elem_of_list_to_map. Qed.

End abstraction.

(** ** Ledgers: dictionaries of durations *)

Section ledger.
Context {K : Type} `{EqDecision K}.
Implicit Types (d : list (K * Q)) (k : K).

(** [d[k] = d.get(k, 0) + x]: the update of lines 33, 58 and 78. *)
Definition dict_add d k (x : Q) : list (K * Q) :=
  dict_set d k (dict_get d k 0 + x).

Lemma dict_values_set_sum d k (v : Q) :
  py_sum (dict_set d k v).*2 == py_sum d.*2 - dict_get d k 0 + v.
Proof.
  induction d as [| [k' v'] d IH]; csimpl.
  - rewrite py_sum_cons, py_sum_nil. lra.
  - destruct (decide (k = k')) as [-> | Hne]; csimpl.
    + rewrite !py_sum_cons. lra.
    + rewrite !py_sum_cons, IH. lra.
Qed.

(** Adding [x] to one entry adds [x] to the total, whether the key is new
    or not. *)
Lemma dict_add_sum d k (x : Q) : py_sum (dict_add d k x).*2 == py_sum d.*2 + x.
Proof. unfold dict_add. rewrite dict_values_set_sum. lra. Qed.

Lemma dict_add_get d k k' (x : Q) :
  dict_get (dict_add d k x) k' 0 =
  if decide (k = k') then dict_get d k 0 + x else dict_get d k' 0.
Proof. unfold dict_add. apply dict_get_set. Qed.

Lemma dict_add_wf d k (x : Q) : dict_wf d → dict_wf (dict_add d k x).
Proof. apply dict_set_wf. Qed.

Lemma dict_add_keys d k k' x : k' ∈ (dict_add d k x).*1 ↔ k' = k ∨ k' ∈ d.*1.
Proof. apply dict_keys_set_elem_of. Qed.

Lemma dict_set_values_Forall (P : Q → Prop) d k (v : Q) :
  P v → Forall P d.*2 → Forall P (dict_set d k v).*2.
Proof.
  intros Hv. induction d as [| [k' v'] d IH]; csimpl.
  - now repeat constructor.
  - intros [Hv' Hd]%Forall_cons. destruct (decide (k = k')); csimpl.
    + now constructor.
    + constructor; [done | now apply IH].
Qed.

Lemma dict_get_Forall (P : Q → Prop) d k (x : Q) :
  P x → Forall P d.*2 → P (dict_get d k x).
Proof.
  intros Hx. induction d as [| [k' v'] d IH]; csimpl; [done |].
  intros [Hv' Hd]%Forall_cons. destruct (decide (k = k')); [done | now apply IH].
Qed.

(** Entries stay non-negative when a non-negative duration is added. *)
Lemma dict_add_nonneg d k (x : Q) :
  0 <= x → Forall (Qle 0) d.*2 → Forall (Qle 0) (dict_add d k x).*2.
Proof.
  intros Hx Hd. apply dict_set_values_Forall; [| done].
  pose proof (dict_get_Forall (Qle 0) d k 0 (Qle_refl 0) Hd). simpl in *. lra.
Qed.

End ledger.

(** The ledger update [d[k] = d.get(k, 0) + x] on the ordered
    dictionary implements the update of a finite map: it sets the entry of
    [k] to its former value, zero when absent, plus [x], leaves the other
    entries alone, and a later read returns what the map holds. *)
Lemma ledger_update_refines_map `{Countable K} (d : list (K * Q)) (k k' : K) (x : Q) :
  dict_to_gmap (dict_add d k x) =
    <[k := default 0 (dict_to_gmap d !! k) + x]> (dict_to_gmap d) ∧
  dict_get (dict_add d k x) k' 0 =
    default 0 (<[k := default 0 (dict_to_gmap d !! k) + x]> (dict_to_gmap d) !! k').
Proof.
  unfold dict_add. rewrite <- (dict_to_gmap_get d k 0), <- dict_to_gmap_set.
  split; [done | apply dict_to_gmap_get].
Qed.

#[export] Hint Resolve dict_set_wf dict_add_wf dict_add_nonneg : sim.
