(* ===== verification/Sampler.v ===== *)
(** * The sample source

    [simulate_mm1_queue] reseeds two process-wide generators when it is given
    a seed (lines 6-8 of [src/mm1_queue_simulation.py]) and then draws every
    duration with [np.random.exponential(scale=1.0/rate)] (lines 24, 38, 44
    and 68).  [np.random.seed] raises [ValueError] on an integer outside
    [0, 2**32 - 1].  The generator is an interface, [SampleSource]: a seeding
    function and a function that draws one variate of the unit-rate
    exponential distribution and returns the next generator state, with the
    law that a variate is never negative.  [world] is the state these calls
    act on; [sim] is the monad of computations that read and advance it and
    may raise.  [replay] is an executable instance that plays back a recorded
    tape. *)

From S2P Require Import Prelude PyRuntime.

#[local] Open Scope Q_scope.

(** ** The interface *)

Class SampleSource (G : Type) : Type := {
  (** the state [np.random.seed(seed)] installs *)
  np_seed : Z → G;
  (** one unit-rate exponential variate and the state after the draw *)
  standard_exponential : G → Q * G;
  standard_exponential_nonneg : ∀ g, 0 <= (standard_exponential g).1
}.

(** The mutable state outside the function: numpy's global generator, and
    the seed last given to the [random] module by this call, if any (the
    simulation never draws from that module). *)
Record world (G : Type) : Type := World {
  numpy_rng : G;
  random_seed_arg : option Z
}.

Arguments World {G} _ _.
Arguments numpy_rng {G} _.
Arguments random_seed_arg {G} _.

(** ** The monad of computations over the world *)

Definition sim (G A : Type) : Type := world G → outcome (A * world G).

#[export] Instance sim_ret {G} : MRet (sim G) := λ A a w, Ok (a, w).

#[export] Instance sim_bind {G} : MBind (sim G) := λ A B f m w,
  match m w with
  | Ok (a, w') => f a w'
  | Raise e => Raise e
  | OutOfFuel => OutOfFuel
  end.

#[export] Instance sim_throw {G} : MThrow exn (sim G) := λ A e w, Raise e.

(** A computation that does not touch the world. *)
Definition sim_lift {G A} (m : outcome A) : sim G A := λ w,
  match m with
  | Ok a => Ok (a, w)
  | Raise e => Raise e
  | OutOfFuel => OutOfFuel
  end.

(** The integers [np.random.seed] accepts: from 0 to [2**32 - 1]. *)
Definition numpy_seed_ok (seed : Z) : Prop := (0 <= seed < 4294967296)%Z.

#[export] Instance numpy_seed_ok_dec seed : Decision (numpy_seed_ok seed).
Proof. unfold numpy_seed_ok. apply _. Defined.

Section sampler.
Context {G : Type} `{SampleSource G}.

(** [np.random.seed(seed)]: numpy raises [ValueError] for an integer
    outside its range and leaves the generator as it is; otherwise the
    state depends on the seed alone. *)
Definition np_random_seed (seed : Z) : sim G unit := λ w,
  if decide (numpy_seed_ok seed) then
    Ok (tt, World (np_seed seed) (random_seed_arg w))
  else Raise ValueError.

(** [random.seed(seed)]. *)
Definition random_seed (seed : Z) : sim G unit := λ w,
  Ok (tt, World (numpy_rng w) (Some seed)).

(** [np.random.exponential(scale)]: numpy rejects a negative scale before it
    touches the generator, and otherwise returns [scale] times a unit-rate
    variate. *)
Definition np_random_exponential (scale : Q) : sim G Q := λ w,
  if Qlt_bool scale 0 then Raise ValueError
  else
    let '(e, g) := standard_exponential (numpy_rng w) in
    Ok (scale * e, World g (random_seed_arg w)).

(** [np.random.exponential(scale=1.0/rate)]. *)
Definition exponential_of_rate (rate : Q) : sim G Q :=
  scale ← sim_lift (py_div 1 rate);
  np_random_exponential scale.

(** The generator state after [n] draws, and the [n]-th variate. *)
Fixpoint advance (n : nat) (g : G) : G :=
  match n with
  | O => g
  | S n => advance n (standard_exponential g).2
  end.

Definition variate (n : nat) (g : G) : Q := (standard_exponential (advance n g)).1.

(** Every variate drawn from [g] on is at least [d]. *)
Definition draws_ge (d : Q) (g : G) : Prop := ∀ n, d <= variate n g.

End sampler.

(** ** A generator that replays a tape *)

(** A recorded variate is a non-negative fraction. *)
Record fraction : Type := Fraction { numer : N; denom : positive }.

Definition fraction_Q (v : fraction) : Q := Z.of_N (numer v) # denom v.

(** The variates still to play, and the one returned once the tape is over. *)
Record replay : Type := Replay { tape : list fraction; fallback : fraction }.

Definition replay_draw (r : replay) : Q * replay :=
  match tape r with
  | [] => (fraction_Q (fallback r), r)
  | v :: vs => (fraction_Q v, Replay vs (fallback r))
  end.

(** ** Laws of the monad *)

Section sim_laws.
Context {G A B : Type}.
Implicit Types (m : sim G A) (f : A → sim G B) (w : world G).

Lemma sim_bind_Ok m f w b w2 :
  (m ≫= f) w = Ok (b, w2) ↔ ∃ a w1, m w = Ok (a, w1) ∧ f a w1 = Ok (b, w2).
Proof.
  unfold mbind, sim_bind. destruct (m w) as [[a w1] | e |]; naive_solver.
Qed.

Lemma sim_bind_Raise m f w e :
  (m ≫= f) w = Raise e ↔
  m w = Raise e ∨ ∃ a w1, m w = Ok (a, w1) ∧ f a w1 = Raise e.
Proof.
  unfold mbind, sim_bind. destruct (m w) as [[a w1] | e' |]; naive_solver.
Qed.

Lemma sim_bind_OutOfFuel m f w :
  (m ≫= f) w = OutOfFuel ↔
  m w = OutOfFuel ∨ ∃ a w1, m w = Ok (a, w1) ∧ f a w1 = OutOfFuel.
Proof.
  unfold mbind, sim_bind. destruct (m w) as [[a w1] | e' |]; naive_solver.
Qed.

Lemma sim_bind_eq m f w a w1 : m w = Ok (a, w1) → (m ≫= f) w = f a w1.
Proof. unfold mbind, sim_bind. now intros ->. Qed.

Lemma sim_ret_Ok (a a' : A) w w' :
  (mret a : sim G A) w = Ok (a', w') ↔ a' = a ∧ w' = w.
Proof. unfold mret, sim_ret. naive_solver. Qed.

Lemma sim_lift_Ok (o : outcome A) w a w' :
  sim_lift o w = Ok (a, w') ↔ o = Ok a ∧ w' = w.
Proof. unfold sim_lift. destruct o; naive_solver. Qed.

Lemma sim_lift_Raise (o : outcome A) w e : sim_lift o w = Raise e ↔ o = Raise e.
Proof. unfold sim_lift. destruct o; naive_solver. Qed.

End sim_laws.

(** [sim_inv H] decomposes a hypothesis that a monadic computation
    returned into the returns of its steps. *)
Ltac sim_inv H :=
  repeat match type of H with
  | (_ ≫= _) _ = Ok _ =>
      let a := fresh "a" in let w := fresh "w" in
      let H1 := fresh "Hstep" in
      apply sim_bind_Ok in H as (a & w & H1 & H)
  | @mret _ _ _ _ _ = Ok _ => apply sim_ret_Ok in H as [? ?]
  | sim_lift _ _ = Ok _ => apply sim_lift_Ok in H as [H ?]
  end.

(** ** Laws of the draws *)

Section sampler_laws.
Context {G : Type} `{SampleSource G}.
Implicit Types (w : world G) (g : G).

Lemma variate_nonneg n g : 0 <= variate n g.
Proof. apply standard_exponential_nonneg. Qed.

(** The seeding returns exactly for the seeds of numpy's range, and the
    state it installs does not depend on the state before. *)
Lemma np_random_seed_Ok seed w :
  numpy_seed_ok seed →
  np_random_seed seed w = Ok (tt, World (np_seed seed) (random_seed_arg w)).
Proof. intros Hs. unfold np_random_seed. by rewrite decide_True. Qed.

Lemma np_random_seed_Raise seed w :
  ¬ numpy_seed_ok seed → np_random_seed seed w = Raise ValueError.
Proof. intros Hs. unfold np_random_seed. by rewrite decide_False. Qed.

Lemma np_random_exponential_Ok scale w x w' :
  np_random_exponential scale w = Ok (x, w') ↔
  0 <= scale ∧ x = scale * (standard_exponential (numpy_rng w)).1 ∧
  w' = World (standard_exponential (numpy_rng w)).2 (random_seed_arg w).
Proof.
  unfold np_random_exponential. case_qlt scale 0.
  - split; [done | intros [? _]; lra].
  - destruct (standard_exponential (numpy_rng w)) as [e g]. naive_solver.
Qed.

Lemma np_random_exponential_Raise scale w e :
  np_random_exponential scale w = Raise e ↔ scale < 0 ∧ e = ValueError.
Proof.
  unfold np_random_exponential. case_qlt scale 0.
  - naive_solver.
  - destruct (standard_exponential (numpy_rng w)). split; [done | intros [? _]; lra].
Qed.

(** A draw returns exactly when the rate is positive; the value is the
    variate divided by the rate, and only numpy's generator advances. *)
Lemma exponential_of_rate_Ok rate w x w' :
  exponential_of_rate rate w = Ok (x, w') ↔
  0 < rate ∧ x = 1 / rate * (standard_exponential (numpy_rng w)).1 ∧
  w' = World (standard_exponential (numpy_rng w)).2 (random_seed_arg w).
Proof.
  unfold exponential_of_rate. rewrite sim_bind_Ok. split.
  - intros (scale & w1 & [[Hne ->]%py_div_inv ->]%sim_lift_Ok & Hdraw).
    apply np_random_exponential_Ok in Hdraw as (Hscale & -> & ->).
    split; [| done]. destruct (Qlt_le_dec 0 rate) as [| Hle]; [done |].
    assert (rate < 0) as Hneg by (destruct (Qeq_dec rate 0); [done | lra]).
    pose proof (Qinv_lt_0_compat (- rate)) as Hinv.
    assert (/ - rate == - / rate) as Hopp by (field; lra).
    unfold Qdiv in Hscale. lra.
  - intros (Hpos & -> & ->). exists (1 / rate), w. split.
    + apply sim_lift_Ok. split; [| done]. apply py_div_Ok. lra.
    + apply np_random_exponential_Ok. split; [| done].
      apply Qlt_le_weak, Qdiv_pos; lra.
Qed.

Lemma exponential_of_rate_zero rate w :
  rate == 0 → exponential_of_rate rate w = Raise ZeroDivisionError.
Proof.
  intros Hz. unfold exponential_of_rate, mbind, sim_bind.
  now rewrite (py_div_zero 1 rate Hz).
Qed.

Lemma exponential_of_rate_negative rate w :
  rate < 0 → exponential_of_rate rate w = Raise ValueError.
Proof.
  intros Hneg. unfold exponential_of_rate.
  rewrite (sim_bind_eq _ _ w (1 / rate) w).
  - apply np_random_exponential_Raise. split; [| done].
    pose proof (Qinv_lt_0_compat (- rate)) as Hinv.
    assert (/ - rate == - / rate) as Hopp by (field; lra).
    unfold Qdiv. lra.
  - apply sim_lift_Ok. split; [| done]. apply py_div_Ok. lra.
Qed.

Lemma exponential_of_rate_not_OutOfFuel rate w :
  exponential_of_rate rate w ≠ OutOfFuel.
Proof.
  unfold exponential_of_rate, mbind, sim_bind, sim_lift, py_div, np_random_exponential.
  destruct (Qeq_bool rate 0); [done |].
  destruct (Qlt_bool (1 / rate) 0); [done |].
  now destruct (standard_exponential (numpy_rng w)).
Qed.

(** A returned duration is non-negative. *)
Lemma exponential_of_rate_nonneg rate w x w' :
  exponential_of_rate rate w = Ok (x, w') → 0 <= x.
Proof.
  intros (Hpos & -> & _)%exponential_of_rate_Ok.
  apply Qmult_le_0_compat; [| apply standard_exponential_nonneg].
  apply Qlt_le_weak, Qdiv_pos; lra.
Qed.

Lemma exponential_of_rate_positive rate w :
  0 < rate → is_Ok (exponential_of_rate rate w).
Proof.
  intros Hpos. eexists (_, _). apply exponential_of_rate_Ok. done.
Qed.

Lemma advance_S n g : advance (S n) g = advance n (standard_exponential g).2.
Proof. reflexivity. Qed.

Lemma variate_S n g : variate (S n) g = variate n (standard_exponential g).2.
Proof. reflexivity. Qed.

Lemma advance_add n m g : advance (n + m) g = advance m (advance n g).
Proof. revert g. induction n as [| n IH]; intros g; simpl; [done | apply IH]. Qed.

(** A draw that returns has advanced numpy's generator by one variate and
    left the rest of the world alone. *)
Lemma exponential_of_rate_advance rate w x w' :
  exponential_of_rate rate w = Ok (x, w') →
  numpy_rng w' = advance 1 (numpy_rng w) ∧
  random_seed_arg w' = random_seed_arg w.
Proof. by intros (_ & _ & ->)%exponential_of_rate_Ok. Qed.

Lemma draws_ge_next d g : draws_ge d g → draws_ge d (standard_exponential g).2.
Proof. intros Hd n. rewrite <- variate_S. apply Hd. Qed.

Lemma draws_ge_head d g : draws_ge d g → d <= (standard_exponential g).1.
Proof. intros Hd. apply (Hd O). Qed.

(** Under [draws_ge d], a draw at rate [rate] lasts at least [d / rate]. *)
Lemma exponential_of_rate_ge d rate w x w' :
  draws_ge d (numpy_rng w) →
  exponential_of_rate rate w = Ok (x, w') →
  d / rate <= x ∧ draws_ge d (numpy_rng w').
Proof.
  intros Hd (Hpos & -> & ->)%exponential_of_rate_Ok. split.
  - pose proof (draws_ge_head d _ Hd) as Hhead.
    pose proof (Qinv_lt_0_compat rate Hpos) as Hinv.
    unfold Qdiv. nra.
  - now apply draws_ge_next.
Qed.

End sampler_laws.

(** ** The replay generator implements the interface *)

Lemma fraction_Q_nonneg (v : fraction) : 0 <= fraction_Q v.
Proof. unfold fraction_Q, Qle. simpl. lia. Qed.

Lemma replay_draw_nonneg (r : replay) : 0 <= (replay_draw r).1.
Proof.
  unfold replay_draw. destruct (tape r); simpl; apply fraction_Q_nonneg.
Qed.

(** [seeded] says which tape each seed installs. *)
Definition replay_source (seeded : Z → replay) : SampleSource replay := {|
  np_seed := seeded;
  standard_exponential := replay_draw;
  standard_exponential_nonneg := replay_draw_nonneg
|}.

Lemma replay_advance_fallback (seeded : Z → replay) (n : nat) (v : fraction) :
  @advance replay (replay_source seeded) n (Replay [] v) = Replay [] v.
Proof. induction n as [| n IH]; [done | exact IH]. Qed.

(** Once every recorded variate and the fallback are at least [d], every
    draw is. *)
Lemma replay_draws_ge (seeded : Z → replay) (d : Q) (r : replay) :
  Forall (λ v, d <= fraction_Q v) (tape r) → d <= fraction_Q (fallback r) →
  @draws_ge replay (replay_source seeded) d r.
Proof.
  destruct r as [vs v]. simpl. intros Hvs Hv.
  induction Hvs as [| v0 vs Hv0 _ IH]; intros n.
  - unfold variate. now rewrite replay_advance_fallback.
  - destruct n as [| n]; [exact Hv0 | apply IH].
Qed.

(** ** A recorded tape for the examples

    Seven unit-rate variates, then [1] for ever.  Every seed installs the
    tape from its start. *)

Definition demo_tape : replay :=
  Replay [Fraction 1 1; Fraction 2 1; Fraction 1 2; Fraction 3 1;
          Fraction 1 4; Fraction 1 1; Fraction 2 1] (Fraction 1 1).

Definition demo_source : SampleSource replay := replay_source (λ _, demo_tape).

(** The world before the call: a generator that was never seeded, which
    would return [5] at every draw. *)
Definition demo_world : world replay := World (Replay [] (Fraction 5 1)) None.

(** Every variate of the tape is at least [1/4]. *)
Lemma demo_tape_draws_ge : @draws_ge replay demo_source (1 # 4) demo_tape.
Proof.
  apply replay_draws_ge; [| vm_compute; discriminate].
  repeat constructor; vm_compute; discriminate.
Qed.

#[export] Hint Resolve variate_nonneg exponential_of_rate_nonneg : sim.
