(* ===== verification/Engine.v ===== *)
(** * The event loop of [simulate_mm1_queue]

    The state of the simulation (lines 10-24 of
    [src/mm1_queue_simulation.py]) and its two transitions (lines 27-75):
    the event clock and state tracker, the FIFO queueing discipline and the
    trace recorder of the specification are the fields of [sim_state] and
    the branches of the loop body.  Each branch is a function from the state
    and the durations drawn to the next state ([arrival_starts_service],
    [arrival_joins_queue], [departure_starts_next], [departure_leaves_idle]);
    [process_arrival] and [process_departure] draw the durations in the
    order of the code and apply them.  Every definition is executable; the
    loop takes a fuel argument that counts iterations. *)

From S2P Require Import Prelude PyRuntime XTime PyDict Sampler.

#[local] Open Scope Q_scope.

(** ** State *)

(** One entry of [customer_stats]: the tuple
    [(arrival_time, service_start_time, departure_time)]. *)
Record customer : Type := Customer {
  arrival_time : Q;
  service_start_time : Q;
  departure_time : Q
}.

(** The local variables of the function, under their names. *)
Record sim_state : Type := SimState {
  current_time : Q;
  server_busy : bool;
  server_start_time : Q;
  next_departure_time : xtime;
  queue : list Q;
  customer_stats : list customer;
  last_event_time : Q;
  state_time : list (Z * Q);
  current_state : Z;
  next_arrival_time : Q
}.

(** The event the loop processes next: the comparison of line 29, with the
    tie going to the arrival. *)
Inductive event : Type :=
| Arrival
| Departure (t : Q).

Definition next_event (s : sim_state) : event :=
  match next_departure_time s with
  | PosInf => Arrival
  | Fin d => if Qle_bool (next_arrival_time s) d then Arrival else Departure d
  end.

(** ** Initialisation (lines 10-21 and the assignment of line 24) *)

Definition initial_state (first_arrival : Q) : sim_state := {|
  current_time := 0;
  server_busy := false;
  server_start_time := 0;
  next_departure_time := PosInf;
  queue := [];
  customer_stats := [];
  last_event_time := 0;
  state_time := [(0%Z, 0)];
  current_state := 0%Z;
  next_arrival_time := first_arrival
|}.

(** ** The ledger update that opens each branch (lines 33 and 58) *)

Definition ledger_at (s : sim_state) (now : Q) : list (Z * Q) :=
  dict_add (state_time s) (current_state s) (now - last_event_time s).

(** ** An arrival that finds the server idle (lines 33-46 and 52) *)

Definition arrival_starts_service (s : sim_state) (gap service : Q) : sim_state :=
  let now := next_arrival_time s in {|
    current_time := now;
    server_busy := true;
    server_start_time := now;
    next_departure_time := Fin (now + service);
    queue := queue s;
    customer_stats := customer_stats s ++ [Customer now now (now + service)];
    last_event_time := now;
    state_time := ledger_at s now;
    current_state := (current_state s + 1)%Z;
    next_arrival_time := now + gap
  |}.

(** ** An arrival that finds the server busy (lines 33-38, 49 and 52) *)

Definition arrival_joins_queue (s : sim_state) (gap : Q) : sim_state :=
  let now := next_arrival_time s in {|
    current_time := now;
    server_busy := server_busy s;
    server_start_time := server_start_time s;
    next_departure_time := next_departure_time s;
    queue := queue s ++ [now];
    customer_stats := customer_stats s;
    last_event_time := now;
    state_time := ledger_at s now;
    current_state := (current_state s + 1)%Z;
    next_arrival_time := now + gap
  |}.

(** ** A departure with a customer waiting (lines 58-71) *)

Definition departure_starts_next (s : sim_state) (now arrival : Q)
  (waiting : list Q) (service : Q) : sim_state := {|
  current_time := now;
  server_busy := server_busy s;
  server_start_time := now;
  next_departure_time := Fin (now + service);
  queue := waiting;
  customer_stats := customer_stats s ++ [Customer arrival now (now + service)];
  last_event_time := now;
  state_time := ledger_at s now;
  current_state := (current_state s - 1)%Z;
  next_arrival_time := next_arrival_time s
|}.

(** ** A departure that leaves the system empty (lines 58-63 and 74-75) *)

Definition departure_leaves_idle (s : sim_state) (now : Q) : sim_state := {|
  current_time := now;
  server_busy := false;
  server_start_time := server_start_time s;
  next_departure_time := PosInf;
  queue := queue s;
  customer_stats := customer_stats s;
  last_event_time := now;
  state_time := ledger_at s now;
  current_state := (current_state s - 1)%Z;
  next_arrival_time := next_arrival_time s
|}.

(** ** The final ledger update (line 78) *)

Definition final_update (simulation_time : Q) (s : sim_state) : sim_state := {|
  current_time := current_time s;
  server_busy := server_busy s;
  server_start_time := server_start_time s;
  next_departure_time := next_departure_time s;
  queue := queue s;
  customer_stats := customer_stats s;
  last_event_time := last_event_time s;
  state_time := ledger_at s simulation_time;
  current_state := current_state s;
  next_arrival_time := next_arrival_time s
|}.

Section engine.
Context {G : Type} `{SampleSource G}.
Variables arrival_rate service_rate : Q.

(** Lines 10-24: the first arrival is drawn before the loop. *)
Definition init_state : sim G sim_state :=
  first_arrival ← exponential_of_rate arrival_rate;
  mret (initial_state first_arrival).

(** Lines 32-52: the next arrival is scheduled first, then the service of
    the arriving customer is drawn if the server is idle. *)
Definition process_arrival (s : sim_state) : sim G sim_state :=
  gap ← exponential_of_rate arrival_rate;
  if negb (server_busy s) then
    service ← exponential_of_rate service_rate;
    mret (arrival_starts_service s gap service)
  else
    mret (arrival_joins_queue s gap).

(** Lines 55-75: a departure at time [now]. *)
Definition process_departure (now : Q) (s : sim_state) : sim G sim_state :=
  match queue s with
  | arrival :: waiting =>
      service ← exponential_of_rate service_rate;
      mret (departure_starts_next s now arrival waiting service)
  | [] => mret (departure_leaves_idle s now)
  end.

(** One iteration of the loop body (lines 28-75). *)
Definition step (s : sim_state) : sim G sim_state :=
  match next_event s with
  | Arrival => process_arrival s
  | Departure now => process_departure now s
  end.

(** The loop (lines 27-75). *)
Fixpoint event_loop (fuel : nat) (simulation_time : Q) (s : sim_state)
  : sim G sim_state :=
  if Qlt_bool (current_time s) simulation_time then
    match fuel with
    | O => λ _, OutOfFuel
    | S fuel => s' ← step s; event_loop fuel simulation_time s'
    end
  else mret s.

(** ** The states the loop can be in *)

(** [reachable T s w]: the loop with horizon [T] can be at its head in state
    [s] with the world [w]. *)
Inductive reachable (simulation_time : Q) : sim_state → world G → Prop :=
| reachable_init w0 s w :
    init_state w0 = Ok (s, w) → reachable simulation_time s w
| reachable_step s w s' w' :
    reachable simulation_time s w →
    current_time s < simulation_time →
    step s w = Ok (s', w') →
    reachable simulation_time s' w'.

(** ** Unfolding the loop *)

Lemma event_loop_exit fuel T s w :
  T <= current_time s → event_loop fuel T s w = Ok (s, w).
Proof.
  intros Hle. destruct fuel; simpl; case_qlt (current_time s) T; (done || lra).
Qed.

Lemma event_loop_S fuel T s w :
  current_time s < T →
  event_loop (S fuel) T s w = (s' ← step s; event_loop fuel T s') w.
Proof. intros Hlt. simpl. case_qlt (current_time s) T; [done | lra]. Qed.

Lemma event_loop_O T s w : current_time s < T → event_loop O T s w = OutOfFuel.
Proof. intros Hlt. simpl. case_qlt (current_time s) T; [done | lra]. Qed.

(** The loop only stops at or after the horizon. *)
Lemma event_loop_Ok_exit fuel T s w s' w' :
  event_loop fuel T s w = Ok (s', w') → T <= current_time s'.
Proof.
  revert s w. induction fuel as [| fuel IH]; intros s w; simpl;
    case_qlt (current_time s) T; try done.
  - now intros [= <- <-].
  - intros (s1 & w1 & _ & Hloop)%sim_bind_Ok. eauto.
  - now intros [= <- <-].
Qed.

(** More fuel does not change a result. *)
Lemma event_loop_fuel_mono fuel fuel' T s w r :
  (fuel ≤ fuel')%nat → event_loop fuel T s w = r → r ≠ OutOfFuel →
  event_loop fuel' T s w = r.
Proof.
  revert fuel' s w. induction fuel as [| fuel IH]; intros fuel' s w Hle <- Hr.
  - destruct (decide (current_time s < T)) as [Hlt | Hge].
    + now rewrite event_loop_O in Hr.
    + rewrite !event_loop_exit by lra. done.
  - destruct fuel' as [| fuel']; [lia |].
    destruct (decide (current_time s < T)) as [Hlt | Hge].
    + rewrite !event_loop_S in * by done. unfold mbind, sim_bind in *.
      destruct (step s w) as [[s1 w1] | e |]; [| done..].
      apply IH; [lia | done..].
    + rewrite !event_loop_exit by lra. done.
Qed.

(** The loop ends in a reachable state. *)
Lemma event_loop_reachable fuel T s w s' w' :
  reachable T s w → event_loop fuel T s w = Ok (s', w') → reachable T s' w'.
Proof.
  revert s w. induction fuel as [| fuel IH]; intros s w Hreach; simpl;
    case_qlt (current_time s) T; try done.
  - now intros [= <- <-].
  - intros (s1 & w1 & Hstep & Hloop)%sim_bind_Ok.
    eapply IH; [| done]. eapply reachable_step; done.
  - now intros [= <- <-].
Qed.

(** ** The transitions never run out of fuel by themselves *)

Lemma init_state_not_OutOfFuel w : init_state w ≠ OutOfFuel.
Proof.
  unfold init_state. rewrite sim_bind_OutOfFuel.
  intros [Hd | (? & ? & _ & [=])]. now apply exponential_of_rate_not_OutOfFuel in Hd.
Qed.

Lemma process_arrival_not_OutOfFuel s w : process_arrival s w ≠ OutOfFuel.
Proof.
  unfold process_arrival. rewrite sim_bind_OutOfFuel.
  intros [Hd | (gap & w1 & _ & Hrest)];
    [now apply exponential_of_rate_not_OutOfFuel in Hd |].
  destruct (server_busy s); simpl in Hrest; try done;
    apply sim_bind_OutOfFuel in Hrest as [Hd | (? & ? & _ & [=])];
    now apply exponential_of_rate_not_OutOfFuel in Hd.
Qed.

Lemma process_departure_not_OutOfFuel now s w : process_departure now s w ≠ OutOfFuel.
Proof.
  unfold process_departure. destruct (queue s); [done |].
  rewrite sim_bind_OutOfFuel.
  intros [Hd | (? & ? & _ & [=])]. now apply exponential_of_rate_not_OutOfFuel in Hd.
Qed.

Lemma step_not_OutOfFuel s w : step s w ≠ OutOfFuel.
Proof.
  unfold step. destruct (next_event s);
    [apply process_arrival_not_OutOfFuel | apply process_departure_not_OutOfFuel].
Qed.

(** An iteration of the loop changes the population by exactly one:
    an arrival adds a customer, a departure removes one. *)
Theorem population_changes_by_one s w s' w' :
  step s w = Ok (s', w') →
  current_state s' =
  (current_state s + match next_event s with Arrival => 1 | Departure _ => -1 end)%Z.
Proof.
  unfold step, process_arrival, process_departure.
  destruct (next_event s) as [| now].
  - intros (gap & w1 & _ & Hstep)%sim_bind_Ok.
    destruct (server_busy s); simpl in Hstep; sim_inv Hstep; subst; done.
  - destruct (queue s); intros Hstep; sim_inv Hstep; subst; done.
Qed.

End engine.

(** ** The selection of the next event *)

Lemma next_event_Arrival s :
  next_event s = Arrival ↔
  xle_bool (Fin (next_arrival_time s)) (next_departure_time s) = true.
Proof.
  unfold next_event. destruct (next_departure_time s) as [d |]; simpl; [| done].
  now destruct (Qle_bool (next_arrival_time s) d).
Qed.

Lemma next_event_Departure s d :
  next_event s = Departure d ↔
  next_departure_time s = Fin d ∧ d < next_arrival_time s.
Proof.
  unfold next_event. destruct (next_departure_time s) as [d' |]; [| naive_solver].
  case_qle (next_arrival_time s) d'; split; try naive_solver.
  intros [[= ->] Hlt]. lra.
Qed.

(** On a tie the arrival is processed first. *)
Lemma next_event_tie s d :
  next_departure_time s = Fin d → next_arrival_time s == d →
  next_event s = Arrival.
Proof.
  intros Hd Heq. unfold next_event. rewrite Hd.
  case_qle (next_arrival_time s) d; [done | lra].
Qed.

(** ** A recorded run

    Arrival rate 2, service rate 1/2 on [demo_tape].  The first customer
    arrives at 1/2 and is served until 3/2; the second arrives at 3/2, the
    tie is an arrival, and waits; the first leaves at 3/2, the second at 2
    and the system is empty until the arrival at 3.  The run takes each of
    the four branches of the loop body. *)

Definition demo_step (sw : sim_state * world replay) : sim_state * world replay :=
  match @step replay demo_source 2 (1 # 2) sw.1 sw.2 with
  | Ok sw' => sw'
  | _ => sw
  end.

Definition demo_init : sim_state * world replay := Eval vm_compute in
  (initial_state (1 # 2), World (advance (G := replay) (H := demo_source) 1 demo_tape) None).

Definition demo_served : sim_state * world replay := Eval vm_compute in demo_step demo_init.
Definition demo_queued : sim_state * world replay := Eval vm_compute in demo_step demo_served.
Definition demo_next : sim_state * world replay := Eval vm_compute in demo_step demo_queued.
Definition demo_idle : sim_state * world replay := Eval vm_compute in demo_step demo_next.
Definition demo_last : sim_state * world replay := Eval vm_compute in
  match @event_loop replay demo_source 2 (1 # 2) 10 3 demo_init.1 demo_init.2 with
  | Ok sw => sw
  | _ => demo_init
  end.

Lemma demo_init_eq :
  @init_state replay demo_source 2 (World demo_tape None) = Ok demo_init.
Proof. vm_compute. reflexivity. Qed.

Lemma demo_served_eq :
  @step replay demo_source 2 (1 # 2) demo_init.1 demo_init.2 = Ok demo_served.
Proof. vm_compute. reflexivity. Qed.

Lemma demo_queued_eq :
  @step replay demo_source 2 (1 # 2) demo_served.1 demo_served.2 = Ok demo_queued.
Proof. vm_compute. reflexivity. Qed.

Lemma demo_next_eq :
  @step replay demo_source 2 (1 # 2) demo_queued.1 demo_queued.2 = Ok demo_next.
Proof. vm_compute. reflexivity. Qed.

Lemma demo_idle_eq :
  @step replay demo_source 2 (1 # 2) demo_next.1 demo_next.2 = Ok demo_idle.
Proof. vm_compute. reflexivity. Qed.

Lemma demo_last_eq :
  @event_loop replay demo_source 2 (1 # 2) 10 3 demo_init.1 demo_init.2 = Ok demo_last.
Proof. vm_compute. reflexivity. Qed.

Lemma demo_init_reachable T :
  @reachable replay demo_source 2 (1 # 2) T demo_init.1 demo_init.2.
Proof. eapply reachable_init, demo_init_eq. Qed.

Lemma demo_served_reachable :
  @reachable replay demo_source 2 (1 # 2) 3 demo_served.1 demo_served.2.
Proof.
  eapply reachable_step; [apply demo_init_reachable | done | apply demo_served_eq].
Qed.

Lemma demo_queued_reachable :
  @reachable replay demo_source 2 (1 # 2) 3 demo_queued.1 demo_queued.2.
Proof.
  eapply reachable_step; [apply demo_served_reachable | done | apply demo_queued_eq].
Qed.

Lemma demo_last_reachable :
  @reachable replay demo_source 2 (1 # 2) 3 demo_last.1 demo_last.2.
Proof. eapply event_loop_reachable; [apply demo_init_reachable | apply demo_last_eq]. Qed.

Lemma population_changes_by_one_witness :
  current_state demo_next.1 =
  (current_state demo_queued.1 +
   match next_event demo_queued.1 with Arrival => 1 | Departure _ => -1 end)%Z.
Proof. exact (population_changes_by_one _ _ _ _ _ _ demo_next_eq). Defined.
