(* ===== verification/Spec.v ===== *)
(** * The queue as a transition system

    The abstract specification of the event loop: a labelled transition
    relation on [sim_state] with one rule per branch of the loop body, in
    which the durations drawn are arbitrary non-negative rationals.  It is
    the state machine of section 4.2 of the specification, on the state of
    the code.  Each rule gives the state after the event field by field and
    does not use the functions of [Engine.v] for the branches of the loop:
    an arrival that finds the server busy leaves it busy, a departure that
    finds nobody waiting leaves the line empty, where the code leaves the
    flag and the line as they are.  The lemmas of the section [branches]
    compare the two, under the guard of each branch.  The refinement lemmas
    show that whatever the generator does, a step of the executable loop
    that returns is a transition of this system, so that an invariant of
    the system is an invariant of the code. *)

From stdpp Require Import relations.
From S2P Require Import Prelude PyRuntime XTime PyDict Sampler Engine.

#[local] Open Scope Q_scope.

(** ** The system *)

Inductive initial : sim_state → Prop :=
| initial_intro first_arrival :
    0 <= first_arrival → initial (initial_state first_arrival).

(** Step 1 of both rules: the time since the last event is credited to the
    count before the event. *)
Definition credited (s : sim_state) (now : Q) : list (Z * Q) :=
  dict_add (state_time s) (current_state s) (now - last_event_time s).

(** The rules give the state after the event field by field, as the
    transition rule of the specification does; they do not mention the
    functions of [Engine.v] for the branches of the loop, which
    [step_refines] compares with them. *)
Inductive transition (s : sim_state) : sim_state → Prop :=
| arrive_idle gap service :
    next_event s = Arrival → server_busy s = false →
    0 <= gap → 0 <= service →
    transition s {|
      current_time := next_arrival_time s;
      server_busy := true;
      server_start_time := next_arrival_time s;
      next_departure_time := Fin (next_arrival_time s + service);
      queue := queue s;
      customer_stats := customer_stats s ++
        [Customer (next_arrival_time s) (next_arrival_time s)
           (next_arrival_time s + service)];
      last_event_time := next_arrival_time s;
      state_time := credited s (next_arrival_time s);
      current_state := (current_state s + 1)%Z;
      next_arrival_time := next_arrival_time s + gap
    |}
| arrive_busy gap :
    next_event s = Arrival → server_busy s = true →
    0 <= gap →
    transition s {|
      current_time := next_arrival_time s;
      server_busy := true;
      server_start_time := server_start_time s;
      next_departure_time := next_departure_time s;
      queue := queue s ++ [next_arrival_time s];
      customer_stats := customer_stats s;
      last_event_time := next_arrival_time s;
      state_time := credited s (next_arrival_time s);
      current_state := (current_state s + 1)%Z;
      next_arrival_time := next_arrival_time s + gap
    |}
| depart_next now arrival waiting service :
    next_event s = Departure now → queue s = arrival :: waiting →
    0 <= service →
    transition s {|
      current_time := now;
      server_busy := server_busy s;
      server_start_time := now;
      next_departure_time := Fin (now + service);
      queue := waiting;
      customer_stats := customer_stats s ++
        [Customer arrival now (now + service)];
      last_event_time := now;
      state_time := credited s now;
      current_state := (current_state s - 1)%Z;
      next_arrival_time := next_arrival_time s
    |}
| depart_idle now :
    next_event s = Departure now → queue s = [] →
    transition s {|
      current_time := now;
      server_busy := false;
      server_start_time := server_start_time s;
      next_departure_time := PosInf;
      queue := [];
      customer_stats := customer_stats s;
      last_event_time := now;
      state_time := credited s now;
      current_state := (current_state s - 1)%Z;
      next_arrival_time := next_arrival_time s
    |}.

(** The states the system can be in. *)
Definition valid (s : sim_state) : Prop := ∃ s0, initial s0 ∧ rtc transition s0 s.

(** An invariant of the system: it holds initially and every transition
    from a state where it holds (and where the assumed invariant [J] holds)
    preserves it. *)
Record invariant_under (J I : sim_state → Prop) : Prop := {
  invariant_initial : ∀ s, initial s → I s;
  invariant_transition : ∀ s s', J s → I s → transition s s' → I s'
}.

(** ** Facts read off the selection of the event *)

Lemma arrival_before_departure s :
  next_event s = Arrival → xle (Fin (next_arrival_time s)) (next_departure_time s).
Proof. rewrite next_event_Arrival. apply xle_bool_iff. Qed.

Lemma departure_before_arrival s now :
  next_event s = Departure now →
  next_departure_time s = Fin now ∧ now < next_arrival_time s.
Proof. apply next_event_Departure. Qed.

(** [event_facts] adds to the context what the selection of the event says
    about the pending times. *)
Ltac event_facts :=
  repeat match goal with
  | H : next_event _ = Arrival |- _ => apply arrival_before_departure in H
  | H : next_event _ = Departure _ |- _ =>
      apply departure_before_arrival in H as [? ?]
  end.

(** ** Induction over the valid states *)

Lemma valid_initial s : initial s → valid s.
Proof. intros Hs. now exists s. Qed.

Lemma valid_transition s s' : valid s → transition s s' → valid s'.
Proof.
  intros (s0 & H0 & Hrtc) Ht. exists s0. split; [done |].
  eapply rtc_r; done.
Qed.

Lemma valid_ind (P : sim_state → Prop) :
  (∀ s, initial s → P s) →
  (∀ s s', valid s → P s → transition s s' → P s') →
  ∀ s, valid s → P s.
Proof.
  intros Hinit Hstep s (s0 & H0 & Hrtc).
  revert s Hrtc. apply rtc_ind_r; [now apply Hinit |].
  intros y z Hy Ht IH. apply (Hstep y z); [now exists s0 | done..].
Qed.

(** An invariant under [J] holds in every valid state, provided [J] does. *)
Lemma invariant_valid (J I : sim_state → Prop) :
  invariant_under J I → (∀ s, valid s → J s) → ∀ s, valid s → I s.
Proof.
  intros [Hinit Hstep] HJ. apply valid_ind; [done |].
  intros s s' Hv HI Ht. eapply Hstep; eauto.
Qed.

(** ** The branches of the loop are the rules *)

Section branches.
Implicit Types (s : sim_state) (now gap service : Q).

Lemma arrival_starts_service_transition s gap service :
  next_event s = Arrival → server_busy s = false →
  0 <= gap → 0 <= service →
  transition s (arrival_starts_service s gap service).
Proof. intros. by apply arrive_idle. Qed.

(** The code leaves the flag of the server as it is, the rule says that
    the server is busy. *)
Lemma arrival_joins_queue_transition s gap :
  next_event s = Arrival → server_busy s = true → 0 <= gap →
  transition s (arrival_joins_queue s gap).
Proof.
  intros Hev Hbusy Hgap. unfold arrival_joins_queue. rewrite Hbusy.
  by apply arrive_busy.
Qed.

Lemma departure_starts_next_transition s now arrival waiting service :
  next_event s = Departure now → queue s = arrival :: waiting →
  0 <= service →
  transition s (departure_starts_next s now arrival waiting service).
Proof. intros. by apply depart_next. Qed.

(** The code leaves the line as it is, the rule says that it is empty. *)
Lemma departure_leaves_idle_transition s now :
  next_event s = Departure now → queue s = [] →
  transition s (departure_leaves_idle s now).
Proof.
  intros Hev Hq. unfold departure_leaves_idle. rewrite Hq.
  by apply depart_idle.
Qed.

(** Conversely a transition is one of the four branches: a property of
    the states the branches produce is a property of the states after a
    transition. *)
Lemma transition_branches (P : sim_state → Prop) s :
  (∀ gap service, next_event s = Arrival → server_busy s = false →
     0 <= gap → 0 <= service → P (arrival_starts_service s gap service)) →
  (∀ gap, next_event s = Arrival → server_busy s = true → 0 <= gap →
     P (arrival_joins_queue s gap)) →
  (∀ now arrival waiting service, next_event s = Departure now →
     queue s = arrival :: waiting → 0 <= service →
     P (departure_starts_next s now arrival waiting service)) →
  (∀ now, next_event s = Departure now → queue s = [] →
     P (departure_leaves_idle s now)) →
  ∀ s', transition s s' → P s'.
Proof.
  intros Hidle Hbusy Hnext Hempty s' Ht.
  destruct Ht as [gap service Hev Hb Hgap Hsvc | gap Hev Hb Hgap
                 | now arrival waiting service Hev Hq Hsvc | now Hev Hq].
  - by apply (Hidle gap service).
  - specialize (Hbusy gap Hev Hb Hgap). unfold arrival_joins_queue in Hbusy.
    by rewrite Hb in Hbusy.
  - by apply (Hnext now arrival waiting service).
  - specialize (Hempty now Hev Hq). unfold departure_leaves_idle in Hempty.
    by rewrite Hq in Hempty.
Qed.

End branches.

(** ** The executable loop refines the system *)

Section refinement.
Context {G : Type} `{SampleSource G}.
Variables arrival_rate service_rate : Q.
Implicit Types (s : sim_state) (w : world G).

Lemma init_state_refines w s w' :
  init_state arrival_rate w = Ok (s, w') → initial s.
Proof.
  unfold init_state. intros Hinit. sim_inv Hinit. subst.
  constructor. eauto using exponential_of_rate_nonneg.
Qed.

Lemma process_arrival_refines s w s' w' :
  next_event s = Arrival →
  process_arrival arrival_rate service_rate s w = Ok (s', w') →
  transition s s'.
Proof.
  intros Hev. unfold process_arrival. intros Hstep.
  apply sim_bind_Ok in Hstep as (gap & w1 & Hgap & Hstep).
  apply exponential_of_rate_nonneg in Hgap.
  destruct (server_busy s) eqn:Hbusy; simpl in Hstep.
  - sim_inv Hstep. subst. now apply arrival_joins_queue_transition.
  - sim_inv Hstep. subst.
    apply arrival_starts_service_transition;
      eauto using exponential_of_rate_nonneg.
Qed.

Lemma process_departure_refines now s w s' w' :
  next_event s = Departure now →
  process_departure service_rate now s w = Ok (s', w') →
  transition s s'.
Proof.
  intros Hev. unfold process_departure.
  destruct (queue s) as [| arrival waiting] eqn:Hq; intros Hstep.
  - sim_inv Hstep. subst. now apply departure_leaves_idle_transition.
  - sim_inv Hstep. subst.
    apply departure_starts_next_transition;
      eauto using exponential_of_rate_nonneg.
Qed.

(** Every step of the loop that returns is a transition. *)
Lemma step_refines s w s' w' :
  step arrival_rate service_rate s w = Ok (s', w') → transition s s'.
Proof.
  unfold step. destruct (next_event s) eqn:Hev.
  - now apply process_arrival_refines.
  - now apply process_departure_refines.
Qed.

(** Every state the loop reaches is a valid state of the system. *)
Lemma reachable_valid T s w :
  reachable arrival_rate service_rate T s w → valid s.
Proof.
  induction 1 as [w0 s w Hinit | s w s' w' _ IH _ Hstep].
  - eapply valid_initial, init_state_refines. done.
  - eapply valid_transition; [done |]. eapply step_refines. done.
Qed.

(** A run of the loop is a path of the system. *)
Lemma event_loop_rtc fuel T s w s' w' :
  event_loop arrival_rate service_rate fuel T s w = Ok (s', w') →
  rtc transition s s'.
Proof.
  revert s w. induction fuel as [| fuel IH]; intros s w; simpl;
    case_qlt (current_time s) T; try done; try (now intros [= <- <-]).
  intros (s1 & w1 & Hstep & Hloop)%sim_bind_Ok.
  eapply rtc_l; [eapply step_refines |]; eauto.
Qed.

(** C5. The loop refines the transition system: whatever the generator
    returns and however much fuel is given, a run of the loop that returns
    went from its first state to its last through transitions of the
    system, and stopped at or after the horizon. *)
Theorem event_loop_refines_system fuel T s w s' w' :
  event_loop arrival_rate service_rate fuel T s w = Ok (s', w') →
  rtc transition s s' ∧ T <= current_time s'.
Proof.
  intros Hloop. split; [eapply event_loop_rtc | eapply event_loop_Ok_exit]; done.
Qed.

End refinement.

(** ** On the recorded run *)

Lemma event_loop_refines_system_witness :
  rtc transition demo_init.1 demo_last.1 ∧ 3 <= current_time demo_last.1.
Proof. exact (event_loop_refines_system _ _ _ _ _ _ _ _ demo_last_eq). Defined.
