(* ===== verification/Invariants.v ===== *)
(** * Invariants of the event loop

    Four groups of facts that hold in every state the loop can reach: the
    clock (time only moves forward, the pending events are in the future,
    the departure sentinel is set exactly when the server is idle), the
    population (the count is the length of the line plus the customer in
    service), the ledger (a well-formed dictionary of non-negative durations
    over the counts [0..max] that sums to the time of the last event) and
    the trace (each record has [0 <= arrival <= start <= departure]).  Each
    group is an [invariant_under] of the transition system of [Spec.v];
    [Spec.reachable_valid] carries them to the executable loop. *)

From S2P Require Import Prelude PyRuntime XTime PyDict Sampler Engine Spec.

#[local] Open Scope Q_scope.

(** ** The invariants *)

Record clock_inv (s : sim_state) : Prop := {
  clock_last_event : last_event_time s = current_time s;
  clock_nonneg : 0 <= current_time s;
  clock_arrival : current_time s <= next_arrival_time s;
  clock_departure : xle (Fin (current_time s)) (next_departure_time s);
  clock_busy : server_busy s = is_finite (next_departure_time s);
  clock_start_nonneg : 0 <= server_start_time s;
  clock_start : server_start_time s <= current_time s
}.

(** The customers in the system: those waiting and the one in service. *)
Definition in_system (s : sim_state) : Z :=
  Z.of_nat (length (queue s)) + (if server_busy s then 1 else 0).

Record population_inv (s : sim_state) : Prop := {
  population_count : current_state s = in_system s;
  population_idle : server_busy s = false → queue s = []
}.

Record ledger_inv (s : sim_state) : Prop := {
  ledger_wf : dict_wf (state_time s);
  ledger_total : py_sum (dict_values (state_time s)) == last_event_time s;
  ledger_nonneg : Forall (Qle 0) (dict_values (state_time s));
  ledger_keys : ∀ n, n ∈ dict_keys (state_time s) → (0 <= n)%Z;
  ledger_below :
    ∀ n, (0 <= n < current_state s)%Z → n ∈ dict_keys (state_time s);
  ledger_closed :
    ∀ n m, n ∈ dict_keys (state_time s) → (0 <= m <= n)%Z →
    m ∈ dict_keys (state_time s)
}.

(** The shape of a ledger for a population [count]: distinct keys, which
    are the naturals up to some bound, every natural below [count] among
    them. *)
Record ledger_shape (ledger : list (Z * Q)) (count : Z) : Prop := {
  shape_wf : dict_wf ledger;
  shape_keys : ∀ n, n ∈ dict_keys ledger → (0 <= n)%Z;
  shape_below : ∀ n, (0 <= n < count)%Z → n ∈ dict_keys ledger;
  shape_closed :
    ∀ n m, n ∈ dict_keys ledger → (0 <= m <= n)%Z → m ∈ dict_keys ledger
}.

(** A record is well formed: the customer arrived, then waited, then was
    served. *)
Definition record_ok (c : customer) : Prop :=
  0 <= arrival_time c ∧ arrival_time c <= service_start_time c ∧
  service_start_time c <= departure_time c.

Record trace_inv (s : sim_state) : Prop := {
  trace_records : Forall record_ok (customer_stats s);
  trace_started :
    Forall (λ c, service_start_time c <= current_time s) (customer_stats s);
  trace_queue : Forall (λ a, 0 <= a ∧ a <= current_time s) (queue s)
}.

(** All of them. *)
Record sim_inv (s : sim_state) : Prop := {
  inv_clock : clock_inv s;
  inv_population : population_inv s;
  inv_ledger : ledger_inv s;
  inv_trace : trace_inv s
}.

(** ** Tactics *)

(** [inv_facts] opens the invariant records of the context and rewrites
    with the equations between pending times that [event_facts] found. *)
Ltac inv_facts :=
  repeat match goal with
  | H : sim_inv _ |- _ => destruct H
  | H : clock_inv _ |- _ => destruct H
  | H : population_inv _ |- _ => destruct H
  | H : trace_inv _ |- _ => destruct H
  | H : _ ∧ _ |- _ => destruct H
  end;
  unfold in_system in *;
  event_facts;
  repeat match goal with
  | H : next_departure_time ?s = Fin _ |- _ => rewrite H in *
  | H : server_busy ?s = _ |- _ => rewrite H in *
  | H : queue ?s = _ |- _ => rewrite H in *
  end;
  simpl in *.

(** [inv_solve] closes a field of an invariant after a transition: it
    rewrites the goal with what is known of the server and the line, and
    hands the rest to the arithmetic procedures. *)
Ltac inv_solve :=
  simpl in *;
  repeat match goal with
  | H : server_busy ?s = _ |- context [server_busy ?s] => rewrite H
  | H : queue ?s = _ |- context [queue ?s] => rewrite H
  | H : next_departure_time ?s = _ |- context [next_departure_time ?s] =>
      rewrite H
  end;
  rewrite ?length_app; simpl in *;
  first [done | lra | lia | congruence].

(** ** The clock *)

(** Time does not go backwards. *)
Lemma transition_time_mono s s' :
  clock_inv s → transition s s' → current_time s <= current_time s'.
Proof. intros Hc Ht. destruct Ht; inv_facts; lra. Qed.

Lemma clock_invariant : invariant_under (λ _, True) clock_inv.
Proof.
  split.
  - intros s [first Hfirst]. split; simpl; (done || lra).
  - intros s s' _ Hc Ht.
    destruct Ht; inv_facts; split; inv_solve.
Qed.

(** ** The population *)

Lemma population_invariant : invariant_under clock_inv population_inv.
Proof.
  split.
  - intros s [first Hfirst]. split; simpl; done.
  - intros s s' Hc Hp Ht.
    destruct Ht; inv_facts; split; unfold in_system in *; inv_solve.
Qed.

Lemma population_nonneg s : population_inv s → (0 <= current_state s)%Z.
Proof.
  intros [Hcount _]. rewrite Hcount. unfold in_system.
  destruct (server_busy s); lia.
Qed.

(** A departure is only processed with the server busy, so the count it
    decrements is positive. *)
Lemma departure_population_pos s now :
  clock_inv s → population_inv s → next_event s = Departure now →
  (1 <= current_state s)%Z.
Proof.
  intros Hc [Hcount _] Hev. rewrite Hcount. unfold in_system.
  destruct Hc. event_facts.
  replace (server_busy s) with true; [lia |].
  rewrite clock_busy0. now replace (next_departure_time s) with (Fin now).
Qed.

(** ** The ledger *)

Section ledger.
Implicit Types (s : sim_state) (now : Q).

(** What the update that opens a branch does to the ledger. *)
Lemma ledger_at_wf s now : dict_wf (state_time s) → dict_wf (ledger_at s now).
Proof. apply dict_add_wf. Qed.

Lemma ledger_at_total s now :
  py_sum (dict_values (state_time s)) == last_event_time s →
  py_sum (dict_values (ledger_at s now)) == now.
Proof.
  unfold ledger_at, dict_values. intros Hsum. rewrite dict_add_sum, Hsum. lra.
Qed.

Lemma ledger_at_nonneg s now :
  last_event_time s <= now →
  Forall (Qle 0) (dict_values (state_time s)) →
  Forall (Qle 0) (dict_values (ledger_at s now)).
Proof. intros Hle. apply dict_add_nonneg. lra. Qed.

Lemma ledger_at_keys s now n :
  n ∈ dict_keys (ledger_at s now) ↔
  n = current_state s ∨ n ∈ dict_keys (state_time s).
Proof. apply dict_add_keys. Qed.

Lemma ledger_inv_shape s :
  ledger_inv s → ledger_shape (state_time s) (current_state s).
Proof. now intros [Hwf _ _ Hkeys Hbelow Hclosed]. Qed.

(** The update keeps the shape, for a count that grew by at most one. *)
Lemma ledger_at_shape s now count :
  ledger_shape (state_time s) (current_state s) →
  (0 <= current_state s)%Z → (count <= current_state s + 1)%Z →
  ledger_shape (ledger_at s now) count.
Proof.
  intros [Hwf Hkeys Hbelow Hclosed] Hpos Hcount.
  assert (∀ m, (0 <= m <= current_state s)%Z → m ∈ dict_keys (ledger_at s now))
    as Hupto.
  { intros m Hm. apply ledger_at_keys.
    destruct (decide (m = current_state s)) as [-> | Hne]; [now left | right].
    apply Hbelow. lia. }
  split.
  - now apply ledger_at_wf.
  - intros n [-> | Hn]%ledger_at_keys; [done | now apply Hkeys].
  - intros n Hn. apply Hupto. lia.
  - intros n m [-> | Hn]%ledger_at_keys Hm; [now apply Hupto |].
    apply ledger_at_keys. right. eapply Hclosed; done.
Qed.

(** The ledger part of a transition to a state with count [k'], at time
    [now], from a state with count [k]: [k'] is [k+1] or [k-1]. *)
Lemma ledger_inv_update s s' now :
  ledger_inv s →
  (0 <= current_state s)%Z →
  last_event_time s <= now →
  state_time s' = ledger_at s now →
  last_event_time s' = now →
  (current_state s' <= current_state s + 1)%Z →
  ledger_inv s'.
Proof.
  intros Hl Hpos Hle Hst Hlast Hcount.
  destruct (ledger_at_shape s now (current_state s') (ledger_inv_shape s Hl))
    as [Hwf' Hkeys' Hbelow' Hclosed']; [done.. |].
  destruct Hl as [Hwf Htot Hnn _ _ _].
  split; rewrite ?Hst, ?Hlast; [done | | | done..].
  - now apply ledger_at_total.
  - now apply ledger_at_nonneg.
Qed.

End ledger.

Lemma ledger_invariant :
  invariant_under (λ s, clock_inv s ∧ population_inv s) ledger_inv.
Proof.
  split.
  - intros s [first Hfirst]. split; simpl.
    + apply NoDup_singleton.
    + vm_compute. done.
    + repeat constructor. done.
    + intros n ->%list_elem_of_singleton. done.
    + intros n Hn. lia.
    + intros n m ->%list_elem_of_singleton Hm.
      apply list_elem_of_singleton. lia.
  - intros s s' [Hc Hp] Hl Ht.
    pose proof (population_nonneg s Hp) as Hpos.
    pose proof (transition_time_mono s s' Hc Ht) as Hmono.
    destruct Hc as [Hlast _ _ _ _ _ _].
    destruct Ht; (eapply ledger_inv_update; [done | done | | reflexivity | reflexivity |]);
      simpl in *; rewrite ?Hlast; (lra || lia).
Qed.

(** ** The trace *)

Lemma trace_invariant : invariant_under clock_inv trace_inv.
Proof.
  split.
  - intros s [first Hfirst]. split; simpl; constructor.
  - intros s s' Hc Htr Ht.
    pose proof (transition_time_mono s s' Hc Ht) as Hmono.
    destruct Htr as [Hrec Hstart Hq].
    assert (Forall (λ c, service_start_time c <= current_time s')
              (customer_stats s)) as Hstart'.
    { eapply Forall_impl; [done |]. simpl. intros c Hc'. lra. }
    assert (Forall (λ a, 0 <= a ∧ a <= current_time s') (queue s)) as Hq'.
    { eapply Forall_impl; [done |]. simpl. intros a Ha. lra. }
    destruct Ht; inv_facts; split; simpl in *;
      repeat match goal with
      | H : queue ?s = _ |- context [queue ?s] => rewrite H
      end;
      rewrite ?Forall_app, ?Forall_singleton, ?Forall_cons in *;
      unfold record_ok; simpl; repeat split; (done || lra || tauto).
Qed.

(** ** Every valid state satisfies the invariants *)

Lemma valid_clock_inv s : valid s → clock_inv s.
Proof. apply (invariant_valid _ _ clock_invariant). done. Qed.

Lemma valid_population_inv s : valid s → population_inv s.
Proof. apply (invariant_valid _ _ population_invariant), valid_clock_inv. Qed.

Lemma valid_ledger_inv s : valid s → ledger_inv s.
Proof.
  apply (invariant_valid _ _ ledger_invariant).
  intros s' Hs'. split; [now apply valid_clock_inv | now apply valid_population_inv].
Qed.

Lemma valid_trace_inv s : valid s → trace_inv s.
Proof. apply (invariant_valid _ _ trace_invariant), valid_clock_inv. Qed.

Lemma valid_sim_inv s : valid s → sim_inv s.
Proof.
  intros Hs. split;
    [now apply valid_clock_inv | now apply valid_population_inv
    | now apply valid_ledger_inv | now apply valid_trace_inv].
Qed.

(** ** And so does every state the executable loop reaches *)

Section reachable.
Context {G : Type} `{SampleSource G}.
Variables arrival_rate service_rate : Q.

Lemma reachable_sim_inv T s (w : world G) :
  reachable arrival_rate service_rate T s w → sim_inv s.
Proof. intros Hr. eapply valid_sim_inv, reachable_valid. done. Qed.

(** The loop's result satisfies the invariants. *)
Lemma event_loop_sim_inv fuel T s w s' (w' : world G) :
  reachable arrival_rate service_rate T s w →
  event_loop arrival_rate service_rate fuel T s w = Ok (s', w') →
  sim_inv s'.
Proof.
  intros Hr Hloop. eapply reachable_sim_inv, event_loop_reachable; done.
Qed.

(** C3. At the head of every iteration the population counted by
    [current_state] is the length of the waiting line plus the customer in
    service, and an idle server has nobody waiting. *)
Theorem population_is_line_plus_server T s (w : world G) :
  reachable arrival_rate service_rate T s w →
  current_state s = in_system s ∧
  (server_busy s = false → queue s = [] ∧ current_state s = 0%Z).
Proof.
  intros [Hcount Hidle]%reachable_sim_inv%inv_population. split; [done |].
  intros Hbusy. rewrite Hcount. unfold in_system.
  rewrite Hbusy, (Hidle Hbusy). done.
Qed.

(** C4. At the head of every iteration the clock invariant holds: the
    clock is non-negative, the pending arrival and the pending departure
    are not in the past, the service in progress started in the past; and
    the departure sentinel is infinite exactly when the server is idle. *)
Theorem pending_events_in_future T s (w : world G) :
  reachable arrival_rate service_rate T s w →
  clock_inv s ∧ (next_departure_time s = PosInf ↔ server_busy s = false).
Proof.
  intros Hc%reachable_sim_inv%inv_clock. split; [done |].
  rewrite (clock_busy s Hc). destruct (next_departure_time s); naive_solver.
Qed.

(** C8. Simulated time never goes back: an iteration from a reachable
    state ends at a clock that is not earlier, the ledger is then up to
    date with the clock, and the clock invariant holds again. *)
Theorem time_never_goes_back T s (w : world G) s' w' :
  reachable arrival_rate service_rate T s w →
  step arrival_rate service_rate s w = Ok (s', w') →
  current_time s <= current_time s' ∧ last_event_time s' = current_time s' ∧
  clock_inv s'.
Proof.
  intros Hv%reachable_valid Hstep%step_refines.
  pose proof (valid_clock_inv s Hv) as Hc. split_and!.
  - now apply transition_time_mono.
  - now destruct Hstep.
  - eapply valid_clock_inv, valid_transition; done.
Qed.

(** C15. At the head of every iteration the ledger invariant holds (the
    ledger is a dictionary with distinct keys, which form an initial
    segment of the naturals containing every count below the current one,
    and its durations are non-negative) and the durations sum to the
    clock. *)
Theorem ledger_accounts_for_elapsed_time T s (w : world G) :
  reachable arrival_rate service_rate T s w →
  ledger_inv s ∧ py_sum (dict_values (state_time s)) == current_time s.
Proof.
  intros Hinv%reachable_sim_inv. destruct Hinv as [Hc _ Hl _].
  split; [done |]. rewrite <- (clock_last_event s Hc). now destruct Hl.
Qed.

End reachable.

(** ** On the recorded run *)

Lemma population_is_line_plus_server_witness :
  current_state demo_queued.1 = in_system demo_queued.1 ∧
  (server_busy demo_queued.1 = false →
   queue demo_queued.1 = [] ∧ current_state demo_queued.1 = 0%Z).
Proof.
  exact (population_is_line_plus_server _ _ _ _ _ demo_queued_reachable).
Defined.

Lemma pending_events_in_future_witness :
  clock_inv demo_queued.1 ∧
  (next_departure_time demo_queued.1 = PosInf ↔ server_busy demo_queued.1 = false).
Proof. exact (pending_events_in_future _ _ _ _ _ demo_queued_reachable). Defined.

Lemma time_never_goes_back_witness :
  current_time demo_queued.1 <= current_time demo_next.1 ∧
  last_event_time demo_next.1 = current_time demo_next.1 ∧
  clock_inv demo_next.1.
Proof.
  exact (time_never_goes_back _ _ _ _ _ _ _ demo_queued_reachable demo_next_eq).
Defined.

Lemma ledger_accounts_for_elapsed_time_witness :
  ledger_inv demo_last.1 ∧
  py_sum (dict_values (state_time demo_last.1)) == current_time demo_last.1.
Proof.
  exact (ledger_accounts_for_elapsed_time _ _ _ _ _ demo_last_reachable).
Defined.

#[export] Hint Resolve valid_sim_inv valid_clock_inv valid_population_inv
  valid_ledger_inv valid_trace_inv population_nonneg : sim.
