(* ===== verification/Stats.v ===== *)
(** * The statistics reducer

    Lines 80-128 of [src/mm1_queue_simulation.py]: the reduction of the
    customer records and of the ledger to the dictionary the function
    returns.  [sim_result] has one field per key of that dictionary.
    [tally] is the body of the loop over [customer_stats]; [statistics] is
    the whole reduction, with the divisions by the horizon that can raise.
    The lemmas give each field in closed form. *)

From S2P Require Import Prelude PyRuntime XTime PyDict Sampler Engine.

#[local] Open Scope Q_scope.

(** ** The returned dictionary *)

Record sim_result : Type := SimResult {
  total_customers : nat;
  completed_customers : nat;
  total_system_time : Q;
  total_queue_time : Q;
  server_busy_time : Q;
  average_system_time : Q;
  average_queue_time : Q;
  server_utilization : Q;
  average_system_length : Q;
  average_queue_length : Q;
  state_probabilities : list (Z * Q)
}.

(** ** The reduction of the customer records *)

(** [departure_time <= simulation_time]: the customer completed service. *)
Definition completed (simulation_time : Q) (c : customer) : bool :=
  Qle_bool (departure_time c) simulation_time.

Definition system_time (c : customer) : Q := departure_time c - arrival_time c.
Definition queue_time (c : customer) : Q := service_start_time c - arrival_time c.
Definition service_time (c : customer) : Q :=
  departure_time c - service_start_time c.

(** The body of the loop of lines 91-97 on the accumulators
    [(system_times, queue_times, server_busy_time)]. *)
Definition tally (simulation_time : Q) (acc : list Q * list Q * Q) (c : customer)
  : list Q * list Q * Q :=
  let '(system_times, queue_times, busy) := acc in
  if completed simulation_time c then
    (system_times ++ [system_time c],
     queue_times ++ [queue_time c],
     busy + service_time c)
  else acc.

(** Lines 87-97. *)
Definition tally_all (simulation_time : Q) (stats : list customer)
  : list Q * list Q * Q :=
  fold_left (tally simulation_time) stats ([], [], 0).

(** Lines 99-101: the service in progress when the horizon is reached. *)
Definition add_partial_service (simulation_time : Q) (s : sim_state) (busy : Q) : Q :=
  if server_busy s && xgt_bool (next_departure_time s) (Fin simulation_time)
  then busy + (simulation_time - server_start_time s)
  else busy.

(** [np.mean(l) if l else 0] (lines 104-105). *)
Definition mean_or_zero (l : list Q) : Q :=
  match l with
  | [] => 0
  | _ :: _ => np_mean l
  end.

(** ** The reduction of the ledger *)

(** [sum(weight(n) * t for n, t in state_time.items())] (lines 110-111). *)
Definition weighted_time (weight : Z → Z) (ledger : list (Z * Q)) : Q :=
  py_sum ((λ nt, inject_Z (weight nt.1) * nt.2) <$> dict_items ledger).

(** [max(0, n-1)]: the customers of a population [n] that wait. *)
Definition waiting (n : Z) : Z := Z.max 0 (n - 1).

(** The pairs of the comprehension of line 114, each with its division. *)
Definition probability_items (simulation_time : Q) (ledger : list (Z * Q))
  : outcome (list (Z * Q)) :=
  mapM (λ nt, p ← py_div nt.2 simulation_time; mret (nt.1, p)) (dict_items ledger).

(** ** The reducer (lines 80-128) *)

Definition statistics (simulation_time : Q) (s : sim_state) : outcome sim_result :=
  let stats := customer_stats s in
  let '(system_times, queue_times, busy) := tally_all simulation_time stats in
  let busy_time := add_partial_service simulation_time s busy in
  utilization ← py_div busy_time simulation_time;
  avg_system_length ← py_div (weighted_time id (state_time s)) simulation_time;
  avg_queue_length ← py_div (weighted_time waiting (state_time s)) simulation_time;
  probabilities ← probability_items simulation_time (state_time s);
  mret {|
    total_customers := length stats;
    completed_customers := py_count (completed simulation_time) stats;
    total_system_time := py_sum system_times;
    total_queue_time := py_sum queue_times;
    server_busy_time := busy_time;
    average_system_time := mean_or_zero system_times;
    average_queue_time := mean_or_zero queue_times;
    server_utilization := utilization;
    average_system_length := avg_system_length;
    average_queue_length := avg_queue_length;
    state_probabilities := dict_of_items probabilities
  |}.

(** ** The loop over the records in closed form *)

Section tally_laws.
Variable T : Q.
Implicit Types (stats : list customer) (c : customer).

#[local] Abbreviation done_by := (λ c, completed T c = true).

Lemma tally_completed sys que busy c :
  completed T c = true →
  tally T (sys, que, busy) c =
  (sys ++ [system_time c], que ++ [queue_time c], busy + service_time c).
Proof. unfold tally. now intros ->. Qed.

Lemma tally_not_completed acc c : completed T c = false → tally T acc c = acc.
Proof. unfold tally. destruct acc as [[sys que] busy]. now intros ->. Qed.

Lemma tally_acc stats sys que busy :
  fold_left (tally T) stats (sys, que, busy) =
  (sys ++ (system_time <$> filter done_by stats),
   que ++ (queue_time <$> filter done_by stats),
   fold_left Qplus (service_time <$> filter done_by stats) busy).
Proof.
  revert sys que busy. induction stats as [| c stats IH]; intros sys que busy.
  - simpl. now rewrite !app_nil_r.
  - cbn [fold_left]. rewrite filter_cons.
    destruct (completed T c) eqn:Hc.
    + rewrite tally_completed, decide_True by done.
      rewrite IH, !fmap_cons, <- !app_assoc. done.
    + rewrite tally_not_completed, decide_False by (done || congruence).
      apply IH.
Qed.

(** The three accumulators are the maps of [system_time], [queue_time] and
    [service_time] over the completed records. *)
Lemma tally_all_eq stats :
  tally_all T stats =
  (system_time <$> filter done_by stats,
   queue_time <$> filter done_by stats,
   py_sum (service_time <$> filter done_by stats)).
Proof. unfold tally_all. now rewrite tally_acc. Qed.

Lemma py_count_completed stats :
  py_count (completed T) stats = length (filter done_by stats).
Proof. reflexivity. Qed.

(** The lists of times hold one entry per completed customer. *)
Lemma tally_all_lengths stats sys que busy :
  tally_all T stats = (sys, que, busy) →
  length sys = py_count (completed T) stats ∧
  length que = py_count (completed T) stats.
Proof.
  rewrite tally_all_eq. intros [= <- <- _].
  now rewrite !length_fmap, py_count_completed.
Qed.

End tally_laws.

(** ** The reducer in closed form *)

Lemma probability_items_Ok T ledger :
  ¬ T == 0 →
  probability_items T ledger = Ok (dict_map_values (λ t, t / T) ledger).
Proof.
  intros HT. unfold probability_items, dict_items, dict_map_values.
  apply outcome_mapM_Ok, Forall_forall. intros [n t] _. simpl.
  now rewrite py_div_Ok.
Qed.

Lemma probability_items_zero T ledger :
  T == 0 → ledger ≠ [] → probability_items T ledger = Raise ZeroDivisionError.
Proof.
  intros HT Hl. destruct ledger as [| [n t] ledger]; [done |].
  unfold probability_items, dict_items. apply outcome_mapM_Raise.
  simpl. now rewrite py_div_zero.
Qed.

(** With a non-zero horizon the reducer returns, whatever the ledger; the
    probabilities are the comprehension of line 114 over its items. *)
Lemma statistics_nonzero T s :
  ¬ T == 0 →
  let done_by := filter (λ c, completed T c = true) (customer_stats s) in
  let busy := add_partial_service T s (py_sum (service_time <$> done_by)) in
  statistics T s = Ok {|
    total_customers := length (customer_stats s);
    completed_customers := length done_by;
    total_system_time := py_sum (system_time <$> done_by);
    total_queue_time := py_sum (queue_time <$> done_by);
    server_busy_time := busy;
    average_system_time := mean_or_zero (system_time <$> done_by);
    average_queue_time := mean_or_zero (queue_time <$> done_by);
    server_utilization := busy / T;
    average_system_length := weighted_time id (state_time s) / T;
    average_queue_length := weighted_time waiting (state_time s) / T;
    state_probabilities :=
      dict_of_items (dict_map_values (λ t, t / T) (state_time s))
  |}.
Proof.
  intros HT. unfold statistics. rewrite tally_all_eq.
  rewrite !py_div_Ok, probability_items_Ok by done. done.
Qed.

(** With a non-zero horizon the reducer returns, and every field has the
    value the code computes for it. *)
Lemma statistics_Ok T s :
  ¬ T == 0 → dict_wf (state_time s) →
  let done_by := filter (λ c, completed T c = true) (customer_stats s) in
  let busy := add_partial_service T s (py_sum (service_time <$> done_by)) in
  statistics T s = Ok {|
    total_customers := length (customer_stats s);
    completed_customers := length done_by;
    total_system_time := py_sum (system_time <$> done_by);
    total_queue_time := py_sum (queue_time <$> done_by);
    server_busy_time := busy;
    average_system_time := mean_or_zero (system_time <$> done_by);
    average_queue_time := mean_or_zero (queue_time <$> done_by);
    server_utilization := busy / T;
    average_system_length := weighted_time id (state_time s) / T;
    average_queue_length := weighted_time waiting (state_time s) / T;
    state_probabilities := dict_map_values (λ t, t / T) (state_time s)
  |}.
Proof.
  intros HT Hwf. unfold statistics. rewrite tally_all_eq.
  rewrite !py_div_Ok, probability_items_Ok by done. cbn.
  rewrite dict_of_items_NoDup; [done |].
  now rewrite dict_map_values_keys.
Qed.

(** With a zero horizon the first division raises (line 106). *)
Lemma statistics_zero T s : T == 0 → statistics T s = Raise ZeroDivisionError.
Proof.
  intros HT. unfold statistics.
  destruct (tally_all T (customer_stats s)) as [[sys que] busy].
  rewrite !py_div_zero by done. reflexivity.
Qed.

Lemma statistics_not_OutOfFuel T s : statistics T s ≠ OutOfFuel.
Proof.
  unfold statistics. destruct (tally_all T (customer_stats s)) as [[sys que] busy].
  destruct (decide (T == 0)) as [HT | HT].
  - rewrite !py_div_zero by done. done.
  - rewrite !py_div_Ok, probability_items_Ok by done. done.
Qed.

(** ** Facts about the fields *)

Lemma mean_or_zero_nil : mean_or_zero [] = 0.
Proof. reflexivity. Qed.

Lemma mean_or_zero_nonneg (l : list Q) : Forall (Qle 0) l → 0 <= mean_or_zero l.
Proof.
  intros Hl. destruct l as [| x l]; [done |]. unfold mean_or_zero, np_mean.
  apply Qdiv_nonneg; [now apply py_sum_nonneg | now apply py_len_pos].
Qed.

(** The mean times the number of entries is their sum. *)
Lemma mean_or_zero_total (l : list Q) : mean_or_zero l * py_len l == py_sum l.
Proof.
  destruct l as [| x l]; [vm_compute; reflexivity |]. unfold mean_or_zero, np_mean.
  apply Qdiv_mult_cancel. pose proof (py_len_pos (x :: l) ltac:(done)). lra.
Qed.

(** Means of two quantities over the same records compare as the
    quantities do. *)
Lemma mean_or_zero_fmap_le {A} (f g : A → Q) (l : list A) :
  Forall (λ a, f a <= g a) l →
  mean_or_zero (f <$> l) <= mean_or_zero (g <$> l).
Proof.
  intros Hl. destruct l as [| a l]; [done |].
  rewrite !fmap_cons. unfold mean_or_zero, np_mean, py_len. simpl length.
  rewrite !length_fmap. apply Qdiv_le_mono.
  - change 0 with (inject_Z 0). rewrite <- Zlt_Qlt. lia.
  - rewrite <- !fmap_cons. now apply py_sum_fmap_le.
Qed.

Lemma mean_or_zero_fmap_nonneg {A} (f : A → Q) (l : list A) :
  Forall (λ a, 0 <= f a) l → 0 <= mean_or_zero (f <$> l).
Proof. intros Hl. apply mean_or_zero_nonneg. now rewrite Forall_fmap. Qed.

Lemma weighted_time_cons (weight : Z → Z) n t ledger :
  weighted_time weight ((n, t) :: ledger) ==
  inject_Z (weight n) * t + weighted_time weight ledger.
Proof. unfold weighted_time, dict_items. rewrite fmap_cons. apply py_sum_cons. Qed.

Lemma weighted_time_nil (weight : Z → Z) : weighted_time weight [] = 0.
Proof. reflexivity. Qed.

(** The probabilities are the ledger entries divided by the horizon, so
    they sum to the ledger total over the horizon. *)
Lemma probabilities_sum T (ledger : list (Z * Q)) :
  py_sum (dict_values (dict_map_values (λ t, t / T) ledger)) ==
  py_sum (dict_values ledger) / T.
Proof.
  unfold dict_values. rewrite dict_map_values_values. apply py_sum_div.
Qed.

(** ** What a returned result says *)

(** Every field of a returned result, and the horizon is then non-zero. *)
Lemma statistics_inv T s r :
  statistics T s = Ok r →
  let done_by := filter (λ c, completed T c = true) (customer_stats s) in
  ¬ T == 0 ∧
  total_customers r = length (customer_stats s) ∧
  completed_customers r = length done_by ∧
  total_system_time r = py_sum (system_time <$> done_by) ∧
  total_queue_time r = py_sum (queue_time <$> done_by) ∧
  average_system_time r = mean_or_zero (system_time <$> done_by) ∧
  average_queue_time r = mean_or_zero (queue_time <$> done_by) ∧
  server_busy_time r =
    add_partial_service T s (py_sum (service_time <$> done_by)) ∧
  server_utilization r = server_busy_time r / T ∧
  average_system_length r = weighted_time id (state_time s) / T ∧
  average_queue_length r = weighted_time waiting (state_time s) / T.
Proof.
  intros Hstat. destruct (decide (T == 0)) as [HT | HT].
  { now rewrite statistics_zero in Hstat. }
  unfold statistics in Hstat. rewrite tally_all_eq in Hstat.
  rewrite !py_div_Ok, probability_items_Ok in Hstat by done.
  injection Hstat as <-. simpl. done.
Qed.

(** C14. In a returned result no more customers completed than arrived,
    each average time multiplied by the number of completed customers is
    the corresponding total, and the utilization multiplied by the horizon
    is the busy time. *)
Theorem averages_are_totals_over_completed T s r :
  statistics T s = Ok r →
  (completed_customers r ≤ total_customers r)%nat ∧
  average_system_time r * inject_Z (Z.of_nat (completed_customers r))
    == total_system_time r ∧
  average_queue_time r * inject_Z (Z.of_nat (completed_customers r))
    == total_queue_time r ∧
  server_utilization r * T == server_busy_time r.
Proof.
  intros (HT & -> & -> & -> & -> & -> & -> & _ & -> & _)%statistics_inv.
  split_and!.
  - apply length_filter.
  - rewrite <- (length_fmap system_time). apply mean_or_zero_total.
  - rewrite <- (length_fmap queue_time). apply mean_or_zero_total.
  - now apply Qdiv_mult_cancel.
Qed.

(** When no customer completed before the horizon, the totals and the
    averages of the times are zero: the empty mean is guarded. *)
Theorem no_completion_zero_averages T s r :
  statistics T s = Ok r → completed_customers r = 0%nat →
  total_system_time r = 0 ∧ total_queue_time r = 0 ∧
  average_system_time r = 0 ∧ average_queue_time r = 0.
Proof.
  intros (_ & _ & -> & -> & -> & -> & -> & _)%statistics_inv.
  intros ->%nil_length_inv. done.
Qed.

(** The total time in the system is the total time in the queue plus
    the total service time of the completed customers. *)
Theorem system_time_is_queue_plus_service T s r :
  statistics T s = Ok r →
  total_system_time r ==
  total_queue_time r +
  py_sum (service_time <$> filter (λ c, completed T c = true) (customer_stats s)).
Proof.
  intros (_ & _ & _ & -> & -> & _)%statistics_inv.
  rewrite <- py_sum_fmap_plus. apply py_sum_fmap_ext.
  intros c. unfold system_time, queue_time, service_time. lra.
Qed.

(** ** On the recorded run *)

Definition demo_result : sim_result := Eval vm_compute in
  match statistics 3 (final_update 3 demo_last.1) with
  | Ok r => r
  | _ => SimResult 0 0 0 0 0 0 0 0 0 0 []
  end.

Lemma demo_result_eq : statistics 3 (final_update 3 demo_last.1) = Ok demo_result.
Proof. vm_compute. reflexivity. Qed.

Lemma averages_are_totals_over_completed_witness :
  (completed_customers demo_result ≤ total_customers demo_result)%nat ∧
  average_system_time demo_result * inject_Z (Z.of_nat (completed_customers demo_result))
    == total_system_time demo_result ∧
  average_queue_time demo_result * inject_Z (Z.of_nat (completed_customers demo_result))
    == total_queue_time demo_result ∧
  server_utilization demo_result * 3 == server_busy_time demo_result.
Proof. exact (averages_are_totals_over_completed _ _ _ demo_result_eq). Defined.

Lemma no_completion_zero_averages_witness :
  ∃ r, statistics 3 (initial_state 5) = Ok r ∧
       total_system_time r = 0 ∧ total_queue_time r = 0 ∧
       average_system_time r = 0 ∧ average_queue_time r = 0.
Proof.
  eexists. split; [vm_compute; reflexivity |].
  apply (no_completion_zero_averages 3 (initial_state 5)); reflexivity.
Defined.

Lemma system_time_is_queue_plus_service_witness :
  total_system_time demo_result ==
  total_queue_time demo_result +
  py_sum (service_time <$>
          filter (λ c, completed 3 c = true) (customer_stats (final_update 3 demo_last.1))).
Proof. exact (system_time_is_queue_plus_service _ _ _ demo_result_eq). Defined.
