(* ===== verification/Simulate.v ===== *)
(** * The entry point [simulate_mm1_queue]

    Lines 5-128 of [src/mm1_queue_simulation.py] as one computation of the
    [sim] monad: reseed when a seed is given, initialise, run the loop,
    close the ledger at the horizon, reduce.  The first argument is the fuel
    of the loop.  The theorems of this file are about every run that
    returns: the ledger sums to the horizon, the probabilities to one, the
    records are ordered; and about the runs that raise.  numpy rejects a
    seed outside [0, 2**32 - 1] at line 7, so the theorems about what
    happens after that line assume [seed_ok], which holds of [None] and of
    the integers of that range. *)

From S2P Require Import Prelude PyRuntime XTime PyDict Sampler Engine Spec.
From S2P Require Import Invariants Stats.

#[local] Open Scope Q_scope.

Section simulate.
Context {G : Type} `{SampleSource G}.

(** [if seed is not None: np.random.seed(seed); random.seed(seed)]
    (lines 6-8). *)
Definition seed_generators (seed : option Z) : sim G unit :=
  match seed with
  | Some z => _ ← np_random_seed z; random_seed z
  | None => mret tt
  end.

(** The state at line 80: the loop's last state with the ledger closed at
    the horizon (lines 10-78). *)
Definition run_to_horizon (fuel : nat) (arrival_rate service_rate simulation_time : Q)
  : sim G sim_state :=
  s0 ← init_state arrival_rate;
  s ← event_loop arrival_rate service_rate fuel simulation_time s0;
  mret (final_update simulation_time s).

Definition simulate_mm1_queue (fuel : nat)
  (arrival_rate service_rate simulation_time : Q) (seed : option Z)
  : sim G sim_result :=
  _ ← seed_generators seed;
  s ← run_to_horizon fuel arrival_rate service_rate simulation_time;
  sim_lift (statistics simulation_time s).

(** The seeds the call accepts: none, or an integer of numpy's range. *)
Definition seed_ok (seed : option Z) : Prop :=
  match seed with
  | Some z => numpy_seed_ok z
  | None => True
  end.

#[export] Instance seed_ok_dec seed : Decision (seed_ok seed).
Proof. destruct seed; apply _. Defined.

(** The world after the reseeding with an accepted seed. *)
Definition seeded_world (seed : option Z) (w : world G) : world G :=
  match seed with
  | Some z => World (np_seed z) (Some z)
  | None => w
  end.

(** ** Decomposition of a run *)

Implicit Types (w : world G) (s : sim_state) (r : sim_result).

(** The seed of the main block and of the analysis script is accepted. *)
Lemma seed_ok_42 : seed_ok (Some 42%Z).
Proof. by vm_compute. Qed.

Lemma seed_generators_eq seed w :
  seed_ok seed → seed_generators seed w = Ok (tt, seeded_world seed w).
Proof.
  destruct seed as [z |]; [| done]. intros Hz. unfold seed_generators.
  by rewrite (sim_bind_eq _ _ _ _ _ (np_random_seed_Ok z w Hz)).
Qed.

(** A seed outside numpy's range is refused at line 7, before the
    [random] module is seeded. *)
Lemma seed_generators_invalid seed w :
  ¬ seed_ok seed → seed_generators seed w = Raise ValueError.
Proof.
  destruct seed as [z |]; [| done]. intros Hz. unfold seed_generators.
  unfold mbind, sim_bind. by rewrite np_random_seed_Raise.
Qed.

Lemma seed_generators_Ok seed w w' :
  seed_generators seed w = Ok (tt, w') ↔ seed_ok seed ∧ w' = seeded_world seed w.
Proof.
  destruct (decide (seed_ok seed)) as [Hs | Hs].
  - rewrite seed_generators_eq by done. naive_solver.
  - rewrite seed_generators_invalid by done. naive_solver.
Qed.

Lemma simulate_unfold fuel lam mu T seed w :
  seed_ok seed →
  simulate_mm1_queue fuel lam mu T seed w =
  (s ← run_to_horizon fuel lam mu T; sim_lift (statistics T s)) (seeded_world seed w).
Proof.
  intros Hs. unfold simulate_mm1_queue.
  now rewrite (sim_bind_eq _ _ _ _ _ (seed_generators_eq seed w Hs)).
Qed.

Lemma simulate_invalid_seed fuel lam mu T seed w :
  ¬ seed_ok seed → simulate_mm1_queue fuel lam mu T seed w = Raise ValueError.
Proof.
  intros Hs. unfold simulate_mm1_queue, mbind, sim_bind.
  by rewrite seed_generators_invalid.
Qed.

(** A call that returns or runs out of fuel was given an accepted seed. *)
Lemma simulate_seed_ok fuel lam mu T seed w :
  simulate_mm1_queue fuel lam mu T seed w ≠ Raise ValueError → seed_ok seed.
Proof.
  intros Hne. destruct (decide (seed_ok seed)) as [| Hs]; [done |].
  by rewrite simulate_invalid_seed in Hne.
Qed.

(** A run that reaches line 80 went through the loop and left it in a
    reachable state at or after the horizon. *)
Lemma run_to_horizon_Ok fuel lam mu T w s w' :
  run_to_horizon fuel lam mu T w = Ok (s, w') →
  ∃ s1, reachable lam mu T s1 w' ∧ T <= current_time s1 ∧ s = final_update T s1.
Proof.
  unfold run_to_horizon. intros Hrun. sim_inv Hrun. subst.
  eexists. split_and!; [| eapply event_loop_Ok_exit; done | done].
  eapply event_loop_reachable; [| done]. eapply reachable_init. done.
Qed.

Lemma simulate_Ok fuel lam mu T seed w r w' :
  simulate_mm1_queue fuel lam mu T seed w = Ok (r, w') →
  ∃ s, run_to_horizon fuel lam mu T (seeded_world seed w) = Ok (s, w') ∧
       statistics T s = Ok r.
Proof.
  intros Hsim. rewrite simulate_unfold in Hsim.
  - sim_inv Hsim. subst. eauto.
  - apply (simulate_seed_ok fuel lam mu T seed w). by rewrite Hsim.
Qed.

Lemma simulate_Ok_seed fuel lam mu T seed w r w' :
  simulate_mm1_queue fuel lam mu T seed w = Ok (r, w') → seed_ok seed.
Proof. intros Hsim. apply (simulate_seed_ok fuel lam mu T seed w). by rewrite Hsim. Qed.

(** The final update keeps the ledger well formed and closes it at the
    horizon. *)
Lemma final_update_ledger T s :
  ledger_inv s →
  dict_wf (state_time (final_update T s)) ∧
  py_sum (dict_values (state_time (final_update T s))) == T.
Proof.
  intros [Hwf Htot _ _ _ _]. split; [now apply ledger_at_wf |].
  now apply ledger_at_total.
Qed.

Lemma run_to_horizon_ledger fuel lam mu T w s w' :
  run_to_horizon fuel lam mu T w = Ok (s, w') →
  dict_wf (state_time s) ∧ py_sum (dict_values (state_time s)) == T.
Proof.
  intros (s1 & Hreach & _ & ->)%run_to_horizon_Ok.
  apply final_update_ledger. eapply inv_ledger, reachable_sim_inv. done.
Qed.

(** The ledger of a run that reaches the reducer has the shape of a ledger
    and is not empty. *)
Lemma run_to_horizon_shape fuel lam mu T w s w' :
  run_to_horizon fuel lam mu T w = Ok (s, w') →
  ledger_shape (state_time s) (current_state s) ∧ state_time s ≠ [].
Proof.
  intros (s1 & Hreach & _ & ->)%run_to_horizon_Ok.
  apply reachable_sim_inv in Hreach as [_ Hp Hl _]. simpl. split.
  - apply ledger_at_shape;
      [now apply ledger_inv_shape | now apply population_nonneg | lia].
  - intros Hnil.
    assert (current_state s1 ∈ dict_keys (ledger_at s1 T)) as Hin
      by (apply ledger_at_keys; now left).
    rewrite Hnil in Hin. now apply elem_of_nil in Hin.
Qed.

(** A run that returns has a non-zero horizon, and its result is the
    closed form of [Stats.statistics_Ok]. *)
Lemma simulate_Ok_horizon fuel lam mu T seed w r w' :
  simulate_mm1_queue fuel lam mu T seed w = Ok (r, w') → ¬ T == 0.
Proof.
  intros (s & _ & Hstat)%simulate_Ok HT.
  now rewrite statistics_zero in Hstat.
Qed.

Lemma simulate_Ok_result fuel lam mu T seed w r w' :
  simulate_mm1_queue fuel lam mu T seed w = Ok (r, w') →
  ∃ s, run_to_horizon fuel lam mu T (seeded_world seed w) = Ok (s, w') ∧
       state_probabilities r = dict_map_values (λ t, t / T) (state_time s) ∧
       total_customers r = length (customer_stats s) ∧
       completed_customers r = py_count (completed T) (customer_stats s).
Proof.
  intros Hsim. pose proof (simulate_Ok_horizon _ _ _ _ _ _ _ _ Hsim) as HT.
  apply simulate_Ok in Hsim as (s & Hrun & Hstat). exists s. split; [done |].
  destruct (run_to_horizon_ledger _ _ _ _ _ _ _ Hrun) as [Hwf _].
  rewrite statistics_Ok in Hstat by done. now injection Hstat as <-.
Qed.

(** The probabilities are the ledger over the horizon, and the ledger sums
    to the horizon. *)
Lemma simulate_probabilities_total fuel lam mu T seed w r w' :
  simulate_mm1_queue fuel lam mu T seed w = Ok (r, w') →
  py_sum (dict_values (state_probabilities r)) == 1.
Proof.
  intros Hsim. pose proof (simulate_Ok_horizon _ _ _ _ _ _ _ _ Hsim) as HT.
  apply simulate_Ok_result in Hsim as (s & Hrun & -> & _).
  apply run_to_horizon_ledger in Hrun as [_ Hsum].
  rewrite probabilities_sum, Hsum. now apply Qdiv_self.
Qed.

(** ** The ledger and the probabilities *)

(** C1. Whatever the rates, the horizon, the generator and the fuel, when
    the run reaches the reducer the entries of [state_time] sum to the
    horizon: the final update of line 78 clips the ledger to it even when
    the last event overshoots. *)
Theorem ledger_sums_to_horizon fuel lam mu T w s w' :
  run_to_horizon fuel lam mu T w = Ok (s, w') →
  py_sum (dict_values (state_time s)) == T.
Proof. intros Hrun. now apply run_to_horizon_ledger in Hrun. Qed.

(** C2. The state probabilities of every returned result sum to one. *)
Theorem probabilities_sum_to_one fuel lam mu T seed w r w' :
  simulate_mm1_queue fuel lam mu T seed w = Ok (r, w') →
  py_sum (dict_values (state_probabilities r)) == 1.
Proof. apply simulate_probabilities_total. Qed.

(** ** The records *)

(** C7. In every run that reaches the reducer, each customer record has
    [0 <= arrival_time <= service_start_time <= departure_time]: the time
    in the queue is non-negative and the time in the system is at least the
    time in the queue. *)
Theorem records_are_ordered fuel lam mu T w s w' :
  run_to_horizon fuel lam mu T w = Ok (s, w') →
  Forall (λ c, 0 <= arrival_time c ∧ 0 <= queue_time c ∧
               queue_time c <= system_time c) (customer_stats s).
Proof.
  intros (s1 & Hreach & _ & ->)%run_to_horizon_Ok. simpl.
  apply reachable_sim_inv, inv_trace, trace_records in Hreach.
  eapply Forall_impl; [done |].
  unfold record_ok, queue_time, system_time. intros c Hc. lra.
Qed.

Lemma completed_records_ok fuel lam mu T w s w' :
  run_to_horizon fuel lam mu T w = Ok (s, w') →
  Forall record_ok (filter (λ c, completed T c = true) (customer_stats s)).
Proof.
  intros (s1 & Hreach & _ & ->)%run_to_horizon_Ok. simpl.
  apply reachable_sim_inv, inv_trace, trace_records in Hreach.
  now apply Forall_filter_keep.
Qed.

(** In every returned result the total and the average time in the
    queue are non-negative and at most the total and the average time in
    the system. *)
Theorem queue_times_within_system_times fuel lam mu T seed w r w' :
  simulate_mm1_queue fuel lam mu T seed w = Ok (r, w') →
  0 <= total_queue_time r ∧ total_queue_time r <= total_system_time r ∧
  0 <= average_queue_time r ∧ average_queue_time r <= average_system_time r.
Proof.
  intros (s & Hrun & Hstat)%simulate_Ok.
  apply completed_records_ok in Hrun.
  apply statistics_inv in Hstat as (_ & _ & _ & -> & -> & -> & -> & _).
  assert (Forall (λ c, 0 <= queue_time c) (filter (λ c, completed T c = true)
            (customer_stats s))) as Hq.
  { eapply Forall_impl; [exact Hrun |].
    unfold record_ok, queue_time. intros c Hc. lra. }
  assert (Forall (λ c, queue_time c <= system_time c)
            (filter (λ c, completed T c = true) (customer_stats s))) as Hqs.
  { eapply Forall_impl; [exact Hrun |].
    unfold record_ok, queue_time, system_time. intros c Hc. lra. }
  split_and!; auto using py_sum_fmap_nonneg, py_sum_fmap_le,
    mean_or_zero_fmap_nonneg, mean_or_zero_fmap_le.
Qed.

(** ** Runs that raise *)

Lemma init_state_eq lam w first w' :
  exponential_of_rate lam w = Ok (first, w') →
  init_state lam w = Ok (initial_state first, w').
Proof. intros Hfirst. unfold init_state. now rewrite (sim_bind_eq _ _ _ _ _ Hfirst). Qed.

Lemma init_state_Raise lam w e :
  exponential_of_rate lam w = Raise e → init_state lam w = Raise e.
Proof. intros He. unfold init_state. apply sim_bind_Raise. now left. Qed.

Lemma run_to_horizon_Raise_init fuel lam mu T w e :
  exponential_of_rate lam w = Raise e → run_to_horizon fuel lam mu T w = Raise e.
Proof.
  intros He. unfold run_to_horizon. apply sim_bind_Raise. left.
  now apply init_state_Raise.
Qed.

Lemma simulate_Raise_run fuel lam mu T seed w e :
  seed_ok seed →
  run_to_horizon fuel lam mu T (seeded_world seed w) = Raise e →
  simulate_mm1_queue fuel lam mu T seed w = Raise e.
Proof.
  intros Hs He. rewrite simulate_unfold by done. apply sim_bind_Raise. now left.
Qed.

(** C9. With a seed that numpy accepts, a non-positive arrival rate makes
    the call raise at the first draw (line 24), before the loop:
    [ZeroDivisionError] for a zero rate, numpy's [ValueError] for a
    negative one. *)
Theorem invalid_arrival_rate_raises fuel lam mu T seed w :
  seed_ok seed → lam <= 0 →
  simulate_mm1_queue fuel lam mu T seed w =
  Raise (if Qeq_bool lam 0 then ZeroDivisionError else ValueError).
Proof.
  intros Hs Hle. apply simulate_Raise_run, run_to_horizon_Raise_init; [done |].
  case_qeq lam 0.
  - now apply exponential_of_rate_zero.
  - apply exponential_of_rate_negative. lra.
Qed.

(** The first iteration of the loop under a positive horizon: the server is
    idle, so the arrival draws a service time. *)
Lemma first_step_Raise lam mu first w e :
  0 < lam →
  (∀ w2, exponential_of_rate mu w2 = Raise e) →
  step lam mu (initial_state first) w = Raise e.
Proof.
  intros Hlam Hsvc. unfold step, process_arrival. cbn.
  destruct (exponential_of_rate_positive lam w Hlam) as [[gap w2] Hgap].
  rewrite (sim_bind_eq _ _ _ _ _ Hgap). cbn.
  apply sim_bind_Raise. left. apply Hsvc.
Qed.

Lemma run_to_horizon_Raise_service fuel lam mu T w e :
  0 < lam → 0 < T →
  (∀ w2, exponential_of_rate mu w2 = Raise e) →
  run_to_horizon (S fuel) lam mu T w = Raise e.
Proof.
  intros Hlam HT Hsvc.
  destruct (exponential_of_rate_positive lam w Hlam) as [[first w1] Hfirst].
  unfold run_to_horizon.
  rewrite (sim_bind_eq _ _ _ _ _ (init_state_eq _ _ _ _ Hfirst)).
  apply sim_bind_Raise. left. rewrite event_loop_S by done.
  apply sim_bind_Raise. left. now apply first_step_Raise.
Qed.

(** C10. With a seed that numpy accepts, a valid arrival rate and a
    positive horizon, a non-positive service rate makes the call raise in
    the first iteration of the loop (line 44), when the first customer
    starts service. *)
Theorem invalid_service_rate_raises fuel lam mu T seed w :
  seed_ok seed → 0 < lam → 0 < T → mu <= 0 →
  simulate_mm1_queue (S fuel) lam mu T seed w =
  Raise (if Qeq_bool mu 0 then ZeroDivisionError else ValueError).
Proof.
  intros Hs Hlam HT Hmu.
  apply simulate_Raise_run, run_to_horizon_Raise_service; [done..|].
  intros w2. case_qeq mu 0.
  - now apply exponential_of_rate_zero.
  - apply exponential_of_rate_negative. lra.
Qed.

(** With a horizon that is not positive the loop body never runs. *)
Lemma run_to_horizon_no_loop fuel lam mu T w :
  0 < lam → T <= 0 →
  ∃ first w', exponential_of_rate lam w = Ok (first, w') ∧
    run_to_horizon fuel lam mu T w = Ok (final_update T (initial_state first), w').
Proof.
  intros Hlam HT.
  destruct (exponential_of_rate_positive lam w Hlam) as [[first w1] Hfirst].
  exists first, w1. split; [done |]. unfold run_to_horizon.
  rewrite (sim_bind_eq _ _ _ _ _ (init_state_eq _ _ _ _ Hfirst)).
  rewrite (sim_bind_eq _ _ _ _ _
             (event_loop_exit lam mu fuel T (initial_state first) _ HT)).
  done.
Qed.

(** C11. With a seed that numpy accepts and a valid arrival rate, a zero
    horizon makes the call raise [ZeroDivisionError] at the first division
    by the horizon (line 106): the horizon is not validated before the
    run. *)
Theorem zero_horizon_raises fuel lam mu T seed w :
  seed_ok seed → 0 < lam → T == 0 →
  simulate_mm1_queue fuel lam mu T seed w = Raise ZeroDivisionError.
Proof.
  intros Hs Hlam HT. rewrite simulate_unfold by done.
  destruct (run_to_horizon_no_loop fuel lam mu T (seeded_world seed w) Hlam)
    as (first & w' & _ & Hrun); [lra |].
  rewrite (sim_bind_eq _ _ _ _ _ Hrun). apply sim_lift_Raise.
  now apply statistics_zero.
Qed.

(** With a negative horizon the reducer does not divide by zero. *)
Lemma simulate_negative_horizon fuel lam mu T seed w :
  seed_ok seed → 0 < lam → T < 0 →
  ∃ r w', simulate_mm1_queue fuel lam mu T seed w = Ok (r, w') ∧
    total_customers r = 0%nat ∧ server_utilization r == 0 ∧
    state_probabilities r = [(0%Z, (0 + (T - 0)) / T)].
Proof.
  intros Hs Hlam HT. rewrite simulate_unfold by done.
  destruct (run_to_horizon_no_loop fuel lam mu T (seeded_world seed w) Hlam)
    as (first & w' & _ & Hrun); [lra |].
  rewrite (sim_bind_eq _ _ _ _ _ Hrun).
  rewrite statistics_Ok by (lra || apply NoDup_singleton).
  eexists _, _. split; [reflexivity |]. cbn. split_and!; [done | | done].
  unfold add_partial_service. cbn. field. lra.
Qed.

(** C12. With a seed that numpy accepts and a valid arrival rate, a
    negative horizon is not rejected: the call returns a result with no
    customer and the whole probability on the empty system, whatever the
    service rate. *)
Theorem negative_horizon_returns fuel lam mu T seed w :
  seed_ok seed → 0 < lam → T < 0 →
  ∃ r w', simulate_mm1_queue fuel lam mu T seed w = Ok (r, w') ∧
    total_customers r = 0%nat ∧ server_utilization r == 0 ∧
    state_probabilities r = [(0%Z, (0 + (T - 0)) / T)].
Proof. apply simulate_negative_horizon. Qed.

(** ** Reproducibility *)

(** When a seed is given, the outcome of the call (result, final
    generator state, or exception) does not depend on the state the
    generators were in before the call. *)
Lemma seeded_run_ignores_ambient_state fuel lam mu T z w1 w2 :
  simulate_mm1_queue fuel lam mu T (Some z) w1 =
  simulate_mm1_queue fuel lam mu T (Some z) w2.
Proof.
  destruct (decide (seed_ok (Some z))) as [Hs | Hs].
  - now rewrite !simulate_unfold by done.
  - now rewrite !simulate_invalid_seed by done.
Qed.

(** ** Fuel *)

Lemma run_to_horizon_fuel_mono fuel fuel' lam mu T w :
  (fuel ≤ fuel')%nat → run_to_horizon fuel lam mu T w ≠ OutOfFuel →
  run_to_horizon fuel' lam mu T w = run_to_horizon fuel lam mu T w.
Proof.
  intros Hle. unfold run_to_horizon, mbind, sim_bind.
  destruct (init_state lam w) as [[s0 w0] | e |]; [| done..].
  intros Hrun. rewrite (event_loop_fuel_mono lam mu fuel fuel' T s0 w0 _ Hle eq_refl);
    [done |].
  intros Hout. now rewrite Hout in Hrun.
Qed.

(** The fuel only bounds the number of iterations: when a call does
    not run out of fuel, the same call with more fuel has the same outcome,
    result or exception. *)
Theorem more_fuel_same_outcome fuel fuel' lam mu T seed w :
  (fuel ≤ fuel')%nat →
  simulate_mm1_queue fuel lam mu T seed w ≠ OutOfFuel →
  simulate_mm1_queue fuel' lam mu T seed w = simulate_mm1_queue fuel lam mu T seed w.
Proof.
  intros Hle. destruct (decide (seed_ok seed)) as [Hs | Hs].
  - rewrite !simulate_unfold by done. unfold mbind, sim_bind.
    intros Hsim. rewrite (run_to_horizon_fuel_mono fuel fuel'); [done.. |].
    intros Hout. now rewrite Hout in Hsim.
  - now rewrite !simulate_invalid_seed by done.
Qed.

End simulate.

(** ** The theorems on a recorded tape

    Arrival rate 2, service rate 1/2, horizon 3 on [demo_tape], the run of
    [Engine.demo_last]; and arrival rate 1, service rate 2, seed 42, where
    the first customer arrives at 1 and leaves at 5/4 and the second
    arrives at 3, which ends the loop. *)

Lemma ledger_sums_to_horizon_witness :
  ∃ s w', @run_to_horizon _ demo_source 10 2 (1 # 2) 3 (World demo_tape None)
            = Ok (s, w') ∧
          py_sum (dict_values (state_time s)) == 3.
Proof.
  eexists _, _. split; [vm_compute; reflexivity |].
  eapply (@ledger_sums_to_horizon _ demo_source 10 2 (1 # 2) 3 (World demo_tape None)).
  vm_compute. reflexivity.
Defined.

Lemma queue_times_within_system_times_witness :
  ∃ r w', @simulate_mm1_queue _ demo_source 10 2 (1 # 2) 3 (Some 42%Z) demo_world
            = Ok (r, w') ∧
    0 <= total_queue_time r ∧ total_queue_time r <= total_system_time r ∧
    0 <= average_queue_time r ∧ average_queue_time r <= average_system_time r.
Proof.
  eexists _, _. split; [vm_compute; reflexivity |].
  eapply (@queue_times_within_system_times _ demo_source 10 2 (1 # 2) 3
            (Some 42%Z) demo_world).
  vm_compute. reflexivity.
Defined.

Lemma more_fuel_same_outcome_witness :
  @simulate_mm1_queue _ demo_source 20 1 2 3 (Some 42%Z) demo_world =
  @simulate_mm1_queue _ demo_source 10 1 2 3 (Some 42%Z) demo_world.
Proof.
  apply (@more_fuel_same_outcome _ demo_source 10 20); [lia |].
  vm_compute. discriminate.
Defined.

Lemma probabilities_sum_to_one_witness :
  ∃ r w', @simulate_mm1_queue _ demo_source 10 1 2 3 (Some 42%Z) demo_world
            = Ok (r, w') ∧
          py_sum (dict_values (state_probabilities r)) == 1.
Proof.
  eexists _, _. split; [vm_compute; reflexivity |].
  eapply (@probabilities_sum_to_one _ demo_source 10 1 2 3 (Some 42%Z) demo_world).
  vm_compute. reflexivity.
Defined.

Lemma records_are_ordered_witness :
  ∃ s w', @run_to_horizon _ demo_source 10 2 (1 # 2) 3 (World demo_tape None)
            = Ok (s, w') ∧
          Forall (λ c, 0 <= arrival_time c ∧ 0 <= queue_time c ∧
                       queue_time c <= system_time c) (customer_stats s).
Proof.
  eexists _, _. split; [vm_compute; reflexivity |].
  eapply (@records_are_ordered _ demo_source 10 2 (1 # 2) 3 (World demo_tape None)).
  vm_compute. reflexivity.
Defined.

Lemma invalid_arrival_rate_raises_witness :
  @simulate_mm1_queue _ demo_source 10 (-1) 2 3 (Some 42%Z) demo_world
  = Raise ValueError.
Proof.
  apply (@invalid_arrival_rate_raises _ demo_source 10 (-1) 2 3 (Some 42%Z));
    by vm_compute.
Defined.

Lemma invalid_service_rate_raises_witness :
  @simulate_mm1_queue _ demo_source 10 1 0 3 (Some 42%Z) demo_world
  = Raise ZeroDivisionError.
Proof.
  apply (@invalid_service_rate_raises _ demo_source 9 1 0 3 (Some 42%Z));
    by vm_compute.
Defined.

Lemma zero_horizon_raises_witness :
  @simulate_mm1_queue _ demo_source 10 1 2 0 (Some 42%Z) demo_world
  = Raise ZeroDivisionError.
Proof.
  apply (@zero_horizon_raises _ demo_source 10 1 2 0 (Some 42%Z));
    by vm_compute.
Defined.

Lemma negative_horizon_returns_witness :
  ∃ r w', @simulate_mm1_queue _ demo_source 10 1 2 (-1) (Some 42%Z) demo_world
            = Ok (r, w') ∧
    total_customers r = 0%nat ∧ server_utilization r == 0 ∧
    state_probabilities r = [(0%Z, (0 + (-1 - 0)) / -1)].
Proof.
  apply (@negative_horizon_returns _ demo_source 10 1 2 (-1) (Some 42%Z));
    by vm_compute.
Defined.
