(* ===== verification/Termination.v ===== *)
(** * Termination of the event loop

    The loop of [simulate_mm1_queue] ends when the clock reaches the
    horizon.  With variates that can be arbitrarily small it need not end
    within any given number of iterations, so the bound is stated for a
    generator whose unit-rate variates are all at least [d > 0]: successive
    arrivals are then at least [d / arrival_rate] apart, at most
    [ceil (T * arrival_rate / d)] of them are scheduled before the horizon,
    and each customer accounts for one arrival and at most one departure.
    The measure is twice the number of arrivals still to come plus the
    population. *)

From S2P Require Import Prelude PyRuntime XTime PyDict Sampler Engine Spec.
From S2P Require Import Invariants Stats Simulate.

#[local] Open Scope Q_scope.

(** The fuel that is always enough: [2 * ceil (T * arrival_rate / d) + 1]. *)
Definition arrivals_bound (d arrival_rate simulation_time : Q) : nat :=
  Z.to_nat (Qceiling (simulation_time / (d / arrival_rate))).

Definition fuel_bound (d arrival_rate simulation_time : Q) : nat :=
  2 * arrivals_bound d arrival_rate simulation_time + 1.

(** [n] gaps of length [gap] cover what is left of the horizon after the
    pending arrival. *)
Definition covers (gap T : Q) (n : nat) (s : sim_state) : Prop :=
  T - next_arrival_time s <= inject_Z (Z.of_nat n) * gap.

Lemma arrivals_bound_covers d lam T first :
  0 < d → 0 < lam → 0 <= first →
  covers (d / lam) T (arrivals_bound d lam T) (initial_state first).
Proof.
  intros Hd Hlam Hfirst. unfold covers, arrivals_bound. simpl.
  pose proof (Qdiv_pos d lam Hd Hlam) as Hgap.
  pose proof (Qle_ceiling (T / (d / lam))) as Hceil.
  pose proof (Qdiv_mult_cancel T (d / lam) ltac:(lra)) as Hcancel.
  set (c := Qceiling (T / (d / lam))) in *.
  assert (inject_Z c <= inject_Z (Z.of_nat (Z.to_nat c))) as Hle
    by (rewrite <- Zle_Qle; lia).
  nra.
Qed.

Lemma covers_O gap T s : covers gap T 0 s → T <= next_arrival_time s.
Proof. unfold covers. change (inject_Z (Z.of_nat 0)) with 0. lra. Qed.

Lemma covers_succ gap T n s s' :
  next_arrival_time s + gap <= next_arrival_time s' →
  covers gap T (S n) s → covers gap T n s'.
Proof.
  unfold covers. intros Hgap. rewrite Nat2Z.inj_succ.
  unfold Z.succ. rewrite inject_Z_succ. lra.
Qed.

Section progress.
Context {G : Type} `{SampleSource G}.
Variables (d arrival_rate service_rate : Q).
Hypotheses (d_pos : 0 < d) (arrival_pos : 0 < arrival_rate)
  (service_pos : 0 < service_rate).
Implicit Types (s : sim_state) (w : world G).

#[local] Abbreviation slow w := (draws_ge d (numpy_rng w)).

(** A draw at a positive rate returns. *)
Lemma exponential_of_rate_progress rate w :
  0 < rate → slow w →
  ∃ x w', exponential_of_rate rate w = Ok (x, w') ∧ d / rate <= x ∧ slow w'.
Proof.
  intros Hrate Hslow.
  destruct (exponential_of_rate_positive rate w Hrate) as [[x w'] Hx].
  exists x, w'. split; [done |]. eapply exponential_of_rate_ge; done.
Qed.

(** An arrival returns, moves the clock to the pending arrival, pushes the
    next arrival at least one gap further and adds a customer. *)
Lemma process_arrival_progress s w :
  slow w →
  ∃ s' w', process_arrival arrival_rate service_rate s w = Ok (s', w') ∧ slow w' ∧
    current_time s' = next_arrival_time s ∧
    next_arrival_time s + d / arrival_rate <= next_arrival_time s' ∧
    current_state s' = (current_state s + 1)%Z.
Proof.
  intros Hslow. unfold process_arrival.
  destruct (exponential_of_rate_progress arrival_rate w arrival_pos Hslow)
    as (gap & w1 & Hgap & Hge & Hslow1).
  rewrite (sim_bind_eq _ _ _ _ _ Hgap). destruct (server_busy s); simpl.
  - eexists _, _. split; [done |]. simpl. split_and!; (done || lra).
  - destruct (exponential_of_rate_progress service_rate w1 service_pos Hslow1)
      as (service & w2 & Hservice & _ & Hslow2).
    rewrite (sim_bind_eq _ _ _ _ _ Hservice).
    eexists _, _. split; [done |]. simpl. split_and!; (done || lra).
Qed.

(** A departure returns, leaves the pending arrival alone and removes a
    customer. *)
Lemma process_departure_progress now s w :
  slow w →
  ∃ s' w', process_departure service_rate now s w = Ok (s', w') ∧ slow w' ∧
    next_arrival_time s' = next_arrival_time s ∧
    current_state s' = (current_state s - 1)%Z.
Proof.
  intros Hslow. unfold process_departure. destruct (queue s).
  - eexists _, _. split; [done |]. done.
  - destruct (exponential_of_rate_progress service_rate w service_pos Hslow)
      as (service & w2 & Hservice & _ & Hslow2).
    rewrite (sim_bind_eq _ _ _ _ _ Hservice).
    eexists _, _. split; [done |]. done.
Qed.

(** The measure: twice the arrivals still to come plus the population. *)
Definition within (T : Q) (fuel n : nat) (s : sim_state) : Prop :=
  covers (d / arrival_rate) T n s ∧
  (2 * Z.of_nat n + current_state s + 1 <= Z.of_nat fuel)%Z.

(** One iteration from a reachable state below the horizon: either it
    reaches the horizon or the measure decreases. *)
Lemma step_progress T fuel n s w :
  reachable arrival_rate service_rate T s w → slow w →
  within T (S fuel) n s →
  ∃ s' w', step arrival_rate service_rate s w = Ok (s', w') ∧ slow w' ∧
    (T <= current_time s' ∨ ∃ n', within T fuel n' s').
Proof.
  intros Hreach Hslow [Hcov Hfuel].
  destruct (reachable_sim_inv _ _ _ _ _ Hreach) as [Hc Hp _ _].
  unfold step. destruct (next_event s) as [| now] eqn:Hev.
  - destruct (process_arrival_progress s w Hslow)
      as (s' & w' & Hstep & Hslow' & Hnow & Hnext & Hcount).
    exists s', w'. split_and!; [done.. |]. destruct n as [| n].
    + left. rewrite Hnow. now apply covers_O in Hcov.
    + right. exists n. split; [eapply covers_succ; done | lia].
  - destruct (process_departure_progress now s w Hslow)
      as (s' & w' & Hstep & Hslow' & Hnext & Hcount).
    pose proof (departure_population_pos s now Hc Hp Hev) as Hpos.
    exists s', w'. split_and!; [done.. |]. right. exists n.
    split; [unfold covers in *; now rewrite Hnext | lia].
Qed.

(** With fuel above the measure the loop returns. *)
Lemma event_loop_progress T fuel n s w :
  reachable arrival_rate service_rate T s w → slow w →
  within T fuel n s →
  ∃ s' w', event_loop arrival_rate service_rate fuel T s w = Ok (s', w') ∧ slow w'.
Proof.
  revert n s w. induction fuel as [| fuel IH]; intros n s w Hreach Hslow Hin.
  { destruct Hin as [_ Hfuel].
    pose proof (population_nonneg s
      (inv_population _ (reachable_sim_inv _ _ _ _ _ Hreach))). lia. }
  destruct (decide (current_time s < T)) as [Hlt | Hge].
  - destruct (step_progress T fuel n s w Hreach Hslow Hin)
      as (s1 & w1 & Hstep & Hslow1 & Hnext).
    rewrite event_loop_S by done. rewrite (sim_bind_eq _ _ _ _ _ Hstep).
    destruct Hnext as [Hdone | [n' Hin']].
    + rewrite event_loop_exit by done. eauto.
    + eapply IH; [eapply reachable_step | |]; done.
  - rewrite event_loop_exit by lra. eauto.
Qed.

(** The run up to the reducer returns. *)
Lemma run_to_horizon_progress T fuel w :
  slow w → (fuel_bound d arrival_rate T ≤ fuel)%nat →
  ∃ s w', run_to_horizon fuel arrival_rate service_rate T w = Ok (s, w').
Proof.
  intros Hslow Hfuel. unfold run_to_horizon.
  destruct (exponential_of_rate_progress arrival_rate w arrival_pos Hslow)
    as (first & w1 & Hfirst & _ & Hslow1).
  pose proof (init_state_eq _ _ _ _ Hfirst) as Hinit.
  rewrite (sim_bind_eq _ _ _ _ _ Hinit).
  destruct (event_loop_progress T fuel (arrivals_bound d arrival_rate T)
              (initial_state first) w1) as (s & w' & Hloop & _).
  - eapply reachable_init. done.
  - done.
  - split; [| unfold fuel_bound in Hfuel; simpl; lia].
    apply arrivals_bound_covers; [done.. |].
    eapply exponential_of_rate_nonneg. done.
  - rewrite (sim_bind_eq _ _ _ _ _ Hloop). eauto.
Qed.

(** The whole call returns. *)
Lemma simulate_progress T seed w fuel :
  seed_ok seed → ¬ T == 0 →
  slow (seeded_world seed w) →
  (fuel_bound d arrival_rate T ≤ fuel)%nat →
  is_Ok (simulate_mm1_queue fuel arrival_rate service_rate T seed w).
Proof.
  intros Hs HT Hslow Hfuel. rewrite simulate_unfold by done.
  destruct (run_to_horizon_progress T fuel _ Hslow Hfuel) as (s & w' & Hrun).
  rewrite (sim_bind_eq _ _ _ _ _ Hrun).
  destruct (run_to_horizon_ledger _ _ _ _ _ _ _ Hrun) as [Hwf _].
  rewrite statistics_Ok by done. apply is_Ok_Ok.
Qed.

(** C6. Termination.  With positive rates, a seed that numpy accepts, a
    non-zero horizon and a
    generator whose variates are all at least [d > 0], the call returns a
    result (it neither raises nor runs out of fuel) on any fuel of at least
    [2 * ceil (T * arrival_rate / d) + 1]. *)
Theorem simulate_terminates T seed w fuel :
  seed_ok seed → ¬ T == 0 →
  slow (seeded_world seed w) →
  (fuel_bound d arrival_rate T ≤ fuel)%nat →
  is_Ok (simulate_mm1_queue fuel arrival_rate service_rate T seed w).
Proof. apply simulate_progress. Qed.

End progress.

(** On [demo_tape], whose variates are at least 1/4, at rates 2 and 1/2
    with horizon 3: 49 iterations are enough. *)
Lemma simulate_terminates_witness :
  is_Ok (@simulate_mm1_queue replay demo_source 49 2 (1 # 2) 3 (Some 42%Z) demo_world).
Proof.
  apply (@simulate_terminates replay demo_source (1 # 4) 2 (1 # 2));
    try (vm_compute; (reflexivity || discriminate || lia || done)).
  apply demo_tape_draws_ge.
Defined.
