(* ===== verification/Scenarios.v ===== *)
(** * Runs whose first arrival falls after the horizon

    The loop tests the clock before it selects the event, so the event that
    crosses the horizon is still processed, and line 78 then adds
    [simulation_time - last_event_time], which is negative, to the ledger.
    When this event is the very first arrival, the call returns one customer
    in service from a time after the horizon: the busy time, the utilization
    and the time-averaged population are negative and the probability of
    the empty system exceeds one.  This file proves it for every generator
    and evaluates it on the recorded tape. *)

From S2P Require Import Prelude PyRuntime XTime PyDict Sampler Engine Spec.
From S2P Require Import Invariants Stats Simulate.

#[local] Open Scope Q_scope.

(** The state at line 80 of a run whose first event is an arrival at
    [first], at or after the horizon. *)
Definition overshoot_state (T first gap service : Q) : sim_state :=
  final_update T (arrival_starts_service (initial_state first) gap service).

Section overshoot.
Context {G : Type} `{SampleSource G}.
Implicit Types (w : world G).

(** The first iteration serves the first customer at once. *)
Lemma first_step_Ok lam mu w first :
  0 < lam → 0 < mu →
  ∃ gap service w', 0 <= service ∧
    step lam mu (initial_state first) w =
    Ok (arrival_starts_service (initial_state first) gap service, w').
Proof.
  intros Hlam Hmu.
  destruct (exponential_of_rate_positive lam w Hlam) as [[gap w1] Hgap].
  destruct (exponential_of_rate_positive mu w1 Hmu) as [[service w2] Hservice].
  exists gap, service, w2.
  split; [eapply exponential_of_rate_nonneg; done |].
  unfold step, process_arrival. cbn.
  rewrite (sim_bind_eq _ _ _ _ _ Hgap). cbn.
  now rewrite (sim_bind_eq _ _ _ _ _ Hservice).
Qed.

(** The loop runs once and stops. *)
Lemma event_loop_overshoot fuel lam mu T w first :
  0 < lam → 0 < mu → 0 < T → T <= first →
  ∃ gap service w', 0 <= service ∧
    event_loop lam mu (S fuel) T (initial_state first) w =
    Ok (arrival_starts_service (initial_state first) gap service, w').
Proof.
  intros Hlam Hmu HT Hfirst. rewrite event_loop_S by done.
  destruct (first_step_Ok lam mu w first Hlam Hmu)
    as (gap & service & w' & Hservice & Hstep).
  exists gap, service, w'. split; [done |].
  rewrite (sim_bind_eq _ _ _ _ _ Hstep). now apply event_loop_exit.
Qed.

Lemma run_to_horizon_overshoot fuel lam mu T w first w1 :
  0 < mu → 0 < T →
  exponential_of_rate lam w = Ok (first, w1) → T <= first →
  ∃ gap service w', 0 <= service ∧
    run_to_horizon (S fuel) lam mu T w =
    Ok (overshoot_state T first gap service, w').
Proof.
  intros Hmu HT Hfirst Hle.
  assert (0 < lam) as Hlam by now apply exponential_of_rate_Ok in Hfirst as [? _].
  destruct (event_loop_overshoot fuel lam mu T w1 first Hlam Hmu HT Hle)
    as (gap & service & w' & Hservice & Hloop).
  exists gap, service, w'. split; [done |]. unfold run_to_horizon.
  rewrite (sim_bind_eq _ _ _ _ _ (init_state_eq _ _ _ _ Hfirst)).
  now rewrite (sim_bind_eq _ _ _ _ _ Hloop).
Qed.

End overshoot.

(** What the reducer reads of such a state. *)
Lemma overshoot_state_ledger T first gap service :
  state_time (overshoot_state T first gap service) =
  [(0%Z, 0 + (first - 0)); (1%Z, 0 + (T - first))].
Proof. reflexivity. Qed.

Lemma overshoot_state_completed T first gap service :
  T < first → 0 <= service →
  filter (λ c, completed T c = true)
         (customer_stats (overshoot_state T first gap service)) = [].
Proof.
  intros Hfirst Hservice.
  change (customer_stats (overshoot_state T first gap service))
    with [Customer first first (first + service)].
  rewrite filter_cons, decide_False; [done |].
  unfold completed. simpl. case_qle (first + service) T; [lra | done].
Qed.

Lemma overshoot_state_busy T first gap service busy :
  T < first → 0 <= service →
  add_partial_service T (overshoot_state T first gap service) busy =
  busy + (T - first).
Proof.
  intros Hfirst Hservice. unfold add_partial_service, overshoot_state. cbn.
  replace (xgt_bool (Fin (first + service)) (Fin T)) with true; [done |].
  symmetry. apply xgt_bool_iff. simpl. lra.
Qed.

(** The reducer on such a state. *)
Lemma statistics_overshoot T first gap service :
  0 < T → T < first → 0 <= service →
  ∃ r, statistics T (overshoot_state T first gap service) = Ok r ∧
    total_customers r = 1%nat ∧ completed_customers r = 0%nat ∧
    server_busy_time r == T - first ∧
    server_utilization r == (T - first) / T ∧
    average_system_length r == (T - first) / T ∧
    state_probabilities r =
      [(0%Z, (0 + (first - 0)) / T); (1%Z, (0 + (T - first)) / T)].
Proof.
  intros HT Hfirst Hservice. eexists. split.
  { apply statistics_Ok; [lra |]. rewrite overshoot_state_ledger.
    apply NoDup_cons. split; [now rewrite list_elem_of_singleton |].
    apply NoDup_singleton. }
  cbv zeta. cbn [total_customers completed_customers server_busy_time
                 server_utilization average_system_length state_probabilities].
  rewrite overshoot_state_completed, overshoot_state_busy by done.
  rewrite overshoot_state_ledger.
  split_and!; try done; cbn; unfold py_sum; cbn; field; lra.
Qed.

Section findings.
Context {G : Type} `{SampleSource G}.

(** C19. The utilization is not always within [0, 1], and an empty run is
    not reported as empty: with positive rates, a seed that numpy accepts
    and a positive horizon, when
    the first arrival drawn falls after the horizon the call returns one
    customer, none completed, a negative utilization, a negative
    time-averaged population, a probability above one for the empty system
    and a negative one for the system with one customer. *)
Theorem first_arrival_after_horizon fuel lam mu T seed (w : world G) first w1 :
  seed_ok seed → 0 < mu → 0 < T →
  exponential_of_rate lam (seeded_world seed w) = Ok (first, w1) → T < first →
  ∃ gap service r w',
    run_to_horizon (S fuel) lam mu T (seeded_world seed w) =
      Ok (overshoot_state T first gap service, w') ∧
    simulate_mm1_queue (S fuel) lam mu T seed w = Ok (r, w') ∧
    total_customers r = 1%nat ∧ completed_customers r = 0%nat ∧
    server_utilization r < 0 ∧ average_system_length r < 0 ∧
    ∃ p0 p1, state_probabilities r = [(0%Z, p0); (1%Z, p1)] ∧ 1 < p0 ∧ p1 < 0.
Proof.
  intros Hs Hmu HT Hfirst Hlt.
  destruct (run_to_horizon_overshoot fuel lam mu T _ first w1 Hmu HT Hfirst)
    as (gap & service & w' & Hservice & Hrun); [lra |].
  destruct (statistics_overshoot T first gap service HT Hlt Hservice)
    as (r & Hstat & Htotal & Hdone & _ & Hutil & Hlen & Hprob).
  exists gap, service, r, w'. split; [done |].
  rewrite simulate_unfold, (sim_bind_eq _ _ _ _ _ Hrun), Hstat by done.
  assert ((T - first) / T < 0) as Hneg.
  { apply Qlt_shift_div_r; lra. }
  split_and!; [done.. | lra | lra |].
  eexists _, _. split; [done |]. split.
  - apply Qlt_shift_div_l; lra.
  - apply Qlt_shift_div_r; lra.
Qed.

End findings.

(** ** On the recorded tape

    Arrival rate 1, horizon 1/2: the first arrival is at 1. *)

Lemma first_arrival_after_horizon_witness :
  ∃ gap service r w',
    @run_to_horizon replay demo_source 10 1 2 (1 # 2)
      (@seeded_world replay demo_source (Some 42%Z) demo_world) =
      Ok (overshoot_state (1 # 2) 1 gap service, w') ∧
    @simulate_mm1_queue replay demo_source 10 1 2 (1 # 2) (Some 42%Z) demo_world
      = Ok (r, w') ∧
    total_customers r = 1%nat ∧ completed_customers r = 0%nat ∧
    server_utilization r < 0 ∧ average_system_length r < 0 ∧
    ∃ p0 p1, state_probabilities r = [(0%Z, p0); (1%Z, p1)] ∧ 1 < p0 ∧ p1 < 0.
Proof.
  eapply (@first_arrival_after_horizon replay demo_source 9 1 2 (1 # 2)
            (Some 42%Z) demo_world);
    by vm_compute.
Defined.

(** The same run evaluated: the next arrival is drawn 2 later, the
    service lasts 1/4, the probabilities returned are 2 for the empty system
    and -1 for one customer, the utilization is -1. *)
Theorem overshoot_run_evaluated :
  ∃ r w', @simulate_mm1_queue replay demo_source 10 1 2 (1 # 2) (Some 42%Z) demo_world
            = Ok (r, w') ∧
    statistics (1 # 2) (overshoot_state (1 # 2) 1 2 (1 # 4)) = Ok r ∧
    dict_get (state_probabilities r) 0%Z 0 == 2 ∧
    dict_get (state_probabilities r) 1%Z 0 == -1 ∧
    server_utilization r == -1 ∧
    py_sum (dict_values (state_probabilities r)) == 1.
Proof. eexists _, _. split; [vm_compute; reflexivity |]. now vm_compute. Qed.
