(* ===== verification/Busy.v ===== *)
(** * The server's busy time

    The reducer adds up the service intervals of the completed customers and
    the part of the service in progress that lies before the horizon.  The
    records are appended in the order customers start service, so their
    service intervals follow one another: each starts at or after the
    departure of the previous one.  From this the busy time is at most the
    horizon, and the utilization at most one. *)

From S2P Require Import Prelude PyRuntime XTime PyDict Sampler Engine Spec.
From S2P Require Import Invariants Stats Simulate.

#[local] Open Scope Q_scope.

(** ** Service intervals in order *)

(** The departure of the last customer that started service, 0 before the
    first. *)
Definition last_departure (stats : list customer) : Q :=
  match last stats with
  | Some c => departure_time c
  | None => 0
  end.

(** Each service starts at or after the previous departure and ends at or
    after it starts. *)
Inductive chained : list customer → Prop :=
| chained_nil : chained []
| chained_snoc stats c :
    chained stats →
    last_departure stats <= service_start_time c →
    service_start_time c <= departure_time c →
    chained (stats ++ [c]).

(** The service time of the customers that completed by [T] (the third
    accumulator of lines 91-97). *)
Definition busy_upto (T : Q) (stats : list customer) : Q :=
  py_sum (service_time <$> filter (λ c, completed T c = true) stats).

(** The invariant: the records are chained; a busy server is serving the
    last record; an idle server saw the last departure. *)
Record service_inv (s : sim_state) : Prop := {
  service_chained : chained (customer_stats s);
  service_current :
    server_busy s = true →
    ∃ prev c, customer_stats s = prev ++ [c] ∧
      service_start_time c = server_start_time s ∧
      next_departure_time s = Fin (departure_time c);
  service_idle :
    server_busy s = false → last_departure (customer_stats s) <= current_time s
}.

(** ** Chains *)

Lemma last_departure_snoc stats c :
  last_departure (stats ++ [c]) = departure_time c.
Proof. unfold last_departure. now rewrite last_snoc. Qed.

Lemma chained_snoc_inv stats c :
  chained (stats ++ [c]) →
  chained stats ∧ last_departure stats <= service_start_time c ∧
  service_start_time c <= departure_time c.
Proof.
  inversion 1 as [Hnil | stats' c' Hch Hlast Hle Heq].
  - now destruct stats.
  - apply app_inj_tail in Heq as [-> ->]. done.
Qed.

(** Every prefix of a chain is a chain, and the next service starts after
    it. *)
Lemma chained_prefix stats c rest :
  chained (stats ++ c :: rest) →
  chained stats ∧ last_departure stats <= service_start_time c ∧
  service_start_time c <= departure_time c.
Proof.
  induction rest as [| c' rest IH] using rev_ind.
  - apply chained_snoc_inv.
  - replace (stats ++ c :: rest ++ [c']) with ((stats ++ c :: rest) ++ [c'])
      by now rewrite <- app_assoc.
    intros (Hch & _)%chained_snoc_inv. now apply IH.
Qed.

(** Departures are in order: none is later than the last. *)
Lemma chained_last_departure_max stats c :
  chained stats → c ∈ stats → departure_time c <= last_departure stats.
Proof.
  induction 1 as [| stats c0 _ IH Hlast Hle]; [now intros ?%elem_of_nil |].
  rewrite last_departure_snoc, elem_of_app, list_elem_of_singleton.
  intros [Hin | ->]; [| lra]. specialize (IH Hin). lra.
Qed.

Lemma busy_upto_nil T : busy_upto T [] = 0.
Proof. reflexivity. Qed.

Lemma busy_upto_snoc_completed T stats c :
  completed T c = true →
  busy_upto T (stats ++ [c]) == busy_upto T stats + service_time c.
Proof.
  intros Hc. unfold busy_upto.
  rewrite filter_app, filter_cons, decide_True, filter_nil by done.
  rewrite fmap_app. change (service_time <$> [c]) with [service_time c].
  apply py_sum_snoc.
Qed.

Lemma busy_upto_snoc_pending T stats c :
  completed T c = false → busy_upto T (stats ++ [c]) = busy_upto T stats.
Proof.
  intros Hc. unfold busy_upto.
  rewrite filter_app, filter_cons, decide_False, filter_nil by congruence.
  now rewrite app_nil_r.
Qed.

Lemma completed_iff T c : completed T c = true ↔ departure_time c <= T.
Proof. apply Qle_bool_iff. Qed.

Lemma completed_false_iff T c : completed T c = false ↔ T < departure_time c.
Proof. apply Qle_bool_false_iff. Qed.

(** The completed service of a chain fits before its last departure, and
    before the horizon. *)
Lemma chained_busy_upto T stats :
  chained stats → 0 <= T →
  busy_upto T stats <= last_departure stats ∧ busy_upto T stats <= T.
Proof.
  intros Hch HT. induction Hch as [| stats c _ [IHlast IHT] Hlast Hle].
  - rewrite busy_upto_nil. unfold last_departure. simpl. lra.
  - rewrite last_departure_snoc. destruct (completed T c) eqn:Hc.
    + rewrite busy_upto_snoc_completed by done.
      apply completed_iff in Hc. unfold service_time. lra.
    + rewrite busy_upto_snoc_pending by done. lra.
Qed.

(** ** The invariant *)

(** The customer that departs is the last one recorded. *)
Lemma service_departing s now :
  next_event s = Departure now → clock_inv s →
  (server_busy s = true →
   ∃ prev c, customer_stats s = prev ++ [c] ∧
     service_start_time c = server_start_time s ∧
     next_departure_time s = Fin (departure_time c)) →
  ∃ prev c, customer_stats s = prev ++ [c] ∧ departure_time c = now.
Proof.
  intros [Hdep _]%departure_before_arrival Hc Hcur.
  destruct Hcur as (prev & c & Heq & _ & Hnext).
  { rewrite (clock_busy s Hc), Hdep. done. }
  exists prev, c. split; [done |]. rewrite Hdep in Hnext. now injection Hnext.
Qed.

Lemma departing_busy s now :
  next_event s = Departure now → clock_inv s → server_busy s = true.
Proof.
  intros [Hdep _]%departure_before_arrival Hc.
  now rewrite (clock_busy s Hc), Hdep.
Qed.

Section transitions.
Variable s : sim_state.
Hypotheses (Hc : clock_inv s) (Hinv : service_inv s).

Lemma service_arrive_idle gap service :
  server_busy s = false → 0 <= service →
  service_inv (arrival_starts_service s gap service).
Proof.
  intros Hbusy Hservice. destruct Hinv as [Hch _ Hidle]. split; simpl.
  - constructor; simpl; [done | | lra].
    specialize (Hidle Hbusy). destruct Hc. lra.
  - intros _. eexists _, _. done.
  - done.
Qed.

Lemma service_arrive_busy gap :
  server_busy s = true → service_inv (arrival_joins_queue s gap).
Proof.
  intros Hbusy. destruct Hinv as [Hch Hcur _]. split; simpl; [done.. |].
  congruence.
Qed.

Lemma service_depart_next now arrival waiting service :
  next_event s = Departure now → 0 <= service →
  service_inv (departure_starts_next s now arrival waiting service).
Proof.
  intros Hev Hservice. destruct Hinv as [Hch Hcur _].
  pose proof (departing_busy s now Hev Hc) as Hbusy.
  destruct (service_departing s now Hev Hc Hcur) as (prev & c & Heq & Hdep).
  split; simpl.
  - constructor; simpl; [done | | lra].
    rewrite Heq, last_departure_snoc, Hdep. lra.
  - intros _. eexists _, _. done.
  - congruence.
Qed.

Lemma service_depart_idle now :
  next_event s = Departure now → service_inv (departure_leaves_idle s now).
Proof.
  intros Hev. destruct Hinv as [Hch Hcur _].
  destruct (service_departing s now Hev Hc Hcur) as (prev & c & Heq & Hdep).
  split; simpl; [done.. |].
  intros _. rewrite Heq, last_departure_snoc, Hdep. lra.
Qed.

End transitions.

Lemma service_invariant : invariant_under clock_inv service_inv.
Proof.
  split.
  - intros s [first Hfirst]. split; simpl; [constructor | done |].
    unfold last_departure. simpl. lra.
  - intros s s' Hc Hinv Ht. revert s' Ht. apply transition_branches; intros.
    + now apply service_arrive_idle.
    + now apply service_arrive_busy.
    + now apply service_depart_next.
    + now apply service_depart_idle.
Qed.

Lemma valid_service_inv s : valid s → service_inv s.
Proof. apply (invariant_valid _ _ service_invariant), valid_clock_inv. Qed.

(** ** The busy time of the reducer *)

(** Lines 91-101 on a state that satisfies the invariant: the completed
    services and the service in progress fit before the horizon. *)
Lemma add_partial_service_le T s :
  service_inv s → 0 <= T →
  add_partial_service T s (busy_upto T (customer_stats s)) <= T.
Proof.
  intros [Hch Hcur _] HT. unfold add_partial_service.
  destruct (server_busy s) eqn:Hbusy; simpl; [| now apply chained_busy_upto].
  destruct (xgt_bool (next_departure_time s) (Fin T)) eqn:Hgt;
    [| now apply chained_busy_upto].
  destruct (Hcur eq_refl) as (prev & c & Heq & Hstart & Hnext).
  rewrite Hnext in Hgt. apply xgt_bool_iff in Hgt. simpl in Hgt.
  rewrite Heq in Hch. apply chained_snoc_inv in Hch as (Hprev & Hlast & _).
  rewrite Heq, busy_upto_snoc_pending by now apply completed_false_iff.
  destruct (chained_busy_upto T prev Hprev HT) as [Hle _].
  rewrite <- Hstart. lra.
Qed.

Section bound.
Context {G : Type} `{SampleSource G}.

Lemma run_to_horizon_service_inv fuel lam mu T (w : world G) s w' :
  run_to_horizon fuel lam mu T w = Ok (s, w') →
  ∃ s1, service_inv s1 ∧ s = final_update T s1.
Proof.
  intros (s1 & Hreach & _ & ->)%run_to_horizon_Ok. exists s1. split; [| done].
  eapply valid_service_inv, reachable_valid. done.
Qed.

(** C23. With a positive horizon, the busy time of every returned result
    is at most the horizon and the utilization at most one: the service
    intervals of the records of the run follow one another, and the service
    in progress at the horizon is counted up to the horizon only. *)
Theorem utilization_at_most_one fuel lam mu T seed (w : world G) r w' :
  0 < T →
  simulate_mm1_queue fuel lam mu T seed w = Ok (r, w') →
  (∃ s, run_to_horizon fuel lam mu T (seeded_world seed w) = Ok (s, w') ∧
        chained (customer_stats s)) ∧
  server_busy_time r <= T ∧ server_utilization r <= 1.
Proof.
  intros HT (s & Hrun & Hstat)%simulate_Ok.
  destruct (run_to_horizon_service_inv _ _ _ _ _ _ _ Hrun) as (s1 & Hinv & ->).
  apply statistics_inv in Hstat as (_ & _ & _ & _ & _ & _ & _ & Hbusy & -> & _).
  assert (server_busy_time r <= T) as Hle.
  { rewrite Hbusy. apply (add_partial_service_le T s1 Hinv). lra. }
  split_and!; [| done | apply Qle_shift_div_r; lra].
  eexists. split; [done |]. apply (service_chained s1 Hinv).
Qed.

End bound.

Lemma utilization_at_most_one_witness :
  ∃ r w', @simulate_mm1_queue replay demo_source 10 2 (1 # 2) 3 (Some 42%Z) demo_world
            = Ok (r, w') ∧
    (∃ s, @run_to_horizon replay demo_source 10 2 (1 # 2) 3
            (@seeded_world replay demo_source (Some 42%Z) demo_world) = Ok (s, w') ∧
          chained (customer_stats s)) ∧
    server_busy_time r <= 3 ∧ server_utilization r <= 1.
Proof.
  eexists _, _. split; [vm_compute; reflexivity |].
  eapply (@utilization_at_most_one replay demo_source 10 2 (1 # 2) 3 (Some 42%Z)
            demo_world); [done |].
  vm_compute. reflexivity.
Defined.
