(* ===== verification/Format.v ===== *)
(** * Numbers as text

    What [print] writes for the replacement fields of the f-strings of
    [run_mm1_simulation]: [str] of an int, and the fixed-point formats
    [:.2f] and [:.4f].  Python renders a float in these formats as the
    decimal with that many fractional digits nearest to the value, a tie
    going to the even last digit, after the sign of the value.  The values
    of the model are exact rationals, so [format_fixed] rounds the
    rational.  [read_fixed] reads such a text back; the theorems say that
    the text of a value reads back as a decimal within half a unit of the
    last digit of the value, and that the text of an int reads back as the
    int. *)

From Stdlib Require Import Ascii String Qabs.
From S2P Require Import Prelude PyRuntime.

#[local] Open Scope string_scope.
#[local] Open Scope Z_scope.
#[local] Infix "+:+" := String.append (at level 60, right associativity).

(** ** Writing digits *)

(** The character of a digit [0 <= k < 10]. *)
Definition digit (k : Z) : ascii := ascii_of_N (Z.to_N (48 + k)).

(** [width] digits of [n], the most significant first, padded with
    zeros. *)
Fixpoint digits_of (width : nat) (n : Z) : string :=
  match width with
  | O => ""
  | S w => digits_of w (n / 10) +:+ String (digit (n mod 10)) ""
  end.

(** The digits of [n >= 0] without leading zeros, at most [fuel] of
    them. *)
Fixpoint print_nat (fuel : nat) (n : Z) : string :=
  match fuel with
  | O => ""
  | S f =>
      (if n <? 10 then "" else print_nat f (n / 10))
      +:+ String (digit (n mod 10)) ""
  end.

(** A number has no more decimal digits than binary ones. *)
Definition py_str_nat (n : Z) : string := print_nat (S (Z.to_nat (Z.log2 n))) n.

(** [str(n)] for an int. *)
Definition py_str_int (n : Z) : string :=
  if n <? 0 then String "-" (py_str_nat (- n)) else py_str_nat n.

(** ** Reading digits *)

Definition digit_value (c : ascii) : option Z :=
  let n := Z.of_N (N_of_ascii c) in
  if bool_decide (48 <= n <= 57) then Some (n - 48) else None.

Fixpoint read_digits (s : string) (acc : Z) : option Z :=
  match s with
  | "" => Some acc
  | String c s' => d ← digit_value c; read_digits s' (10 * acc + d)
  end.

Fixpoint all_digits (s : string) : bool :=
  match s with
  | "" => true
  | String c s' => bool_decide (is_Some (digit_value c)) && all_digits s'
  end.

(** An optional sign, then digits. *)
Definition read_int (s : string) : option Z :=
  match s with
  | String "-" s' => Z.opp <$> read_digits s' 0
  | _ => read_digits s 0
  end.

(** ** Fixed-point formats *)

(** The integer nearest to [q], the even one when two are as near. *)
Definition round_half_even (q : Q) : Z :=
  let f := Qfloor q in
  match Qcompare (q - inject_Z f) (1 # 2) with
  | Lt => f
  | Gt => f + 1
  | Eq => if Z.even f then f else f + 1
  end.

(** One unit of the integer part in units of the last digit. *)
Definition unit_of (digits : nat) : Z := 10 ^ Z.of_nat digits.

(** The magnitude of [v] in units of the last digit. *)
Definition scaled (digits : nat) (v : Q) : Z :=
  round_half_even (Qabs v * inject_Z (unit_of digits)).

(** [format(v, '.<digits>f')]: the sign of the value, the integer part, and
    when [digits] is not zero the point and [digits] digits. *)
Definition format_fixed (digits : nat) (v : Q) : string :=
  let m := scaled digits v in
  (if Qlt_bool v 0 then "-" else "")
  +:+ py_str_nat (m / unit_of digits)
  +:+ match digits with
      | O => ""
      | S _ => String "." (digits_of digits (m mod unit_of digits))
      end.

(** The number the text stands for. *)
Definition fixed_value (digits : nat) (v : Q) : Q :=
  (if Qlt_bool v 0 then Qopp else id)
    (inject_Z (scaled digits v) / inject_Z (unit_of digits))%Q.

(** The text before the first point, and the text after it if there is
    one. *)
Fixpoint split_point (s : string) : string * option string :=
  match s with
  | "" => ("", None)
  | String c s' =>
      if Ascii.eqb c "." then ("", Some s')
      else let '(whole, frac) := split_point s' in (String c whole, frac)
  end.

Definition strip_sign (s : string) : bool * string :=
  match s with
  | String "-" s' => (true, s')
  | _ => (false, s)
  end.

(** An optional sign, digits, and optionally a point and digits. *)
Definition read_fixed (s : string) : option Q :=
  let '(negative, body) := strip_sign s in
  let '(whole, frac) := split_point body in
  let frac := default "" frac in
  w ← read_digits whole 0;
  f ← read_digits frac 0;
  Some ((if negative then Qopp else id)
          (inject_Z w + inject_Z f / inject_Z (unit_of (String.length frac)))%Q).

(** ** Digits *)

Lemma digit_cases (k : Z) :
  0 <= k < 10 →
  k = 0 ∨ k = 1 ∨ k = 2 ∨ k = 3 ∨ k = 4 ∨ k = 5 ∨ k = 6 ∨ k = 7 ∨ k = 8 ∨ k = 9.
Proof. lia. Qed.

Lemma digit_value_digit (k : Z) : 0 <= k < 10 → digit_value (digit k) = Some k.
Proof. intros Hk. destruct (digit_cases k Hk) as [-> | H]; [done |].
  repeat (destruct H as [-> | H]; [done |]). now subst. Qed.

Lemma digit_value_mod (n : Z) : digit_value (digit (n mod 10)) = Some (n mod 10).
Proof. apply digit_value_digit, Z.mod_pos_bound. lia. Qed.

Lemma digit_value_not_point c k : digit_value c = Some k → Ascii.eqb c "." = false.
Proof.
  destruct (Ascii.eqb_spec c ".") as [-> | Hne]; [| done]. now vm_compute.
Qed.

Lemma digit_value_not_sign c k : digit_value c = Some k → c ≠ "-"%char.
Proof. intros Hc ->. now vm_compute in Hc. Qed.

Lemma append_assoc (a b c : string) : (a +:+ b) +:+ c = a +:+ b +:+ c.
Proof. induction a as [| x a IH]; simpl; [done | now f_equal]. Qed.

Lemma length_append (a b : string) :
  String.length (a +:+ b) = (String.length a + String.length b)%nat.
Proof. induction a as [| x a IH]; simpl; [done | now f_equal]. Qed.

Lemma read_digits_append (a b : string) acc :
  read_digits (a +:+ b) acc = read_digits a acc ≫= read_digits b.
Proof.
  revert acc. induction a as [| c a IH]; intros acc; simpl; [done |].
  destruct (digit_value c); simpl; [apply IH | done].
Qed.

Lemma all_digits_append (a b : string) :
  all_digits (a +:+ b) = all_digits a && all_digits b.
Proof.
  induction a as [| c a IH]; simpl; [done |]. now rewrite IH, andb_assoc.
Qed.

Lemma all_digits_digit (n : Z) : all_digits (String (digit (n mod 10)) "") = true.
Proof. simpl. now rewrite digit_value_mod, bool_decide_true. Qed.

Lemma length_digits_of width n : String.length (digits_of width n) = width.
Proof.
  revert n. induction width as [| w IH]; intros n; simpl; [done |].
  rewrite length_append, IH. simpl. lia.
Qed.

Lemma all_digits_digits_of width n : all_digits (digits_of width n) = true.
Proof.
  revert n. induction width as [| w IH]; intros n; simpl; [done |].
  now rewrite all_digits_append, IH, all_digits_digit.
Qed.

Lemma all_digits_print_nat fuel n : all_digits (print_nat fuel n) = true.
Proof.
  revert n. induction fuel as [| f IH]; intros n; simpl; [done |].
  rewrite all_digits_append, all_digits_digit, andb_true_r.
  now destruct (n <? 10).
Qed.

Lemma div10_bounds (n b : Z) : 0 <= n < 10 * b → 0 <= n / 10 < b.
Proof.
  intros Hn. split; [apply Z.div_pos | apply Z.div_lt_upper_bound]; lia.
Qed.

Lemma div10_eq (n : Z) : 10 * (n / 10) + n mod 10 = n.
Proof. symmetry. apply Z.div_mod. lia. Qed.

(** The digits of a number read back as the number. *)
Lemma read_digits_of width n acc :
  0 <= n < 10 ^ Z.of_nat width →
  read_digits (digits_of width n) acc = Some (acc * 10 ^ Z.of_nat width + n).
Proof.
  revert n acc. induction width as [| w IH]; intros n acc Hn.
  { simpl in *. f_equal. lia. }
  rewrite Nat2Z.inj_succ, Z.pow_succ_r in * by lia. simpl.
  rewrite read_digits_append, IH by now apply div10_bounds.
  simpl. rewrite digit_value_mod. simpl. f_equal.
  pose proof (div10_eq n). lia.
Qed.

Lemma read_print_nat fuel n :
  0 <= n < 2 ^ Z.of_nat (S fuel) → read_digits (print_nat (S fuel) n) 0 = Some n.
Proof.
  revert n. induction fuel as [| f IH]; intros n Hn;
    rewrite Nat2Z.inj_succ, Z.pow_succ_r in Hn by lia;
    change (print_nat (S ?f) n)
      with ((if n <? 10 then "" else print_nat f (n / 10))
            +:+ String (digit (n mod 10)) "");
    rewrite read_digits_append; destruct (Z.ltb_spec n 10) as [Hlt | Hge].
  1, 3: simpl; rewrite digit_value_mod; simpl; f_equal; rewrite Z.mod_small; lia.
  - simpl in Hn. lia.
  - rewrite IH by (apply div10_bounds; lia).
    simpl. rewrite digit_value_mod. simpl. f_equal. apply div10_eq.
Qed.

Lemma read_py_str_nat n : 0 <= n → read_digits (py_str_nat n) 0 = Some n.
Proof.
  intros Hn. apply read_print_nat. split; [done |].
  destruct (decide (n = 0)) as [-> | Hne]; [done |].
  rewrite Nat2Z.inj_succ, Z2Nat.id by apply Z.log2_nonneg.
  apply Z.log2_spec. lia.
Qed.

Lemma py_str_nat_digits n : all_digits (py_str_nat n) = true.
Proof. apply all_digits_print_nat. Qed.

(** The text of a natural is not empty. *)
Lemma py_str_nat_head n : ∃ c s, py_str_nat n = String c s.
Proof.
  unfold py_str_nat. simpl.
  destruct (if n <? 10 then "" else print_nat (Z.to_nat (Z.log2 n)) (n / 10))
    as [| c s]; simpl; eauto.
Qed.

(** ** Reading the sign and the point *)

Lemma strip_sign_digits (s : string) :
  all_digits s = true → strip_sign s = (false, s).
Proof.
  destruct s as [| c s]; [done |]. simpl.
  intros [[k Hc]%bool_decide_eq_true _]%andb_true_iff.
  apply digit_value_not_sign in Hc.
  destruct c as [[] [] [] [] [] [] [] []]; done.
Qed.

Lemma split_point_digits (s rest : string) :
  all_digits s = true →
  split_point s = (s, None) ∧
  split_point (s +:+ String "." rest) = (s, Some rest).
Proof.
  induction s as [| c s IH]; simpl; [done |].
  intros [[k Hc]%bool_decide_eq_true [Hs Hrest]%IH]%andb_true_iff.
  now rewrite (digit_value_not_point c k Hc), Hs, Hrest.
Qed.

Lemma read_int_digits (s : string) :
  all_digits s = true → read_int s = read_digits s 0.
Proof.
  destruct s as [| c s]; [done |]. simpl.
  intros [[k Hc]%bool_decide_eq_true _]%andb_true_iff.
  apply digit_value_not_sign in Hc.
  destruct c as [[] [] [] [] [] [] [] []]; done.
Qed.

(** The text of an int reads back as the int. *)
Lemma read_py_str_int n : read_int (py_str_int n) = Some n.
Proof.
  unfold py_str_int. destruct (Z.ltb_spec n 0) as [Hneg | Hpos].
  - simpl. rewrite read_py_str_nat by lia. simpl. f_equal. lia.
  - rewrite read_int_digits by apply py_str_nat_digits. now apply read_py_str_nat.
Qed.

(** ** Rounding *)

Section rounding.
#[local] Open Scope Q_scope.

Lemma Qfloor_bounds (q : Q) : inject_Z (Qfloor q) <= q ∧ q < inject_Z (Qfloor q) + 1.
Proof.
  split; [apply Qfloor_le |]. rewrite <- (inject_Z_plus _ 1). apply Qlt_floor.
Qed.

(** The rounded value is within one half of the value. *)
Lemma round_half_even_near (q : Q) :
  Qabs (inject_Z (round_half_even q) - q) <= 1 # 2.
Proof.
  pose proof (Qfloor_bounds q) as [Hlo Hhi]. unfold round_half_even.
  apply Qabs_Qle_condition.
  destruct (Qcompare_spec (q - inject_Z (Qfloor q)) (1 # 2)) as [Heq | Hlt | Hgt];
    [destruct (Z.even (Qfloor q)) | |];
    rewrite ?inject_Z_plus; change (inject_Z 1) with 1; lra.
Qed.

Lemma round_half_even_nonneg (q : Q) : 0 <= q → (0 <= round_half_even q)%Z.
Proof.
  intros Hq. pose proof (Qfloor_resp_le 0 q Hq) as Hf.
  change (Qfloor 0) with 0%Z in Hf. unfold round_half_even.
  destruct (Qcompare _ _); [destruct (Z.even _) | |]; lia.
Qed.

(** An integer is its own rounding. *)
Lemma round_half_even_Z (z : Z) : round_half_even (inject_Z z) = z.
Proof.
  unfold round_half_even. rewrite Qfloor_Z.
  destruct (Qcompare_spec (inject_Z z - inject_Z z) (1 # 2)) as [Heq | Hlt | Hgt];
    [lra | done | lra].
Qed.

(** On a tie the even neighbour is taken. *)
Lemma round_half_even_tie (q : Q) :
  q - inject_Z (Qfloor q) == 1 # 2 → Z.even (round_half_even q) = true.
Proof.
  intros Htie. unfold round_half_even.
  destruct (Qcompare_spec (q - inject_Z (Qfloor q)) (1 # 2)) as [Heq | Hlt | Hgt];
    [| lra..].
  destruct (Z.even (Qfloor q)) eqn:Heven; [done |].
  now rewrite Z.even_add, Heven.
Qed.

#[export] Instance round_half_even_proper : Proper (Qeq ==> eq) round_half_even.
Proof.
  intros q1 q2 Hq. unfold round_half_even.
  assert (Qfloor q1 = Qfloor q2) as -> by now rewrite Hq.
  assert (∀ f, (q1 - f ?= 1 # 2) = (q2 - f ?= 1 # 2)) as -> by (intros f; now rewrite Hq).
  done.
Qed.

Lemma unit_of_pos (digits : nat) : 0 < inject_Z (unit_of digits).
Proof.
  change 0 with (inject_Z 0). rewrite <- Zlt_Qlt. unfold unit_of.
  apply Z.pow_pos_nonneg; lia.
Qed.

Lemma scaled_nonneg digits v : (0 <= scaled digits v)%Z.
Proof.
  apply round_half_even_nonneg, Qmult_le_0_compat; [apply Qabs_nonneg |].
  apply Qlt_le_weak, unit_of_pos.
Qed.

(** The magnitude the text stands for is within half a unit of the last
    digit of the magnitude of the value. *)
Lemma scaled_near digits v :
  Qabs (inject_Z (scaled digits v) / inject_Z (unit_of digits) - Qabs v)
  <= (1 # 2) / inject_Z (unit_of digits).
Proof.
  pose proof (unit_of_pos digits) as Hu.
  pose proof (round_half_even_near (Qabs v * inject_Z (unit_of digits))) as Hnear.
  fold (scaled digits v) in Hnear.
  apply Qabs_Qle_condition in Hnear as [Hlo Hhi]. apply Qabs_Qle_condition.
  set (m := inject_Z (scaled digits v)) in *. set (u := inject_Z (unit_of digits)) in *.
  assert (m / u - Qabs v == (m - Qabs v * u) / u) as -> by (field; lra).
  assert (- ((1 # 2) / u) == (- (1 # 2)) / u) as -> by (field; lra).
  split; apply Qdiv_le_mono; done.
Qed.

Lemma fixed_value_near digits v :
  Qabs (fixed_value digits v - v) <= (1 # 2) / inject_Z (unit_of digits).
Proof.
  pose proof (scaled_near digits v) as Hnear. unfold fixed_value.
  case_qlt v 0; unfold id.
  - rewrite (Qabs_neg v) in Hnear by lra.
    set (x := inject_Z (scaled digits v) / inject_Z (unit_of digits)) in *.
    assert (- x - v == - (x - - v)) as -> by ring. now rewrite Qabs_opp.
  - now rewrite (Qabs_pos v) in Hnear.
Qed.

End rounding.

(** ** The text of a fixed-point format *)

Lemma append_nil_r (s : string) : s +:+ "" = s.
Proof. induction s as [| c s IH]; simpl; [done | now f_equal]. Qed.

Lemma strip_sign_append (s rest : string) :
  all_digits s = true → s ≠ "" → strip_sign (s +:+ rest) = (false, s +:+ rest).
Proof.
  destruct s as [| c s]; [done |]. simpl.
  intros [[k Hc]%bool_decide_eq_true _]%andb_true_iff _.
  apply digit_value_not_sign in Hc.
  destruct c as [[] [] [] [] [] [] [] []]; done.
Qed.

Lemma py_str_nat_nonempty n : py_str_nat n ≠ "".
Proof. destruct (py_str_nat_head n) as (c & s & ->). done. Qed.

(** The sign read is the sign written. *)
Lemma strip_sign_format (negative : bool) n rest :
  strip_sign ((if negative then "-" else "") +:+ py_str_nat n +:+ rest) =
  (negative, py_str_nat n +:+ rest).
Proof.
  destruct negative; [done |]. simpl.
  apply strip_sign_append; [apply py_str_nat_digits | apply py_str_nat_nonempty].
Qed.

(** The integer part and the fractional digits read are those written. *)
Lemma split_point_format digits whole frac :
  split_point (py_str_nat whole +:+
               match digits with
               | O => ""
               | S _ => String "." (digits_of digits frac)
               end) =
  (py_str_nat whole,
   match digits with O => None | S _ => Some (digits_of digits frac) end).
Proof.
  pose proof (split_point_digits (py_str_nat whole) (digits_of digits frac)
                (py_str_nat_digits whole)) as [Hnone Hsome].
  destruct digits; [now rewrite append_nil_r | done].
Qed.

Lemma whole_and_fraction (m u : Z) :
  0 < u →
  (inject_Z (m / u) + inject_Z (m mod u) / inject_Z u == inject_Z m / inject_Z u)%Q.
Proof.
  intros Hu. rewrite (Z.div_mod m u) at 3 by lia.
  rewrite inject_Z_plus, inject_Z_mult. field.
  change 0%Q with (inject_Z 0). rewrite inject_Z_injective. lia.
Qed.

Lemma unit_of_gt_0 digits : 0 < unit_of digits.
Proof. apply Z.pow_pos_nonneg; lia. Qed.

(** What is read from the text of a value. *)
Lemma read_format_fixed digits v :
  read_fixed (format_fixed digits v) =
  Some ((if Qlt_bool v 0 then Qopp else id)
          (inject_Z (scaled digits v / unit_of digits)
           + inject_Z (scaled digits v mod unit_of digits)
             / inject_Z (unit_of digits))%Q).
Proof.
  pose proof (scaled_nonneg digits v) as Hm.
  pose proof (unit_of_gt_0 digits) as Hu.
  unfold read_fixed, format_fixed.
  rewrite strip_sign_format, split_point_format.
  rewrite read_py_str_nat by (apply Z.div_pos; lia). simpl.
  destruct digits as [| d]; cbn [default from_option id].
  - simpl. now rewrite Z.mod_1_r.
  - rewrite read_digits_of, length_digits_of by now apply Z.mod_pos_bound.
    done.
Qed.

(** ** In and out *)

(** The text of a value in a fixed-point format reads back as the decimal
    with that many digits nearest to the value. *)
Lemma fixed_round_trip digits v :
  ∃ q, read_fixed (format_fixed digits v) = Some q ∧
    (q == fixed_value digits v)%Q ∧
    (Qabs (q - v) <= (1 # 2) / inject_Z (unit_of digits))%Q.
Proof.
  eexists. split; [apply read_format_fixed |].
  assert (∀ x y : Q, x == y →
            (if Qlt_bool v 0 then Qopp else id) x ==
            (if Qlt_bool v 0 then Qopp else id) y)%Q as Hsign.
  { intros x y Hxy. destruct (Qlt_bool v 0); unfold id; now rewrite Hxy. }
  pose proof (Hsign _ _ (whole_and_fraction (scaled digits v) _ (unit_of_gt_0 digits)))
    as Heq.
  split; [exact Heq |]. rewrite Heq. apply fixed_value_near.
Qed.

#[export] Instance scaled_proper digits : Proper (Qeq ==> eq) (scaled digits).
Proof. intros v1 v2 Hv. unfold scaled. now rewrite Hv. Qed.

#[export] Instance fixed_value_proper digits : Proper (Qeq ==> Qeq) (fixed_value digits).
Proof.
  intros v1 v2 Hv. unfold fixed_value.
  now rewrite (scaled_proper digits v1 v2 Hv),
    (Qlt_bool_proper v1 v2 Hv 0%Q 0%Q (Qeq_refl 0%Q)).
Qed.

(** A value that has no more than [digits] fractional digits is written
    exactly. *)
Lemma fixed_value_exact digits (n : Z) :
  (fixed_value digits (inject_Z n / inject_Z (unit_of digits))
   == inject_Z n / inject_Z (unit_of digits))%Q.
Proof.
  pose proof (unit_of_pos digits) as Hu. unfold fixed_value, scaled.
  set (u := inject_Z (unit_of digits)) in *.
  assert (Qabs (inject_Z n / u) * u == inject_Z (Z.abs n))%Q as ->.
  { unfold Qdiv. rewrite Qabs_Qmult, Qabs_Qinv, (Qabs_pos u) by lra.
    change (Qabs (inject_Z n)) with (inject_Z (Z.abs n)). field. lra. }
  rewrite round_half_even_Z. case_qlt (inject_Z n / u)%Q 0%Q; unfold id.
  - assert (inject_Z n < 0)%Q as Hn.
    { apply (Qmult_lt_r _ _ u) in Hcmp; [| done].
      now rewrite Qdiv_mult_cancel, Qmult_0_l in Hcmp by lra. }
    change 0%Q with (inject_Z 0) in Hn. rewrite <- Zlt_Qlt in Hn.
    rewrite Z.abs_neq, inject_Z_opp by lia. field. lra.
  - assert (0 <= inject_Z n)%Q as Hn.
    { apply (Qmult_le_r _ _ u) in Hcmp; [| done].
      now rewrite Qdiv_mult_cancel, Qmult_0_l in Hcmp by lra. }
    change 0%Q with (inject_Z 0) in Hn. rewrite <- Zle_Qle in Hn.
    now rewrite Z.abs_eq.
Qed.

(** Writing what was read changes nothing. *)
Lemma fixed_value_idempotent digits v :
  (fixed_value digits (fixed_value digits v) == fixed_value digits v)%Q.
Proof.
  unfold fixed_value at 2 3. destruct (Qlt_bool v 0); unfold id.
  - assert (- (inject_Z (scaled digits v) / inject_Z (unit_of digits)) ==
            inject_Z (- scaled digits v) / inject_Z (unit_of digits))%Q as ->.
    { rewrite inject_Z_opp. field. pose proof (unit_of_pos digits). lra. }
    apply fixed_value_exact.
  - apply fixed_value_exact.
Qed.
