(* ===== verification/Console.v ===== *)
(** * The console

    What the calls of [print] in [run_mm1_simulation] write (lines 138-163
    of [src/mm1_queue_simulation.py]).  A line is the list of the pieces of
    its f-string: literal text, [str] of a number, and numbers in a
    fixed-point format.  A number given by the caller is an int or a float,
    and [str] tells them apart: the text of an int is its decimal digits,
    the text of a float is the shortest decimal that reads back as the same
    binary float, which the rational model does not determine, so such a
    piece has no rendering.  A program that prints is a value of [console]:
    the lines written, in order, and how it ended; the lines written before
    an exception stay. *)

From Stdlib Require Import String Qabs.
From S2P Require Import Prelude PyRuntime Format.

#[local] Open Scope Q_scope.

(** ** Numbers by type *)

Inductive number : Type :=
| PyInt (n : Z)
| PyFloat (x : Q).

(** The number as an operand of the arithmetic. *)
Definition number_value (v : number) : Q :=
  match v with
  | PyInt n => inject_Z n
  | PyFloat x => x
  end.

(** ** Lines *)

Inductive piece : Type :=
| Text (s : string)
| Str (v : number)
| StrSeed (seed : option Z)
| Fixed (digits : nat) (x : Q).

Definition line : Type := list piece.

(** The line feed inside the text of line 159. *)
Definition newline : string := String (Ascii.ascii_of_nat 10) "".

Definition render_piece (p : piece) : option string :=
  match p with
  | Text s => Some s
  | Str (PyInt n) => Some (py_str_int n)
  | Str (PyFloat _) => None
  | StrSeed None => Some "None"%string
  | StrSeed (Some n) => Some (py_str_int n)
  | Fixed digits x => Some (format_fixed digits x)
  end.

Definition render_line (l : line) : option string :=
  foldr String.append ""%string <$> mapM render_piece l.

(** The pieces with a rendering: all but [str] of a float. *)
Definition renderable (p : piece) : Prop :=
  match p with
  | Str (PyFloat _) => False
  | _ => True
  end.

(** ** Programs that print *)

Definition console (A : Type) : Type := list line * outcome A.

#[export] Instance console_ret : MRet console := λ A a, ([], Ok a).

#[export] Instance console_bind : MBind console := λ A B f m,
  match m with
  | (out, Ok a) => let '(out', r) := f a in (out ++ out', r)
  | (out, Raise e) => (out, Raise e)
  | (out, OutOfFuel) => (out, OutOfFuel)
  end.

(** [print(...)] of one line. *)
Definition print (l : line) : console unit := ([l], Ok ()).

(** An expression that writes nothing. *)
Definition console_lift {A} (m : outcome A) : console A := ([], m).

(** [for x in l: body]. *)
Fixpoint for_each {A} (l : list A) (body : A → console unit) : console unit :=
  match l with
  | [] => mret ()
  | x :: l => _ ← body x; for_each l body
  end.

(** ** The laws of [console] *)

Lemma console_bind_Ok {A B} (out : list line) (a : A) (f : A → console B) :
  (out, Ok a) ≫= f = (out ++ (f a).1, (f a).2).
Proof. unfold mbind, console_bind. now destruct (f a). Qed.

Lemma console_bind_Raise {A B} (out : list line) (e : exn) (f : A → console B) :
  (out, Raise e) ≫= f = (out, Raise e).
Proof. done. Qed.

Lemma console_ret_bind {A B} (a : A) (f : A → console B) : mret a ≫= f = f a.
Proof. unfold mret, console_ret. rewrite console_bind_Ok. now destruct (f a). Qed.

Lemma console_bind_ret {A} (m : console A) : m ≫= mret = m.
Proof.
  destruct m as [out [a | e |]]; [| done..].
  rewrite console_bind_Ok. simpl. now rewrite app_nil_r.
Qed.

Lemma console_bind_assoc {A B C} (m : console A) (f : A → console B)
  (g : B → console C) :
  (m ≫= f) ≫= g = m ≫= (λ a, f a ≫= g).
Proof.
  destruct m as [out [a | e |]]; [| done..]. rewrite !console_bind_Ok.
  destruct (f a) as [out' [b | e |]]; cbn [fst snd]; [| done..].
  rewrite !console_bind_Ok. simpl. now rewrite app_assoc.
Qed.

(** What was written before stays. *)
Lemma console_bind_prefix {A B} (m : console A) (f : A → console B) :
  m.1 `prefix_of` (m ≫= f).1.
Proof.
  destruct m as [out [a | e |]]; [| done..].
  rewrite console_bind_Ok. now apply prefix_app_r.
Qed.

Lemma print_bind {B} (l : line) (out : list line) (r : outcome B) :
  (_ ← print l; (out, r)) = (l :: out, r).
Proof. done. Qed.

Lemma console_lift_bind {A B} (m : outcome A) (f : A → console B) :
  console_lift m ≫= f =
  match m with
  | Ok a => f a
  | Raise e => ([], Raise e)
  | OutOfFuel => ([], OutOfFuel)
  end.
Proof. destruct m as [a | e |]; [apply (console_ret_bind a f) | done..]. Qed.

(** A loop whose body prints one line writes one line per element. *)
Lemma for_each_print {A} (l : list A) (f : A → line) :
  for_each l (λ x, print (f x)) = (f <$> l, Ok ()).
Proof.
  induction l as [| x l IH]; [done |]. cbn [for_each]. now rewrite IH.
Qed.

(** ** Rendering *)

Lemma render_piece_is_Some (p : piece) : renderable p ↔ is_Some (render_piece p).
Proof.
  destruct p as [s | [n | x] | [n |] | digits x]; simpl;
    split; try done; try (intros _; eexists; done).
Qed.

Lemma render_line_is_Some (l : line) : Forall renderable l → is_Some (render_line l).
Proof.
  intros Hl. unfold render_line. apply fmap_is_Some.
  induction Hl as [| p l Hp%render_piece_is_Some _ IH]; [done |].
  destruct Hp as [s Hs], IH as [ss Hss]. exists (s :: ss).
  cbn. rewrite Hs. cbn. now rewrite Hss.
Qed.

(** C30. What is printed reads back.  A number printed in a fixed-point
    format reads back as a decimal within half a unit of the last digit of
    the number, whatever the number and the digits, and that decimal is
    the value of its own text; an int printed with [str] reads back as the
    int. *)
Theorem printed_numbers_read_back (digits : nat) (x : Q) (n : Z) :
  (∃ text q, render_piece (Fixed digits x) = Some text ∧
     read_fixed text = Some q ∧
     Qabs (q - x) <= (1 # 2) / inject_Z (10 ^ Z.of_nat digits) ∧
     fixed_value digits q == q) ∧
  (∃ text, render_piece (Str (PyInt n)) = Some text ∧ read_int text = Some n).
Proof.
  split; [| eexists; split; [done | apply read_py_str_int]].
  destruct (fixed_round_trip digits x) as (q & Hread & Hq & Hnear).
  exists (format_fixed digits x), q. split_and!; try done.
  rewrite Hq. apply fixed_value_idempotent.
Qed.

(** Rates 10 and 12 print as [0.8333]; a tie goes to the even digit; a
    negative value that rounds to zero keeps its sign. *)
Example render_examples :
  render_line [Text "  ρ (traffic intensity): "; Fixed 4 (10 / 12)]
    = Some "  ρ (traffic intensity): 0.8333"%string ∧
  render_piece (Fixed 2 (1 # 8)) = Some "0.12"%string ∧
  render_piece (Fixed 2 (3 # 8)) = Some "0.38"%string ∧
  render_piece (Fixed 4 (- 1 # 100000)) = Some "-0.0000"%string ∧
  render_piece (Str (PyInt (-42))) = Some "-42"%string ∧
  render_piece (Str (PyFloat 4)) = None.
Proof. now vm_compute. Qed.
