(* ===== verification/Driver.v ===== *)
(** * The driver [run_mm1_simulation] and the main block

    Lines 130-175 of [src/mm1_queue_simulation.py]: the driver calls the
    entry point, prints the parameters, the traffic intensity, the fields of
    the result and a table of the state probabilities for every count from
    0 to the largest observed, and returns the result.  [display] is the
    sequence of the prints, one [print] of [Console.v] per call, with the
    two expressions that can raise where the code evaluates them: the
    division of line 143 and the [max] of line 160.  The theorems give the
    lines written on each path, say that the table is the distribution (no
    count of the table is missing from the result and no entry of the
    result is left out), and give the text of the first lines the main
    block writes. *)

From Stdlib Require Import String.
From S2P Require Import Prelude PyRuntime XTime PyDict Sampler Engine Spec.
From S2P Require Import Invariants Stats Simulate Termination Format Console.

#[local] Open Scope Q_scope.

(** ** What the driver shows *)

(** [max(keys)]: Python raises [ValueError] on an empty sequence. *)
Definition py_max (l : list Z) : outcome Z :=
  match l with
  | [] => Raise ValueError
  | k :: ks => Ok (fold_left Z.max ks k)
  end.

(** The rows of the table (lines 160-162): one per count of
    [range(max_state + 1)], read with [get(i, 0)]. *)
Definition probability_rows (probabilities : list (Z * Q)) : outcome (list (Z * Q)) :=
  max_state ← py_max (dict_keys probabilities);
  mret ((λ i, (i, dict_get probabilities i 0)) <$> seqZ 0 (max_state + 1)).

(** Line 163. *)
Definition row_line (row : Z * Q) : line :=
  [Text "  n = "; Str (PyInt row.1); Text ": "; Fixed 4 row.2].

(** Lines 138-163, in the order of the code. *)
Definition display (arrival_rate service_rate simulation_time : number)
  (seed : option Z) (results : sim_result) : console unit :=
  _ ← print [Text "M/M/1 Queue Simulation Results"];
  _ ← print [Text "=============================="];
  _ ← print [Text "Parameters:"];
  _ ← print [Text "  λ (arrival rate): "; Str arrival_rate; Text " customers/minute"];
  _ ← print [Text "  μ (service rate): "; Str service_rate; Text " customers/minute"];
  rho ← console_lift (py_div (number_value arrival_rate) (number_value service_rate));
  _ ← print [Text "  ρ (traffic intensity): "; Fixed 4 rho];
  _ ← print [Text "  Simulation duration: "; Str simulation_time; Text " minutes"];
  _ ← print [Text "  Random seed: "; StrSeed seed];
  _ ← print [];
  _ ← print [Text "Results:"];
  _ ← print [Text "  Total customers arrived: ";
             Str (PyInt (Z.of_nat (total_customers results)))];
  _ ← print [Text "  Total customers served: ";
             Str (PyInt (Z.of_nat (completed_customers results)))];
  _ ← print [Text "  Total time spent in system: ";
             Fixed 2 (total_system_time results); Text " minutes"];
  _ ← print [Text "  Total time spent in queue: ";
             Fixed 2 (total_queue_time results); Text " minutes"];
  _ ← print [Text "  Total server busy time: ";
             Fixed 2 (server_busy_time results); Text " minutes"];
  _ ← print [Text "  Average time in system: ";
             Fixed 4 (average_system_time results * 60); Text " minutes"];
  _ ← print [Text "  Average time in queue: ";
             Fixed 4 (average_queue_time results * 60); Text " minutes"];
  _ ← print [Text "  Server utilization: "; Fixed 4 (server_utilization results)];
  _ ← print [Text "  Time-averaged number of customers in system: ";
             Fixed 4 (average_system_length results)];
  _ ← print [Text "  Time-averaged number of customers in queue: ";
             Fixed 4 (average_queue_length results)];
  _ ← print [Text newline; Text "Proportion of time with n customers in system:"];
  max_state ← console_lift (py_max (dict_keys (state_probabilities results)));
  for_each (seqZ 0 (max_state + 1)) (λ i,
    let prob := dict_get (state_probabilities results) i 0 in
    print (row_line (i, prob))).

Section driver.
Context {G : Type} `{SampleSource G}.

(** Lines 130-165: the result is computed first, then shown, then
    returned. *)
Definition run_mm1_simulation (fuel : nat)
  (arrival_rate service_rate simulation_time : number) (seed : option Z)
  : sim G (console sim_result) :=
  results ← simulate_mm1_queue fuel (number_value arrival_rate)
               (number_value service_rate) (number_value simulation_time) seed;
  mret (_ ← display arrival_rate service_rate simulation_time seed results;
        mret results).

(** The defaults of line 130. *)
Definition run_mm1_simulation_default (fuel : nat) : sim G (console sim_result) :=
  run_mm1_simulation fuel (PyInt 4) (PyInt 12) (PyInt 20000) (Some 42%Z).

(** Lines 167-175. *)
Definition main (fuel : nat) : sim G (console sim_result) :=
  run_mm1_simulation fuel (PyInt 10) (PyInt 12) (PyInt 10000) (Some 42%Z).

End driver.

(** ** The lines written *)

(** Lines 138-142: written before the division of line 143. *)
Definition parameter_lines (arrival_rate service_rate : number) : list line := [
  [Text "M/M/1 Queue Simulation Results"];
  [Text "=============================="];
  [Text "Parameters:"];
  [Text "  λ (arrival rate): "; Str arrival_rate; Text " customers/minute"];
  [Text "  μ (service rate): "; Str service_rate; Text " customers/minute"]
].

(** Lines 143-159: written before the [max] of line 160. *)
Definition result_lines (rho : Q) (simulation_time : number) (seed : option Z)
  (results : sim_result) : list line := [
  [Text "  ρ (traffic intensity): "; Fixed 4 rho];
  [Text "  Simulation duration: "; Str simulation_time; Text " minutes"];
  [Text "  Random seed: "; StrSeed seed];
  [];
  [Text "Results:"];
  [Text "  Total customers arrived: "; Str (PyInt (Z.of_nat (total_customers results)))];
  [Text "  Total customers served: ";
   Str (PyInt (Z.of_nat (completed_customers results)))];
  [Text "  Total time spent in system: "; Fixed 2 (total_system_time results);
   Text " minutes"];
  [Text "  Total time spent in queue: "; Fixed 2 (total_queue_time results);
   Text " minutes"];
  [Text "  Total server busy time: "; Fixed 2 (server_busy_time results);
   Text " minutes"];
  [Text "  Average time in system: "; Fixed 4 (average_system_time results * 60);
   Text " minutes"];
  [Text "  Average time in queue: "; Fixed 4 (average_queue_time results * 60);
   Text " minutes"];
  [Text "  Server utilization: "; Fixed 4 (server_utilization results)];
  [Text "  Time-averaged number of customers in system: ";
   Fixed 4 (average_system_length results)];
  [Text "  Time-averaged number of customers in queue: ";
   Fixed 4 (average_queue_length results)];
  [Text newline; Text "Proportion of time with n customers in system:"]
].

(** The text of the first nine lines the main block writes. *)
Definition main_heading : list string := [
  "M/M/1 Queue Simulation Results";
  "==============================";
  "Parameters:";
  "  λ (arrival rate): 10 customers/minute";
  "  μ (service rate): 12 customers/minute";
  "  ρ (traffic intensity): 0.8333";
  "  Simulation duration: 10000 minutes";
  "  Random seed: 42";
  ""
]%string.

Section display.
Variables (arrival_rate service_rate simulation_time : number) (seed : option Z).
Variable results : sim_result.

#[local] Abbreviation shown := (display arrival_rate service_rate simulation_time seed results).
#[local] Abbreviation rho :=
  (number_value arrival_rate / number_value service_rate).

(** A zero service rate stops the display after the parameters. *)
Lemma display_zero_rate :
  number_value service_rate == 0 →
  shown = (parameter_lines arrival_rate service_rate, Raise ZeroDivisionError).
Proof. intros Hmu. unfold display. now rewrite (py_div_zero _ _ Hmu). Qed.

(** An empty distribution stops it before the table. *)
Lemma display_no_state :
  ¬ number_value service_rate == 0 → state_probabilities results = [] →
  shown = (parameter_lines arrival_rate service_rate
             ++ result_lines rho simulation_time seed results,
           Raise ValueError).
Proof. intros Hmu Hnil. unfold display. now rewrite (py_div_Ok _ _ Hmu), Hnil. Qed.

(** Otherwise every line is written, with one line per row. *)
Lemma display_Ok rows :
  ¬ number_value service_rate == 0 →
  probability_rows (state_probabilities results) = Ok rows →
  shown = (parameter_lines arrival_rate service_rate
             ++ result_lines rho simulation_time seed results
             ++ (row_line <$> rows),
           Ok ()).
Proof.
  intros Hmu Hrows. unfold display, probability_rows in *.
  rewrite (py_div_Ok _ _ Hmu).
  destruct (py_max _) as [max_state | |]; [| done..].
  injection Hrows as <-. rewrite <- list_fmap_compose.
  cbn [mbind console_bind print console_lift app]. now rewrite for_each_print.
Qed.

End display.

(** With parameters that are ints every line written has a text. *)
Lemma report_renderable (a b c : Z) rho seed results rows :
  Forall (λ l, is_Some (render_line l))
    (parameter_lines (PyInt a) (PyInt b)
       ++ result_lines rho (PyInt c) seed results ++ (row_line <$> rows)).
Proof.
  rewrite !Forall_app, Forall_fmap. split_and!.
  1, 2: repeat (constructor; [apply render_line_is_Some; repeat constructor |]);
    constructor.
  apply Forall_true. intros [i p]. apply render_line_is_Some. repeat constructor.
Qed.

(** ** The largest key *)

Lemma fold_left_max_spec (ks : list Z) (k : Z) :
  fold_left Z.max ks k ∈ k :: ks ∧
  Forall (λ n, (n <= fold_left Z.max ks k)%Z) (k :: ks).
Proof.
  revert k. induction ks as [| k' ks IH]; intros k; simpl.
  { split; [apply list_elem_of_here | repeat constructor; lia]. }
  destruct (IH (Z.max k k')) as [Hin Hall].
  apply Forall_cons in Hall as [Hmax Hall]. split.
  - apply elem_of_cons in Hin as [Heq | Hin].
    + rewrite Heq. destruct (Z.max_spec k k') as [[_ ->] | [_ ->]];
        rewrite !elem_of_cons; auto.
    + rewrite !elem_of_cons. auto.
  - repeat constructor; [lia | lia | done].
Qed.

Lemma py_max_Ok (l : list Z) (m : Z) :
  py_max l = Ok m → m ∈ l ∧ ∀ k, k ∈ l → (k <= m)%Z.
Proof.
  destruct l as [| k ks]; [done |]. intros [= <-].
  destruct (fold_left_max_spec ks k) as [Hin Hall]. split; [done |].
  now apply Forall_forall.
Qed.

Lemma py_max_is_Ok (l : list Z) : l ≠ [] → is_Ok (py_max l).
Proof. destruct l; [done |]. intros _. apply is_Ok_Ok. Qed.

(** The keys of a ledger are the counts from 0 to the largest. *)
Lemma shape_keys_range ledger count m :
  ledger_shape ledger count → py_max (dict_keys ledger) = Ok m →
  dict_keys ledger ≡ₚ seqZ 0 (m + 1).
Proof.
  intros [Hwf Hkeys _ Hclosed] [Hin Hmax]%py_max_Ok.
  apply NoDup_Permutation; [done | apply NoDup_seqZ |].
  intros k. rewrite elem_of_seqZ. split.
  - intros Hk. specialize (Hkeys k Hk). specialize (Hmax k Hk). lia.
  - intros Hk. apply (Hclosed m k Hin). lia.
Qed.

(** ** The table *)

(** On a ledger-shaped dictionary the rows are the items in the order of
    the counts. *)
Lemma probability_rows_Ok probabilities count :
  ledger_shape probabilities count → probabilities ≠ [] →
  ∃ rows, probability_rows probabilities = Ok rows ∧
    rows.*1 = seqZ 0 (Z.of_nat (length probabilities)) ∧
    rows ≡ₚ probabilities.
Proof.
  intros Hshape Hne. unfold probability_rows.
  destruct (py_max_is_Ok (dict_keys probabilities)) as [m Hm].
  { unfold dict_keys. now destruct probabilities. }
  pose proof (shape_keys_range _ _ _ Hshape Hm) as Hperm.
  rewrite Hm. eexists. split; [reflexivity |]. split.
  - rewrite <- list_fmap_compose, (Forall_fmap_ext_1 _ id), list_fmap_id;
      [| now apply Forall_forall].
    f_equal. apply Permutation_length in Hperm.
    unfold dict_keys in Hperm. rewrite length_fmap, length_seqZ in Hperm.
    pose proof (proj1 (py_max_Ok _ _ Hm)) as Hin.
    pose proof (shape_keys _ _ Hshape m Hin). lia.
  - rewrite <- Hperm. unfold dict_keys.
    now rewrite (dict_items_get probabilities 0 (shape_wf _ _ Hshape)).
Qed.

Section shown.
Context {G : Type} `{SampleSource G}.
Implicit Types (w : world G) (lam mu T : number).

Lemma simulate_shape fuel (lam mu T : Q) seed w r w' :
  simulate_mm1_queue fuel lam mu T seed w = Ok (r, w') →
  ∃ count, ledger_shape (state_probabilities r) count ∧ state_probabilities r ≠ [].
Proof.
  intros (s & Hrun & -> & _)%simulate_Ok_result.
  apply run_to_horizon_shape in Hrun as [[Hwf Hkeys Hbelow Hclosed] Hne].
  exists (current_state s). unfold dict_keys, dict_wf in *. split.
  - split; unfold dict_keys, dict_wf; rewrite dict_map_values_keys; done.
  - unfold dict_map_values. now destruct (state_time s).
Qed.

(** The rows of a returned result. *)
Lemma table_shown fuel (lam mu T : Q) seed w r w' :
  simulate_mm1_queue fuel lam mu T seed w = Ok (r, w') →
  ∃ rows, probability_rows (state_probabilities r) = Ok rows ∧
    rows.*1 = seqZ 0 (Z.of_nat (length (state_probabilities r))) ∧
    rows ≡ₚ state_probabilities r ∧
    py_sum rows.*2 == 1.
Proof.
  intros Hsim.
  destruct (simulate_shape _ _ _ _ _ _ _ _ Hsim) as (count & Hshape & Hne).
  destruct (probability_rows_Ok _ _ Hshape Hne) as (rows & Hrows & Hkeys & Hperm).
  exists rows. split_and!; [done.. |].
  rewrite Hperm. exact (simulate_probabilities_total _ _ _ _ _ _ _ _ Hsim).
Qed.

(** C25. For every result the entry point returns, and a non-zero service
    rate, the driver writes the five lines of the parameters, the sixteen
    lines of the results and one line per count from 0 to the number of
    entries of [state_probabilities] minus one, and ends normally; the rows
    shown are exactly the entries of [state_probabilities]: the default of
    [get(i, 0)] is never used, nothing is left out, and the probabilities
    shown sum to one. *)
Theorem table_is_the_distribution fuel lam mu T seed w r w' :
  ¬ number_value mu == 0 →
  simulate_mm1_queue fuel (number_value lam) (number_value mu) (number_value T)
    seed w = Ok (r, w') →
  ∃ rows,
    display lam mu T seed r =
      (parameter_lines lam mu
         ++ result_lines (number_value lam / number_value mu) T seed r
         ++ (row_line <$> rows), Ok ()) ∧
    rows.*1 = seqZ 0 (Z.of_nat (length (state_probabilities r))) ∧
    rows ≡ₚ state_probabilities r ∧
    py_sum rows.*2 == 1.
Proof.
  intros Hmu (rows & Hrows & Hrest)%table_shown. exists rows.
  split; [now apply display_Ok | done].
Qed.

Lemma driver_returns fuel lam mu T seed w out r w' :
  simulate_mm1_queue fuel (number_value lam) (number_value mu) (number_value T)
    seed w = Ok (r, w') →
  display lam mu T seed r = (out, Ok ()) →
  run_mm1_simulation fuel lam mu T seed w = Ok ((out, Ok r), w').
Proof.
  intros Hsim Hshow. unfold run_mm1_simulation.
  rewrite (sim_bind_eq _ _ _ _ _ Hsim), Hshow, console_bind_Ok. simpl.
  now rewrite app_nil_r.
Qed.

Lemma driver_raises fuel lam mu T seed w out e r w' :
  simulate_mm1_queue fuel (number_value lam) (number_value mu) (number_value T)
    seed w = Ok (r, w') →
  display lam mu T seed r = (out, Raise e) →
  run_mm1_simulation fuel lam mu T seed w = Ok ((out, Raise e), w').
Proof.
  intros Hsim Hshow. unfold run_mm1_simulation.
  now rewrite (sim_bind_eq _ _ _ _ _ Hsim), Hshow.
Qed.

(** The driver returns what the entry point returns: it returns a
    result after the lines [out] exactly when the entry point returns that
    result and the display writes [out] and ends normally, and it leaves
    the generators in the state the entry point left them. *)
Lemma driver_returns_the_result fuel lam mu T seed w out r w' :
  run_mm1_simulation fuel lam mu T seed w = Ok ((out, Ok r), w') ↔
  simulate_mm1_queue fuel (number_value lam) (number_value mu) (number_value T)
    seed w = Ok (r, w') ∧
  display lam mu T seed r = (out, Ok ()).
Proof.
  split; [| intros [Hsim Hshow]; now apply driver_returns].
  unfold run_mm1_simulation.
  intros (r0 & w1 & Hsim & Hret)%sim_bind_Ok.
  apply sim_ret_Ok in Hret as [Hshown ->].
  destruct (display lam mu T seed r0) as [shown [[] | e |]] eqn:Hshow;
    [| done..].
  rewrite console_bind_Ok in Hshown. simpl in Hshown.
  rewrite app_nil_r in Hshown. now injection Hshown as -> ->.
Qed.

(** C27. A zero service rate with a negative horizon is reported late and
    as an arithmetic error: with a seed that numpy accepts the entry point
    returns a result, and the driver writes the five lines of the
    parameters and raises [ZeroDivisionError] when it evaluates the
    traffic intensity (line 143). *)
Theorem driver_divides_by_service_rate fuel lam mu T seed w :
  seed_ok seed →
  0 < number_value lam → number_value T < 0 → number_value mu == 0 →
  ∃ r w',
    simulate_mm1_queue fuel (number_value lam) (number_value mu) (number_value T)
      seed w = Ok (r, w') ∧
    run_mm1_simulation fuel lam mu T seed w =
      Ok ((parameter_lines lam mu, Raise ZeroDivisionError), w').
Proof.
  intros Hs Hlam HT Hmu.
  destruct (simulate_negative_horizon fuel _ (number_value mu) _ seed w Hs Hlam HT)
    as (r & w' & Hsim & _).
  exists r, w'. split; [done |].
  apply (driver_raises _ _ _ _ _ _ _ _ r); [done |]. now apply display_zero_rate.
Qed.

(** C28. The main block returns: with the rates 10 and 12, the horizon
    10000 and the seed 42 of lines 169-172, when every variate of the
    generator seeded with 42 is at least [d > 0], on any fuel of at least
    [2 * ceil (100000 / d) + 1] the driver writes its lines, each of which
    has a text, and returns a result; the first nine lines read as
    [main_heading]. *)
Theorem main_terminates d fuel w :
  0 < d → draws_ge d (np_seed 42) →
  (fuel_bound d 10 10000 ≤ fuel)%nat →
  ∃ out r w', main fuel w = Ok ((out, Ok r), w') ∧
    Forall (λ l, is_Some (render_line l)) out ∧
    mapM render_line (take 9 out) = Some main_heading.
Proof.
  intros Hd Hslow Hfuel. unfold main.
  destruct (simulate_progress d 10 12 Hd ltac:(done) ltac:(done) 10000
              (Some 42%Z) w fuel seed_ok_42) as [[r w'] Hsim]; [done.. |].
  destruct (table_shown fuel 10 12 10000 (Some 42%Z) w r w' Hsim)
    as (rows & Hrows & _).
  pose proof (display_Ok (PyInt 10) (PyInt 12) (PyInt 10000) (Some 42%Z) r rows
                ltac:(done) Hrows) as Hshow.
  eexists _, r, w'. split_and!.
  - apply driver_returns; [exact Hsim | exact Hshow].
  - apply report_renderable.
  - now vm_compute.
Qed.

End shown.

(** ** On the recorded tape *)

Lemma table_is_the_distribution_witness :
  ∃ r w',
    @simulate_mm1_queue replay demo_source 10 (number_value (PyInt 2))
      (number_value (PyFloat (1 # 2))) (number_value (PyInt 3)) (Some 42%Z) demo_world
      = Ok (r, w') ∧
    ∃ rows,
      display (PyInt 2) (PyFloat (1 # 2)) (PyInt 3) (Some 42%Z) r =
        (parameter_lines (PyInt 2) (PyFloat (1 # 2))
           ++ result_lines (number_value (PyInt 2) / number_value (PyFloat (1 # 2)))
                (PyInt 3) (Some 42%Z) r
           ++ (row_line <$> rows), Ok ()) ∧
      rows.*1 = seqZ 0 (Z.of_nat (length (state_probabilities r))) ∧
      rows ≡ₚ state_probabilities r ∧
      py_sum rows.*2 == 1.
Proof.
  eexists _, _. split; [vm_compute; reflexivity |].
  eapply (@table_is_the_distribution replay demo_source 10 (PyInt 2)
            (PyFloat (1 # 2)) (PyInt 3) (Some 42%Z) demo_world).
  - vm_compute. discriminate.
  - vm_compute. reflexivity.
Defined.

Lemma driver_divides_by_service_rate_witness :
  ∃ r w',
    @simulate_mm1_queue replay demo_source 10 (number_value (PyInt 1))
      (number_value (PyInt 0)) (number_value (PyInt (-1))) (Some 42%Z) demo_world
      = Ok (r, w') ∧
    @run_mm1_simulation replay demo_source 10 (PyInt 1) (PyInt 0) (PyInt (-1))
      (Some 42%Z) demo_world =
      Ok ((parameter_lines (PyInt 1) (PyInt 0), Raise ZeroDivisionError), w').
Proof.
  apply (@driver_divides_by_service_rate replay demo_source 10 (PyInt 1) (PyInt 0)
           (PyInt (-1))); by vm_compute.
Defined.

Lemma main_terminates_witness :
  ∃ out r w',
    @main replay demo_source (fuel_bound (1 # 4) 10 10000) demo_world
      = Ok ((out, Ok r), w') ∧
    Forall (λ l, is_Some (render_line l)) out ∧
    mapM render_line (take 9 out) = Some main_heading.
Proof.
  apply (@main_terminates replay demo_source (1 # 4)); [done | | done].
  apply demo_tape_draws_ge.
Defined.
