(* ===== verification/Analysis.v ===== *)
(** * The analysis script

    [src/mm1_queue_analysis.py] runs the entry point on three scenarios
    with the same horizon and the same seed, collects the utilization and
    the simulated mean waiting time of each, and plots them against the
    analytic curve [rho / (mu (1 - rho))] sampled on a grid.  This file
    models the numbers handed to the plotting library; [Figure.v] models
    the calls that draw them.  Each scenario reseeds the generators, so the
    point of a scenario is that of a call of the entry point on its own
    ([standalone]).  The decimal literals 9.6 and 10.8 are the
    rationals 48/5 and 54/5. *)

From Stdlib Require Import String.
From S2P Require Import Prelude PyRuntime XTime PyDict Sampler Engine Spec.
From S2P Require Import Invariants Stats Simulate.

#[local] Open Scope Q_scope.

(** ** The scenarios (lines 6-13) *)

Record scenario : Type := Scenario {
  label : string;
  scenario_arrival_rate : Q;
  scenario_service_rate : Q
}.

Definition scenarios : list scenario := [
  Scenario "ρ = 0.5" 6 12;
  Scenario "ρ = 0.8" (48 # 5) 12;
  Scenario "ρ = 0.9" (54 # 5) 12
].

Definition analysis_simulation_time : Q := 20000.
Definition analysis_seed : Z := 42.

(** [rho = arrival_rate / service_rate] (line 21). *)
Definition rho (sc : scenario) : outcome Q :=
  py_div (scenario_arrival_rate sc) (scenario_service_rate sc).

(** ** The analytic curve (lines 27-29) *)

Definition mu : Q := 12.

(** [np.linspace(start, stop, num)]: [num] evenly spaced points, both ends
    included. *)
Definition linspace (start stop : Q) (num : nat) : list Q :=
  (λ i : nat,
     start + inject_Z (Z.of_nat i) * ((stop - start) / inject_Z (Z.of_nat num - 1)))
  <$> seq 0 num.

Definition rho_curve : list Q := linspace (1 # 100) (99 # 100) 100.

(** [rho / (mu * (1 - rho))], applied to each point of the grid. *)
Definition wq_theoretical_at (r : Q) : Q := r / (mu * (1 - r)).

Definition wq_theoretical : list Q := wq_theoretical_at <$> rho_curve.

(** ** The loop over the scenarios (lines 15-24) *)

Section analysis.
Context {G : Type} `{SampleSource G}.

(** The body of the loop: the utilization, then the run, then the mean
    waiting time. *)
Definition run_scenario (fuel : nat) (sc : scenario) : sim G (Q * Q) :=
  r ← sim_lift (rho sc);
  results ← simulate_mm1_queue fuel (scenario_arrival_rate sc)
               (scenario_service_rate sc) analysis_simulation_time
               (Some analysis_seed);
  mret (r, average_queue_time results).

(** The loop, on the two lists it appends to. *)
Fixpoint analysis_loop (fuel : nat) (todo : list scenario) (rhos sim_wqs : list Q)
  : sim G (list Q * list Q) :=
  match todo with
  | [] => mret (rhos, sim_wqs)
  | sc :: todo =>
      rw ← run_scenario fuel sc;
      analysis_loop fuel todo (rhos ++ [rw.1]) (sim_wqs ++ [rw.2])
  end.

Definition run_scenarios (fuel : nat) : sim G (list Q * list Q) :=
  analysis_loop fuel scenarios [] [].

(** [wq] is the mean waiting time that a call of the entry point on its
    own returns at the rates of the scenario, with the horizon and the seed
    of the script, whatever the state of the generators before the call. *)
Definition standalone (fuel : nat) (sc : scenario) (wq : Q) : Prop :=
  ∀ w0 : world G, ∃ results w1,
    simulate_mm1_queue fuel (scenario_arrival_rate sc) (scenario_service_rate sc)
      analysis_simulation_time (Some analysis_seed) w0 = Ok (results, w1) ∧
    wq = average_queue_time results.

(** A scenario reseeds the generators, so its outcome does not depend on
    the world it starts from. *)
Lemma run_scenario_reseeds fuel sc (w1 w2 : world G) :
  run_scenario fuel sc w1 = run_scenario fuel sc w2.
Proof.
  unfold run_scenario, mbind, sim_bind, sim_lift.
  destruct (rho sc); [| done..].
  now rewrite (simulate_unfold _ _ _ _ _ w1), (simulate_unfold _ _ _ _ _ w2).
Qed.

Lemma analysis_loop_reseeds fuel sc todo rhos sim_wqs (w1 w2 : world G) :
  analysis_loop fuel (sc :: todo) rhos sim_wqs w1 =
  analysis_loop fuel (sc :: todo) rhos sim_wqs w2.
Proof.
  simpl. unfold mbind, sim_bind. now rewrite (run_scenario_reseeds fuel sc w1 w2).
Qed.

(** The analysis does not depend on the state of the generators when it
    starts: each scenario reseeds them with 42, so the three scenarios
    are run on the same stream of variates and two executions of the
    script give the same numbers. *)
Theorem run_scenarios_reproducible fuel (w1 w2 : world G) :
  run_scenarios fuel w1 = run_scenarios fuel w2.
Proof. apply analysis_loop_reseeds. Qed.

(** A scenario that returns gives its utilization and the mean waiting
    time of the call on its own. *)
Lemma run_scenario_Ok fuel sc (w : world G) r wq w' :
  run_scenario fuel sc w = Ok ((r, wq), w') →
  rho sc = Ok r ∧ standalone fuel sc wq.
Proof.
  unfold run_scenario.
  intros (r0 & w1 & [Hrho ->]%sim_lift_Ok & Hrun)%sim_bind_Ok.
  apply sim_bind_Ok in Hrun as (results & w2 & Hsim & [[= -> ->] ->]%sim_ret_Ok).
  split; [done |]. intros w0. eexists results, _. split; [| done].
  by rewrite (seeded_run_ignores_ambient_state _ _ _ _ _ w0 w).
Qed.

(** The loop appends, scenario after scenario. *)
Lemma analysis_loop_Ok fuel todo rhos sim_wqs (w : world G) rhos' sim_wqs' w' :
  analysis_loop fuel todo rhos sim_wqs w = Ok ((rhos', sim_wqs'), w') →
  ∃ rs wqs, rhos' = rhos ++ rs ∧ sim_wqs' = sim_wqs ++ wqs ∧
    Forall2 (λ sc r, rho sc = Ok r) todo rs ∧
    Forall2 (standalone fuel) todo wqs.
Proof.
  revert rhos sim_wqs w. induction todo as [| sc todo IH]; intros rhos sim_wqs w.
  - intros [[= <- <-] _]%sim_ret_Ok. exists [], []. by rewrite !app_nil_r.
  - simpl. intros ([r wq] & w1 & [Hr Hwq]%run_scenario_Ok & Hloop)%sim_bind_Ok.
    apply IH in Hloop as (rs & wqs & -> & -> & Hrs & Hwqs). simpl.
    exists (r :: rs), (wq :: wqs). rewrite <- !app_assoc.
    split_and!; [done | done | by constructor..].
Qed.

(** The utilizations of the scenarios are those their labels state. *)
Lemma scenario_rhos rhos :
  Forall2 (λ sc r, rho sc = Ok r) scenarios rhos →
  Forall2 Qeq rhos [1 # 2; 4 # 5; 9 # 10].
Proof.
  unfold scenarios. intros Hrhos.
  repeat match goal with
  | H : Forall2 _ (_ :: _) _ |- _ =>
      apply Forall2_cons_inv_l in H as (? & ? & [= <-] & H & ->)
  | H : Forall2 _ [] _ |- _ => apply Forall2_nil_inv_l in H as ->
  end.
  repeat constructor; by vm_compute.
Qed.

(** C26. The points of the figure are those of three calls on their own.
    When the loop over the scenarios returns, it returns one utilization
    and one mean waiting time per scenario, in the order of the scenarios:
    the utilization is the ratio of the rates of the scenario, which is
    1/2, 4/5 and 9/10 as the labels say, and the mean waiting time is the
    [average_queue_time] that a single call of the entry point returns at
    these rates with the horizon 20000 and the seed 42, from any state of
    the generators.  So no scenario depends on the variates the scenarios
    before it consumed: each call reseeds. *)
Theorem scenarios_are_calls_on_their_own fuel (w : world G) rhos sim_wqs w' :
  run_scenarios fuel w = Ok ((rhos, sim_wqs), w') →
  Forall2 (λ sc r, rho sc = Ok r) scenarios rhos ∧
  Forall2 Qeq rhos [1 # 2; 4 # 5; 9 # 10] ∧
  Forall2 (standalone fuel) scenarios sim_wqs.
Proof.
  intros (rs & wqs & -> & -> & Hrs & Hwqs)%analysis_loop_Ok.
  split_and!; [done | by apply scenario_rhos | done].
Qed.

End analysis.

(** ** A tape with some waiting

    The first arrival at [60000 / arrival_rate], the second
    [12000 / arrival_rate] later, services of 3000 and 1000 minutes, and
    the third arrival after the horizon: the second customer waits for
    the first. *)

Definition waiting_tape : replay :=
  Replay [Fraction 60000 1; Fraction 12000 1; Fraction 36000 1;
          Fraction 1200000 1; Fraction 12000 1] (Fraction 1 1).

Definition waiting_source : SampleSource replay :=
  replay_source (λ _, waiting_tape).

(** What the loop over the scenarios returns on it. *)
Definition waiting_points : (list Q * list Q) * world replay := Eval vm_compute in
  match @run_scenarios replay waiting_source 10 demo_world with
  | Ok points => points
  | _ => (([], []), demo_world)
  end.

(** ** The grid *)

Lemma linspace_length start stop num : length (linspace start stop num) = num.
Proof. unfold linspace. now rewrite length_fmap, length_seq. Qed.

(** The points of the grid lie between its ends. *)
Lemma linspace_bounds start stop num :
  start <= stop →
  Forall (λ x, start <= x ∧ x <= stop) (linspace start stop num).
Proof.
  intros Hle. unfold linspace. apply Forall_fmap, Forall_forall.
  intros i [_ Hi]%elem_of_seq. simpl in *.
  assert (0 <= inject_Z (Z.of_nat i)) as Hi0 by (apply inject_Z_nonneg; lia).
  assert (inject_Z (Z.of_nat i) <= inject_Z (Z.of_nat num - 1)) as Hi1
    by (rewrite <- Zle_Qle; lia).
  set (n := inject_Z (Z.of_nat num - 1)) in *.
  set (k := inject_Z (Z.of_nat i)) in *.
  assert (0 <= k * ((stop - start) / n) ∧ k * ((stop - start) / n) <= stop - start)
    as [Hlo Hhi]; [| lra].
  destruct (Qlt_le_dec 0 n) as [Hn | Hn].
  - pose proof (Qdiv_nonneg (stop - start) n ltac:(lra) Hn) as Hstep.
    pose proof (Qdiv_mult_cancel (stop - start) n ltac:(lra)) as Hcancel.
    split; nra.
  - assert (k == 0) as -> by lra. split; lra.
Qed.

(** ** The curve *)

Lemma wq_theoretical_at_pos r : 0 < r → r < 1 → 0 < wq_theoretical_at r.
Proof.
  intros H0 H1. unfold wq_theoretical_at, mu. apply Qdiv_pos; [done | lra].
Qed.

(** The analytic mean waiting time is positive on (0, 1) and
    strictly increasing in the utilization on [0, 1): the curve the script
    plots grows with the load. *)
Theorem wq_theoretical_increasing r1 r2 :
  0 <= r1 → r1 < r2 → r2 < 1 →
  wq_theoretical_at r1 < wq_theoretical_at r2 ∧ 0 < wq_theoretical_at r2.
Proof.
  intros H0 H12 H1. split; [| apply wq_theoretical_at_pos; lra].
  unfold wq_theoretical_at, mu.
  apply Qlt_shift_div_l; [lra |].
  assert (r1 / (12 * (1 - r1)) * (12 * (1 - r2)) ==
          r1 * (1 - r2) / (1 - r1)) as -> by (field; lra).
  apply Qlt_shift_div_r; [lra | nra].
Qed.

(** The utilization the script computes for each scenario is the one
    its label states: 1/2, 4/5 and 9/10, each below one; and the analytic
    waiting time of the first is 1/12 of a minute. *)
Theorem scenario_utilizations :
  ∃ rhos, mapM rho scenarios = Ok rhos ∧
    Forall2 Qeq rhos [1 # 2; 4 # 5; 9 # 10] ∧
    Forall (λ r, 0 < r ∧ r < 1) rhos ∧
    wq_theoretical_at (1 # 2) == 1 # 12.
Proof.
  eexists. split; [vm_compute; reflexivity |].
  split_and!; [repeat constructor; done | repeat constructor; done | done].
Qed.

(** The grid of the curve has 100 points between 0.01 and 0.99, so every
    value of the curve divides by a positive number and is positive. *)
Theorem rho_curve_within_unit_interval :
  length rho_curve = 100%nat ∧
  Forall (λ r, 1 # 100 <= r ∧ r <= 99 # 100) rho_curve ∧
  length wq_theoretical = 100%nat ∧
  Forall (Qlt 0) wq_theoretical.
Proof.
  pose proof (linspace_bounds (1 # 100) (99 # 100) 100 ltac:(done)) as Hgrid.
  unfold wq_theoretical, rho_curve. rewrite length_fmap, linspace_length.
  split_and!; [done.. |]. apply Forall_fmap. eapply Forall_impl; [exact Hgrid |].
  intros r [Hlo Hhi]. apply wq_theoretical_at_pos; lra.
Qed.

Lemma wq_theoretical_increasing_witness :
  wq_theoretical_at (1 # 2) < wq_theoretical_at (9 # 10) ∧
  0 < wq_theoretical_at (9 # 10).
Proof. apply (wq_theoretical_increasing (1 # 2) (9 # 10)); done. Defined.

(** ** On the tape with some waiting *)

Lemma waiting_points_eq :
  @run_scenarios replay waiting_source 10 demo_world = Ok waiting_points.
Proof. vm_compute. reflexivity. Qed.

(** On [waiting_tape], from a generator that was never seeded. *)
Lemma scenarios_are_calls_on_their_own_witness :
  Forall2 (λ sc r, rho sc = Ok r) scenarios waiting_points.1.1 ∧
  Forall2 Qeq waiting_points.1.1 [1 # 2; 4 # 5; 9 # 10] ∧
  Forall2 (@standalone replay waiting_source 10) scenarios waiting_points.1.2.
Proof.
  exact (@scenarios_are_calls_on_their_own replay waiting_source 10
           demo_world _ _ _ waiting_points_eq).
Defined.

(** The mean waiting times of the three points: they grow with the
    utilization. *)
Example waiting_points_evaluated :
  Forall2 Qeq waiting_points.1.2 [500; 875; 8500 # 9].
Proof. repeat constructor; by vm_compute. Qed.
