(* ===== verification/Fifo.v ===== *)
(** * The queueing discipline

    Customers are served in the order they arrive: the waiting line is a
    [deque] to which arrivals are appended on the right and from which the
    server takes on the left, and a record is appended when service starts.
    So the arrival times of the records, followed by those of the waiting
    line, are in non-decreasing order; and each service starts at the later
    of the customer's arrival and the previous departure (Lindley's
    recursion). *)

From S2P Require Import Prelude PyRuntime XTime PyDict Sampler Engine Spec.
From S2P Require Import Invariants Stats Simulate Busy.

#[local] Open Scope Q_scope.

(** ** Order *)

(** A list built by appending values that are at least all the earlier
    ones. *)
Inductive nondecreasing : list Q → Prop :=
| nondecreasing_nil : nondecreasing []
| nondecreasing_snoc l x :
    nondecreasing l → Forall (λ y, y <= x) l → nondecreasing (l ++ [x]).

(** The arrival times of the customers that entered, in the order the
    server takes them: those recorded, then those waiting. *)
Definition arrival_order (s : sim_state) : list Q :=
  (arrival_time <$> customer_stats s) ++ queue s.

(** Each service starts at the later of the arrival and the previous
    departure. *)
Inductive lindley : list customer → Prop :=
| lindley_nil : lindley []
| lindley_snoc stats c :
    lindley stats →
    service_start_time c == Qmax (arrival_time c) (last_departure stats) →
    lindley (stats ++ [c]).

Record fifo_inv (s : sim_state) : Prop := {
  fifo_order : nondecreasing (arrival_order s);
  fifo_past : Forall (λ a, a <= current_time s) (arrival_order s);
  fifo_lindley : lindley (customer_stats s)
}.

(** ** Lists in order *)

(** In a non-decreasing list an earlier element is at most a later one. *)
Lemma nondecreasing_lookup l :
  nondecreasing l →
  ∀ l1 x l2 y l3, l = l1 ++ x :: l2 ++ y :: l3 → x <= y.
Proof.
  induction 1 as [| l z _ IH Hz]; intros l1 x l2 y l3 Heq.
  { now destruct l1. }
  destruct l3 as [| y' l3 _] using rev_ind.
  - replace (l1 ++ x :: l2 ++ [y]) with ((l1 ++ x :: l2) ++ [y]) in Heq
      by now simplify_list_eq.
    apply app_inj_tail in Heq as [-> ->].
    apply Forall_app in Hz as [_ Hz]. now apply Forall_cons in Hz as [Hx _].
  - replace (l1 ++ x :: l2 ++ y :: l3 ++ [y'])
      with ((l1 ++ x :: l2 ++ y :: l3) ++ [y']) in Heq
      by now simplify_list_eq.
    apply app_inj_tail in Heq as [-> _]. eapply IH. done.
Qed.

Lemma lindley_lookup stats :
  lindley stats →
  ∀ prev c rest, stats = prev ++ c :: rest →
  service_start_time c == Qmax (arrival_time c) (last_departure prev).
Proof.
  induction 1 as [| stats c0 _ IH Hc0]; intros prev c rest Heq.
  { now destruct prev. }
  destruct rest as [| c' rest _] using rev_ind.
  - apply app_inj_tail in Heq as [-> ->]. done.
  - replace (prev ++ c :: rest ++ [c']) with ((prev ++ c :: rest) ++ [c']) in Heq
      by now simplify_list_eq.
    apply app_inj_tail in Heq as [-> _]. eapply IH. done.
Qed.

(** Service intervals of a chain do not overlap. *)
Lemma chained_lookup stats :
  chained stats →
  ∀ l1 c1 l2 c2 l3, stats = l1 ++ c1 :: l2 ++ c2 :: l3 →
  departure_time c1 <= service_start_time c2.
Proof.
  intros Hch l1 c1 l2 c2 l3 ->.
  replace (l1 ++ c1 :: l2 ++ c2 :: l3) with ((l1 ++ c1 :: l2) ++ c2 :: l3) in Hch
    by now simplify_list_eq.
  apply chained_prefix in Hch as (Hch & Hlast & _).
  apply Qle_trans with (last_departure (l1 ++ c1 :: l2)); [| done].
  apply chained_last_departure_max; [done |].
  rewrite elem_of_app, elem_of_cons. auto.
Qed.

(** ** The invariant *)

Lemma nondecreasing_arrival s now :
  fifo_inv s → current_time s <= now →
  nondecreasing (arrival_order s ++ [now]) ∧
  Forall (λ a, a <= now) (arrival_order s ++ [now]).
Proof.
  intros [Hord Hpast _] Hnow.
  assert (Forall (λ a, a <= now) (arrival_order s)) as Hall.
  { eapply Forall_impl; [done |]. simpl. intros a Ha. lra. }
  split; [now constructor |].
  apply Forall_app. split; [done |]. repeat constructor. lra.
Qed.

Lemma fifo_past_mono s now l :
  Forall (λ a, a <= current_time s) l → current_time s <= now →
  Forall (λ a, a <= now) l.
Proof. intros Hl Hnow. eapply Forall_impl; [done |]. simpl. intros a Ha. lra. Qed.

Section transitions.
Variable s : sim_state.
Hypotheses (Hc : clock_inv s) (Hp : population_inv s) (Hsv : service_inv s)
  (Hinv : fifo_inv s).

Lemma fifo_arrive_idle gap service :
  server_busy s = false →
  fifo_inv (arrival_starts_service s gap service).
Proof.
  intros Hbusy.
  destruct (nondecreasing_arrival s (next_arrival_time s) Hinv (clock_arrival s Hc))
    as [Hord Hpast].
  pose proof (population_idle s Hp Hbusy) as Hq.
  pose proof (service_idle s Hsv Hbusy) as Hidle.
  unfold arrival_order in *. rewrite Hq, app_nil_r in *.
  split; unfold arrival_order; simpl; rewrite ?Hq, ?app_nil_r, ?fmap_app; [done.. |].
  constructor; [apply (fifo_lindley s Hinv) |]. simpl.
  rewrite Q.max_l; [done |]. destruct Hc. lra.
Qed.

Lemma fifo_arrive_busy gap : fifo_inv (arrival_joins_queue s gap).
Proof.
  destruct (nondecreasing_arrival s (next_arrival_time s) Hinv (clock_arrival s Hc))
    as [Hord Hpast].
  split; unfold arrival_order in *; simpl; rewrite ?app_assoc; [done.. |].
  apply (fifo_lindley s Hinv).
Qed.

Lemma fifo_depart_next now arrival waiting service :
  next_event s = Departure now → queue s = arrival :: waiting →
  fifo_inv (departure_starts_next s now arrival waiting service).
Proof.
  intros Hev Hq. destruct Hinv as [Hord Hpast Hlin].
  destruct (service_departing s now Hev Hc (service_current s Hsv))
    as (prev & c & Heq & Hdep).
  assert (current_time s <= now) as Hnow.
  { destruct Hc. event_facts. replace (next_departure_time s) with (Fin now) in *.
    done. }
  unfold arrival_order in *. rewrite Hq in *.
  assert (arrival <= current_time s) as Harr.
  { apply Forall_app in Hpast as [_ Hpast]. now apply Forall_cons in Hpast as [? _]. }
  split; unfold arrival_order; simpl.
  - rewrite fmap_app. simpl. now rewrite <- app_assoc.
  - rewrite fmap_app. simpl. rewrite <- app_assoc. simpl.
    now apply (fifo_past_mono s).
  - constructor; [done |]. simpl.
    rewrite Heq, last_departure_snoc, Hdep, Q.max_r; [done | lra].
Qed.

Lemma fifo_depart_idle now :
  next_event s = Departure now → queue s = [] →
  fifo_inv (departure_leaves_idle s now).
Proof.
  intros Hev Hq. destruct Hinv as [Hord Hpast Hlin].
  assert (current_time s <= now) as Hnow.
  { destruct Hc. event_facts. replace (next_departure_time s) with (Fin now) in *.
    done. }
  unfold arrival_order in *. rewrite Hq in *.
  split; unfold arrival_order; simpl; rewrite ?Hq; [done | | done].
  now apply (fifo_past_mono s).
Qed.

End transitions.

Lemma fifo_invariant :
  invariant_under (λ s, clock_inv s ∧ population_inv s ∧ service_inv s) fifo_inv.
Proof.
  split.
  - intros s [first Hfirst]. split; simpl; constructor.
  - intros s s' (Hc & Hp & Hsv) Hinv Ht. revert s' Ht.
    apply transition_branches; intros.
    + now apply fifo_arrive_idle.
    + now apply fifo_arrive_busy.
    + now apply fifo_depart_next.
    + now apply fifo_depart_idle.
Qed.

Lemma valid_fifo_inv s : valid s → fifo_inv s.
Proof.
  apply (invariant_valid _ _ fifo_invariant). intros s' Hs'.
  split_and!; [now apply valid_clock_inv | now apply valid_population_inv
              | now apply valid_service_inv].
Qed.

(** ** On the runs of the entry point *)

Section discipline.
Context {G : Type} `{SampleSource G}.

Lemma run_to_horizon_fifo fuel lam mu T (w : world G) s w' :
  run_to_horizon fuel lam mu T w = Ok (s, w') →
  fifo_inv s ∧ chained (customer_stats s).
Proof.
  intros (s1 & Hreach%reachable_valid & _ & ->)%run_to_horizon_Ok.
  destruct (valid_fifo_inv s1 Hreach) as [Hord Hpast Hlin].
  split; [now split |]. apply (service_chained s1), valid_service_inv, Hreach.
Qed.

(** C33. First come, first served.  In every run that reaches the reducer
    the customers are recorded in the order of their arrival, those still
    waiting arrived after all those recorded, and of two recorded customers
    the earlier one has left when the later one starts service. *)
Theorem first_come_first_served fuel lam mu T (w : world G) s w' :
  run_to_horizon fuel lam mu T w = Ok (s, w') →
  nondecreasing (arrival_order s) ∧
  ∀ l1 c1 l2 c2 l3, customer_stats s = l1 ++ c1 :: l2 ++ c2 :: l3 →
    arrival_time c1 <= arrival_time c2 ∧
    departure_time c1 <= service_start_time c2.
Proof.
  intros [[Hord _ _] Hch]%run_to_horizon_fifo. split; [done |].
  intros l1 c1 l2 c2 l3 Heq. split; [| eapply chained_lookup; done].
  eapply (nondecreasing_lookup _ Hord (arrival_time <$> l1) _
            (arrival_time <$> l2) _ ((arrival_time <$> l3) ++ queue s)).
  unfold arrival_order. rewrite Heq. now simplify_list_eq.
Qed.

(** C34. Lindley's recursion.  In every run that reaches the reducer each
    customer starts service at the later of its arrival and the departure
    of the customer recorded before it (time 0 for the first). *)
Theorem lindley_recursion fuel lam mu T (w : world G) s w' prev c rest :
  run_to_horizon fuel lam mu T w = Ok (s, w') →
  customer_stats s = prev ++ c :: rest →
  lindley (customer_stats s) ∧
  service_start_time c == Qmax (arrival_time c) (last_departure prev).
Proof.
  intros [[_ _ Hlin] _]%run_to_horizon_fifo Heq. split; [done |].
  eapply lindley_lookup; done.
Qed.

End discipline.

(** ** On the recorded run *)

Lemma first_come_first_served_witness :
  ∃ s w', @run_to_horizon replay demo_source 10 2 (1 # 2) 3 (World demo_tape None)
            = Ok (s, w') ∧
    nondecreasing (arrival_order s) ∧
    ∀ l1 c1 l2 c2 l3, customer_stats s = l1 ++ c1 :: l2 ++ c2 :: l3 →
      arrival_time c1 <= arrival_time c2 ∧
      departure_time c1 <= service_start_time c2.
Proof.
  eexists _, _. split; [vm_compute; reflexivity |].
  eapply (@first_come_first_served replay demo_source 10 2 (1 # 2) 3
            (World demo_tape None)).
  vm_compute. reflexivity.
Defined.

Lemma lindley_recursion_witness :
  ∃ s w' prev c rest,
    @run_to_horizon replay demo_source 10 2 (1 # 2) 3 (World demo_tape None)
      = Ok (s, w') ∧
    length prev = 1%nat ∧ customer_stats s = prev ++ c :: rest ∧
    lindley (customer_stats s) ∧
    service_start_time c == Qmax (arrival_time c) (last_departure prev).
Proof.
  eexists _, _, [_], _, _. split; [vm_compute; reflexivity |].
  split; [reflexivity |]. split; [reflexivity |].
  eapply (@lindley_recursion replay demo_source 10 2 (1 # 2) 3
            (World demo_tape None)); [vm_compute |]; reflexivity.
Defined.
