(* ===== verification/Little.v ===== *)
(** * The area under the population is the time spent in the system

    The simulation keeps two accounts that never read each other.  The
    ledger [state_time] charges every interval between two events to the
    population during it; the records of [customer_stats] and the waiting
    line hold the arrival and the departure of every customer.  This file
    shows that they agree at every event: the time-weighted sum of the
    ledger, which the reducer divides by the horizon to get
    [average_system_length], is the total time the customers have spent in
    the system so far; and the sum weighted by the customers that wait,
    which gives [average_queue_length], is the total time spent in the
    line.  This is the sample-path form of Little's law, and it holds for
    every generator.  At the end of the run the final update of
    line 78 charges the time from the last event to the horizon, which is
    not positive, to the population after the last event. *)

From S2P Require Import Prelude PyRuntime XTime PyDict Sampler Engine Spec.
From S2P Require Import Invariants Stats Simulate Busy.

#[local] Open Scope Q_scope.

(** ** The two accounts *)

(** The part of the interval from [since c] to the departure of [c] that
    lies before [t]. *)
Definition elapsed (since : customer → Q) (t : Q) (c : customer) : Q :=
  Qmin (departure_time c) t - since c.

(** The time the customer of a record has spent in the system by [t]. *)
Definition time_in_system : Q → customer → Q := elapsed arrival_time.

(** The time spent in the system by [t]: by the customers recorded and by
    those in the line. *)
Definition sojourn_at (t : Q) (stats : list customer) (line : list Q) : Q :=
  py_sum (time_in_system t <$> stats) + py_sum ((λ a, t - a) <$> line).

Definition sojourn (s : sim_state) : Q :=
  sojourn_at (current_time s) (customer_stats s) (queue s).

(** The numerator of [average_system_length] (line 110). *)
Definition area (s : sim_state) : Q := weighted_time id (state_time s).

Definition little_inv (s : sim_state) : Prop := area s == sojourn s.

(** The same for the line alone.  The time spent waiting by [t]: by the
    customers recorded, whose wait is over, and by those in the line. *)
Definition waited_at (t : Q) (stats : list customer) (line : list Q) : Q :=
  py_sum (queue_time <$> stats) + py_sum ((λ a, t - a) <$> line).

Definition waited (s : sim_state) : Q :=
  waited_at (current_time s) (customer_stats s) (queue s).

(** The numerator of [average_queue_length] (line 111). *)
Definition queue_area (s : sim_state) : Q := weighted_time waiting (state_time s).

Definition queue_little_inv (s : sim_state) : Prop := queue_area s == waited s.

(** The customers recorded that have not left by the horizon [T]: the
    reducer leaves them out of its averages (line 92). *)
Definition unfinished (T : Q) (stats : list customer) : list customer :=
  filter (λ c, completed T c = false) stats.

(** The time they and the customers of the line have spent in the system
    by the last event, and the time they have waited. *)
Definition residual_sojourn (T : Q) (s : sim_state) : Q :=
  sojourn_at (current_time s) (unfinished T (customer_stats s)) (queue s).

Definition residual_wait (T : Q) (s : sim_state) : Q :=
  waited_at (current_time s) (unfinished T (customer_stats s)) (queue s).

(** ** The ledger *)

Lemma weighted_time_set (weight : Z → Z) (d : list (Z * Q)) k v :
  weighted_time weight (dict_set d k v) ==
  weighted_time weight d - inject_Z (weight k) * dict_get d k 0
    + inject_Z (weight k) * v.
Proof.
  induction d as [| [k' v'] d IH]; csimpl.
  - rewrite weighted_time_cons, weighted_time_nil. lra.
  - destruct (decide (k = k')) as [-> | Hne]; csimpl.
    + rewrite !weighted_time_cons. lra.
    + rewrite !weighted_time_cons, IH. lra.
Qed.

(** The update of lines 33, 58 and 78 adds the weight of the key times the
    duration. *)
Lemma weighted_time_add (weight : Z → Z) (d : list (Z * Q)) k x :
  weighted_time weight (dict_add d k x) ==
  weighted_time weight d + inject_Z (weight k) * x.
Proof. unfold dict_add. rewrite weighted_time_set. lra. Qed.

Lemma area_ledger_at s now :
  weighted_time id (ledger_at s now) ==
  area s + inject_Z (current_state s) * (now - last_event_time s).
Proof. unfold ledger_at, area. apply weighted_time_add. Qed.

(** ** The customers *)

Section elapsed.
Variable since : customer → Q.

Lemma elapsed_departed t t' c :
  departure_time c <= t → t <= t' → elapsed since t' c == elapsed since t c.
Proof. intros Hd Ht. unfold elapsed. rewrite !Q.min_l by lra. done. Qed.

Lemma elapsed_serving t t' c :
  t' <= departure_time c → t <= t' →
  elapsed since t' c == elapsed since t c + (t' - t).
Proof. intros Hd Ht. unfold elapsed. rewrite !Q.min_r by lra. lra. Qed.

Lemma departed_keep t t' stats :
  Forall (λ c, departure_time c <= t) stats → t <= t' →
  py_sum (elapsed since t' <$> stats) == py_sum (elapsed since t <$> stats).
Proof.
  intros Hstats Ht. apply py_sum_fmap_ext_Forall.
  eapply Forall_impl; [exact Hstats |]. intros c Hc.
  now apply elapsed_departed.
Qed.

End elapsed.

(** Every customer of the line accrues the time that passes. *)
Lemma line_accrues t t' (line : list Q) :
  py_sum ((λ a, t' - a) <$> line) ==
  py_sum ((λ a, t - a) <$> line) + inject_Z (Z.of_nat (length line)) * (t' - t).
Proof.
  rewrite <- py_sum_fmap_shift. apply py_sum_fmap_ext. intros a. lra.
Qed.

(** The records of a chain have all departed by its last departure. *)
Lemma chained_departed stats t :
  chained stats → last_departure stats <= t →
  Forall (λ c, departure_time c <= t) stats.
Proof.
  intros Hch Ht. apply Forall_forall. intros c Hc.
  pose proof (chained_last_departure_max stats c Hch Hc). lra.
Qed.

Section accrual.
Variables (s : sim_state) (t' : Q).
Hypotheses (Hc : clock_inv s) (Hp : population_inv s) (Hs : service_inv s).
Hypotheses (Hlater : current_time s <= t')
  (Hbefore : xle (Fin t') (next_departure_time s)).

(** Of the customers recorded, the one in service accrues the time that
    passes before its departure and the others have left. *)
Lemma records_accrue (since : customer → Q) :
  py_sum (elapsed since t' <$> customer_stats s) ==
  py_sum (elapsed since (current_time s) <$> customer_stats s)
    + (if server_busy s then t' - current_time s else 0).
Proof.
  destruct Hs as [Hch Hcur Hidle]. destruct (server_busy s) eqn:Hbusy.
  - destruct (Hcur eq_refl) as (prev & c & Heq & Hstart & Hnext).
    rewrite Hnext in Hbefore. simpl in Hbefore.
    rewrite Heq in Hch. apply chained_snoc_inv in Hch as (Hprev & Hlast & _).
    rewrite Heq, !py_sum_fmap_snoc.
    rewrite (departed_keep since (current_time s) t' prev),
      (elapsed_serving since (current_time s) t' c); [lra | done.. | | done].
    apply chained_departed; [done |]. rewrite Hstart in Hlast.
    pose proof (clock_start s Hc). lra.
  - rewrite (departed_keep since (current_time s) t'); [lra | | done].
    apply chained_departed; auto.
Qed.

(** Every customer in the system accrues the time that passes. *)
Lemma sojourn_accrues :
  sojourn_at t' (customer_stats s) (queue s) ==
  sojourn s + inject_Z (current_state s) * (t' - current_time s).
Proof.
  unfold sojourn, sojourn_at, time_in_system.
  rewrite records_accrue, (line_accrues (current_time s) t').
  rewrite (population_count s Hp). unfold in_system. rewrite inject_Z_plus.
  destruct (server_busy s); simpl; ring.
Qed.

End accrual.

(** ** What an event changes *)

Lemma sojourn_at_snoc t stats c line :
  sojourn_at t (stats ++ [c]) line == sojourn_at t stats line + time_in_system t c.
Proof. unfold sojourn_at. rewrite py_sum_fmap_snoc. lra. Qed.

Lemma sojourn_at_line_snoc t stats line a :
  sojourn_at t stats (line ++ [a]) == sojourn_at t stats line + (t - a).
Proof. unfold sojourn_at. rewrite py_sum_fmap_snoc. lra. Qed.

Lemma sojourn_at_line_cons t stats a line :
  sojourn_at t stats (a :: line) == sojourn_at t stats line + (t - a).
Proof. unfold sojourn_at. rewrite py_sum_fmap_cons. lra. Qed.

(** A customer who starts service at [t] has spent its wait in the
    system. *)
Lemma time_in_system_starting t a service :
  0 <= service → time_in_system t (Customer a t (t + service)) == t - a.
Proof.
  intros Hs. unfold time_in_system, elapsed. simpl. rewrite Q.min_r by lra. done.
Qed.

(** An event at [now] that leaves the time spent by [now] as it is keeps
    the two accounts equal. *)
Lemma little_moves s s' now :
  clock_inv s → population_inv s → service_inv s → little_inv s →
  current_time s' = now → state_time s' = ledger_at s now →
  current_time s <= now → xle (Fin now) (next_departure_time s) →
  sojourn_at now (customer_stats s') (queue s') ==
    sojourn_at now (customer_stats s) (queue s) →
  little_inv s'.
Proof.
  intros Hc Hp Hs Hl Hnow Hledger Hlater Hbefore Hsame.
  unfold little_inv, area, sojourn. rewrite Hnow, Hledger, area_ledger_at, Hsame.
  rewrite (sojourn_accrues s now) by done.
  unfold little_inv in Hl. rewrite (clock_last_event s Hc), Hl. done.
Qed.

Section events.
Variable s : sim_state.
Hypotheses (Hc : clock_inv s) (Hp : population_inv s) (Hs : service_inv s)
  (Hl : little_inv s).

(** An arrival: the customer has spent no time in the system yet. *)
Lemma little_arrival s' :
  next_event s = Arrival →
  current_time s' = next_arrival_time s →
  state_time s' = ledger_at s (next_arrival_time s) →
  sojourn_at (next_arrival_time s) (customer_stats s') (queue s') ==
    sojourn_at (next_arrival_time s) (customer_stats s) (queue s) →
  little_inv s'.
Proof.
  intros Hev%arrival_before_departure Hnow Hledger Hsame.
  apply (little_moves s s' (next_arrival_time s)); try done.
  apply (clock_arrival s Hc).
Qed.

(** A departure: the customer who starts service, if any, has spent its
    wait in the system. *)
Lemma little_departure s' now :
  next_event s = Departure now →
  current_time s' = now → state_time s' = ledger_at s now →
  sojourn_at now (customer_stats s') (queue s') ==
    sojourn_at now (customer_stats s) (queue s) →
  little_inv s'.
Proof.
  intros [Hnext _]%departure_before_arrival Hnow Hledger Hsame.
  pose proof (clock_departure s Hc) as Hdep. rewrite Hnext in Hdep.
  apply (little_moves s s' now); try done. rewrite Hnext. simpl. lra.
Qed.

End events.

Lemma little_invariant :
  invariant_under (λ s, clock_inv s ∧ population_inv s ∧ service_inv s) little_inv.
Proof.
  split.
  - intros s [first Hfirst]. now vm_compute.
  - intros s s' (Hc & Hp & Hs) Hl Ht.
    destruct Ht as [gap service Hev Hidle Hgap Hsvc | gap Hev Hbusy Hgap
                   | now arrival waiting service Hev Hq Hsvc | now Hev Hq].
    + apply (little_arrival s); try done. simpl.
      rewrite sojourn_at_snoc, time_in_system_starting by done. lra.
    + apply (little_arrival s); try done. simpl.
      rewrite sojourn_at_line_snoc. lra.
    + apply (little_departure s Hc Hp Hs Hl _ now); try done. simpl.
      rewrite Hq, sojourn_at_snoc, sojourn_at_line_cons,
        time_in_system_starting by done. lra.
    + apply (little_departure s Hc Hp Hs Hl _ now); try done. simpl.
      now rewrite Hq.
Qed.

Lemma valid_little_inv s : valid s → little_inv s.
Proof.
  apply (invariant_valid _ _ little_invariant). intros s' Hs'.
  split_and!; [now apply valid_clock_inv | now apply valid_population_inv
              | now apply valid_service_inv].
Qed.

(** ** The line *)

(** The customers that wait are those of the line. *)
Lemma waiting_in_line s :
  population_inv s → waiting (current_state s) = Z.of_nat (length (queue s)).
Proof.
  intros [Hcount Hidle]. rewrite Hcount. unfold in_system, waiting.
  destruct (server_busy s); [lia |]. rewrite Hidle by done. simpl. lia.
Qed.

Lemma waited_accrues s t' :
  population_inv s →
  waited_at t' (customer_stats s) (queue s) ==
  waited s + inject_Z (waiting (current_state s)) * (t' - current_time s).
Proof.
  intros Hp. unfold waited, waited_at.
  rewrite (line_accrues (current_time s) t'), (waiting_in_line s Hp). ring.
Qed.

Lemma waited_at_snoc t stats c line :
  waited_at t (stats ++ [c]) line == waited_at t stats line + queue_time c.
Proof. unfold waited_at. rewrite py_sum_fmap_snoc. lra. Qed.

Lemma waited_at_line_snoc t stats line a :
  waited_at t stats (line ++ [a]) == waited_at t stats line + (t - a).
Proof. unfold waited_at. rewrite py_sum_fmap_snoc. lra. Qed.

Lemma waited_at_line_cons t stats a line :
  waited_at t stats (a :: line) == waited_at t stats line + (t - a).
Proof. unfold waited_at. rewrite py_sum_fmap_cons. lra. Qed.

Lemma queue_moves s s' now :
  clock_inv s → population_inv s → queue_little_inv s →
  current_time s' = now → state_time s' = ledger_at s now →
  waited_at now (customer_stats s') (queue s') ==
    waited_at now (customer_stats s) (queue s) →
  queue_little_inv s'.
Proof.
  intros Hc Hp Hl Hnow Hledger Hsame. unfold queue_little_inv in *.
  unfold queue_area, waited in *. rewrite Hnow, Hledger. unfold ledger_at.
  rewrite weighted_time_add, Hsame, (waited_accrues s now Hp).
  unfold waited. rewrite (clock_last_event s Hc), Hl. done.
Qed.

Lemma queue_little_invariant :
  invariant_under (λ s, clock_inv s ∧ population_inv s) queue_little_inv.
Proof.
  split.
  - intros s [first Hfirst]. now vm_compute.
  - intros s s' (Hc & Hp) Hl Ht.
    destruct Ht as [gap service Hev Hidle Hgap Hsvc | gap Hev Hbusy Hgap
                   | now arrival waiting service Hev Hq Hsvc | now Hev Hq];
      (eapply queue_moves; [done.. | simpl]).
    + rewrite waited_at_snoc. unfold queue_time. simpl. lra.
    + rewrite waited_at_line_snoc. lra.
    + rewrite Hq, waited_at_snoc, waited_at_line_cons. unfold queue_time.
      simpl. lra.
    + now rewrite Hq.
Qed.

Lemma valid_queue_little_inv s : valid s → queue_little_inv s.
Proof.
  apply (invariant_valid _ _ queue_little_invariant). intros s' Hs'.
  split; [now apply valid_clock_inv | now apply valid_population_inv].
Qed.

(** ** The final update *)

Lemma final_update_queue_area T s :
  clock_inv s → queue_little_inv s →
  queue_area (final_update T s) ==
  waited s + inject_Z (waiting (current_state s)) * (T - current_time s).
Proof.
  intros Hc Hl. unfold queue_area. simpl. unfold queue_little_inv in Hl.
  unfold ledger_at. rewrite weighted_time_add, (clock_last_event s Hc).
  fold (queue_area s). rewrite Hl. done.
Qed.

(** Line 78 charges the time from the last event to the horizon to the
    population after the last event. *)
Lemma final_update_area T s :
  clock_inv s → little_inv s →
  area (final_update T s) ==
  sojourn s + inject_Z (current_state s) * (T - current_time s).
Proof.
  intros Hc Hl. unfold area. simpl. unfold little_inv in Hl.
  rewrite area_ledger_at, (clock_last_event s Hc), Hl. done.
Qed.

(** ** Little's law on the returned averages

    The reducer averages the times of the customers that completed by the
    horizon, and the ledger counts every customer while it is present.  So
    the time-averaged number in the system times the horizon is the mean
    time in the system times the number of completed customers, and the
    time spent so far by the customers that have not completed. *)

(** A sum over the records is the sum over the completed ones and the sum
    over the others. *)
Lemma records_split (f g : customer → Q) T (stats : list customer) :
  (∀ c, completed T c = true → f c == g c) →
  py_sum (f <$> stats) ==
  py_sum (g <$> filter (λ c, completed T c = true) stats)
    + py_sum (f <$> unfinished T stats).
Proof.
  intros Hfg. unfold unfinished. induction stats as [| c stats IH]; [done |].
  rewrite py_sum_fmap_cons, IH, !filter_cons. destruct (completed T c) eqn:Hc.
  - rewrite decide_True, decide_False, py_sum_fmap_cons, Hfg by done. lra.
  - rewrite decide_False, decide_True, py_sum_fmap_cons by done. lra.
Qed.

Lemma sojourn_split T t stats line :
  T <= t →
  sojourn_at t stats line ==
  py_sum (system_time <$> filter (λ c, completed T c = true) stats)
    + sojourn_at t (unfinished T stats) line.
Proof.
  intros Ht. unfold sojourn_at.
  rewrite (records_split (time_in_system t) system_time T); [lra |].
  intros c Hc%completed_iff. unfold time_in_system, elapsed, system_time.
  by rewrite Q.min_l by lra.
Qed.

Lemma waited_split T t stats line :
  waited_at t stats line ==
  py_sum (queue_time <$> filter (λ c, completed T c = true) stats)
    + waited_at t (unfinished T stats) line.
Proof.
  unfold waited_at. rewrite (records_split queue_time queue_time T); [lra | done].
Qed.

(** The numerators of the two mean lengths, from the mean times. *)
Lemma statistics_little T s r x y :
  statistics T s = Ok r → T <= current_time s →
  area s == sojourn s + x → queue_area s == waited s + y →
  average_system_length r * T ==
    average_system_time r * inject_Z (Z.of_nat (completed_customers r))
      + residual_sojourn T s + x ∧
  average_queue_length r * T ==
    average_queue_time r * inject_Z (Z.of_nat (completed_customers r))
      + residual_wait T s + y.
Proof.
  unfold residual_sojourn, residual_wait.
  intros (HT & _ & -> & _ & _ & -> & -> & _ & _ & -> & ->)%statistics_inv
    Hexit Harea Hqueue.
  fold (area s) (queue_area s). rewrite !Qdiv_mult_cancel, Harea, Hqueue by done.
  unfold sojourn, waited. rewrite (sojourn_split T), (waited_split T) by done.
  rewrite <- (length_fmap system_time) at 1. rewrite <- (length_fmap queue_time).
  fold (py_len (system_time <$> filter (λ c, completed T c = true) (customer_stats s))).
  fold (py_len (queue_time <$> filter (λ c, completed T c = true) (customer_stats s))).
  by rewrite !mean_or_zero_total.
Qed.

Section run.
Context {G : Type} `{SampleSource G}.

Lemma run_to_horizon_area fuel lam mu T (w : world G) s w' :
  run_to_horizon fuel lam mu T w = Ok (s, w') →
  T <= current_time s ∧
  area s == sojourn s + inject_Z (current_state s) * (T - current_time s) ∧
  queue_area s ==
    waited s + inject_Z (waiting (current_state s)) * (T - current_time s).
Proof.
  intros (s1 & Hreach%reachable_valid & Hexit & ->)%run_to_horizon_Ok.
  pose proof (valid_clock_inv s1 Hreach) as Hc. split_and!; [done | |].
  - now apply (final_update_area T s1), valid_little_inv.
  - now apply (final_update_queue_area T s1), valid_queue_little_inv.
Qed.

(** C29. The sample-path form of Little's law.  In every returned result
    the time-averaged number in the system times the horizon is the total
    time the customers spent in the system up to the last event (the
    recorded ones up to their departure, those in the line since their
    arrival), less the time from the horizon to the last event charged to
    the population after the last event; and the time-averaged number in
    the line times the horizon is the total time they spent waiting, less
    the same time charged to the line after the last event.  With the
    averages of the reducer, which cover the customers completed by the
    horizon: the time-averaged number in the system times the horizon is
    the mean time in the system times the number of completed customers,
    plus the time spent so far by the customers that have not completed,
    less the same charge; and the same for the line and the waiting
    times. *)
Theorem area_is_time_in_system fuel lam mu T seed (w : world G) r w' :
  simulate_mm1_queue fuel lam mu T seed w = Ok (r, w') →
  ∃ s, run_to_horizon fuel lam mu T (seeded_world seed w) = Ok (s, w') ∧
    T <= current_time s ∧
    average_system_length r * T ==
      sojourn s + inject_Z (current_state s) * (T - current_time s) ∧
    average_queue_length r * T ==
      waited s + inject_Z (waiting (current_state s)) * (T - current_time s) ∧
    average_system_length r * T ==
      average_system_time r * inject_Z (Z.of_nat (completed_customers r))
        + residual_sojourn T s
        + inject_Z (current_state s) * (T - current_time s) ∧
    average_queue_length r * T ==
      average_queue_time r * inject_Z (Z.of_nat (completed_customers r))
        + residual_wait T s
        + inject_Z (waiting (current_state s)) * (T - current_time s).
Proof.
  intros (s & Hrun & Hstat)%simulate_Ok. exists s. split; [done |].
  destruct (run_to_horizon_area _ _ _ _ _ _ _ Hrun) as (Hexit & Harea & Hqueue).
  destruct (statistics_little T s r _ _ Hstat Hexit Harea Hqueue) as [Hl Hq].
  apply statistics_inv in Hstat as (HT & _ & _ & _ & _ & _ & _ & _ & _ & HL & HLq).
  split_and!; [done | | | done..].
  - rewrite HL. fold (area s). by rewrite Qdiv_mult_cancel.
  - rewrite HLq. fold (queue_area s). by rewrite Qdiv_mult_cancel.
Qed.

End run.

(** On the recorded run the last event is the arrival at 3, on the
    horizon. *)
Lemma area_is_time_in_system_witness :
  ∃ r w' s,
    @simulate_mm1_queue replay demo_source 10 2 (1 # 2) 3 (Some 42%Z) demo_world
      = Ok (r, w') ∧
    @run_to_horizon replay demo_source 10 2 (1 # 2) 3
      (@seeded_world replay demo_source (Some 42%Z) demo_world) = Ok (s, w') ∧
    3 <= current_time s ∧
    average_system_length r * 3 ==
      sojourn s + inject_Z (current_state s) * (3 - current_time s) ∧
    average_queue_length r * 3 ==
      waited s + inject_Z (waiting (current_state s)) * (3 - current_time s) ∧
    average_system_length r * 3 ==
      average_system_time r * inject_Z (Z.of_nat (completed_customers r))
        + residual_sojourn 3 s
        + inject_Z (current_state s) * (3 - current_time s) ∧
    average_queue_length r * 3 ==
      average_queue_time r * inject_Z (Z.of_nat (completed_customers r))
        + residual_wait 3 s
        + inject_Z (waiting (current_state s)) * (3 - current_time s).
Proof.
  destruct (@area_is_time_in_system replay demo_source 10 2 (1 # 2) 3 (Some 42%Z)
              demo_world _ _ eq_refl) as (s & Hrun & Hrest).
  eexists _, _, s. done.
Defined.
