(* ===== verification/Overshoot.v ===== *)
(** * The event that crosses the horizon

    The loop tests the clock before it selects the event, so with a positive
    horizon the last event it processes is at or after the horizon, and the
    ledger has then been charged up to that event.  The final update of line
    78 adds the horizon less the time of that event, which is not positive,
    to the entry of the population after the event.  The ledger the
    specification describes is the one closed at the horizon before the
    crossing event ([intended_ledger]).  This file states the difference
    exactly: the entry of the population before the crossing event is too
    large by the overshoot, the entry of the population after it is too
    small by the overshoot, every other entry is right; the time-weighted
    sum is off by the overshoot, downwards after an arrival and upwards
    after a departure. *)

From S2P Require Import Prelude PyRuntime XTime PyDict Sampler Engine Spec.
From S2P Require Import Invariants Stats Simulate Busy Little.

#[local] Open Scope Q_scope.

(** ** The intended ledger *)

(** The ledger closed at the horizon in the state before the crossing
    event. *)
Definition intended_ledger (T : Q) (s : sim_state) : list (Z * Q) := ledger_at s T.

(** The time of the last event past the horizon. *)
Definition overshoot (T : Q) (s : sim_state) : Q := current_time s - T.

(** [x] for the entry [k], nothing for the others. *)
Definition charge (n k : Z) (x : Q) : Q := if decide (k = n) then x else 0.

(** The change of the population at the event processed in [s]. *)
Definition population_step (s : sim_state) : Z :=
  match next_event s with
  | Arrival => 1
  | Departure _ => -1
  end.

(** ** One event *)

Lemma dict_add_get_charge (d : list (Z * Q)) k n x :
  dict_get (dict_add d k x) n 0 == dict_get d n 0 + charge n k x.
Proof.
  rewrite dict_add_get. unfold charge.
  destruct (decide (k = n)) as [-> | Hne]; lra.
Qed.

(** Every event charges the time since the last event to the population
    before it. *)
Lemma transition_ledger s s' :
  transition s s' →
  state_time s' = ledger_at s (current_time s') ∧
  last_event_time s' = current_time s' ∧
  current_state s' = (current_state s + population_step s)%Z.
Proof. unfold population_step. intros [? ? Hev | ? Hev | ? ? ? ? Hev | ? Hev]; now rewrite Hev. Qed.

(** The ledger after the event and the final update, entry by entry. *)
Lemma crossing_ledger T s s' n :
  transition s s' →
  dict_get (state_time (final_update T s')) n 0 ==
  dict_get (intended_ledger T s) n 0
    + charge n (current_state s) (overshoot T s')
    - charge n (current_state s') (overshoot T s').
Proof.
  intros (Hledger & Hlast & _)%transition_ledger. simpl.
  unfold intended_ledger, ledger_at at 1. rewrite Hledger, Hlast. unfold ledger_at.
  rewrite !dict_add_get_charge. unfold charge, overshoot.
  repeat case_decide; lra.
Qed.

(** The time-weighted sum after the event and the final update. *)
Lemma crossing_area T s s' :
  transition s s' →
  area (final_update T s') ==
  weighted_time id (intended_ledger T s)
    - inject_Z (population_step s) * overshoot T s'.
Proof.
  intros (Hledger & Hlast & Hcount)%transition_ledger. unfold area. simpl.
  unfold intended_ledger, ledger_at at 1. rewrite Hledger, Hlast. unfold ledger_at.
  rewrite !weighted_time_add. unfold id. rewrite Hcount, inject_Z_plus.
  unfold overshoot. ring.
Qed.

(** No event is later than the pending departure. *)
Lemma transition_before_departure s s' :
  transition s s' → xle (Fin (current_time s')) (next_departure_time s).
Proof.
  intros [? ? Hev | ? Hev | ? ? ? ? Hev | ? Hev]; simpl.
  1, 2: now apply arrival_before_departure.
  all: apply departure_before_arrival in Hev as [-> _]; simpl; lra.
Qed.

(** The intended ledger is the time spent in the system by the horizon. *)
Lemma intended_area T s s' :
  valid s → transition s s' → current_time s <= T → T <= current_time s' →
  weighted_time id (intended_ledger T s) ==
  sojourn_at T (customer_stats s) (queue s).
Proof.
  intros Hv Ht Hlo Hhi.
  pose proof (valid_clock_inv s Hv) as Hc.
  pose proof (valid_little_inv s Hv) as Hl. unfold little_inv in Hl.
  pose proof (xle_Fin_trans _ _ _ Hhi (transition_before_departure s s' Ht))
    as Hbefore.
  unfold intended_ledger. rewrite area_ledger_at, (clock_last_event s Hc), Hl.
  rewrite (sojourn_accrues s T Hc (valid_population_inv s Hv)
             (valid_service_inv s Hv) Hlo Hbefore). done.
Qed.

(** ** Runs *)

Section run.
Context {G : Type} `{SampleSource G}.
Variables arrival_rate service_rate : Q.

(** With a positive horizon the loop ends with an event that starts
    before the horizon and ends at or after it. *)
Lemma run_to_horizon_crossing fuel T (w : world G) s w' :
  0 < T → run_to_horizon fuel arrival_rate service_rate T w = Ok (s, w') →
  ∃ s_prev w_prev s_last,
    reachable arrival_rate service_rate T s_prev w_prev ∧
    current_time s_prev < T ∧
    step arrival_rate service_rate s_prev w_prev = Ok (s_last, w') ∧
    T <= current_time s_last ∧ s = final_update T s_last.
Proof.
  intros HT (s1 & Hreach & Hexit & ->)%run_to_horizon_Ok.
  revert Hexit.
  destruct Hreach as [w0 s w1 Hinit | s0 w0 s w1 Hprev Hlt Hstep]; intros Hexit.
  - apply init_state_refines in Hinit. destruct Hinit as [first Hfirst].
    simpl in Hexit. lra.
  - now exists s0, w0, s.
Qed.

(** C20. The event that crosses the horizon is miscounted.  In every
    result returned for a positive horizon the last event processed starts
    before the horizon and ends at or after it; against the ledger closed
    at the horizon, the entry of the population before that event is too
    large by the overshoot and the entry of the population after it too
    small by the overshoot, the others are right; and
    [average_system_length] times the horizon is the time the customers
    spent in the system by the horizon, less the overshoot after an arrival
    and plus the overshoot after a departure. *)
Theorem crossing_event_is_miscounted fuel T seed (w : world G) r w' :
  0 < T →
  simulate_mm1_queue fuel arrival_rate service_rate T seed w = Ok (r, w') →
  ∃ s_prev s_last,
    transition s_prev s_last ∧ current_time s_prev < T ∧ T <= current_time s_last ∧
    run_to_horizon fuel arrival_rate service_rate T (seeded_world seed w) =
      Ok (final_update T s_last, w') ∧
    (∀ n, dict_get (state_time (final_update T s_last)) n 0 ==
          dict_get (intended_ledger T s_prev) n 0
            + charge n (current_state s_prev) (overshoot T s_last)
            - charge n (current_state s_last) (overshoot T s_last)) ∧
    current_state s_last = (current_state s_prev + population_step s_prev)%Z ∧
    average_system_length r * T ==
      sojourn_at T (customer_stats s_prev) (queue s_prev)
        - inject_Z (population_step s_prev) * overshoot T s_last.
Proof.
  intros HT (s & Hrun & Hstat)%simulate_Ok.
  destruct (run_to_horizon_crossing _ _ _ _ _ HT Hrun)
    as (s_prev & w_prev & s_last & Hreach%reachable_valid & Hlt & Hstep%step_refines
        & Hexit & ->).
  exists s_prev, s_last. split_and!; try done.
  - intros n. now apply crossing_ledger.
  - now apply transition_ledger.
  - apply statistics_inv in Hstat as (HT' & _ & _ & _ & _ & _ & _ & _ & _ & -> & _).
    rewrite Qdiv_mult_cancel by done. fold (area (final_update T s_last)).
    rewrite (crossing_area T s_prev s_last Hstep).
    rewrite (intended_area T s_prev s_last Hreach Hstep); [done | lra | done].
Qed.

End run.

(** On the recorded tape at rates 1 and 2 with horizon 1/2: the first
    arrival, at 1, crosses the horizon by 1/2. *)
Lemma crossing_event_is_miscounted_witness :
  ∃ r w' s_prev s_last,
    @simulate_mm1_queue replay demo_source 10 1 2 (1 # 2) (Some 42%Z) demo_world
      = Ok (r, w') ∧
    transition s_prev s_last ∧ current_time s_prev < 1 # 2 ∧
    1 # 2 <= current_time s_last ∧
    @run_to_horizon replay demo_source 10 1 2 (1 # 2)
      (@seeded_world replay demo_source (Some 42%Z) demo_world) =
      Ok (final_update (1 # 2) s_last, w') ∧
    (∀ n, dict_get (state_time (final_update (1 # 2) s_last)) n 0 ==
          dict_get (intended_ledger (1 # 2) s_prev) n 0
            + charge n (current_state s_prev) (overshoot (1 # 2) s_last)
            - charge n (current_state s_last) (overshoot (1 # 2) s_last)) ∧
    current_state s_last = (current_state s_prev + population_step s_prev)%Z ∧
    average_system_length r * (1 # 2) ==
      sojourn_at (1 # 2) (customer_stats s_prev) (queue s_prev)
        - inject_Z (population_step s_prev) * overshoot (1 # 2) s_last.
Proof.
  destruct (@crossing_event_is_miscounted replay demo_source 1 2 10 (1 # 2)
              (Some 42%Z) demo_world _ _ eq_refl eq_refl)
    as (s_prev & s_last & Hrest).
  eexists _, _, s_prev, s_last. split; [reflexivity | exact Hrest].
Defined.
