(* ===== verification/Utilization.v ===== *)
(** * The busy time and the empty system

    The simulation keeps two accounts of the server that never read each
    other.  The records of [customer_stats] hold the start and the end of
    every service; the entry 0 of the ledger [state_time] holds the time
    the system was empty.  At every event they agree: the server has worked
    exactly while the system was not empty ([busy_inv]).  The reducer reads
    the first account after the event that crosses the horizon (lines
    84-101): it counts the services that ended by the horizon in full and
    the service in progress up to the horizon.  This file states what it
    returns against the time the server worked by the horizon.  After an
    arrival the two differ by the overshoot only.  After a departure later
    than the horizon, the customer that left is not counted as completed
    and is no longer in service, so the whole of its service is left out:
    the utilization and the probability of the empty system then sum to
    one less the service time of that customer over the horizon. *)

From S2P Require Import Prelude PyRuntime XTime PyDict Sampler Engine Spec.
From S2P Require Import Invariants Stats Simulate Busy Little Overshoot.

#[local] Open Scope Q_scope.

(** ** The two accounts of the server *)

(** The service the customer of a record has received by [t]. *)
Definition served_by : Q → customer → Q := elapsed service_start_time.

(** The time the server has worked by [t]. *)
Definition busy_by (t : Q) (stats : list customer) : Q :=
  py_sum (served_by t <$> stats).

(** The time the ledger charges to the empty system. *)
Definition idle_time (ledger : list (Z * Q)) : Q := dict_get ledger 0%Z 0.

Definition busy_inv (s : sim_state) : Prop :=
  busy_by (current_time s) (customer_stats s) + idle_time (state_time s)
  == current_time s.

(** The event processed in [s] starts a service: an arrival that finds the
    server idle (line 40) or a departure that finds a customer waiting
    (line 64). *)
Definition starts_service (s : sim_state) : bool :=
  match next_event s with
  | Arrival => negb (server_busy s)
  | Departure _ => bool_decide (queue s ≠ [])
  end.

(** The part before [T] of the service that ends at the event processed in
    [s], when it ends later than [T]. *)
Definition dropped_service (T : Q) (s : sim_state) : Q :=
  match next_event s with
  | Arrival => 0
  | Departure now => if Qle_bool now T then 0 else T - server_start_time s
  end.

(** The whole of that service. *)
Definition late_departure (T : Q) (s : sim_state) : Q :=
  match next_event s with
  | Arrival => 0
  | Departure now => if Qle_bool now T then 0 else now - server_start_time s
  end.

(** ** Records *)

Lemma served_by_departed t c :
  departure_time c <= t → served_by t c == service_time c.
Proof.
  intros Hd. unfold served_by, elapsed, service_time. now rewrite Q.min_l.
Qed.

Lemma served_by_pending t c :
  t <= departure_time c → served_by t c == t - service_start_time c.
Proof. intros Hd. unfold served_by, elapsed. now rewrite Q.min_r. Qed.

Lemma busy_by_snoc t stats c :
  busy_by t (stats ++ [c]) == busy_by t stats + served_by t c.
Proof. unfold busy_by. apply py_sum_fmap_snoc. Qed.

(** The services that ended by [T] are counted in full. *)
Lemma busy_upto_departed T stats :
  Forall (λ c, departure_time c <= T) stats → busy_upto T stats == busy_by T stats.
Proof.
  induction stats as [| c stats IH] using rev_ind; [done |].
  intros [Hstats [Hc _]%Forall_cons]%Forall_app.
  rewrite busy_upto_snoc_completed, busy_by_snoc, served_by_departed, IH;
    [done.. | now apply completed_iff].
Qed.

(** ** What an event changes *)

(** An event adds a record exactly when it starts a service, which then
    starts at the event. *)
Lemma transition_records s s' :
  clock_inv s → transition s s' →
  (starts_service s = false ∧ customer_stats s' = customer_stats s) ∨
  (starts_service s = true ∧ server_busy s' = true ∧
   server_start_time s' = current_time s' ∧
   ∃ a service, 0 <= service ∧
     next_departure_time s' = Fin (current_time s' + service) ∧
     customer_stats s' =
       customer_stats s ++ [Customer a (current_time s') (current_time s' + service)]).
Proof.
  unfold starts_service.
  intros Hc [gap service Hev Hidle _ Hsvc | gap Hev Hbusy _
            | now a waiting service Hev Hq Hsvc | now Hev Hq]; rewrite Hev.
  - right. rewrite Hidle. split_and!; try done. now exists (next_arrival_time s), service.
  - left. now rewrite Hbusy.
  - right. rewrite Hq, bool_decide_true by done.
    split_and!; [done | now apply (departing_busy s now) | done |].
    now exists a, service.
  - left. rewrite Hq, bool_decide_false; [done | now intros []].
Qed.

(** A service that starts at [now] has received nothing by [now], and is
    counted negatively by an earlier [t]. *)
Lemma served_by_starting t a now service :
  0 <= service → t <= now →
  served_by t (Customer a now (now + service)) == t - now.
Proof. intros Hs Ht. rewrite served_by_pending; simpl; [done | lra]. Qed.

(** ** The server works exactly while the system is not empty *)

Lemma empty_iff_idle s :
  population_inv s → current_state s = 0%Z ↔ server_busy s = false.
Proof.
  intros [Hcount Hidle]. rewrite Hcount. unfold in_system.
  destruct (server_busy s); [split; [lia | done] |]. now rewrite Hidle.
Qed.

(** The time that passes is charged to the empty system when the server
    is idle. *)
Lemma idle_time_ledger_at s now :
  population_inv s →
  idle_time (ledger_at s now) ==
  idle_time (state_time s) + (if server_busy s then 0 else now - last_event_time s).
Proof.
  intros Hp. unfold idle_time, ledger_at. rewrite dict_add_get_charge.
  unfold charge. pose proof (empty_iff_idle s Hp) as Hiff.
  destruct (server_busy s); case_decide as Hz; try lra.
  - now apply Hiff in Hz.
  - destruct Hz. now apply Hiff.
Qed.

Section accounts.
Variable s : sim_state.
Hypotheses (Hc : clock_inv s) (Hp : population_inv s) (Hs : service_inv s)
  (Hb : busy_inv s).

(** And to the server when it is busy. *)
Lemma busy_accrues t' :
  current_time s <= t' → xle (Fin t') (next_departure_time s) →
  busy_by t' (customer_stats s) + idle_time (ledger_at s t') == t'.
Proof.
  intros Hlater Hbefore. unfold busy_inv, busy_by, served_by in *.
  rewrite (records_accrue s t' Hc Hs Hlater Hbefore), idle_time_ledger_at by done.
  rewrite (clock_last_event s Hc). destruct (server_busy s); lra.
Qed.

Lemma busy_moves s' :
  transition s s' → busy_inv s'.
Proof.
  intros Ht. unfold busy_inv.
  pose proof (transition_time_mono s s' Hc Ht) as Hlater.
  pose proof (transition_before_departure s s' Ht) as Hbefore.
  destruct (transition_ledger s s' Ht) as (-> & _ & _).
  rewrite <- (busy_accrues (current_time s') Hlater Hbefore) at 3.
  destruct (transition_records s s' Hc Ht)
    as [[_ ->] | (_ & _ & _ & a & service & Hsvc & _ & ->)]; [done |].
  rewrite busy_by_snoc, served_by_starting by (done || lra). lra.
Qed.

End accounts.

Lemma busy_invariant :
  invariant_under (λ s, clock_inv s ∧ population_inv s ∧ service_inv s) busy_inv.
Proof.
  split.
  - intros s [first Hfirst]. now vm_compute.
  - intros s s' (Hc & Hp & Hs) Hb Ht. now apply (busy_moves s).
Qed.

Lemma valid_busy_inv s : valid s → busy_inv s.
Proof.
  apply (invariant_valid _ _ busy_invariant). intros s' Hs'.
  split_and!; [now apply valid_clock_inv | now apply valid_population_inv
              | now apply valid_service_inv].
Qed.

(** ** The busy time the reducer computes *)

(** Of the records of a state, all but the one in service have left. *)
Lemma records_left s :
  clock_inv s → service_inv s →
  if server_busy s then
    ∃ prev c, customer_stats s = prev ++ [c] ∧
      service_start_time c = server_start_time s ∧
      next_departure_time s = Fin (departure_time c) ∧
      Forall (λ c', departure_time c' <= current_time s) prev
  else Forall (λ c, departure_time c <= current_time s) (customer_stats s).
Proof.
  intros Hc [Hch Hcur Hidle]. destruct (server_busy s) eqn:Hbusy.
  - destruct (Hcur eq_refl) as (prev & c & Heq & Hstart & Hnext).
    exists prev, c. split_and!; try done.
    rewrite Heq in Hch. apply chained_snoc_inv in Hch as (Hprev & Hlast & _).
    apply chained_departed; [done |]. rewrite Hstart in Hlast.
    pose proof (clock_start s Hc). lra.
  - apply chained_departed; auto.
Qed.

Lemma Forall_departed_le t t' (stats : list customer) :
  Forall (λ c, departure_time c <= t) stats → t <= t' →
  Forall (λ c, departure_time c <= t') stats.
Proof. intros Hstats Ht. eapply Forall_impl; [done |]. simpl. intros c Hc. lra. Qed.

(** Lines 84-101 on a state that is not later than the horizon: the
    reducer returns the time the server worked by the horizon. *)
Lemma closing_busy_time T s :
  clock_inv s → service_inv s → current_time s <= T →
  add_partial_service T s (busy_upto T (customer_stats s)) ==
  busy_by T (customer_stats s).
Proof.
  intros Hc Hs HT. pose proof (records_left s Hc Hs) as Hleft.
  unfold add_partial_service. destruct (server_busy s); simpl.
  - destruct Hleft as (prev & c & -> & <- & -> & Hprev).
    apply (Forall_departed_le _ T) in Hprev; [| done].
    rewrite busy_by_snoc, <- (busy_upto_departed T prev Hprev).
    destruct (completed T c) eqn:Hdone.
    + pose proof (proj1 (completed_iff T c) Hdone) as Hle.
      replace (xgt_bool _ _) with false
        by (symmetry; apply not_true_iff_false; rewrite xgt_bool_iff; simpl; lra).
      now rewrite busy_upto_snoc_completed, served_by_departed.
    + pose proof (proj1 (completed_false_iff T c) Hdone) as Hlt.
      replace (xgt_bool _ _) with true by (symmetry; now apply xgt_bool_iff).
      rewrite busy_upto_snoc_pending, served_by_pending by (done || lra). done.
  - apply busy_upto_departed, (Forall_departed_le (current_time s)); done.
Qed.

Section before_the_event.
Variables (T : Q) (s : sim_state).
Hypotheses (Hc : clock_inv s) (Hs : service_inv s) (HT : current_time s <= T).

(** With the server idle every service has ended. *)
Lemma idle_busy_upto :
  server_busy s = false →
  busy_upto T (customer_stats s) == busy_by T (customer_stats s).
Proof.
  intros Hidle. rewrite <- (closing_busy_time T s) by done.
  unfold add_partial_service. now rewrite Hidle.
Qed.

(** The service that ends at the next event is counted among the
    completed ones only when it ends by the horizon. *)
Lemma departing_busy_upto now :
  next_event s = Departure now →
  busy_upto T (customer_stats s) ==
  busy_by T (customer_stats s) - dropped_service T s.
Proof.
  intros Hev. rewrite <- (closing_busy_time T s) by done.
  unfold add_partial_service, dropped_service.
  rewrite Hev, (departing_busy s now Hev Hc).
  apply departure_before_arrival in Hev as [-> _]. unfold xgt_bool. simpl.
  destruct (Qle_bool now T); simpl; lra.
Qed.

End before_the_event.

(** Lines 84-101 after an event that starts a service at or after the
    horizon: the new service is counted from its start back to the
    horizon. *)
Lemma started_busy_time T s' stats a service :
  server_busy s' = true → server_start_time s' = current_time s' →
  0 <= service → next_departure_time s' = Fin (current_time s' + service) →
  customer_stats s' =
    stats ++ [Customer a (current_time s') (current_time s' + service)] →
  T <= current_time s' →
  add_partial_service T s' (busy_upto T (customer_stats s')) ==
  busy_upto T stats - overshoot T s'.
Proof.
  intros Hbusy Hstart Hsvc Hnext Heq HT. unfold add_partial_service, overshoot.
  rewrite Hbusy, Hnext, Hstart, Heq. unfold xgt_bool. simpl.
  set (c := Customer _ _ _).
  change (Qle_bool (current_time s' + service) T) with (completed T c).
  destruct (completed T c) eqn:Hdone; simpl.
  - apply completed_iff in Hdone as Hle. simpl in Hle.
    rewrite busy_upto_snoc_completed by done. unfold service_time. simpl. lra.
  - rewrite busy_upto_snoc_pending by done. lra.
Qed.

(** The busy time the reducer computes after the event that crosses the
    horizon, against the time the server worked by the horizon. *)
Lemma crossing_busy_time T s s' :
  clock_inv s → service_inv s → transition s s' →
  current_time s <= T → T <= current_time s' →
  add_partial_service T s' (busy_upto T (customer_stats s')) ==
  busy_by T (customer_stats s) - dropped_service T s
    - (if starts_service s then overshoot T s' else 0).
Proof.
  intros Hc Hs Ht Hlo Hhi.
  destruct Ht as [gap service Hev Hidle _ Hsvc | gap Hev Hbusy _
                 | now a waiting service Hev Hq Hsvc | now Hev Hq].
  - rewrite (started_busy_time T _ (customer_stats s) (next_arrival_time s) service)
      by done.
    rewrite idle_busy_upto by done.
    unfold starts_service, dropped_service. rewrite Hev, Hidle. simpl. lra.
  - transitivity (add_partial_service T s (busy_upto T (customer_stats s)));
      [unfold add_partial_service; simpl; by rewrite Hbusy |].
    rewrite closing_busy_time by done.
    unfold starts_service, dropped_service. rewrite Hev, Hbusy. simpl. lra.
  - rewrite (started_busy_time T _ (customer_stats s) a service);
      [| now apply (departing_busy s now) | done..].
    rewrite (departing_busy_upto T s Hc Hs Hlo now Hev).
    unfold starts_service. rewrite Hev, Hq, bool_decide_true by done. lra.
  - transitivity (busy_upto T (customer_stats s)); [done |].
    rewrite (departing_busy_upto T s Hc Hs Hlo now Hev).
    unfold starts_service. rewrite Hev, Hq, bool_decide_false by (now intros []).
    lra.
Qed.

(** ** The two accounts after the crossing event *)

(** The time the ledger returned charges to the empty system, against the
    ledger closed at the horizon. *)
Lemma crossing_idle_time T s s' :
  population_inv s → population_inv s' → transition s s' →
  idle_time (state_time (final_update T s')) ==
  idle_time (intended_ledger T s)
    + (if server_busy s then 0 else overshoot T s')
    - (if server_busy s' then 0 else overshoot T s').
Proof.
  intros Hp Hp' Ht. unfold idle_time. rewrite (crossing_ledger T s s' 0 Ht).
  unfold charge.
  pose proof (empty_iff_idle s Hp) as Hiff.
  pose proof (empty_iff_idle s' Hp') as Hiff'.
  destruct (server_busy s), (server_busy s'); repeat case_decide;
    try lra; exfalso; intuition congruence.
Qed.

(** What the crossing event takes from the busy time and moves in the
    ledger amounts to the service that ends late. *)
Lemma crossing_terms T s s' :
  clock_inv s → transition s s' → T <= current_time s' →
  dropped_service T s + (if starts_service s then overshoot T s' else 0)
    - (if server_busy s then 0 else overshoot T s')
    + (if server_busy s' then 0 else overshoot T s')
  == late_departure T s.
Proof.
  intros Hc Ht Hhi. unfold dropped_service, late_departure, starts_service, overshoot.
  destruct Ht as [gap service Hev Hidle _ Hsvc | gap Hev Hbusy _
                 | now a waiting service Hev Hq Hsvc | now Hev Hq];
    rewrite Hev; simpl in *.
  - rewrite Hidle. simpl. lra.
  - rewrite Hbusy. simpl. lra.
  - rewrite Hq, bool_decide_true, (departing_busy s now Hev Hc) by done.
    case_qle now T; lra.
  - rewrite Hq, bool_decide_false, (departing_busy s now Hev Hc) by (now intros []).
    case_qle now T; lra.
Qed.

(** By the horizon the server worked while the system was not empty; what
    the reducer is given says so up to the service that ends late. *)
Lemma crossing_accounts T s s' :
  valid s → transition s s' → current_time s <= T → T <= current_time s' →
  busy_by T (customer_stats s) + idle_time (intended_ledger T s) == T ∧
  add_partial_service T s' (busy_upto T (customer_stats s'))
    + idle_time (state_time (final_update T s')) == T - late_departure T s.
Proof.
  intros Hv Ht Hlo Hhi.
  pose proof (valid_clock_inv s Hv) as Hc.
  pose proof (valid_population_inv s Hv) as Hp.
  pose proof (valid_service_inv s Hv) as Hs.
  assert (busy_by T (customer_stats s) + idle_time (intended_ledger T s) == T)
    as Hintended.
  { apply busy_accrues; try done; [now apply valid_busy_inv |].
    eapply xle_Fin_trans; [exact Hhi | now apply transition_before_departure]. }
  split; [done |].
  rewrite crossing_busy_time, crossing_idle_time
    by (done || now apply valid_population_inv, (valid_transition s)).
  rewrite <- (crossing_terms T s s' Hc Ht Hhi). lra.
Qed.

(** The probability the result gives to the empty system is the entry 0 of
    the ledger over the horizon. *)
Lemma probability_of_empty T (ledger : list (Z * Q)) :
  dict_get (dict_map_values (λ t, t / T) ledger) 0%Z 0 == idle_time ledger / T.
Proof.
  unfold idle_time. induction ledger as [| [k v] d IH]; simpl.
  - unfold Qdiv. ring.
  - destruct (decide (0%Z = k)); [done | apply IH].
Qed.

(** ** The customers in the system and those in the line *)

(** The two time-weighted sums of the reducer differ by the time the
    ledger charges to the populations of one or more. *)
Lemma occupied_time (ledger : list (Z * Q)) :
  dict_wf ledger → (∀ n, n ∈ dict_keys ledger → (0 <= n)%Z) →
  weighted_time id ledger - weighted_time waiting ledger ==
  py_sum (dict_values ledger) - idle_time ledger.
Proof.
  unfold dict_wf, dict_keys, dict_values, idle_time.
  induction ledger as [| [n t] d IH]; [done |]. csimpl.
  intros [Hnew Hwf]%NoDup_cons Hkeys.
  rewrite !weighted_time_cons, py_sum_cons. simpl.
  specialize (IH Hwf (λ m Hm, Hkeys m (list_elem_of_further _ _ _ Hm))).
  pose proof (Hkeys n (list_elem_of_here _ _)) as Hn.
  set (W := weighted_time id d) in *. set (Wq := weighted_time waiting d) in *.
  clearbody W Wq. unfold id, waiting. destruct (decide (0%Z = n)) as [<- | Hne].
  - rewrite (dict_get_not_mem d 0%Z 0 Hnew) in IH.
    change (inject_Z (Z.max 0 (0 - 1))) with 0. change (inject_Z 0) with 0. lra.
  - rewrite Z.max_r by lia. unfold Z.sub. rewrite inject_Z_plus.
    change (inject_Z (- (1))) with (- (1)). lra.
Qed.

(** Over a closed ledger: the mean number in the system less the mean
    number in the line is the share of the horizon the system was not
    empty. *)
Lemma system_less_line T (ledger : list (Z * Q)) count :
  ¬ T == 0 → ledger_shape ledger count →
  py_sum (dict_values ledger) == T →
  weighted_time id ledger / T - weighted_time waiting ledger / T ==
  1 - idle_time ledger / T.
Proof.
  intros HT [Hwf Hkeys _ _] Hsum.
  pose proof (occupied_time ledger Hwf Hkeys) as Hocc. rewrite Hsum in Hocc.
  transitivity ((weighted_time id ledger - weighted_time waiting ledger) / T);
    [by field |].
  rewrite Hocc. by field.
Qed.

Section run.
Context {G : Type} `{SampleSource G}.
Variables arrival_rate service_rate : Q.

(** The fields of a returned result that depend on the server. *)
Lemma simulate_server_fields fuel T seed (w : world G) r w' :
  simulate_mm1_queue fuel arrival_rate service_rate T seed w = Ok (r, w') →
  ∃ s, run_to_horizon fuel arrival_rate service_rate T (seeded_world seed w)
         = Ok (s, w') ∧
    server_busy_time r = add_partial_service T s (busy_upto T (customer_stats s)) ∧
    server_utilization r = server_busy_time r / T ∧
    state_probabilities r = dict_map_values (λ t, t / T) (state_time s) ∧
    average_system_length r = weighted_time id (state_time s) / T ∧
    average_queue_length r = weighted_time waiting (state_time s) / T.
Proof.
  intros Hsim. pose proof (simulate_Ok_horizon _ _ _ _ _ _ _ _ Hsim) as HT.
  apply simulate_Ok in Hsim as (s & Hrun & Hstat). exists s. split; [done |].
  destruct (run_to_horizon_ledger _ _ _ _ _ _ _ Hrun) as [Hwf _].
  rewrite statistics_Ok in Hstat by done. now injection Hstat as <-.
Qed.

(** C31. The busy time of a result against the time the server worked.
    In every result returned for a positive horizon, by the horizon the
    server had worked exactly while the system was not empty; the
    [server_busy_time] returned is that time less the overshoot when the
    crossing event starts a service, and less the service before the
    horizon of the customer that leaves when the crossing event is a
    departure later than the horizon; and [server_utilization] plus the
    probability of the empty system is one less the whole service time of
    that customer over the horizon; and the mean number in the system
    exceeds the mean number in the line by the utilization plus that same
    share, so the three figures agree with one another exactly when no
    departure crosses the horizon. *)
Theorem busy_time_at_crossing fuel T seed (w : world G) r w' :
  0 < T →
  simulate_mm1_queue fuel arrival_rate service_rate T seed w = Ok (r, w') →
  ∃ s_prev s_last,
    transition s_prev s_last ∧ current_time s_prev < T ∧ T <= current_time s_last ∧
    run_to_horizon fuel arrival_rate service_rate T (seeded_world seed w) =
      Ok (final_update T s_last, w') ∧
    busy_by T (customer_stats s_prev) + idle_time (intended_ledger T s_prev) == T ∧
    server_busy_time r ==
      busy_by T (customer_stats s_prev) - dropped_service T s_prev
        - (if starts_service s_prev then overshoot T s_last else 0) ∧
    server_utilization r + dict_get (state_probabilities r) 0%Z 0 ==
      1 - late_departure T s_prev / T ∧
    average_system_length r - average_queue_length r ==
      server_utilization r + late_departure T s_prev / T.
Proof.
  intros HT (s & Hrun & Hbusy & Hutil & Hprob & Hlen & Hqlen)%simulate_server_fields.
  destruct (run_to_horizon_shape _ _ _ _ _ _ _ Hrun) as [Hshape _].
  destruct (run_to_horizon_ledger _ _ _ _ _ _ _ Hrun) as [_ Htotal].
  pose proof (system_less_line T _ _ ltac:(lra) Hshape Htotal) as Hocc.
  destruct (run_to_horizon_crossing _ _ _ _ _ _ _ HT Hrun)
    as (s_prev & w_prev & s_last & Hv%reachable_valid & Hlt & Hstep%step_refines
        & Hexit & ->).
  assert (current_time s_prev <= T) as Hle by lra.
  destruct (crossing_accounts T s_prev s_last Hv Hstep Hle Hexit) as [Hint Hsum].
  change (server_busy_time r =
          add_partial_service T s_last (busy_upto T (customer_stats s_last)))
    in Hbusy.
  assert (idle_time (state_time (final_update T s_last)) ==
          T - late_departure T s_prev - server_busy_time r) as Hidle
    by (rewrite Hbusy; lra).
  exists s_prev, s_last. split_and!; try done.
  - rewrite Hbusy. apply crossing_busy_time; try done;
      [now apply valid_clock_inv | now apply valid_service_inv].
  - rewrite Hutil, Hprob, probability_of_empty, Hidle. field. lra.
  - rewrite Hlen, Hqlen, Hocc, Hutil, Hidle. field. lra.
Qed.

End run.

(** On the recorded tape at rates 2 and 1/2 with horizon 7/4: the second
    customer is served from 3/2 and leaves at 2, after the horizon. *)
Lemma busy_time_at_crossing_witness :
  ∃ r w' s_prev s_last,
    @simulate_mm1_queue replay demo_source 10 2 (1 # 2) (7 # 4) (Some 42%Z) demo_world
      = Ok (r, w') ∧
    transition s_prev s_last ∧ current_time s_prev < 7 # 4 ∧
    7 # 4 <= current_time s_last ∧
    @run_to_horizon replay demo_source 10 2 (1 # 2) (7 # 4)
      (@seeded_world replay demo_source (Some 42%Z) demo_world) =
      Ok (final_update (7 # 4) s_last, w') ∧
    busy_by (7 # 4) (customer_stats s_prev)
      + idle_time (intended_ledger (7 # 4) s_prev) == 7 # 4 ∧
    server_busy_time r ==
      busy_by (7 # 4) (customer_stats s_prev) - dropped_service (7 # 4) s_prev
        - (if starts_service s_prev then overshoot (7 # 4) s_last else 0) ∧
    server_utilization r + dict_get (state_probabilities r) 0%Z 0 ==
      1 - late_departure (7 # 4) s_prev / (7 # 4) ∧
    average_system_length r - average_queue_length r ==
      server_utilization r + late_departure (7 # 4) s_prev / (7 # 4).
Proof.
  destruct (@busy_time_at_crossing replay demo_source 2 (1 # 2) 10 (7 # 4)
              (Some 42%Z) demo_world _ _ eq_refl eq_refl)
    as (s_prev & s_last & Hrest).
  eexists _, _, s_prev, s_last. split; [reflexivity | exact Hrest].
Defined.

(** The same run evaluated: the server worked 5/4 by the horizon, the
    result says 1; the utilization and the probability of the empty system
    sum to 1 - (1/2) / (7/4) = 5/7. *)
Example late_departure_evaluated :
  ∃ r w',
    @simulate_mm1_queue replay demo_source 10 2 (1 # 2) (7 # 4) (Some 42%Z) demo_world
      = Ok (r, w') ∧
    server_busy_time r == 1 ∧
    busy_by (7 # 4) (customer_stats demo_next.1) == 5 # 4 ∧
    late_departure (7 # 4) demo_next.1 == 1 # 2 ∧
    server_utilization r + dict_get (state_probabilities r) 0%Z 0 == 5 # 7 ∧
    average_system_length r - average_queue_length r == 6 # 7.
Proof. eexists _, _. split; [vm_compute; reflexivity |]. now vm_compute. Qed.
