(* ===== verification/Replay.v ===== *)
(** * The run depends on the variates only

    Lemmas on the generators that the examples of the development run on.
    The simulation reads its generator through [np.random.exponential]
    alone, at most once at line 24 and twice per iteration of the loop.  So
    two generators, of any two implementations, whose first
    [2 * fuel + 1] variates are the same give the same outcome: the same
    result, or the same exception.  In particular a generator can be
    replaced by the recording of its variates on a tape, which is what the
    witnesses of this development run on: recording a generator and
    replaying the tape gives the variates back. *)

From S2P Require Import Prelude PyRuntime XTime PyDict Sampler Engine Stats.
From S2P Require Import Simulate.

#[local] Open Scope Q_scope.

(** ** Recording *)

(** A non-negative rational as a recorded variate. *)
Definition to_fraction (q : Q) : fraction :=
  Fraction (Z.to_N (Qnum q)) (Qden q).

Section record.
Context {G : Type} `{SampleSource G}.

(** The first [n] variates of a generator. *)
Fixpoint record (n : nat) (g : G) : list fraction :=
  match n with
  | O => []
  | S n =>
      to_fraction (standard_exponential g).1 :: record n (standard_exponential g).2
  end.

(** The tape that replays them, and returns 0 afterwards. *)
Definition recording (n : nat) (g : G) : replay := Replay (record n g) (Fraction 0 1).

End record.

(** ** Generators that agree on their first variates *)

Section agreement.
Context {G1 G2 : Type} {S1 : SampleSource G1} {S2 : SampleSource G2}.

Definition same_draws (k : nat) (g1 : G1) (g2 : G2) : Prop :=
  ∀ n, (n < k)%nat → variate n g1 = variate n g2.

(** Two worlds agree for [k] draws: the seed given to [random] is the same
    and so are the next [k] variates of the numpy generator. *)
Definition agree (k : nat) (w1 : world G1) (w2 : world G2) : Prop :=
  random_seed_arg w1 = random_seed_arg w2 ∧
  same_draws k (numpy_rng w1) (numpy_rng w2).

(** Two outcomes are the same and leave worlds that agree for [k] draws. *)
Definition related {A} (k : nat)
  (o1 : outcome (A * world G1)) (o2 : outcome (A * world G2)) : Prop :=
  match o1, o2 with
  | Ok (a1, w1), Ok (a2, w2) => a1 = a2 ∧ agree k w1 w2
  | Raise e1, Raise e2 => e1 = e2
  | OutOfFuel, OutOfFuel => True
  | _, _ => False
  end.

(** Two computations draw at most [n] variates and do the same with
    them. *)
Definition respects {A} (n : nat) (m1 : sim G1 A) (m2 : sim G2 A) : Prop :=
  ∀ k w1 w2, agree (n + k) w1 w2 → related k (m1 w1) (m2 w2).

End agreement.

(** ** Laws *)

Section laws.
Context {G1 G2 : Type} {S1 : SampleSource G1} {S2 : SampleSource G2}.

(** [respects] between the two generators of the section. *)
#[local] Abbreviation resp :=
  (respects (G1 := G1) (G2 := G2) (S1 := S1) (S2 := S2)).

Lemma same_draws_le k k' (g1 : G1) (g2 : G2) :
  (k ≤ k')%nat → same_draws k' g1 g2 → same_draws k g1 g2.
Proof. intros Hle Hs n Hn. apply Hs. lia. Qed.

Lemma same_draws_next k (g1 : G1) (g2 : G2) :
  same_draws (S k) g1 g2 →
  (standard_exponential g1).1 = (standard_exponential g2).1 ∧
  same_draws k (standard_exponential g1).2 (standard_exponential g2).2.
Proof.
  intros Hs. split; [apply (Hs O); lia |].
  intros n Hn. rewrite <- !variate_S. apply Hs. lia.
Qed.

Lemma agree_le k k' (w1 : world G1) (w2 : world G2) :
  (k ≤ k')%nat → agree k' w1 w2 → agree k w1 w2.
Proof. intros Hle [Hseed Hs]. split; [done |]. now apply (same_draws_le k k'). Qed.

Lemma related_le {A} k k' (o1 : outcome (A * world G1)) (o2 : outcome (A * world G2)) :
  (k ≤ k')%nat → related k' o1 o2 → related k o1 o2.
Proof.
  intros Hle. destruct o1 as [[a1 w1] | |], o2 as [[a2 w2] | |]; try done.
  intros [-> Ha]. split; [done |]. now apply (agree_le k k').
Qed.

(** Related outcomes are the same outcome, the worlds apart. *)
Lemma related_fst {A} k (o1 : outcome (A * world G1)) (o2 : outcome (A * world G2)) :
  related k o1 o2 → fst <$> o1 = fst <$> o2.
Proof.
  destruct o1 as [[a1 w1] | |], o2 as [[a2 w2] | |]; try done.
  - now intros [-> _].
  - now intros ->.
Qed.

Lemma respects_le {A} n n' (m1 : sim G1 A) (m2 : sim G2 A) :
  (n ≤ n')%nat → resp n m1 m2 → resp n' m1 m2.
Proof.
  intros Hle Hm k w1 w2 Ha. apply (related_le k (n' - n + k)); [lia |].
  apply Hm. now replace (n + (n' - n + k))%nat with (n' + k)%nat by lia.
Qed.

Lemma respects_ret {A} (a : A) : resp 0 (mret a : sim G1 A) (mret a : sim G2 A).
Proof. now intros k w1 w2 Ha. Qed.

Lemma respects_lift {A} (o : outcome A) : resp 0 (sim_lift o) (sim_lift o).
Proof. intros k w1 w2 Ha. now destruct o. Qed.

Lemma respects_bind {A B} n p (m1 : sim G1 A) (m2 : sim G2 A)
    (f1 : A → sim G1 B) (f2 : A → sim G2 B) :
  resp n m1 m2 → (∀ a, resp p (f1 a) (f2 a)) →
  resp (n + p) (m1 ≫= f1) (m2 ≫= f2).
Proof.
  intros Hm Hf k w1 w2 Ha. unfold mbind, sim_bind.
  specialize (Hm (p + k)%nat w1 w2). rewrite Nat.add_assoc in Hm.
  specialize (Hm Ha).
  destruct (m1 w1) as [[a1 w1'] | |], (m2 w2) as [[a2 w2'] | |]; try done.
  destruct Hm as [-> Ha']. now apply Hf.
Qed.

(** ** The draws *)

Lemma respects_np_random_exponential scale :
  resp 1 (np_random_exponential scale) (np_random_exponential scale).
Proof.
  intros k w1 w2 [Hseed Hs]. unfold np_random_exponential.
  destruct (Qlt_bool scale 0); [done |].
  destruct (same_draws_next k _ _ Hs) as [Hhead Hnext].
  destruct (standard_exponential (numpy_rng w1)) as [e1 g1'],
    (standard_exponential (numpy_rng w2)) as [e2 g2']. simpl in *.
  subst. done.
Qed.

Lemma respects_exponential_of_rate rate :
  resp 1 (exponential_of_rate rate) (exponential_of_rate rate).
Proof.
  apply (respects_bind 0 1); [apply respects_lift |].
  intros scale. apply respects_np_random_exponential.
Qed.

(** ** The engine *)

Section engine.
Variables arrival_rate service_rate : Q.

Lemma respects_init_state :
  resp 1 (init_state arrival_rate) (init_state arrival_rate).
Proof.
  apply (respects_bind 1 0); [apply respects_exponential_of_rate |].
  intros first. apply respects_ret.
Qed.

Lemma respects_process_arrival s :
  resp 2 (process_arrival arrival_rate service_rate s)
             (process_arrival arrival_rate service_rate s).
Proof.
  apply (respects_bind 1 1); [apply respects_exponential_of_rate |].
  intros gap. destruct (server_busy s); simpl.
  - apply (respects_le 0); [lia | apply respects_ret].
  - apply (respects_bind 1 0); [apply respects_exponential_of_rate |].
    intros service. apply respects_ret.
Qed.

Lemma respects_process_departure now s :
  resp 1 (process_departure service_rate now s)
             (process_departure service_rate now s).
Proof.
  unfold process_departure. destruct (queue s).
  - apply (respects_le 0); [lia | apply respects_ret].
  - apply (respects_bind 1 0); [apply respects_exponential_of_rate |].
    intros service. apply respects_ret.
Qed.

Lemma respects_step s :
  resp 2 (step arrival_rate service_rate s) (step arrival_rate service_rate s).
Proof.
  unfold step. destruct (next_event s).
  - apply respects_process_arrival.
  - apply (respects_le 1); [lia | apply respects_process_departure].
Qed.

Lemma respects_event_loop fuel T s :
  resp (2 * fuel) (event_loop arrival_rate service_rate fuel T s)
                      (event_loop arrival_rate service_rate fuel T s).
Proof.
  revert s. induction fuel as [| fuel IH]; intros s; simpl event_loop;
    destruct (Qlt_bool (current_time s) T);
    try (apply (respects_le 0); [lia | apply respects_ret]).
  - now intros k w1 w2 Ha.
  - apply (respects_le (2 + 2 * fuel)); [lia |].
    apply respects_bind; [apply respects_step | apply IH].
Qed.

Lemma respects_run_to_horizon fuel T :
  resp (2 * fuel + 1) (run_to_horizon fuel arrival_rate service_rate T)
                          (run_to_horizon fuel arrival_rate service_rate T).
Proof.
  apply (respects_le (1 + (2 * fuel + 0))); [lia |].
  apply respects_bind; [apply respects_init_state |]. intros s0.
  apply respects_bind; [apply respects_event_loop |]. intros s.
  apply respects_ret.
Qed.

(** The call, seeding included. *)
Lemma simulate_agree fuel T seed (w1 : world G1) (w2 : world G2) :
  agree (2 * fuel + 1) w1 w2 →
  (∀ z, same_draws (2 * fuel + 1) (np_seed (G := G1) z) (np_seed (G := G2) z)) →
  fst <$> simulate_mm1_queue fuel arrival_rate service_rate T seed w1 =
  fst <$> simulate_mm1_queue fuel arrival_rate service_rate T seed w2.
Proof.
  intros Ha Hseeds. destruct (decide (seed_ok seed)) as [Hs | Hs];
    [| by rewrite !simulate_invalid_seed].
  rewrite !simulate_unfold by done. apply (related_fst 0).
  apply (respects_le (2 * fuel + 1 + 0) (2 * fuel + 1)); [lia | |].
  - apply respects_bind; [apply respects_run_to_horizon |].
    intros s. apply respects_lift.
  - rewrite Nat.add_0_r. destruct seed as [z |]; [| done].
    split; [done | apply Hseeds].
Qed.

(** The outcome of a call depends on the variates only.  Two worlds,
    over any two implementations of the generator, that agree on the seed of
    [random] and on the next [2 * fuel + 1] variates, and whose generators
    agree on as many variates after reseeding, give the same result or the
    same exception. *)
Theorem run_depends_on_draws_only fuel T seed (w1 : world G1) (w2 : world G2) :
  agree (2 * fuel + 1) w1 w2 →
  (∀ z, same_draws (2 * fuel + 1) (np_seed (G := G1) z) (np_seed (G := G2) z)) →
  fst <$> simulate_mm1_queue fuel arrival_rate service_rate T seed w1 =
  fst <$> simulate_mm1_queue fuel arrival_rate service_rate T seed w2.
Proof. apply simulate_agree. Qed.

End engine.

End laws.

(** ** Recording and replaying *)

Lemma fraction_Q_to_fraction (q : Q) : 0 <= q → fraction_Q (to_fraction q) = q.
Proof.
  destruct q as [a b]. unfold Qle, fraction_Q, to_fraction. simpl.
  intros Ha. rewrite Z2N.id by lia. done.
Qed.

Lemma to_fraction_Q (v : fraction) : to_fraction (fraction_Q v) = v.
Proof.
  destruct v as [a b]. unfold fraction_Q, to_fraction. simpl.
  now rewrite N2Z.id.
Qed.

Section roundtrip.
Context {G : Type} `{SampleSource G}.
Variable seeded : Z → replay.

(** Replaying a recording gives the variates of the generator. *)
Lemma recording_variate k (g : G) n :
  (n < k)%nat →
  @variate replay (replay_source seeded) n (recording k g) = variate n g.
Proof.
  revert g n. induction k as [| k IH]; intros g n Hn; [lia |].
  destruct n as [| n].
  - apply fraction_Q_to_fraction, standard_exponential_nonneg.
  - rewrite variate_S. apply (IH (standard_exponential g).2 n). lia.
Qed.

Lemma recording_same_draws k (g : G) :
  @same_draws G replay _ (replay_source seeded) k g (recording k g).
Proof. intros n Hn. symmetry. now apply recording_variate. Qed.

End roundtrip.

(** Recording the replay of a tape gives the tape. *)
Lemma record_replay (seeded : Z → replay) (vs : list fraction) (fb : fraction) :
  @record replay (replay_source seeded) (length vs) (Replay vs fb) = vs.
Proof.
  induction vs as [| v vs IH]; [done |]. simpl. f_equal; [| exact IH].
  apply to_fraction_Q.
Qed.

(** ** The run on the recording *)

Section recorded_run.
Context {G : Type} `{SampleSource G}.
Variable fuel : nat.

(** The tapes of a run of [fuel] iterations: the one each seed installs and
    the one the world holds. *)
Definition recorded_source : SampleSource replay :=
  replay_source (λ z, recording (2 * fuel + 1) (np_seed z)).

Definition recorded_world (w : world G) : world replay :=
  World (recording (2 * fuel + 1) (numpy_rng w)) (random_seed_arg w).

Lemma simulate_recorded arrival_rate service_rate T seed (w : world G) :
  fst <$> simulate_mm1_queue fuel arrival_rate service_rate T seed w =
  fst <$> @simulate_mm1_queue replay recorded_source fuel arrival_rate
            service_rate T seed (recorded_world w).
Proof.
  apply simulate_agree.
  - split; [done | apply recording_same_draws].
  - intros z. apply recording_same_draws.
Qed.

End recorded_run.

(** Round trip of the tape.  Replaying the recording of the first [k]
    variates of a generator returns these variates; recording the replay of
    a tape returns the tape; and the call on a generator and the call on the
    recording of its first [2 * fuel + 1] variates, before and after
    seeding, have the same outcome. *)
Theorem recording_round_trip {G : Type} `{SampleSource G} :
  (∀ seeded k (g : G) n, (n < k)%nat →
     @variate replay (replay_source seeded) n (recording k g) = variate n g) ∧
  (∀ seeded vs fb,
     @record replay (replay_source seeded) (length vs) (Replay vs fb) = vs) ∧
  (∀ fuel arrival_rate service_rate T seed (w : world G),
     fst <$> simulate_mm1_queue fuel arrival_rate service_rate T seed w =
     fst <$> @simulate_mm1_queue replay (recorded_source fuel) fuel arrival_rate
               service_rate T seed (recorded_world fuel w)).
Proof.
  split_and!; [intros seeded; apply recording_variate | apply record_replay
              | intros fuel; apply simulate_recorded].
Qed.

Lemma recording_round_trip_witness :
  @variate replay demo_source 1 (@recording replay demo_source 3 demo_tape) =
    @variate replay demo_source 1 demo_tape ∧
  @record replay demo_source (length (tape demo_tape))
    (Replay (tape demo_tape) (fallback demo_tape)) = tape demo_tape.
Proof.
  destruct (@recording_round_trip replay demo_source) as (Hv & Hr & _).
  split; [apply (Hv (λ _, demo_tape)); lia | apply (Hr (λ _, demo_tape))].
Defined.

(** ** On the recorded tape *)

(** The run on [demo_tape] and the run on the recording of its first 21
    variates are the same. *)
Lemma run_depends_on_draws_only_witness :
  fst <$> @simulate_mm1_queue replay demo_source 10 2 (1 # 2) 3 (Some 42%Z) demo_world =
  fst <$> @simulate_mm1_queue replay
            (replay_source (λ z, @recording replay demo_source 21 demo_tape))
            10 2 (1 # 2) 3 (Some 42%Z) demo_world.
Proof.
  apply (@run_depends_on_draws_only replay replay demo_source
           (replay_source (λ z, @recording replay demo_source 21 demo_tape))).
  - split; [done |]. now intros n Hn.
  - intros z. apply (@recording_same_draws replay demo_source).
Defined.
