(* ===== verification/Bisim.v ===== *)
(** * Results up to the representation of the numbers

    A Python float has one representation; a rational of [Q] has many
    ([1 # 2] and [2 # 4]), and the operations of [Q] do not normalise.  A
    model of a float program on [Q] is meaningful only if nothing in it can
    tell two representations of a number apart.  This file makes that a
    theorem of the whole call.  It defines the equivalence of states, of
    results and of outcomes that compares every number with [==] and
    everything else with [=], shows that every operation of
    [src/mm1_queue_simulation.py] maps equivalent arguments to equivalent
    results ([Proper] instances, from the ledger to [simulate_mm1_queue]),
    and that the transition system of [Spec.v] cannot tell equivalent
    states apart either (a bisimulation).  With the reseeding of lines 6-8
    this gives the reproducibility of seeded calls from any state of the
    generators; two calls without a seed are not equivalent in general. *)

From stdpp Require Import relations.
From S2P Require Import Prelude PyRuntime XTime PyDict Sampler Engine Spec.
From S2P Require Import Invariants Stats Simulate.

#[local] Open Scope Q_scope.

(** ** The equivalences *)

(** Populations, counts and generator states are compared with [=]. *)
#[export] Instance Z_equiv : Equiv Z := (=).
#[export] Instance world_equiv {G} : Equiv (world G) := (=).

#[export] Instance customer_equiv : Equiv customer := λ c1 c2,
  arrival_time c1 == arrival_time c2 ∧
  service_start_time c1 == service_start_time c2 ∧
  departure_time c1 == departure_time c2.

Inductive event_equiv : Equiv event :=
| Arrival_equiv : Arrival ≡ Arrival
| Departure_equiv t1 t2 : t1 == t2 → Departure t1 ≡ Departure t2.

#[export] Existing Instance event_equiv.

Record state_equiv (s1 s2 : sim_state) : Prop := {
  equiv_current_time : current_time s1 == current_time s2;
  equiv_server_busy : server_busy s1 = server_busy s2;
  equiv_server_start_time : server_start_time s1 == server_start_time s2;
  equiv_next_departure_time : next_departure_time s1 ≡ next_departure_time s2;
  equiv_queue : queue s1 ≡ queue s2;
  equiv_customer_stats : customer_stats s1 ≡ customer_stats s2;
  equiv_last_event_time : last_event_time s1 == last_event_time s2;
  equiv_state_time : state_time s1 ≡ state_time s2;
  equiv_current_state : current_state s1 = current_state s2;
  equiv_next_arrival_time : next_arrival_time s1 == next_arrival_time s2
}.

#[export] Instance sim_state_equiv : Equiv sim_state := state_equiv.

Record result_equiv (r1 r2 : sim_result) : Prop := {
  equiv_total_customers : total_customers r1 = total_customers r2;
  equiv_completed_customers : completed_customers r1 = completed_customers r2;
  equiv_total_system_time : total_system_time r1 == total_system_time r2;
  equiv_total_queue_time : total_queue_time r1 == total_queue_time r2;
  equiv_server_busy_time : server_busy_time r1 == server_busy_time r2;
  equiv_average_system_time : average_system_time r1 == average_system_time r2;
  equiv_average_queue_time : average_queue_time r1 == average_queue_time r2;
  equiv_server_utilization : server_utilization r1 == server_utilization r2;
  equiv_average_system_length :
    average_system_length r1 == average_system_length r2;
  equiv_average_queue_length : average_queue_length r1 == average_queue_length r2;
  equiv_state_probabilities : state_probabilities r1 ≡ state_probabilities r2
}.

#[export] Instance sim_result_equiv : Equiv sim_result := result_equiv.

(** Two outcomes are equivalent when they are the same exception, or both
    out of fuel, or equivalent values. *)
Inductive outcome_equiv {A} `{Equiv A} : Equiv (outcome A) :=
| Ok_equiv a b : a ≡ b → Ok a ≡ Ok b
| Raise_equiv e : Raise e ≡ Raise e
| OutOfFuel_equiv : OutOfFuel ≡ OutOfFuel.

#[export] Existing Instance outcome_equiv.

(** Two computations are equivalent when they have equivalent outcomes in
    every world. *)
#[export] Instance sim_equiv {G A} `{Equiv A} : Equiv (sim G A) :=
  λ m1 m2, ∀ w, m1 w ≡ m2 w.

(** ** They are equivalences *)

#[export] Instance Z_leibniz : LeibnizEquiv Z.
Proof. by intros x y. Qed.

#[export] Instance Z_equivalence : Equivalence (≡@{Z}).
Proof. unfold equiv, Z_equiv. apply _. Qed.

#[export] Instance world_equivalence {G} : Equivalence (≡@{world G}).
Proof. unfold equiv, world_equiv. apply _. Qed.

#[export] Instance customer_equivalence : Equivalence (≡@{customer}).
Proof.
  split.
  - by intros c.
  - intros c1 c2 (? & ? & ?). by split_and!.
  - intros c1 c2 c3 (? & ? & ?) (? & ? & ?). split_and!; by etrans.
Qed.

#[export] Instance event_equivalence : Equivalence (≡@{event}).
Proof.
  split.
  - intros []; by constructor.
  - intros ?? []; by constructor.
  - intros ??? [] Hyz; inversion_clear Hyz; constructor. by etrans.
Qed.

#[export] Instance sim_state_equivalence : Equivalence (≡@{sim_state}).
Proof.
  split.
  - intros s. by split.
  - intros s1 s2 []. by split.
  - intros s1 s2 s3 [] []. split; by etrans.
Qed.

#[export] Instance sim_result_equivalence : Equivalence (≡@{sim_result}).
Proof.
  split.
  - intros r. by split.
  - intros r1 r2 []. by split.
  - intros r1 r2 r3 [] []. split; by etrans.
Qed.

#[export] Instance outcome_equivalence {A} `{Equiv A} :
  Equivalence (≡@{A}) → Equivalence (≡@{outcome A}).
Proof.
  intros HA. split.
  - intros []; by constructor.
  - intros ?? []; by constructor.
  - intros ??? [] Hyz; inversion_clear Hyz; constructor. by etrans.
Qed.

#[export] Instance sim_equivalence {G A} `{Equiv A} :
  Equivalence (≡@{A}) → Equivalence (≡@{sim G A}).
Proof.
  intros HA. split.
  - by intros m w.
  - intros m1 m2 Hm w. by symmetry.
  - intros m1 m2 m3 H12 H23 w. by trans (m2 w).
Qed.

(** ** The data *)

#[export] Instance Customer_proper : Proper (Qeq ==> Qeq ==> Qeq ==> (≡)) Customer.
Proof. intros a a' Ha b b' Hb c c' Hc. by split_and!. Qed.

#[export] Instance arrival_time_proper : Proper ((≡) ==> Qeq) arrival_time.
Proof. by intros ?? (? & ? & ?). Qed.
#[export] Instance service_start_time_proper : Proper ((≡) ==> Qeq) service_start_time.
Proof. by intros ?? (? & ? & ?). Qed.
#[export] Instance departure_time_proper : Proper ((≡) ==> Qeq) departure_time.
Proof. by intros ?? (? & ? & ?). Qed.

#[export] Instance current_time_proper : Proper ((≡) ==> Qeq) current_time.
Proof. by intros ?? []. Qed.
#[export] Instance server_busy_proper : Proper ((≡) ==> (=)) server_busy.
Proof. by intros ?? []. Qed.
#[export] Instance server_start_time_proper : Proper ((≡) ==> Qeq) server_start_time.
Proof. by intros ?? []. Qed.
#[export] Instance next_departure_time_proper : Proper ((≡) ==> (≡)) next_departure_time.
Proof. by intros ?? []. Qed.
#[export] Instance queue_proper : Proper ((≡) ==> (≡)) queue.
Proof. by intros ?? []. Qed.
#[export] Instance customer_stats_proper : Proper ((≡) ==> (≡)) customer_stats.
Proof. by intros ?? []. Qed.
#[export] Instance last_event_time_proper : Proper ((≡) ==> Qeq) last_event_time.
Proof. by intros ?? []. Qed.
#[export] Instance state_time_proper : Proper ((≡) ==> (≡)) state_time.
Proof. by intros ?? []. Qed.
#[export] Instance current_state_proper : Proper ((≡) ==> (=)) current_state.
Proof. by intros ?? []. Qed.
#[export] Instance next_arrival_time_proper : Proper ((≡) ==> Qeq) next_arrival_time.
Proof. by intros ?? []. Qed.

(** ** The ledger *)

#[export] Instance dict_get_proper :
  Proper ((≡@{list (Z * Q)}) ==> (=) ==> Qeq ==> Qeq) dict_get.
Proof.
  intros d d' Hd k ? <- x x' Hx.
  induction Hd as [| [k1 v1] [k2 v2] d d' [Hk Hv] _ IH]; simpl in *; [done |].
  unfold equiv, Z_equiv in Hk. subst. by case_decide.
Qed.

#[export] Instance dict_set_proper :
  Proper ((≡@{list (Z * Q)}) ==> (=) ==> Qeq ==> (≡)) dict_set.
Proof.
  intros d d' Hd k ? <- x x' Hx.
  induction Hd as [| [k1 v1] [k2 v2] d d' [Hk Hv] Hd IH]; simpl in *.
  - by repeat constructor.
  - unfold equiv, Z_equiv in Hk. subst. case_decide; by repeat constructor.
Qed.

#[export] Instance dict_add_proper :
  Proper ((≡@{list (Z * Q)}) ==> (=) ==> Qeq ==> (≡)) dict_add.
Proof. unfold dict_add. solve_proper. Qed.

#[export] Instance ledger_at_proper : Proper ((≡) ==> Qeq ==> (≡)) ledger_at.
Proof.
  intros s s' Hs x x' Hx. unfold ledger_at.
  apply dict_add_proper; [by rewrite Hs | by rewrite Hs |].
  by rewrite Hx, Hs.
Qed.

(** ** The selection of the event and the four branches *)

#[export] Instance next_event_proper : Proper ((≡) ==> (≡)) next_event.
Proof.
  intros s s' Hs. unfold next_event.
  pose proof (equiv_next_departure_time _ _ Hs) as Hd.
  pose proof (equiv_next_arrival_time _ _ Hs) as Ha.
  destruct (next_departure_time s) as [d |], (next_departure_time s') as [d' |];
    try (by destruct Hd).
  change (d == d') in Hd. rewrite Ha, Hd. case_match; by constructor.
Qed.

(** [use_equivs] rewrites with every equivalence of the context;
    [state_proper] proves a state built field by field from equivalent
    parts equivalent. *)
Ltac use_equivs :=
  repeat match goal with
  | H : _ ≡ _ |- _ => rewrite ?H; clear H
  | H : _ == _ |- _ => rewrite ?H; clear H
  end.

Ltac state_proper := split; simpl; first [by use_equivs | by f_equiv; use_equivs].

#[export] Instance initial_state_proper : Proper (Qeq ==> (≡)) initial_state.
Proof. intros a a' Ha. split; simpl; done. Qed.

#[export] Instance arrival_starts_service_proper :
  Proper ((≡) ==> Qeq ==> Qeq ==> (≡)) arrival_starts_service.
Proof. unfold arrival_starts_service. intros s s' Hs g g' Hg v v' Hv. state_proper. Qed.

#[export] Instance arrival_joins_queue_proper :
  Proper ((≡) ==> Qeq ==> (≡)) arrival_joins_queue.
Proof. unfold arrival_joins_queue. intros s s' Hs g g' Hg. state_proper. Qed.

#[export] Instance departure_starts_next_proper :
  Proper ((≡) ==> Qeq ==> Qeq ==> (≡) ==> Qeq ==> (≡)) departure_starts_next.
Proof.
  unfold departure_starts_next.
  intros s s' Hs n n' Hn a a' Ha q q' Hq v v' Hv. state_proper.
Qed.

#[export] Instance departure_leaves_idle_proper :
  Proper ((≡) ==> Qeq ==> (≡)) departure_leaves_idle.
Proof. unfold departure_leaves_idle. intros s s' Hs n n' Hn. state_proper. Qed.

#[export] Instance final_update_proper : Proper (Qeq ==> (≡) ==> (≡)) final_update.
Proof. unfold final_update. intros T T' HT s s' Hs. state_proper. Qed.

(** ** Outcomes *)

#[export] Instance py_div_proper : Proper (Qeq ==> Qeq ==> (≡)) py_div.
Proof.
  intros x x' Hx y y' Hy. unfold py_div. rewrite Hy.
  case_match; constructor. by rewrite Hx, Hy.
Qed.

Lemma outcome_bind_proper {A B} `{Equiv A, Equiv B} (m m' : outcome A)
    (f f' : A → outcome B) :
  m ≡ m' → (∀ a a', a ≡ a' → f a ≡ f' a') → m ≫= f ≡ m' ≫= f'.
Proof. intros [a a' Ha | e |] Hf; simpl; [by apply Hf | constructor..]. Qed.

(** ** Computations over the world *)

Section computations.
Context {G : Type} `{SampleSource G}.

Lemma sim_ret_proper {A} `{Equiv A} (a a' : A) :
  a ≡ a' → mret (M := sim G) a ≡ mret a'.
Proof. intros Ha w. by constructor. Qed.

Lemma sim_bind_proper {A B} `{Equiv A, Equiv B} (m m' : sim G A)
    (f f' : A → sim G B) :
  m ≡ m' → (∀ a a', a ≡ a' → f a ≡ f' a') → m ≫= f ≡ m' ≫= f'.
Proof.
  intros Hm Hf w. unfold mbind, sim_bind.
  destruct (Hm w) as [[a w1] [a' w1'] [Ha Hw] | e |]; [| constructor..].
  simpl in *. unfold equiv, world_equiv in Hw. subst. by apply Hf.
Qed.

Lemma sim_lift_proper {A} `{Equiv A} (m m' : outcome A) :
  m ≡ m' → sim_lift (G := G) m ≡ sim_lift m'.
Proof. intros [a a' Ha | e |] w; by repeat constructor. Qed.

#[export] Instance np_random_exponential_proper :
  Proper (Qeq ==> (≡)) (np_random_exponential (G := G)).
Proof.
  intros x x' Hx w. unfold np_random_exponential. rewrite Hx.
  case_match; [constructor |]. destruct (standard_exponential _) as [e g].
  constructor. split; simpl; [by rewrite Hx | done].
Qed.

#[export] Instance exponential_of_rate_proper :
  Proper (Qeq ==> (≡)) (exponential_of_rate (G := G)).
Proof.
  intros r r' Hr. unfold exponential_of_rate.
  apply sim_bind_proper; [apply sim_lift_proper; by rewrite Hr |].
  apply np_random_exponential_proper.
Qed.

#[export] Instance init_state_proper : Proper (Qeq ==> (≡)) (init_state (G := G)).
Proof.
  intros r r' Hr. unfold init_state.
  apply sim_bind_proper; [by rewrite Hr |].
  intros a a' Ha. by apply sim_ret_proper, initial_state_proper.
Qed.

#[export] Instance process_arrival_proper :
  Proper (Qeq ==> Qeq ==> (≡) ==> (≡)) (process_arrival (G := G)).
Proof.
  intros lam lam' Hlam mu mu' Hmu s s' Hs. unfold process_arrival.
  apply sim_bind_proper; [by rewrite Hlam |]. intros gap gap' Hgap.
  rewrite (equiv_server_busy _ _ Hs). case_match.
  - apply sim_bind_proper; [by rewrite Hmu |]. intros v v' Hv.
    by apply sim_ret_proper, arrival_starts_service_proper.
  - by apply sim_ret_proper, arrival_joins_queue_proper.
Qed.

#[export] Instance process_departure_proper :
  Proper (Qeq ==> Qeq ==> (≡) ==> (≡)) (process_departure (G := G)).
Proof.
  intros mu mu' Hmu now now' Hnow s s' Hs. unfold process_departure.
  destruct (equiv_queue _ _ Hs) as [| a a' q q' Ha Hq].
  - by apply sim_ret_proper, departure_leaves_idle_proper.
  - apply sim_bind_proper; [by rewrite Hmu |]. intros v v' Hv.
    by apply sim_ret_proper, departure_starts_next_proper.
Qed.

#[export] Instance step_proper :
  Proper (Qeq ==> Qeq ==> (≡) ==> (≡)) (step (G := G)).
Proof.
  intros lam lam' Hlam mu mu' Hmu s s' Hs. unfold step.
  destruct (next_event_proper _ _ Hs) as [| now now' Hnow].
  - by apply process_arrival_proper.
  - by apply process_departure_proper.
Qed.

#[export] Instance event_loop_proper :
  Proper (Qeq ==> Qeq ==> (=) ==> Qeq ==> (≡) ==> (≡)) (event_loop (G := G)).
Proof.
  intros lam lam' Hlam mu mu' Hmu fuel ? <- T T' HT.
  induction fuel as [| fuel IH]; intros s s' Hs; simpl;
    rewrite (equiv_current_time _ _ Hs), HT; case_match;
    try (by apply sim_ret_proper); [by intros w |].
  apply sim_bind_proper; [by apply step_proper | done].
Qed.

#[export] Instance run_to_horizon_proper :
  Proper ((=) ==> Qeq ==> Qeq ==> Qeq ==> (≡)) (run_to_horizon (G := G)).
Proof.
  intros fuel ? <- lam lam' Hlam mu mu' Hmu T T' HT. unfold run_to_horizon.
  apply sim_bind_proper; [by apply init_state_proper |]. intros s0 s0' Hs0.
  apply sim_bind_proper; [by apply event_loop_proper |]. intros s s' Hs.
  by apply sim_ret_proper, final_update_proper.
Qed.

End computations.

(** ** The reducer *)

#[export] Instance completed_proper : Proper (Qeq ==> (≡) ==> (=)) completed.
Proof. intros T T' HT c c' Hc. unfold completed. by rewrite Hc, HT. Qed.

#[export] Instance system_time_proper : Proper ((≡) ==> Qeq) system_time.
Proof. intros c c' Hc. unfold system_time. by rewrite Hc. Qed.

#[export] Instance queue_time_proper : Proper ((≡) ==> Qeq) queue_time.
Proof. intros c c' Hc. unfold queue_time. by rewrite Hc. Qed.

#[export] Instance service_time_proper : Proper ((≡) ==> Qeq) service_time.
Proof. intros c c' Hc. unfold service_time. by rewrite Hc. Qed.

#[export] Instance py_sum_equiv_proper : Proper ((≡) ==> Qeq) py_sum.
Proof. intros l l' Hl%list_equiv_Forall2. by apply py_sum_proper. Qed.

#[export] Instance py_len_proper : Proper ((≡) ==> Qeq) py_len.
Proof. intros l l' Hl. unfold py_len. by rewrite Hl. Qed.

#[export] Instance mean_or_zero_proper : Proper ((≡) ==> Qeq) mean_or_zero.
Proof.
  intros l l' Hl. unfold mean_or_zero, np_mean.
  destruct Hl as [| x x' l l' Hx Hl]; [done |].
  assert (x :: l ≡ x' :: l') as Hxl by by constructor. by rewrite Hxl.
Qed.

(** The records kept by the test of line 92. *)
Lemma completed_filter_proper T T' (stats stats' : list customer) :
  T == T' → stats ≡ stats' →
  filter (λ c, completed T c = true) stats ≡
  filter (λ c, completed T' c = true) stats'.
Proof.
  intros HT. induction 1 as [| c c' l l' Hc Hl IH]; [done |].
  rewrite !filter_cons, (completed_proper _ _ HT _ _ Hc).
  case_decide; [by constructor | done].
Qed.

#[export] Instance py_count_completed_proper T :
  Proper ((≡) ==> (=)) (py_count (completed T)).
Proof.
  intros l l' Hl. unfold py_count.
  by rewrite (completed_filter_proper T T l l').
Qed.

#[export] Instance add_partial_service_proper :
  Proper (Qeq ==> (≡) ==> Qeq ==> Qeq) add_partial_service.
Proof.
  intros T T' HT s s' Hs b b' Hb. unfold add_partial_service, xgt_bool.
  rewrite (equiv_server_busy _ _ Hs).
  rewrite (xle_bool_proper _ _ (equiv_next_departure_time _ _ Hs)
             (Fin T) (Fin T') (Fin_proper _ _ HT)).
  case_match; by rewrite ?Hb, ?HT, ?Hs.
Qed.

#[export] Instance weighted_time_proper weight :
  Proper ((≡) ==> Qeq) (weighted_time weight).
Proof.
  intros d d' Hd. unfold weighted_time, dict_items. apply py_sum_proper.
  induction Hd as [| [n t] [n' t'] d d' [Hn Ht] _ IH]; simpl in *;
    constructor; [| done].
  unfold equiv, Z_equiv in Hn. subst. by rewrite Ht.
Qed.

#[export] Instance probability_items_proper :
  Proper (Qeq ==> (≡) ==> (≡)) probability_items.
Proof.
  intros T T' HT d d' Hd. unfold probability_items, dict_items.
  induction Hd as [| [n t] [n' t'] d d' [Hn Ht] _ IH]; simpl in *;
    [by repeat constructor |].
  unfold equiv, Z_equiv in Hn. subst.
  apply outcome_bind_proper.
  - apply outcome_bind_proper; [by apply py_div_proper |].
    intros p p' Hp. by apply Ok_equiv.
  - intros y y' Hy. apply outcome_bind_proper; [done |].
    intros k k' Hk. apply Ok_equiv. by constructor.
Qed.

#[export] Instance dict_of_items_proper :
  Proper ((≡@{list (Z * Q)}) ==> (≡)) dict_of_items.
Proof.
  intros l l' Hl. unfold dict_of_items.
  assert (@nil (Z * Q) ≡ []) as Hacc by done. revert Hacc.
  generalize (@nil (Z * Q)) at 1 3. generalize (@nil (Z * Q)).
  induction Hl as [| [n t] [n' t'] l l' [Hn Ht] _ IH]; intros acc acc' Hacc;
    simpl in *; [done |].
  unfold equiv, Z_equiv in Hn. subst. apply IH. by apply dict_set_proper.
Qed.

#[export] Instance statistics_proper : Proper (Qeq ==> (≡) ==> (≡)) statistics.
Proof.
  intros T T' HT s s' Hs. unfold statistics. rewrite !tally_all_eq.
  pose proof (completed_filter_proper T T' _ _ HT (equiv_customer_stats _ _ Hs))
    as Hdone.
  assert (∀ f : customer → Q, Proper ((≡) ==> Qeq) f →
            f <$> filter (λ c, completed T c = true) (customer_stats s) ≡
            f <$> filter (λ c, completed T' c = true) (customer_stats s'))
    as Hmap by (intros f Hf; by apply list_fmap_proper).
  assert (add_partial_service T s
            (py_sum (service_time <$>
               filter (λ c, completed T c = true) (customer_stats s))) ==
          add_partial_service T' s'
            (py_sum (service_time <$>
               filter (λ c, completed T' c = true) (customer_stats s'))))
    as Hbusy
    by (apply add_partial_service_proper; [done.. |];
        apply py_sum_equiv_proper, Hmap, _).
  apply outcome_bind_proper; [by apply py_div_proper |]. intros u u' Hu.
  apply outcome_bind_proper; [apply py_div_proper; by rewrite ?Hs |].
  intros l l' Hl.
  apply outcome_bind_proper; [apply py_div_proper; by rewrite ?Hs |].
  intros q q' Hq.
  apply outcome_bind_proper; [apply probability_items_proper; by rewrite ?Hs |].
  intros p p' Hp. apply Ok_equiv. split; simpl.
  - by rewrite Hs.
  - unfold py_count. by rewrite Hdone.
  - by rewrite (Hmap system_time _).
  - by rewrite (Hmap queue_time _).
  - done.
  - by rewrite (Hmap system_time _).
  - by rewrite (Hmap queue_time _).
  - done.
  - done.
  - done.
  - by apply dict_of_items_proper.
Qed.

Section call.
Context {G : Type} `{SampleSource G}.

#[export] Instance simulate_mm1_queue_proper :
  Proper ((=) ==> Qeq ==> Qeq ==> Qeq ==> (=) ==> (≡))
    (simulate_mm1_queue (G := G)).
Proof.
  intros fuel ? <- lam lam' Hlam mu mu' Hmu T T' HT seed ? <-.
  unfold simulate_mm1_queue.
  apply sim_bind_proper; [done |]. intros _ _ _.
  apply sim_bind_proper; [by apply run_to_horizon_proper |]. intros s s' Hs.
  by apply sim_lift_proper, statistics_proper.
Qed.

(** Two calls on generators that are in the same state after the seeding
    have equivalent outcomes. *)
Lemma equal_arguments_equivalent_results fuel lam lam' mu mu' T T' seed
    (w w' : world G) :
  lam == lam' → mu == mu' → T == T' →
  seeded_world seed w = seeded_world seed w' →
  simulate_mm1_queue fuel lam mu T seed w ≡
  simulate_mm1_queue fuel lam' mu' T' seed w'.
Proof.
  intros Hlam Hmu HT Hw. destruct (decide (seed_ok seed)) as [Hs | Hs];
    [| rewrite !simulate_invalid_seed by done; apply Raise_equiv].
  rewrite !simulate_unfold, Hw by done.
  apply sim_bind_proper; [by apply run_to_horizon_proper |]. intros s s' Hs'.
  by apply sim_lift_proper, statistics_proper.
Qed.

(** C13. Reproducibility.  When a seed is given the call reseeds numpy's
    generator before its first draw, so two calls with that seed, the same
    fuel and rates and horizons that are equal as numbers have equivalent
    outcomes from any two states of the generators, seeded or not, drawn
    from or not: the same exception, or results whose counts are equal and
    whose times, averages and probabilities are equal as numbers, and the
    generators are left in the same state.  ([unseeded_calls_differ]: a
    call without a seed does depend on the state it finds.) *)
Theorem seeded_calls_agree fuel lam lam' mu mu' T T' z (w w' : world G) :
  lam == lam' → mu == mu' → T == T' →
  simulate_mm1_queue fuel lam mu T (Some z) w ≡
  simulate_mm1_queue fuel lam' mu' T' (Some z) w'.
Proof.
  intros Hlam Hmu HT. by apply equal_arguments_equivalent_results.
Qed.

End call.

(** ** The transition system cannot tell equivalent states apart *)

Lemma next_event_Arrival_equiv s t :
  s ≡ t → next_event s = Arrival → next_event t = Arrival.
Proof.
  intros Hst%next_event_proper Hs. rewrite Hs in Hst. by inversion Hst.
Qed.

Lemma next_event_Departure_equiv s t now :
  s ≡ t → next_event s = Departure now →
  ∃ now', next_event t = Departure now' ∧ now == now'.
Proof.
  intros Hst%next_event_proper Hs. rewrite Hs in Hst. inversion Hst. eauto.
Qed.

(** The line of an equivalent state: as long, with the same arrivals. *)
Lemma queue_nil_equiv s t : s ≡ t → queue s = [] → queue t = [].
Proof.
  intros Hq%equiv_queue Hs. rewrite Hs in Hq. by inversion Hq.
Qed.

Lemma queue_cons_equiv s t arrival waiting :
  s ≡ t → queue s = arrival :: waiting →
  ∃ arrival' waiting',
    queue t = arrival' :: waiting' ∧ arrival == arrival' ∧ waiting ≡ waiting'.
Proof.
  intros Hq%equiv_queue Hs. rewrite Hs in Hq.
  inversion Hq as [| ? arrival' ? waiting' Ha Hw]. by exists arrival', waiting'.
Qed.

(** Equivalence of states is a bisimulation of the system. *)
Lemma transition_bisim s t s' :
  s ≡ t → transition s s' → ∃ t', transition t t' ∧ s' ≡ t'.
Proof.
  intros Hst Ht. revert s' Ht.
  apply transition_branches;
    [intros gap service Hev Hidle Hgap Hsvc | intros gap Hev Hbusy Hgap
    | intros now arrival waiting service Hev Hq Hsvc | intros now Hev Hq].
  - exists (arrival_starts_service t gap service). split.
    + apply arrival_starts_service_transition;
        [by eapply next_event_Arrival_equiv | by rewrite <- Hst | done..].
    + by apply arrival_starts_service_proper.
  - exists (arrival_joins_queue t gap). split.
    + apply arrival_joins_queue_transition;
        [by eapply next_event_Arrival_equiv | by rewrite <- Hst | done].
    + by apply arrival_joins_queue_proper.
  - destruct (next_event_Departure_equiv s t now Hst Hev) as (now' & Hev' & Hnow).
    destruct (queue_cons_equiv s t _ _ Hst Hq) as (arrival' & waiting' & Hq' & Ha & Hw).
    exists (departure_starts_next t now' arrival' waiting' service). split.
    + by apply departure_starts_next_transition.
    + by apply departure_starts_next_proper.
  - destruct (next_event_Departure_equiv s t now Hst Hev) as (now' & Hev' & Hnow).
    exists (departure_leaves_idle t now'). split.
    + apply departure_leaves_idle_transition; [done | by eapply queue_nil_equiv].
    + by apply departure_leaves_idle_proper.
Qed.

(** And so are its paths. *)
Lemma path_bisim s t s' :
  s ≡ t → rtc transition s s' → ∃ t', rtc transition t t' ∧ s' ≡ t'.
Proof.
  intros Hst Hp. revert t Hst.
  induction Hp as [s | s s1 s' Ht _ IH]; intros t Hst; [by exists t |].
  destruct (transition_bisim s t s1 Hst Ht) as (t1 & Ht1 & Hs1).
  destruct (IH t1 Hs1) as (t' & Hp' & Hs'). exists t'. split; [| done].
  by eapply rtc_l.
Qed.

(** ** On the recorded run *)

(** The same rates and horizon written as other fractions, and another
    ambient generator. *)
Lemma seeded_calls_agree_witness :
  @simulate_mm1_queue replay demo_source 10 2 (1 # 2) 3 (Some 42%Z) demo_world ≡
  @simulate_mm1_queue replay demo_source 10 (4 # 2) (2 # 4) (6 # 2) (Some 42%Z)
    (World (Replay [] (Fraction 7 1)) (Some 1%Z)).
Proof.
  apply (@seeded_calls_agree replay demo_source 10
           2 (4 # 2) (1 # 2) (2 # 4) 3 (6 # 2) 42); reflexivity.
Defined.

(** Without a seed the two ambient generators of the witness give two
    outcomes: the call on the generator that returns 5 at every draw ends
    with its first arrival, after the horizon, and the call on the
    generator that returns 7 likewise, at another time. *)
Example unseeded_calls_differ :
  ¬ (@simulate_mm1_queue replay demo_source 10 2 (1 # 2) 3 None demo_world ≡
     @simulate_mm1_queue replay demo_source 10 2 (1 # 2) 3 None
       (World (Replay [] (Fraction 7 1)) (Some 1%Z))).
Proof.
  intros Heq. vm_compute in Heq. inversion Heq as [? ? [Hr _] | |].
  destruct Hr as [_ _ _ _ _ _ _ Hu _ _ _]. vm_compute in Hu. discriminate.
Qed.

(** The two outcomes of the witness are equivalent and not equal: the
    fractions of the results differ. *)
Example representations_differ :
  @simulate_mm1_queue replay demo_source 10 2 (1 # 2) 3 (Some 42%Z) demo_world ≠
  @simulate_mm1_queue replay demo_source 10 (4 # 2) (2 # 4) (6 # 2) (Some 42%Z)
    demo_world.
Proof. vm_compute. discriminate. Qed.
