(* ===== verification/Complete.v ===== *)
(** * The transition system has no more states than the code

    [Spec.v] shows that every state the loop reaches is a state of the
    transition system.  This file shows the converse: every transition of
    the system is the iteration of the loop body on some generator, and
    every state of the system is reached by the loop on some generator.  So
    an invariant of the system says nothing that is not true of the code,
    and a state that the system excludes is excluded for every generator.
    The generator is a tape that replays the durations of the path.  At
    the rates 1 the durations are the variates themselves and the states
    are reached fraction for fraction; at other positive rates the code
    computes each duration as another fraction of the same value, and the
    states are reached up to the equivalence of [Bisim.v]. *)

From stdpp Require Import relations.
From S2P Require Import Prelude PyRuntime XTime PyDict Sampler Engine Spec.
From S2P Require Import Invariants Stats Simulate Replay Bisim.

#[local] Open Scope Q_scope.

(** The world whose generator replays [t], then [fb] for ever. *)
Definition tape_world (t : list fraction) (fb : fraction) (seed : option Z)
  : world replay :=
  World (Replay t fb) seed.

Lemma Qmult_unit_scale (q : Q) : 1 / 1 * q = q.
Proof. destruct q as [a b]. unfold Qdiv, Qmult, Qinv. simpl. now destruct a. Qed.

Section complete.
Variable seeded : Z → replay.

#[local] Abbreviation src := (replay_source seeded).

(** At rate 1 the draw returns the variate on the tape. *)
Lemma draw_from_tape q rest fb seed :
  0 <= q →
  @exponential_of_rate replay src 1 (tape_world (to_fraction q :: rest) fb seed) =
  Ok (q, tape_world rest fb seed).
Proof.
  intros Hq. unfold exponential_of_rate, np_random_exponential, tape_world.
  unfold mbind, sim_bind. simpl.
  now rewrite (fraction_Q_to_fraction q Hq), Qmult_unit_scale.
Qed.

(** Every transition is an iteration of the loop body on the tape of its
    durations. *)
Lemma transition_realised s s' :
  transition s s' →
  ∃ t, ∀ rest fb seed,
    @step replay src 1 1 s (tape_world (t ++ rest) fb seed) =
    Ok (s', tape_world rest fb seed).
Proof.
  revert s'. apply transition_branches;
    [intros gap service Hev Hidle Hgap Hsvc | intros gap Hev Hbusy Hgap
    | intros now arrival waiting service Hev Hq Hsvc | intros now Hev Hq].
  - exists [to_fraction gap; to_fraction service]. intros rest fb seed.
    unfold step, process_arrival. rewrite Hev, Hidle. simpl.
    rewrite (sim_bind_eq _ _ _ _ _ (draw_from_tape gap _ fb seed Hgap)).
    now rewrite (sim_bind_eq _ _ _ _ _ (draw_from_tape service _ fb seed Hsvc)).
  - exists [to_fraction gap]. intros rest fb seed.
    unfold step, process_arrival. rewrite Hev, Hbusy. simpl.
    now rewrite (sim_bind_eq _ _ _ _ _ (draw_from_tape gap _ fb seed Hgap)).
  - exists [to_fraction service]. intros rest fb seed.
    unfold step, process_departure. rewrite Hev, Hq. simpl.
    now rewrite (sim_bind_eq _ _ _ _ _ (draw_from_tape service _ fb seed Hsvc)).
  - exists []. intros rest fb seed.
    unfold step, process_departure. now rewrite Hev, Hq.
Qed.

Lemma initial_realised s rest fb seed T :
  initial s → @reachable replay src 1 1 T s (tape_world rest fb seed).
Proof.
  intros [first Hfirst].
  apply (reachable_init _ _ _ (tape_world (to_fraction first :: rest) fb seed)).
  unfold init_state.
  now rewrite (sim_bind_eq _ _ _ _ _ (draw_from_tape first _ fb seed Hfirst)).
Qed.

(** Every state of the system is reached, with any tape left to play and
    any horizon after the clock. *)
Lemma valid_realised s :
  valid s →
  ∀ rest fb seed T, current_time s < T →
    @reachable replay src 1 1 T s (tape_world rest fb seed).
Proof.
  induction 1 as [s Hs | s s' Hv IH Ht] using valid_ind;
    intros rest fb seed T HT; [now apply initial_realised |].
  destruct (transition_realised s s' Ht) as [t Hstep].
  pose proof (transition_time_mono s s' (valid_clock_inv s Hv) Ht) as Hmono.
  eapply reachable_step; [apply (IH (t ++ rest) fb seed T) | | apply Hstep]; lra.
Qed.

(** At unit rates the transition system and the code have the same
    states, fraction for fraction. *)
Theorem system_states_at_unit_rates s :
  valid s ↔
  ∃ T rest fb seed, @reachable replay src 1 1 T s (tape_world rest fb seed).
Proof.
  split.
  - intros Hv. exists (current_time s + 1), [], (Fraction 0 1), None.
    apply valid_realised; [done | lra].
  - intros (T & rest & fb & seed & Hreach). eapply reachable_valid. done.
Qed.

(** ** At any positive rates

    At a rate [r] the duration [q] is the draw of the variate [r * q]: the
    code computes [1 / r * (r * q)], which is [q] as a number and another
    fraction.  So the states of the code are those of the system up to the
    equivalence of [Bisim.v]. *)

Section rates.
Variables arrival_rate service_rate : Q.
Hypothesis arrival_rate_pos : 0 < arrival_rate.
Hypothesis service_rate_pos : 0 < service_rate.

(** The variate to record for the duration [q] at the rate [rate], and
    the duration the code computes from it. *)
Definition variate_for (rate q : Q) : fraction := to_fraction (rate * q).
Definition drawn (rate q : Q) : Q := 1 / rate * (rate * q).

Lemma drawn_eq rate q : 0 < rate → drawn rate q == q.
Proof. intros Hr. unfold drawn. field. lra. Qed.

Lemma draw_at_rate rate q rest fb seed :
  0 < rate → 0 <= q →
  @exponential_of_rate replay src rate
    (tape_world (variate_for rate q :: rest) fb seed) =
  Ok (drawn rate q, tape_world rest fb seed).
Proof.
  intros Hr Hq. apply exponential_of_rate_Ok. split; [done |]. simpl.
  unfold variate_for. rewrite fraction_Q_to_fraction by nra. done.
Qed.

#[local] Abbreviation run_step := (@step replay src arrival_rate service_rate).

(** Every transition is an iteration of the loop body, from any state
    equivalent to its source, on the tape of its durations. *)
Lemma transition_realised_at s s' :
  transition s s' →
  ∃ tape, ∀ t, t ≡ s →
    ∃ t', t' ≡ s' ∧ ∀ rest fb seed,
      run_step t (tape_world (tape ++ rest) fb seed) = Ok (t', tape_world rest fb seed).
Proof.
  revert s'. apply transition_branches;
    [intros gap service Hev Hidle Hgap Hsvc | intros gap Hev Hbusy Hgap
    | intros now arrival waiting service Hev Hq Hsvc | intros now Hev Hq].
  - exists [variate_for arrival_rate gap; variate_for service_rate service].
    intros t Hts. symmetry in Hts.
    exists (arrival_starts_service t (drawn arrival_rate gap)
              (drawn service_rate service)).
    split; [by rewrite !drawn_eq, Hts |]. intros rest fb seed.
    unfold step, process_arrival.
    rewrite (next_event_Arrival_equiv s t Hts Hev).
    rewrite <- (equiv_server_busy _ _ Hts), Hidle. simpl.
    rewrite (sim_bind_eq _ _ _ _ _ (draw_at_rate _ gap _ fb seed arrival_rate_pos Hgap)).
    now rewrite (sim_bind_eq _ _ _ _ _
                   (draw_at_rate _ service _ fb seed service_rate_pos Hsvc)).
  - exists [variate_for arrival_rate gap]. intros t Hts. symmetry in Hts.
    exists (arrival_joins_queue t (drawn arrival_rate gap)).
    split; [by rewrite !drawn_eq, Hts |]. intros rest fb seed.
    unfold step, process_arrival.
    rewrite (next_event_Arrival_equiv s t Hts Hev).
    rewrite <- (equiv_server_busy _ _ Hts), Hbusy. simpl.
    now rewrite (sim_bind_eq _ _ _ _ _
                   (draw_at_rate _ gap _ fb seed arrival_rate_pos Hgap)).
  - exists [variate_for service_rate service]. intros t Hts. symmetry in Hts.
    destruct (next_event_Departure_equiv s t now Hts Hev) as (now' & Hev' & Hnow).
    destruct (queue_cons_equiv s t _ _ Hts Hq) as (arrival' & waiting' & Hq' & Ha & Hw).
    exists (departure_starts_next t now' arrival' waiting'
              (drawn service_rate service)).
    split; [by rewrite !drawn_eq, Hts, Hnow, Ha, Hw |]. intros rest fb seed.
    unfold step, process_departure. rewrite Hev', Hq'. simpl.
    now rewrite (sim_bind_eq _ _ _ _ _
                   (draw_at_rate _ service _ fb seed service_rate_pos Hsvc)).
  - exists []. intros t Hts. symmetry in Hts.
    destruct (next_event_Departure_equiv s t now Hts Hev) as (now' & Hev' & Hnow).
    exists (departure_leaves_idle t now').
    split; [by rewrite Hts, Hnow |]. intros rest fb seed.
    unfold step, process_departure.
    now rewrite Hev', (queue_nil_equiv s t Hts Hq).
Qed.

(** Every state of the system is reached up to equivalence, with any tape
    left to play and any horizon after the clock. *)
Lemma valid_realised_at s :
  valid s →
  ∀ rest fb seed T, current_time s < T →
    ∃ t, t ≡ s ∧
      @reachable replay src arrival_rate service_rate T t (tape_world rest fb seed).
Proof.
  induction 1 as [s [first Hfirst] | s s' Hv IH Ht] using valid_ind;
    intros rest fb seed T HT.
  - exists (initial_state (drawn arrival_rate first)).
    split; [by rewrite drawn_eq |].
    apply (reachable_init _ _ _
             (tape_world (variate_for arrival_rate first :: rest) fb seed)).
    unfold init_state.
    now rewrite (sim_bind_eq _ _ _ _ _
                   (draw_at_rate _ first _ fb seed arrival_rate_pos Hfirst)).
  - destruct (transition_realised_at s s' Ht) as [tape Htape].
    pose proof (transition_time_mono s s' (valid_clock_inv s Hv) Ht) as Hmono.
    destruct (IH (tape ++ rest) fb seed T ltac:(lra)) as (t & Hts & Hreach).
    destruct (Htape t Hts) as (t' & Hts' & Hstep). exists t'. split; [done |].
    eapply reachable_step; [exact Hreach | rewrite Hts; lra | apply Hstep].
Qed.

(** C39. The transition system and the code have the same states.  At any
    positive rates, a state is equivalent to a state of the system exactly
    when it is equivalent to a state in which the loop is at its head for
    some horizon and some generator that replays a tape. *)
Theorem system_states_are_reached s :
  (∃ t, t ≡ s ∧ valid t) ↔
  ∃ t T rest fb seed, t ≡ s ∧
    @reachable replay src arrival_rate service_rate T t (tape_world rest fb seed).
Proof.
  split.
  - intros (t & Hts & Hv).
    destruct (valid_realised_at t Hv [] (Fraction 0 1) None (current_time t + 1)
                ltac:(lra)) as (t' & Ht' & Hreach).
    exists t', (current_time t + 1), [], (Fraction 0 1), None.
    split; [by etrans | done].
  - intros (t & T & rest & fb & seed & Hts & Hreach). exists t.
    split; [done |]. eapply reachable_valid. done.
Qed.

End rates.

End complete.

(** At the rates 2 and 1/2 of the recorded run, for the state after its
    first arrival. *)
Lemma system_states_are_reached_witness :
  (∃ t, t ≡ demo_served.1 ∧ valid t) ↔
  ∃ t T rest fb seed, t ≡ demo_served.1 ∧
    @reachable replay (replay_source (λ _, demo_tape)) 2 (1 # 2) T t
      (tape_world rest fb seed).
Proof.
  apply (system_states_are_reached (λ _, demo_tape) 2 (1 # 2)); reflexivity.
Defined.
