(* ===== verification/WellFormed.v ===== *)
(** * Well-formed states

    The invariants of [Invariants.v] together are the typing of the state
    of the loop: what the local variables of [simulate_mm1_queue] satisfy
    whenever the loop is at its head.  This file shows that they are
    decidable, so that a state can be checked by evaluation
    ([well_formed]), and that they are a typing in the usual sense: the
    initialisation establishes them and every operation of the loop
    preserves them from any state that satisfies them, reached or not,
    whatever the generator returns. *)

From S2P Require Import Prelude PyRuntime XTime PyDict Sampler Engine Spec.
From S2P Require Import Invariants.

#[local] Open Scope Q_scope.

(** ** The checker *)

(** The ledger invariant with its quantifiers over the finitely many keys
    and counts they range over. *)
Definition ledger_checks (s : sim_state) : Prop :=
  dict_wf (state_time s) ∧
  py_sum (dict_values (state_time s)) == last_event_time s ∧
  Forall (Qle 0) (dict_values (state_time s)) ∧
  Forall (λ n, (0 <= n)%Z) (dict_keys (state_time s)) ∧
  Forall (λ n, n ∈ dict_keys (state_time s)) (seqZ 0 (current_state s)) ∧
  Forall (λ n, Forall (λ m, m ∈ dict_keys (state_time s)) (seqZ 0 (n + 1)))
    (dict_keys (state_time s)).

Lemma clock_inv_iff s :
  clock_inv s ↔
  last_event_time s = current_time s ∧ 0 <= current_time s ∧
  current_time s <= next_arrival_time s ∧
  xle (Fin (current_time s)) (next_departure_time s) ∧
  server_busy s = is_finite (next_departure_time s) ∧
  0 <= server_start_time s ∧ server_start_time s <= current_time s.
Proof. split; [now intros [] | intros (? & ? & ? & ? & ? & ? & ?); now split]. Qed.

Lemma population_inv_iff s :
  population_inv s ↔
  current_state s = in_system s ∧ (server_busy s = false → queue s = []).
Proof. split; [now intros [] | intros [? ?]; now split]. Qed.

Lemma ledger_inv_iff s : ledger_inv s ↔ ledger_checks s.
Proof.
  unfold ledger_checks. rewrite !Forall_forall. split.
  - intros [Hwf Htotal Hnonneg Hkeys Hbelow Hclosed].
    rewrite Forall_forall in Hnonneg. split_and!; try done.
    + intros n Hn%elem_of_seqZ. apply Hbelow. lia.
    + intros n Hn. apply Forall_forall. intros m Hm%elem_of_seqZ.
      apply (Hclosed n); [done | lia].
  - intros (Hwf & Htotal & Hnonneg & Hkeys & Hbelow & Hclosed).
    split; try done.
    + now apply Forall_forall.
    + intros n Hn. apply Hbelow, elem_of_seqZ. lia.
    + intros n m Hn Hm. specialize (Hclosed n Hn).
      rewrite Forall_forall in Hclosed. apply Hclosed, elem_of_seqZ. lia.
Qed.

Lemma trace_inv_iff s :
  trace_inv s ↔
  Forall record_ok (customer_stats s) ∧
  Forall (λ c, service_start_time c <= current_time s) (customer_stats s) ∧
  Forall (λ a, 0 <= a ∧ a <= current_time s) (queue s).
Proof. split; [now intros [] | intros (? & ? & ?); now split]. Qed.

Lemma sim_inv_iff s :
  sim_inv s ↔ clock_inv s ∧ population_inv s ∧ ledger_inv s ∧ trace_inv s.
Proof. split; [now intros [] | intros (? & ? & ? & ?); now split]. Qed.

(** A proposition equivalent to a decidable one is decidable. *)
Definition decide_iff {P Q : Prop} (HPQ : P ↔ Q) (d : Decision Q) : Decision P :=
  match d with
  | left HQ => left (proj2 HPQ HQ)
  | right HQ => right (λ HP, HQ (proj1 HPQ HP))
  end.

#[export] Instance record_ok_dec c : Decision (record_ok c).
Proof. unfold record_ok. apply _. Defined.

#[export] Instance dict_wf_dec (d : list (Z * Q)) : Decision (dict_wf d).
Proof. unfold dict_wf. apply _. Defined.

#[export] Instance ledger_checks_dec s : Decision (ledger_checks s).
Proof. unfold ledger_checks. apply _. Defined.

#[export] Instance clock_inv_dec s : Decision (clock_inv s) :=
  decide_iff (clock_inv_iff s) _.

#[export] Instance population_inv_dec s : Decision (population_inv s) :=
  decide_iff (population_inv_iff s) _.

#[export] Instance ledger_inv_dec s : Decision (ledger_inv s) :=
  decide_iff (ledger_inv_iff s) _.

#[export] Instance trace_inv_dec s : Decision (trace_inv s) :=
  decide_iff (trace_inv_iff s) _.

#[export] Instance sim_inv_dec s : Decision (sim_inv s) :=
  decide_iff (sim_inv_iff s) _.

(** The state satisfies the invariants, by evaluation. *)
Definition well_formed (s : sim_state) : bool := bool_decide (sim_inv s).

(** ** Preservation *)

Lemma well_formed_iff s : well_formed s = true ↔ sim_inv s.
Proof. apply bool_decide_eq_true. Qed.

(** The invariants are inductive: a transition from any state that
    satisfies them leads to a state that does. *)
Lemma transition_sim_inv s s' : sim_inv s → transition s s' → sim_inv s'.
Proof.
  intros [Hc Hp Hl Ht] Hstep. split.
  - apply (invariant_transition _ _ clock_invariant s s'); done.
  - apply (invariant_transition _ _ population_invariant s s'); done.
  - apply (invariant_transition _ _ ledger_invariant s s'); done.
  - apply (invariant_transition _ _ trace_invariant s s'); done.
Qed.

Lemma initial_sim_inv s : initial s → sim_inv s.
Proof. intros Hs. now apply valid_sim_inv, valid_initial. Qed.

Section preservation.
Context {G : Type} `{SampleSource G}.
Variables arrival_rate service_rate : Q.
Implicit Types (s : sim_state) (w : world G).

Lemma init_state_well_formed w s w' :
  init_state arrival_rate w = Ok (s, w') → well_formed s = true.
Proof.
  intros Hinit. eapply well_formed_iff, initial_sim_inv, init_state_refines. done.
Qed.

Lemma step_well_formed s w s' w' :
  well_formed s = true →
  step arrival_rate service_rate s w = Ok (s', w') → well_formed s' = true.
Proof.
  rewrite !well_formed_iff. intros Hs Hstep.
  eapply transition_sim_inv, step_refines; done.
Qed.

Lemma event_loop_well_formed fuel T s w s' w' :
  well_formed s = true →
  event_loop arrival_rate service_rate fuel T s w = Ok (s', w') →
  well_formed s' = true.
Proof.
  rewrite !well_formed_iff.
  intros Hs Hrtc%event_loop_rtc.
  induction Hrtc; eauto using transition_sim_inv.
Qed.

(** C37. Well-formedness is preserved: from any state that passes the
    check [well_formed], reached by the loop or not, an iteration of the
    loop body and a run of the loop that return, whatever the generator
    draws, leave a state that passes the check. *)
Theorem operations_preserve_well_formed s w :
  well_formed s = true →
  (∀ s' w', step arrival_rate service_rate s w = Ok (s', w') →
     well_formed s' = true) ∧
  (∀ fuel T s' w',
     event_loop arrival_rate service_rate fuel T s w = Ok (s', w') →
     well_formed s' = true).
Proof.
  intros Hs. split; [intros s' w' | intros fuel T s' w'].
  - now apply step_well_formed.
  - now apply event_loop_well_formed.
Qed.

End preservation.

(** ** On the recorded run *)

(** The checker evaluates: the states of the recorded run pass it, and a
    state whose counter disagrees with the line does not. *)
Lemma well_formed_demo :
  well_formed demo_init.1 = true ∧ well_formed demo_queued.1 = true ∧
  well_formed (arrival_joins_queue demo_init.1 1) = false.
Proof. vm_compute. done. Qed.

Lemma operations_preserve_well_formed_witness :
  well_formed demo_served.1 = true ∧ well_formed demo_last.1 = true.
Proof.
  destruct (@operations_preserve_well_formed replay demo_source 2 (1 # 2)
              demo_init.1 demo_init.2) as [Hstep Hloop]; [vm_compute; reflexivity |].
  split; [exact (Hstep _ _ demo_served_eq) | exact (Hloop _ _ _ _ demo_last_eq)].
Defined.
