(* ===== verification/Liveness.v ===== *)
(** * Every waiting customer is served

    The loop never blocks: from every state one of the four branches
    applies, and at positive rates the iteration returns.  And the line is
    served in order without starvation: the customer at position [i] of
    [queue] starts service at the [i + 1]-th departure processed from then
    on, however many arrivals are processed in between, and its record is
    the [i]-th appended to [customer_stats] from then on.  Paths are paths of
    the transition system of [Spec.v], so the statement holds for every
    generator. *)

From stdpp Require Import relations.
From S2P Require Import Prelude PyRuntime XTime PyDict Sampler Engine Spec.
From S2P Require Import Invariants.

#[local] Open Scope Q_scope.

(** ** Paths that count departures *)

(** [departs s n s']: a path from [s] to [s'] on which [n] departures are
    processed. *)
Inductive departs : sim_state → nat → sim_state → Prop :=
| departs_done s : departs s 0 s
| departs_arrival s s1 n s' :
    next_event s = Arrival → transition s s1 → departs s1 n s' →
    departs s n s'
| departs_departure s now s1 n s' :
    next_event s = Departure now → transition s s1 → departs s1 n s' →
    departs s (S n) s'.

(** The departures an iteration from [s] processes. *)
Definition departures_of (s : sim_state) : nat :=
  match next_event s with
  | Arrival => 0
  | Departure _ => 1
  end.

(** ** The loop never blocks *)

(** Some branch applies in every state. *)
Lemma transition_enabled s : ∃ s', transition s s'.
Proof.
  destruct (next_event s) as [| now] eqn:Hev.
  - destruct (server_busy s) eqn:Hbusy.
    + exists (arrival_joins_queue s 0).
      now apply arrival_joins_queue_transition.
    + exists (arrival_starts_service s 0 0).
      now apply arrival_starts_service_transition.
  - destruct (queue s) as [| arrival waiting] eqn:Hq.
    + exists (departure_leaves_idle s now).
      now apply departure_leaves_idle_transition.
    + exists (departure_starts_next s now arrival waiting 0).
      now apply departure_starts_next_transition.
Qed.

Section enabled.
Context {G : Type} `{SampleSource G}.
Variables arrival_rate service_rate : Q.
Hypotheses (arrival_pos : 0 < arrival_rate) (service_pos : 0 < service_rate).

(** At positive rates an iteration returns, in every state. *)
Lemma step_enabled s (w : world G) :
  ∃ s' w', step arrival_rate service_rate s w = Ok (s', w').
Proof.
  unfold step, process_arrival, process_departure.
  destruct (next_event s) as [| now].
  - destruct (exponential_of_rate_positive arrival_rate w arrival_pos)
      as [[gap w1] Hgap].
    rewrite (sim_bind_eq _ _ _ _ _ Hgap). destruct (server_busy s); simpl.
    + now eexists _, _.
    + destruct (exponential_of_rate_positive service_rate w1 service_pos)
        as [[service w2] Hservice].
      rewrite (sim_bind_eq _ _ _ _ _ Hservice). now eexists _, _.
  - destruct (queue s) as [| arrival waiting]; [now eexists _, _ |].
    destruct (exponential_of_rate_positive service_rate w service_pos)
      as [[service w1] Hservice].
    rewrite (sim_bind_eq _ _ _ _ _ Hservice). now eexists _, _.
Qed.

End enabled.

(** ** Paths of the code *)

Section paths.
Context {G : Type} `{SampleSource G}.
Variables arrival_rate service_rate : Q.

Lemma step_departs s (w : world G) s' w' :
  step arrival_rate service_rate s w = Ok (s', w') →
  departs s (departures_of s) s'.
Proof.
  intros Hstep%step_refines. unfold departures_of.
  destruct (next_event s) as [| now] eqn:Hev.
  - eapply departs_arrival; [done.. | constructor].
  - eapply departs_departure; [done.. | constructor].
Qed.

(** A run of the loop is a path. *)
Lemma event_loop_departs fuel T s (w : world G) s' w' :
  event_loop arrival_rate service_rate fuel T s w = Ok (s', w') →
  ∃ n, departs s n s'.
Proof.
  revert s w. induction fuel as [| fuel IH]; intros s w; simpl;
    case_qlt (current_time s) T; try done;
    try (intros [= <- <-]; exists O; constructor).
  intros (s1 & w1 & Hstep%step_refines & (n & Hn)%IH)%sim_bind_Ok.
  destruct (next_event s) as [| now] eqn:Hev.
  - exists n. eapply departs_arrival; done.
  - exists (S n). eapply departs_departure; done.
Qed.

End paths.

(** ** Records stay *)

Lemma transition_stats_prefix s s' :
  transition s s' → customer_stats s `prefix_of` customer_stats s'.
Proof. intros []; simpl; (done || apply prefix_app_r; done). Qed.

Lemma departs_stats_prefix s n s' :
  departs s n s' → customer_stats s `prefix_of` customer_stats s'.
Proof.
  induction 1 as [| s s1 n s' _ Ht _ IH | s now s1 n s' _ Ht _ IH]; [done | |];
    (etrans; [apply transition_stats_prefix |]; done).
Qed.

(** ** Service in order *)

(** The record number [length (customer_stats s) + i] of [s'] is the
    customer who arrived at [a]. *)
Definition served_as (s : sim_state) (i : nat) (a : Q) (s' : sim_state) : Prop :=
  ∃ c, customer_stats s' !! (length (customer_stats s) + i)%nat = Some c ∧
    arrival_time c = a.

(** An arrival leaves the line in place. *)
Lemma arrival_keeps_position s s1 i a :
  population_inv s → next_event s = Arrival → transition s s1 →
  queue s !! i = Some a →
  queue s1 !! i = Some a ∧ customer_stats s1 = customer_stats s.
Proof.
  intros Hp Hev Ht Hi. destruct Ht as [gap service _ Hidle | gap | |];
    simpl; try congruence.
  - rewrite (population_idle s Hp Hidle) in Hi. done.
  - split; [| done]. now apply lookup_app_l_Some.
Qed.

(** A departure serves the head of the line and moves the others up. *)
Lemma departure_serves_head s now s1 i a :
  next_event s = Departure now → transition s s1 →
  queue s !! i = Some a →
  ∃ c, customer_stats s1 = customer_stats s ++ [c] ∧
    match i with
    | O => arrival_time c = a
    | S i => queue s1 !! i = Some a
    end.
Proof.
  intros Hev Ht Hi.
  destruct Ht as [| | now' arrival waiting service _ Hq | now' _ Hq];
    try congruence; rewrite Hq in Hi; [| done].
  eexists. split; [done |]. destruct i; simpl in *; congruence.
Qed.

(** C38. No starvation: in a state the system can be in, the customer at
    position [i] of the line has its record, the [i]-th appended from then
    on, on every path on which more than [i] departures are processed,
    whatever arrivals are processed in between and whatever durations are
    drawn. *)
Theorem waiting_customer_is_served s i a n s' :
  valid s → queue s !! i = Some a → departs s n s' → (i < n)%nat →
  served_as s i a s'.
Proof.
  intros Hv Hi Hpath. revert i a Hv Hi.
  induction Hpath as [s | s s1 n s' Hev Ht _ IH | s now s1 n s' Hev Ht Hpath IH];
    intros i a Hv Hi Hlt; [lia | |].
  - destruct (arrival_keeps_position s s1 i a (valid_population_inv s Hv) Hev Ht Hi)
      as [Hi1 Hstats].
    unfold served_as. rewrite <- Hstats.
    apply IH; [eapply valid_transition; done | done..].
  - destruct (departure_serves_head s now s1 i a Hev Ht Hi) as (c & Hstats & Hc).
    destruct i as [| i].
    + exists c. split; [| done]. rewrite Nat.add_0_r.
      eapply prefix_lookup_Some; [| apply (departs_stats_prefix _ _ _ Hpath)].
      rewrite Hstats. now apply list_lookup_middle.
    + destruct (IH i a) as (c' & Hc' & Ha);
        [eapply valid_transition; done | done | lia |].
      exists c'. split; [| done]. rewrite Hstats, length_app in Hc'. simpl in Hc'.
      now replace (length (customer_stats s) + S i)%nat
        with (length (customer_stats s) + 1 + i)%nat by lia.
Qed.

(** On the recorded run: the customer who waits from 3/2 on gets the second
    record at the next departure. *)
Lemma waiting_customer_is_served_witness :
  served_as demo_queued.1 0 (6 # 4) demo_next.1.
Proof.
  apply (waiting_customer_is_served demo_queued.1 0 (6 # 4) 1 demo_next.1);
    [| reflexivity | | lia].
  - exact (reachable_valid _ _ _ _ _ demo_queued_reachable).
  - exact (step_departs _ _ _ _ _ _ demo_next_eq).
Defined.
