(* ===== verification/Figure.v ===== *)
(** * The figure and the output of the analysis script

    Lines 31-44 of [src/mm1_queue_analysis.py]: the script opens a figure,
    plots the analytic curve, scatters the simulated points, writes the
    label of each scenario at its point, sets the axes, shows the figure and
    prints an observation.  The calls to the plotting library are modelled
    as the list of the calls issued, in order, with their arguments
    ([canvas]); what the library renders is not.  The indexing
    [rhos[i]], [sim_wqs[i]] of line 35 raises [IndexError] past the end:
    the calls issued before it stay on the canvas.  After the loop of lines
    18-24 both lists have one entry per scenario, so the script draws the
    whole figure and prints, whenever the three runs return. *)

From Stdlib Require Import String.
From S2P Require Import Prelude PyRuntime XTime PyDict Sampler Engine Stats.
From S2P Require Import Simulate Termination Analysis.

#[local] Open Scope Q_scope.

(** ** The calls *)

(** One constructor per function of [matplotlib.pyplot] the script calls,
    with the arguments it passes. *)
Inductive plot_call : Type :=
| PltFigure (figsize : Z * Z)
| PltPlot (xs ys : list Q) (legend : string)
| PltScatter (xs ys : list Q) (color : string) (zorder : Z) (legend : string)
| PltAnnotate (text : string) (xy : Q * Q) (textcoords : string)
    (xytext : Z * Z) (ha : string)
| PltXlabel (text : string)
| PltYlabel (text : string)
| PltTitle (text : string)
| PltLegend
| PltGrid (visible : bool)
| PltTightLayout
| PltShow.

(** The calls issued so far. *)
Definition canvas : Type := list plot_call.

(** Line 35 for one scenario of the enumeration: the label, then the two
    subscripts. *)
Definition annotate (rhos sim_wqs : list Q) (i : nat) (sc : scenario)
  : outcome plot_call :=
  x ← py_getitem rhos i;
  y ← py_getitem sim_wqs i;
  mret (PltAnnotate (label sc) (x, y) "offset points" (0, 10)%Z "center").

(** Lines 34-35: the loop stops at the first subscript that raises, with
    the calls issued until then. *)
Fixpoint annotate_loop (rhos sim_wqs : list Q) (todo : list (nat * scenario))
  (c : canvas) : canvas * outcome unit :=
  match todo with
  | [] => (c, Ok ())
  | (i, sc) :: todo =>
      match annotate rhos sim_wqs i sc with
      | Ok call => annotate_loop rhos sim_wqs todo (c ++ [call])
      | Raise e => (c, Raise e)
      | OutOfFuel => (c, OutOfFuel)
      end
  end.

(** Lines 31-33. *)
Definition figure_head (rhos sim_wqs : list Q) : canvas := [
  PltFigure (8, 5)%Z;
  PltPlot rho_curve wq_theoretical "Theoretical $W_q$";
  PltScatter rhos sim_wqs "red" 5 "Simulated $W_q$"
].

(** Lines 36-42. *)
Definition figure_tail : canvas := [
  PltXlabel "Utilization $\rho$";
  PltYlabel "Average waiting time in queue $W_q$ (minutes)";
  PltTitle "M/M/1 Queue: Simulated vs Theoretical $W_q$";
  PltLegend;
  PltGrid true;
  PltTightLayout;
  PltShow
].

(** Lines 31-42. *)
Definition draw_figure (rhos sim_wqs : list Q) : canvas * outcome unit :=
  match annotate_loop rhos sim_wqs (py_enumerate scenarios)
          (figure_head rhos sim_wqs) with
  | (c, Ok _) => (c ++ figure_tail, Ok ())
  | stopped => stopped
  end.

(** Line 44. *)
Definition observation : string :=
  "Observation: As utilization (ρ) approaches 1, the average waiting time in the queue ($W_q$) increases rapidly, diverging to infinity. This matches the theoretical prediction for M/M/1 queues, where the system becomes unstable as ρ → 1.".

Section script.
Context {G : Type} `{SampleSource G}.

(** The script: the runs, then the figure, then the line printed if the
    figure was drawn. *)
Definition analysis_script (fuel : nat) : sim G (canvas * outcome string) :=
  rw ← run_scenarios fuel;
  let fig := draw_figure rw.1 rw.2 in
  mret (fig.1, _ ← fig.2; mret observation).

End script.

(** ** The annotations *)

(** [call] writes the label of the scenario at its point. *)
Definition annotation_of (rhos sim_wqs : list Q) (isc : nat * scenario)
  (call : plot_call) : Prop :=
  ∃ x y, rhos !! isc.1 = Some x ∧ sim_wqs !! isc.1 = Some y ∧
    call = PltAnnotate (label isc.2) (x, y) "offset points" (0, 10)%Z "center".

Lemma annotate_Ok rhos sim_wqs i sc :
  (i < length rhos)%nat → (i < length sim_wqs)%nat →
  ∃ call, annotate rhos sim_wqs i sc = Ok call ∧
    annotation_of rhos sim_wqs (i, sc) call.
Proof.
  intros [x Hx]%lookup_lt_is_Some_2 [y Hy]%lookup_lt_is_Some_2.
  eexists. unfold annotate. rewrite (py_getitem_Ok _ _ _ Hx), (py_getitem_Ok _ _ _ Hy).
  split; [done |]. now exists x, y.
Qed.

Lemma annotate_short rhos sim_wqs i sc :
  (length rhos ≤ i)%nat → annotate rhos sim_wqs i sc = Raise IndexError.
Proof. intros Hi. unfold annotate. rewrite (py_getitem_Raise rhos); done. Qed.

Lemma annotate_loop_Ok rhos sim_wqs todo c :
  Forall (λ isc, (isc.1 < length rhos)%nat ∧ (isc.1 < length sim_wqs)%nat) todo →
  ∃ notes, annotate_loop rhos sim_wqs todo c = (c ++ notes, Ok ()) ∧
    Forall2 (annotation_of rhos sim_wqs) todo notes.
Proof.
  intros Htodo. revert c.
  induction Htodo as [| [i sc] todo [Hi Hi'] _ IH]; intros c.
  { exists []. now rewrite app_nil_r. }
  destruct (annotate_Ok rhos sim_wqs i sc Hi Hi') as (call & Hcall & Hnote).
  destruct (IH (c ++ [call])) as (notes & Hloop & Hnotes).
  exists (call :: notes). simpl. rewrite Hcall, Hloop, <- app_assoc.
  split; [done | now constructor].
Qed.

Lemma py_enumerate_lt {A} (l : list A) :
  Forall (λ ix, (ix.1 < length l)%nat) (py_enumerate l).
Proof.
  apply Forall_forall. intros ix (i & x & -> & Hi)%elem_of_lookup_imap.
  now apply lookup_lt_Some in Hi.
Qed.

(** With one point per scenario the figure is drawn in full. *)
Lemma draw_figure_Ok rhos sim_wqs :
  length rhos = length scenarios → length sim_wqs = length scenarios →
  ∃ notes,
    draw_figure rhos sim_wqs =
      (figure_head rhos sim_wqs ++ notes ++ figure_tail, Ok ()) ∧
    Forall2 (annotation_of rhos sim_wqs) (py_enumerate scenarios) notes.
Proof.
  intros Hr Hw.
  destruct (annotate_loop_Ok rhos sim_wqs (py_enumerate scenarios)
              (figure_head rhos sim_wqs)) as (notes & Hloop & Hnotes).
  { eapply Forall_impl; [apply py_enumerate_lt |]. simpl. intros ix Hix.
    rewrite Hr, Hw. done. }
  exists notes. unfold draw_figure. rewrite Hloop, <- app_assoc. done.
Qed.

(** With no point the first annotation raises, after the curve and the
    scatter were issued. *)
Lemma draw_figure_short sim_wqs :
  draw_figure [] sim_wqs = (figure_head [] sim_wqs, Raise IndexError).
Proof. reflexivity. Qed.

(** ** The script returns *)

Section completes.
Context {G : Type} `{SampleSource G}.
Variables (d : Q) (fuel : nat).
Hypotheses (d_pos : 0 < d)
  (seeded_slow : draws_ge d (np_seed (G := G) analysis_seed)).

(** The fuel is enough for the scenario, at its rates. *)
Definition enough (sc : scenario) : Prop :=
  0 < scenario_arrival_rate sc ∧ 0 < scenario_service_rate sc ∧
  (fuel_bound d (scenario_arrival_rate sc) analysis_simulation_time ≤ fuel)%nat.

Lemma run_scenario_progress sc (w : world G) :
  enough sc →
  ∃ r wq w', run_scenario fuel sc w = Ok ((r, wq), w') ∧ rho sc = Ok r.
Proof.
  intros (Harr & Hsvc & Hfuel).
  destruct (simulate_progress d _ _ d_pos Harr Hsvc analysis_simulation_time
              (Some analysis_seed) w fuel) as [[res w'] Hres];
    [exact seed_ok_42 | unfold analysis_simulation_time; lra | exact seeded_slow
    | done |].
  assert (rho sc = Ok (scenario_arrival_rate sc / scenario_service_rate sc))
    as Hrho by (apply py_div_Ok; lra).
  eexists _, _, w'. split; [| exact Hrho].
  apply sim_bind_Ok. eexists _, w. split; [apply sim_lift_Ok; eauto |].
  apply sim_bind_Ok. eexists _, _. split; [exact Hres | done].
Qed.

(** The loop appends one utilization and one waiting time per scenario. *)
Lemma analysis_loop_progress todo rhos sim_wqs (w : world G) :
  Forall enough todo →
  ∃ rhos' sim_wqs' w',
    analysis_loop fuel todo rhos sim_wqs w =
      Ok ((rhos ++ rhos', sim_wqs ++ sim_wqs'), w') ∧
    Forall2 (λ sc r, rho sc = Ok r) todo rhos' ∧
    length sim_wqs' = length todo.
Proof.
  intros Htodo. revert rhos sim_wqs w.
  induction Htodo as [| sc todo Hsc _ IH]; intros rhos sim_wqs w.
  { exists [], [], w. now rewrite !app_nil_r. }
  destruct (run_scenario_progress sc w Hsc) as (r & wq & w1 & Hrun & Hrho).
  destruct (IH (rhos ++ [r]) (sim_wqs ++ [wq]) w1)
    as (rhos' & sim_wqs' & w' & Hloop & Hrhos & Hlen).
  exists (r :: rhos'), (wq :: sim_wqs'), w'. simpl.
  rewrite (sim_bind_eq _ _ _ _ _ Hrun). simpl. rewrite Hloop, <- !app_assoc.
  split_and!; [done | now constructor | now rewrite Hlen].
Qed.

(** C40. The analysis script completes: when every variate of the
    generator seeded with 42 is at least [d > 0] and the fuel covers each
    scenario, the three runs return, the figure is drawn in full (the curve,
    the scatter of the three points, one annotation per scenario with its
    label at its point, the axes, the legend and the display) and the
    observation is printed; the waiting time scattered for a scenario is
    the [average_queue_time] of a call of the entry point on its own. *)
Theorem analysis_script_completes (w : world G) :
  Forall enough scenarios →
  ∃ rhos sim_wqs notes w',
    analysis_script fuel w =
      Ok ((figure_head rhos sim_wqs ++ notes ++ figure_tail, Ok observation), w') ∧
    mapM rho scenarios = Ok rhos ∧
    Forall2 (annotation_of rhos sim_wqs) (py_enumerate scenarios) notes ∧
    Forall2 (standalone fuel) scenarios sim_wqs.
Proof.
  intros Henough.
  destruct (analysis_loop_progress scenarios [] [] w Henough)
    as (rhos & sim_wqs & w' & Hloop & Hrhos & Hlen).
  destruct (draw_figure_Ok rhos sim_wqs) as (notes & Hfig & Hnotes);
    [symmetry; eapply Forall2_length; done | done |].
  exists rhos, sim_wqs, notes, w'. split_and!; [| | done |].
  - unfold analysis_script, run_scenarios.
    rewrite (sim_bind_eq _ _ _ _ _ Hloop). simpl. rewrite Hfig. done.
  - now apply mapM_Ok_Forall2.
  - apply analysis_loop_Ok in Hloop as (rs & wqs & [= ->] & [= ->] & _ & Hwqs).
    done.
Qed.

End completes.

(** ** On a slow generator

    A generator whose variates are all 300000: the first arrival of every
    scenario is after the horizon, three iterations are enough. *)

Definition slow_tape : replay := Replay [] (Fraction 300000 1).

Definition slow_source : SampleSource replay := replay_source (λ _, slow_tape).

Lemma slow_tape_draws_ge : @draws_ge replay slow_source 300000 slow_tape.
Proof. apply replay_draws_ge; [constructor | vm_compute; discriminate]. Qed.

Lemma slow_enough : Forall (enough 300000 3) scenarios.
Proof.
  repeat constructor; try (vm_compute; reflexivity); vm_compute; lia.
Qed.

Lemma analysis_script_completes_witness :
  ∃ rhos sim_wqs notes w',
    @analysis_script replay slow_source 3 demo_world =
      Ok ((figure_head rhos sim_wqs ++ notes ++ figure_tail, Ok observation), w') ∧
    mapM rho scenarios = Ok rhos ∧
    Forall2 (annotation_of rhos sim_wqs) (py_enumerate scenarios) notes ∧
    Forall2 (@standalone replay slow_source 3) scenarios sim_wqs.
Proof.
  apply (@analysis_script_completes replay slow_source 300000 3);
    [done | apply slow_tape_draws_ge | apply slow_enough].
Defined.
