(* ===== verification/Balance.v ===== *)
(** * Conservation of customers

    Every customer who arrives is in the line or has a record, and the
    counter of the population is the arrivals less the departures.  The
    state does not hold the number of events processed, so the statement is
    about paths: [path s a d s'] is a path of the transition system from [s]
    to [s'] on which [a] arrivals and [d] departures are processed.  A run of
    the loop is such a path, of as many events as iterations.  With a
    positive horizon the first arrival is always processed, so a returned
    result has at least one customer.  The same count gives the variates a
    call takes from numpy's generator: one for the first arrival, one for
    each customer that arrived and one for each record. *)

From stdpp Require Import relations.
From S2P Require Import Prelude PyRuntime XTime PyDict Sampler Engine Spec.
From S2P Require Import Invariants Stats Simulate Busy Liveness.

#[local] Open Scope Q_scope.

(** ** Paths that count events *)

Inductive path : sim_state → nat → nat → sim_state → Prop :=
| path_done s : path s 0 0 s
| path_arrival s s1 a d s' :
    next_event s = Arrival → transition s s1 → path s1 a d s' →
    path s (S a) d s'
| path_departure s now s1 a d s' :
    next_event s = Departure now → transition s s1 → path s1 a d s' →
    path s a (S d) s'.

(** The customers the state knows of: those with a record and those in the
    line. *)
Definition known (s : sim_state) : nat :=
  length (customer_stats s) + length (queue s).

(** The variates the state accounts for: the gap drawn when each known
    customer arrived (line 38) and the service time drawn for each record
    (lines 44 and 68). *)
Definition draws_of (s : sim_state) : nat :=
  known s + length (customer_stats s).

(** ** One event *)

Lemma arrival_balance s s' :
  next_event s = Arrival → transition s s' →
  known s' = S (known s) ∧ current_state s' = (current_state s + 1)%Z.
Proof.
  intros Hev Ht. unfold known.
  destruct Ht; simpl; rewrite ?length_app; simpl; try congruence; split; lia.
Qed.

Lemma departure_balance s now s' :
  next_event s = Departure now → transition s s' →
  known s' = known s ∧ current_state s' = (current_state s - 1)%Z.
Proof.
  intros Hev Ht. unfold known.
  destruct Ht as [| | now' arrival waiting service _ Hq | now' _ Hq];
    simpl; rewrite ?length_app, ?Hq; simpl; try congruence; split; lia.
Qed.

(** ** Paths *)

Lemma path_balance s a d s' :
  path s a d s' →
  known s' = (known s + a)%nat ∧
  current_state s' = (current_state s + Z.of_nat a - Z.of_nat d)%Z.
Proof.
  induction 1 as [s | s s1 a d s' Hev Ht _ [IHk IHc]
                 | s now s1 a d s' Hev Ht _ [IHk IHc]]; [split; lia | |].
  - destruct (arrival_balance s s1 Hev Ht) as [Hk Hc]. split; lia.
  - destruct (departure_balance s now s1 Hev Ht) as [Hk Hc]. split; lia.
Qed.

Lemma path_departs s a d s' : path s a d s' → departs s d s'.
Proof.
  induction 1; [constructor | eapply departs_arrival | eapply departs_departure];
    done.
Qed.

Lemma path_rtc s a d s' : path s a d s' → rtc transition s s'.
Proof. induction 1; [done | eapply rtc_l; done..]. Qed.

Lemma path_valid s a d s' : valid s → path s a d s' → valid s'.
Proof.
  intros (s0 & H0 & Hrtc) Hpath%path_rtc. exists s0. split; [done |].
  etrans; done.
Qed.

(** A path that starts with an arrival and moves the clock processes an
    arrival. *)
Lemma path_first_arrival s a d s' :
  path s a d s' → next_event s = Arrival → current_time s < current_time s' →
  (1 ≤ a)%nat.
Proof. intros [] Hev Hlt; [lra | lia | congruence]. Qed.

(** From an initial state: the customers known are the arrivals, and no
    more customers have left than have arrived. *)
Lemma initial_path_balance s a d s' :
  initial s → path s a d s' →
  known s' = a ∧ current_state s' = (Z.of_nat a - Z.of_nat d)%Z ∧ (d ≤ a)%nat.
Proof.
  intros Hinit Hpath.
  pose proof (path_valid s a d s' (valid_initial s Hinit) Hpath) as Hv.
  apply path_balance in Hpath as [Hk Hc]. destruct Hinit as [first Hfirst].
  split_and!; [done | done |].
  pose proof (valid_population_inv s' Hv) as [Hcount _].
  unfold in_system in Hcount. simpl in Hc. destruct (server_busy s'); lia.
Qed.

(** A state the system can be in with a customer known has a record: the
    line is only joined when the server is busy, and a busy server serves a
    recorded customer. *)
Lemma known_recorded s :
  valid s → (1 ≤ known s)%nat → (1 ≤ length (customer_stats s))%nat.
Proof.
  intros Hv Hk. unfold known in Hk.
  destruct (queue s) as [| a line] eqn:Hq; [simpl in Hk; lia |].
  destruct (server_busy s) eqn:Hbusy.
  - destruct (service_current s (valid_service_inv s Hv) Hbusy)
      as (prev & c & -> & _). rewrite length_app. simpl. lia.
  - rewrite (population_idle s (valid_population_inv s Hv) Hbusy) in Hq. done.
Qed.

(** ** Runs of the code *)

Section run.
Context {G : Type} `{SampleSource G}.
Variables arrival_rate service_rate : Q.

(** A run of the loop is a path of at most as many events as iterations. *)
Lemma event_loop_path fuel T s (w : world G) s' w' :
  event_loop arrival_rate service_rate fuel T s w = Ok (s', w') →
  ∃ a d, path s a d s' ∧ (a + d ≤ fuel)%nat.
Proof.
  revert s w. induction fuel as [| fuel IH]; intros s w; simpl;
    case_qlt (current_time s) T; try done;
    try (intros [= <- <-]; exists O, O; split; [constructor | lia]).
  intros (s1 & w1 & Hstep%step_refines & (a & d & Hpath & Hle)%IH)%sim_bind_Ok.
  destruct (next_event s) as [| now] eqn:Hev.
  - exists (S a), d. split; [eapply path_arrival; done | lia].
  - exists a, (S d). split; [eapply path_departure; done | lia].
Qed.

Lemma run_to_horizon_path fuel T (w : world G) s w' :
  run_to_horizon fuel arrival_rate service_rate T w = Ok (s, w') →
  ∃ s0 s1 a d, initial s0 ∧ path s0 a d s1 ∧ s = final_update T s1 ∧
    (a + d ≤ fuel)%nat ∧ T <= current_time s1.
Proof.
  unfold run_to_horizon. intros (s0 & w0 & Hinit & Hrun)%sim_bind_Ok.
  apply sim_bind_Ok in Hrun as (s1 & w1 & Hloop & [-> ->]%sim_ret_Ok).
  destruct (event_loop_path _ _ _ _ _ _ Hloop) as (a & d & Hpath & Hle).
  exists s0, s1, a, d. split_and!; try done.
  - eapply init_state_refines. done.
  - eapply event_loop_Ok_exit. done.
Qed.

(** ** The variates a run consumes *)

(** An iteration draws one variate for each customer it admits and one
    for each service it starts, and nothing else. *)
Lemma step_draws s (w : world G) s' w' :
  step arrival_rate service_rate s w = Ok (s', w') →
  ∃ n, draws_of s' = (draws_of s + n)%nat ∧
    numpy_rng w' = advance n (numpy_rng w) ∧
    random_seed_arg w' = random_seed_arg w.
Proof.
  unfold step, process_arrival, process_departure, draws_of, known.
  destruct (next_event s) as [| now]; intros Hstep.
  - apply sim_bind_Ok in Hstep as (gap & w1 & [Hg1 Hr1]%exponential_of_rate_advance
                                   & Hstep).
    destruct (server_busy s); simpl in Hstep.
    + sim_inv Hstep. subst. exists 1%nat. simpl. rewrite length_app. simpl.
      split; [lia | done].
    + apply sim_bind_Ok in Hstep
        as (service & w2 & [Hg2 Hr2]%exponential_of_rate_advance & Hstep).
      sim_inv Hstep. subst. exists 2%nat. simpl. rewrite length_app. simpl.
      split; [lia |]. rewrite Hg2, Hg1, Hr2, Hr1. done.
  - destruct (queue s) as [| arrival waiting] eqn:Hq.
    + sim_inv Hstep. subst. exists 0%nat. simpl. rewrite Hq. simpl.
      split; [lia | done].
    + apply sim_bind_Ok in Hstep
        as (service & w1 & [Hg1 Hr1]%exponential_of_rate_advance & Hstep).
      sim_inv Hstep. subst. exists 1%nat. simpl. rewrite length_app. simpl.
      split; [lia | done].
Qed.

Lemma event_loop_draws fuel T s (w : world G) s' w' :
  event_loop arrival_rate service_rate fuel T s w = Ok (s', w') →
  ∃ n, draws_of s' = (draws_of s + n)%nat ∧
    numpy_rng w' = advance n (numpy_rng w) ∧
    random_seed_arg w' = random_seed_arg w.
Proof.
  revert s w. induction fuel as [| fuel IH]; intros s w; simpl;
    case_qlt (current_time s) T; try done;
    try (intros [= <- <-]; exists O; split; [lia | done]).
  intros (s1 & w1 & (n & Hn & Hg & Hr)%step_draws
          & (m & Hm & Hg' & Hr')%IH)%sim_bind_Ok.
  exists (n + m)%nat. rewrite advance_add, <- Hg. split; [lia | split; congruence].
Qed.

(** A run draws the first arrival, then what its iterations draw. *)
Lemma run_to_horizon_draws fuel T (w : world G) s w' :
  run_to_horizon fuel arrival_rate service_rate T w = Ok (s, w') →
  numpy_rng w' = advance (1 + draws_of s) (numpy_rng w) ∧
  random_seed_arg w' = random_seed_arg w.
Proof.
  unfold run_to_horizon, init_state.
  intros (s0 & w0 & Hinit & Hrun)%sim_bind_Ok.
  apply sim_bind_Ok in Hinit
    as (first & w1 & [Hg1 Hr1]%exponential_of_rate_advance & [-> ->]%sim_ret_Ok).
  apply sim_bind_Ok in Hrun
    as (s1 & w2 & (n & Hn & Hg & Hr)%event_loop_draws & [-> ->]%sim_ret_Ok).
  change (draws_of (final_update T s1)) with (draws_of s1).
  rewrite Hn. change (draws_of (initial_state first)) with 0%nat.
  rewrite (advance_add 1), Hg, Hg1, Hr, Hr1. done.
Qed.

(** C35. The variates a call consumes.  A call that returns has taken
    from numpy's generator, as seeded, exactly one variate for the first
    arrival, one for each customer that arrived during the run (recorded or
    still in the line) and one for each record, that is
    [1 + 2 * total_customers + len(queue)] variates, and it has left the
    state of Python's [random] as the seeding left it: the generator the
    caller finds after the call is the seeded one advanced by that many
    draws. *)
Theorem draws_of_the_call fuel T seed (w : world G) r w' :
  simulate_mm1_queue fuel arrival_rate service_rate T seed w = Ok (r, w') →
  ∃ s, run_to_horizon fuel arrival_rate service_rate T (seeded_world seed w) =
         Ok (s, w') ∧
    draws_of s = (2 * total_customers r + length (queue s))%nat ∧
    numpy_rng w' =
      advance (1 + draws_of s) (numpy_rng (seeded_world seed w)) ∧
    random_seed_arg w' = random_seed_arg (seeded_world seed w).
Proof.
  intros (s & Hrun & Hstat)%simulate_Ok.
  apply statistics_inv in Hstat as (_ & Htotal & _).
  destruct (run_to_horizon_draws _ _ _ _ _ Hrun) as [Hg Hr].
  exists s. split_and!; [done | | done..].
  unfold draws_of, known. rewrite Htotal. lia.
Qed.

(** C32. Conservation of customers.  A returned result comes from a path
    of [a] arrivals and [d] departures, at most as many events as
    iterations allowed and no more departures than arrivals; every arrival
    is a customer with a record or in the line at the end, the counter of
    the population is [a - d], and with a positive horizon the result has
    at least one customer. *)
Theorem customers_are_conserved fuel T seed (w : world G) r w' :
  simulate_mm1_queue fuel arrival_rate service_rate T seed w = Ok (r, w') →
  ∃ s0 s1 a d, initial s0 ∧ path s0 a d s1 ∧
    run_to_horizon fuel arrival_rate service_rate T (seeded_world seed w) =
      Ok (final_update T s1, w') ∧
    (a + d ≤ fuel)%nat ∧ (d ≤ a)%nat ∧
    (total_customers r + length (queue s1))%nat = a ∧
    current_state s1 = (Z.of_nat a - Z.of_nat d)%Z ∧
    (0 < T → (1 ≤ total_customers r)%nat).
Proof.
  intros (s & Hrun & Hstat)%simulate_Ok.
  destruct (run_to_horizon_path _ _ _ _ _ Hrun)
    as (s0 & s1 & a & d & Hinit & Hpath & -> & Hle & Hexit).
  destruct (initial_path_balance s0 a d s1 Hinit Hpath) as (Hk & Hc & Hda).
  apply statistics_inv in Hstat as (_ & Htotal & _). simpl in Htotal.
  exists s0, s1, a, d. rewrite Htotal. split_and!; try done.
  intros HT. apply known_recorded.
  - eapply path_valid; [apply valid_initial |]; done.
  - rewrite Hk. eapply path_first_arrival; [done | |];
      destruct Hinit; [done | simpl; lra].
Qed.

End run.

(** On the recorded run from a generator that has been used: three
    customers are recorded and none is waiting, so the seeded tape is seven
    variates shorter after the call. *)
Lemma draws_of_the_call_witness :
  ∃ r w' s,
    @simulate_mm1_queue replay demo_source 10 2 (1 # 2) 3 (Some 42%Z) demo_world
      = Ok (r, w') ∧
    @run_to_horizon replay demo_source 10 2 (1 # 2) 3
      (@seeded_world replay demo_source (Some 42%Z) demo_world) = Ok (s, w') ∧
    draws_of s = (2 * total_customers r + length (queue s))%nat ∧
    numpy_rng w' =
      @advance replay demo_source (1 + draws_of s)
        (numpy_rng (@seeded_world replay demo_source (Some 42%Z) demo_world)) ∧
    random_seed_arg w' =
      random_seed_arg (@seeded_world replay demo_source (Some 42%Z) demo_world).
Proof.
  destruct (@draws_of_the_call replay demo_source 2 (1 # 2) 10 3 (Some 42%Z)
              demo_world _ _ eq_refl) as (s & Hrest).
  eexists _, _, s. split; [reflexivity | exact Hrest].
Defined.

(** The same call evaluated: the seven variates of the tape are used up,
    one for the first arrival and two for each of the three customers. *)
Example draws_of_the_call_evaluated :
  @simulate_mm1_queue replay demo_source 10 2 (1 # 2) 3 (Some 42%Z) demo_world =
    Ok (demo_result, World (Replay [] (Fraction 1 1)) (Some 42%Z)) ∧
  total_customers demo_result = 3%nat ∧
  @advance replay demo_source 7 demo_tape = Replay [] (Fraction 1 1).
Proof. by vm_compute. Qed.

(** On the recorded run: three arrivals and two departures in five
    iterations, three customers recorded and none in the line. *)
Lemma customers_are_conserved_witness :
  ∃ r w' s0 s1 a d,
    @simulate_mm1_queue replay demo_source 10 2 (1 # 2) 3 (Some 42%Z) demo_world
      = Ok (r, w') ∧
    initial s0 ∧ path s0 a d s1 ∧
    @run_to_horizon replay demo_source 10 2 (1 # 2) 3
      (@seeded_world replay demo_source (Some 42%Z) demo_world) =
      Ok (final_update 3 s1, w') ∧
    (a + d ≤ 10)%nat ∧ (d ≤ a)%nat ∧
    (total_customers r + length (queue s1))%nat = a ∧
    current_state s1 = (Z.of_nat a - Z.of_nat d)%Z ∧
    (0 < 3 → (1 ≤ total_customers r)%nat).
Proof.
  destruct (@customers_are_conserved replay demo_source 2 (1 # 2) 10 3 (Some 42%Z)
              demo_world _ _ eq_refl) as (s0 & s1 & a & d & Hrest).
  eexists _, _, s0, s1, a, d. split; [reflexivity | exact Hrest].
Defined.

