(* ===== verification/Horizon.v ===== *)
(** * The same run with a longer horizon

    The horizon [simulation_time] is read in two places of
    [simulate_mm1_queue]: the test of the while loop (line 27 of
    [src/mm1_queue_simulation.py]) and the reducer (lines 78-128).  The
    body of the loop never reads it.  So the run to a horizon [T2] goes
    through the state in which the run to an earlier horizon [T1] left the
    loop, and goes on from there: the loop can be split at any intermediate
    horizon, and the two parts can be put together again.  For the results
    this gives what a test of the simulator compares between two calls
    with the same seed: the customers, the completed customers and the
    total times of the shorter run are at most those of the longer one. *)

From stdpp Require Import relations.
From S2P Require Import Prelude PyRuntime XTime PyDict Sampler Engine Spec.
From S2P Require Import Invariants Stats Simulate Liveness.

#[local] Open Scope Q_scope.

(** ** The later state of the same path *)

(** [extends s1 s2]: [s2] is reached from [s1] by events of the system, it
    is not earlier, and the records of [s1] are the first records of
    [s2]. *)
Definition extends (s1 s2 : sim_state) : Prop :=
  rtc transition s1 s2 ∧
  current_time s1 <= current_time s2 ∧
  customer_stats s1 `prefix_of` customer_stats s2.

(** ** Sums and counts over a prefix, under a weaker test *)

Section prefix.
Context {A : Type} (p1 p2 : A → bool) (f : A → Q).
Hypothesis weaker : ∀ a, p1 a = true → p2 a = true.

Lemma py_count_weaken l : (py_count p1 l ≤ py_count p2 l)%nat.
Proof.
  unfold py_count. induction l as [| a l IH]; [done |].
  rewrite !filter_cons. repeat case_decide; simpl; try lia.
  exfalso. auto.
Qed.

Lemma py_count_prefix l1 l2 :
  l1 `prefix_of` l2 → (py_count p1 l1 ≤ py_count p2 l2)%nat.
Proof.
  intros [k ->]. rewrite py_count_app. pose proof (py_count_weaken l1). lia.
Qed.

Lemma py_sum_filter_weaken l :
  Forall (λ a, 0 <= f a) l →
  py_sum (f <$> filter (λ a, p1 a = true) l) <=
  py_sum (f <$> filter (λ a, p2 a = true) l).
Proof.
  induction 1 as [| a l Ha _ IH]; [done |].
  rewrite !filter_cons. repeat case_decide; rewrite ?fmap_cons, ?py_sum_cons;
    try lra.
  exfalso. auto.
Qed.

Lemma py_sum_filter_prefix l1 l2 :
  l1 `prefix_of` l2 → Forall (λ a, 0 <= f a) l2 →
  py_sum (f <$> filter (λ a, p1 a = true) l1) <=
  py_sum (f <$> filter (λ a, p2 a = true) l2).
Proof.
  intros [k ->] [H1 Hk]%Forall_app.
  rewrite filter_app, fmap_app, py_sum_app.
  pose proof (py_sum_filter_weaken l1 H1).
  pose proof (py_sum_fmap_nonneg f (filter (λ a, p2 a = true) k)
                (Forall_filter_keep _ _ k Hk)).
  lra.
Qed.

End prefix.

(** A customer that has left by a horizon has left by every later one. *)
Lemma completed_later T1 T2 c :
  T1 <= T2 → completed T1 c = true → completed T2 c = true.
Proof. unfold completed. intros. q_bool. lra. Qed.

(** ** Paths *)

Lemma extends_refl s : extends s s.
Proof. split_and!; done || lra. Qed.

Lemma transition_extends s s' : valid s → transition s s' → extends s s'.
Proof.
  intros Hv Ht. split_and!.
  - now apply rtc_once.
  - now apply transition_time_mono; [apply valid_clock_inv |].
  - now apply transition_stats_prefix.
Qed.

Lemma extends_trans s1 s2 s3 : extends s1 s2 → extends s2 s3 → extends s1 s3.
Proof.
  intros (Hp1 & Ht1 & Hr1) (Hp2 & Ht2 & Hr2). split_and!.
  - by etrans.
  - lra.
  - by etrans.
Qed.

Lemma valid_rtc s s' : valid s → rtc transition s s' → valid s'.
Proof. intros Hv Hp. induction Hp; eauto using valid_transition. Qed.

Lemma path_extends s s' : valid s → rtc transition s s' → extends s s'.
Proof.
  intros Hv Hp. induction Hp as [| s s1 s' Ht _ IH]; [apply extends_refl |].
  apply (extends_trans _ s1); [now apply transition_extends |].
  apply IH. eapply valid_transition; done.
Qed.

(** ** Splitting the loop *)

Section horizon.
Context {G : Type} `{SampleSource G}.
Variables arrival_rate service_rate : Q.

Implicit Types (w : world G) (s : sim_state).

#[local] Abbreviation loop := (event_loop arrival_rate service_rate).

(** The loop to a horizon goes through the exit of the loop to any earlier
    horizon, from the same state and on the same fuel. *)
Lemma event_loop_split fuel T1 T2 s w s2 w2 :
  T1 <= T2 → loop fuel T2 s w = Ok (s2, w2) →
  ∃ s1 w1, loop fuel T1 s w = Ok (s1, w1) ∧ loop fuel T2 s1 w1 = Ok (s2, w2).
Proof.
  intros HT. revert s w. induction fuel as [| fuel IH]; intros s w Hloop;
    destruct (decide (current_time s < T1)) as [Hlt | Hge];
    try (exists s, w; split; [apply event_loop_exit; lra | done]).
  - rewrite event_loop_O in Hloop by lra. done.
  - rewrite event_loop_S in * by lra.
    apply sim_bind_Ok in Hloop as (s' & w' & Hstep & Hloop).
    destruct (IH s' w' Hloop) as (s1 & w1 & Hshort & Hrest).
    exists s1, w1. split; [now rewrite (sim_bind_eq _ _ _ _ _ Hstep) |].
    eapply event_loop_fuel_mono; [| done..]. lia.
Qed.

(** And the two parts make one loop. *)
Lemma event_loop_join fuel1 fuel2 T1 T2 s w s1 w1 r :
  T1 <= T2 → loop fuel1 T1 s w = Ok (s1, w1) →
  loop fuel2 T2 s1 w1 = r → r ≠ OutOfFuel →
  loop (fuel1 + fuel2) T2 s w = r.
Proof.
  intros HT. revert s w. induction fuel1 as [| fuel1 IH]; intros s w Hshort Hrest Hr;
    destruct (decide (current_time s < T1)) as [Hlt | Hge];
    try (rewrite event_loop_exit in Hshort by lra; injection Hshort as <- <-;
         eapply event_loop_fuel_mono; [| done..]; lia).
  - rewrite event_loop_O in Hshort by lra. done.
  - rewrite event_loop_S in Hshort by lra. simpl plus. rewrite event_loop_S by lra.
    apply sim_bind_Ok in Hshort as (s' & w' & Hstep & Hshort).
    rewrite (sim_bind_eq _ _ _ _ _ Hstep). now apply IH.
Qed.

(** The state in which the shorter run leaves the loop, and the longer run
    from there. *)
Lemma run_to_horizon_split fuel T1 T2 w s2' w2 :
  T1 <= T2 → run_to_horizon fuel arrival_rate service_rate T2 w = Ok (s2', w2) →
  ∃ s1 w1 s2,
    run_to_horizon fuel arrival_rate service_rate T1 w = Ok (final_update T1 s1, w1) ∧
    reachable arrival_rate service_rate T1 s1 w1 ∧
    loop fuel T2 s1 w1 = Ok (s2, w2) ∧ s2' = final_update T2 s2.
Proof.
  intros HT Hrun. unfold run_to_horizon in *.
  apply sim_bind_Ok in Hrun as (s0 & w0 & Hinit & Hrun).
  apply sim_bind_Ok in Hrun as (s2 & w2' & Hlong & [-> ->]%sim_ret_Ok).
  destruct (event_loop_split _ _ _ _ _ _ _ HT Hlong) as (s1 & w1 & Hshort & Hrest).
  exists s1, w1, s2. split_and!; [| | done | done].
  - erewrite sim_bind_eq by done. now erewrite sim_bind_eq by done.
  - eapply event_loop_reachable; [| done]. eapply reachable_init. done.
Qed.

(** The records of the longer run are in order and start with the records
    of the shorter one. *)
Lemma resumed_extends fuel T1 T2 s1 w1 s2 w2 :
  reachable arrival_rate service_rate T1 s1 w1 →
  loop fuel T2 s1 w1 = Ok (s2, w2) →
  extends s1 s2 ∧ Forall record_ok (customer_stats s2).
Proof.
  intros Hv%reachable_valid Hp%event_loop_rtc. split; [now apply path_extends |].
  apply trace_records, valid_trace_inv. eapply valid_rtc; done.
Qed.

(** C18. A longer horizon continues the same run.  When the call with the
    horizon [T2] returns, the call with the same rates, seed and fuel and
    an earlier horizon [T1], not zero, returns too; the longer run goes
    through the state [s1] in which the shorter one left the loop and
    reaches its own last state from there; the records of the shorter run
    are the first records of the longer one; and the number of customers,
    the number of completed customers and the total times in the system
    and in the queue of the shorter run are at most those of the longer
    one. *)
Theorem longer_horizon_continues_run fuel T1 T2 seed w r2 w2 :
  T1 <= T2 → ¬ T1 == 0 →
  simulate_mm1_queue fuel arrival_rate service_rate T2 seed w = Ok (r2, w2) →
  ∃ r1 w1 s1 s2,
    simulate_mm1_queue fuel arrival_rate service_rate T1 seed w = Ok (r1, w1) ∧
    run_to_horizon fuel arrival_rate service_rate T1 (seeded_world seed w) =
      Ok (final_update T1 s1, w1) ∧
    loop fuel T2 s1 w1 = Ok (s2, w2) ∧
    statistics T2 (final_update T2 s2) = Ok r2 ∧
    extends s1 s2 ∧
    (total_customers r1 ≤ total_customers r2)%nat ∧
    (completed_customers r1 ≤ completed_customers r2)%nat ∧
    total_system_time r1 <= total_system_time r2 ∧
    total_queue_time r1 <= total_queue_time r2.
Proof.
  intros HT HT1 Hsim. pose proof (simulate_Ok_seed _ _ _ _ _ _ _ _ Hsim) as Hseed.
  apply simulate_Ok in Hsim as (s2' & Hrun2 & Hstat2).
  destruct (run_to_horizon_split _ _ _ _ _ _ HT Hrun2)
    as (s1 & w1 & s2 & Hrun1 & Hreach & Hrest & ->).
  destruct (resumed_extends _ _ _ _ _ _ _ Hreach Hrest) as [Hext Hok].
  destruct (run_to_horizon_ledger _ _ _ _ _ _ _ Hrun1) as [Hwf _].
  pose proof (statistics_Ok T1 (final_update T1 s1) HT1 Hwf) as Hstat1.
  cbv zeta in Hstat1. eexists _, w1, s1, s2.
  split; [rewrite simulate_unfold by done; erewrite sim_bind_eq by done;
          unfold sim_lift; now rewrite Hstat1 |].
  pose proof Hstat2 as (_ & -> & -> & -> & -> & _)%statistics_inv.
  pose proof Hext as (Hpath & Htime & Hpre). simpl.
  split_and!; try done.
  - by apply prefix_length.
  - apply (py_count_prefix (completed T1) (completed T2)); [| done].
    intros c. now apply completed_later.
  - apply (py_sum_filter_prefix (completed T1) (completed T2)); [| done |].
    + intros c. now apply completed_later.
    + eapply Forall_impl; [exact Hok |]. intros c (? & ? & ?).
      unfold system_time. lra.
  - apply (py_sum_filter_prefix (completed T1) (completed T2)); [| done |].
    + intros c. now apply completed_later.
    + eapply Forall_impl; [exact Hok |]. intros c (? & ? & ?).
      unfold queue_time. lra.
Qed.

(** Conversely, the loop to [T1] followed by the loop to [T2] from where it
    stopped is the run to [T2], on the fuel of both. *)
Theorem resumed_run_is_longer_run fuel1 fuel2 T1 T2 w s0 w0 s1 w1 s2 w2 :
  T1 <= T2 →
  init_state arrival_rate w = Ok (s0, w0) →
  loop fuel1 T1 s0 w0 = Ok (s1, w1) →
  loop fuel2 T2 s1 w1 = Ok (s2, w2) →
  run_to_horizon (fuel1 + fuel2) arrival_rate service_rate T2 w =
    Ok (final_update T2 s2, w2) ∧ extends s0 s1 ∧ extends s1 s2.
Proof.
  intros HT Hinit Hshort Hrest.
  assert (reachable arrival_rate service_rate T1 s0 w0) as Hreach
    by (eapply reachable_init; done).
  split_and!.
  - unfold run_to_horizon. rewrite (sim_bind_eq _ _ _ _ _ Hinit).
    now rewrite (sim_bind_eq _ _ _ _ _
                   (event_loop_join _ _ _ _ _ _ _ _ _ HT Hshort Hrest ltac:(done))).
  - eapply resumed_extends; done.
  - eapply resumed_extends; [eapply event_loop_reachable |]; done.
Qed.

End horizon.

(** ** On the recorded run

    The recorded tape at rates 2 and 1/2: the run to 7/4 against the run
    to 3. *)

Lemma longer_horizon_continues_run_witness :
  ∃ r2 w2 r1 w1 s1 s2,
    @simulate_mm1_queue replay demo_source 10 2 (1 # 2) 3 (Some 42%Z) demo_world
      = Ok (r2, w2) ∧
    @simulate_mm1_queue replay demo_source 10 2 (1 # 2) (7 # 4) (Some 42%Z) demo_world
      = Ok (r1, w1) ∧
    @run_to_horizon replay demo_source 10 2 (1 # 2) (7 # 4)
      (@seeded_world replay demo_source (Some 42%Z) demo_world) =
      Ok (final_update (7 # 4) s1, w1) ∧
    @event_loop replay demo_source 2 (1 # 2) 10 3 s1 w1 = Ok (s2, w2) ∧
    statistics 3 (final_update 3 s2) = Ok r2 ∧
    extends s1 s2 ∧
    (total_customers r1 ≤ total_customers r2)%nat ∧
    (completed_customers r1 ≤ completed_customers r2)%nat ∧
    total_system_time r1 <= total_system_time r2 ∧
    total_queue_time r1 <= total_queue_time r2.
Proof.
  destruct (@longer_horizon_continues_run replay demo_source 2 (1 # 2) 10 (7 # 4) 3
              (Some 42%Z) demo_world _ _ ltac:(done) ltac:(done) eq_refl)
    as (r1 & w1 & s1 & s2 & Hrest).
  eexists _, _, r1, w1, s1, s2. split; [reflexivity | exact Hrest].
Defined.

(** The same two runs evaluated: two customers by 7/4, one of them
    completed after a time of 1 in the system; three by 3, two of them
    completed after 3/2 in all. *)
Example longer_horizon_evaluated :
  ∃ r1 w1 r2 w2,
    @simulate_mm1_queue replay demo_source 10 2 (1 # 2) (7 # 4) (Some 42%Z) demo_world
      = Ok (r1, w1) ∧
    @simulate_mm1_queue replay demo_source 10 2 (1 # 2) 3 (Some 42%Z) demo_world
      = Ok (r2, w2) ∧
    total_customers r1 = 2%nat ∧ completed_customers r1 = 1%nat ∧
    total_customers r2 = 3%nat ∧ completed_customers r2 = 2%nat ∧
    total_system_time r1 == 1 ∧ total_system_time r2 == 3 # 2.
Proof. eexists _, _, _, _. split_and!; vm_compute; reflexivity. Qed.
