(* ===== verification/Units.v ===== *)
(** * The same run in another unit of time

    [simulate_mm1_queue] takes rates per unit of time and a horizon in
    that unit, and every duration it draws is a unit-rate variate divided
    by a rate (lines 24, 38, 44 and 68 of [src/mm1_queue_simulation.py]).
    So the call with the rates divided by [c > 0] and the horizon
    multiplied by [c] is the same run told in a unit [c] times smaller:
    the same events in the same order, every time multiplied by [c], the
    same exception if any.  Of the result, the counts, the utilization, the
    two mean lengths and the state probabilities do not change, and the
    total and mean times are multiplied by [c].

    The two runs are related step by step ([scaled]); the relation between
    two computations ([sim_rel]) has the rules of a relational program
    logic (return, bind, lift).  The numbers are compared as numbers, with
    the equivalence of [Bisim.v]: [c * (x / r)] and [x / (r / c)] are
    different fractions.

    [run_mm1_simulation] prints the mean times multiplied by 60 (lines 153
    and 154): by the theorem these are the mean times of the run in the
    unit 60 times smaller than the unit of its arguments. *)

From S2P Require Import Prelude PyRuntime XTime PyDict Sampler Engine Spec.
From S2P Require Import Invariants Stats Simulate Bisim.

#[local] Open Scope Q_scope.

(** ** Related outcomes and computations *)

Inductive outcome_rel {A B} (R : A → B → Prop) : outcome A → outcome B → Prop :=
| Ok_rel a b : R a b → outcome_rel R (Ok a) (Ok b)
| Raise_rel e : outcome_rel R (Raise e) (Raise e)
| OutOfFuel_rel : outcome_rel R OutOfFuel OutOfFuel.

(** Two computations are related when from every world they raise the same
    exception, or both run out of fuel, or return related values and the
    same world. *)
Definition sim_rel {G A B} (R : A → B → Prop) (m : sim G A) (m' : sim G B) : Prop :=
  ∀ w, outcome_rel (λ aw bw, R aw.1 bw.1 ∧ aw.2 = bw.2) (m w) (m' w).

(** ** A state, a record, a ledger and a result in the smaller unit *)

Definition scale_customer (c : Q) (r : customer) : customer :=
  Customer (c * arrival_time r) (c * service_start_time r) (c * departure_time r).

Definition scale_xtime (c : Q) (t : xtime) : xtime :=
  match t with
  | Fin x => Fin (c * x)
  | PosInf => PosInf
  end.

Definition scale_ledger (c : Q) (ledger : list (Z * Q)) : list (Z * Q) :=
  dict_map_values (Qmult c) ledger.

Definition scale_state (c : Q) (s : sim_state) : sim_state := {|
  current_time := c * current_time s;
  server_busy := server_busy s;
  server_start_time := c * server_start_time s;
  next_departure_time := scale_xtime c (next_departure_time s);
  queue := Qmult c <$> queue s;
  customer_stats := scale_customer c <$> customer_stats s;
  last_event_time := c * last_event_time s;
  state_time := scale_ledger c (state_time s);
  current_state := current_state s;
  next_arrival_time := c * next_arrival_time s
|}.

(** The times of a result are multiplied; its counts, ratios and
    probabilities are kept. *)
Definition scale_result (c : Q) (r : sim_result) : sim_result := {|
  total_customers := total_customers r;
  completed_customers := completed_customers r;
  total_system_time := c * total_system_time r;
  total_queue_time := c * total_queue_time r;
  server_busy_time := c * server_busy_time r;
  average_system_time := c * average_system_time r;
  average_queue_time := c * average_queue_time r;
  server_utilization := server_utilization r;
  average_system_length := average_system_length r;
  average_queue_length := average_queue_length r;
  state_probabilities := state_probabilities r
|}.

(** [scaled c s s']: [s'] is [s] in the unit [c] times smaller, up to the
    representation of the numbers. *)
Definition scaled (c : Q) (s s' : sim_state) : Prop := s' ≡ scale_state c s.

Definition scaled_result (c : Q) (r r' : sim_result) : Prop := r' ≡ scale_result c r.

(** ** The rules for related computations *)

Section rules.
Context {G A B A' B' : Type}.
Implicit Types (R : A → B → Prop) (S : A' → B' → Prop).

Lemma outcome_rel_bind R S (m : outcome A) (m' : outcome B)
    (f : A → outcome A') (f' : B → outcome B') :
  outcome_rel R m m' → (∀ a b, R a b → outcome_rel S (f a) (f' b)) →
  outcome_rel S (m ≫= f) (m' ≫= f').
Proof. intros [a b Hab | e |] Hf; simpl; [by apply Hf | constructor..]. Qed.

Lemma sim_rel_ret R (a : A) (b : B) : R a b → sim_rel (G := G) R (mret a) (mret b).
Proof. intros Hab w. by constructor. Qed.

Lemma sim_rel_bind R S (m : sim G A) (m' : sim G B)
    (f : A → sim G A') (f' : B → sim G B') :
  sim_rel R m m' → (∀ a b, R a b → sim_rel S (f a) (f' b)) →
  sim_rel S (m ≫= f) (m' ≫= f').
Proof.
  intros Hm Hf w. unfold mbind, sim_bind.
  destruct (Hm w) as [[a w1] [b w1'] [Hab Hw] | e |]; [| constructor..].
  simpl in *. subst. by apply Hf.
Qed.

Lemma sim_rel_lift R (m : outcome A) (m' : outcome B) :
  outcome_rel R m m' → sim_rel (G := G) R (sim_lift m) (sim_lift m').
Proof. intros [a b Hab | e |] w; by constructor. Qed.

(** What a related pair says of a returned value. *)
Lemma sim_rel_Ok R (m : sim G A) (m' : sim G B) w a w1 :
  sim_rel R m m' → m w = Ok (a, w1) → ∃ b, m' w = Ok (b, w1) ∧ R a b.
Proof.
  intros Hm Hw. specialize (Hm w). rewrite Hw in Hm.
  inversion Hm as [? [b w1'] [Hab Heq] | |]. simpl in *. subst. eauto.
Qed.

End rules.

(** ** The state operations in the smaller unit *)

Section scaling.
Variable c : Q.
Hypothesis c_pos : 0 < c.

Lemma Qle_bool_scale a b : Qle_bool (c * a) (c * b) = Qle_bool a b.
Proof. case_qle a b; q_bool; nra. Qed.

Lemma Qlt_bool_scale a b : Qlt_bool (c * a) (c * b) = Qlt_bool a b.
Proof. unfold Qlt_bool. by rewrite Qle_bool_scale. Qed.

Lemma xle_bool_scale a b :
  xle_bool (scale_xtime c a) (scale_xtime c b) = xle_bool a b.
Proof. destruct a, b; simpl; [apply Qle_bool_scale | done..]. Qed.

Lemma dict_get_scale d k : dict_get (scale_ledger c d) k 0 == c * dict_get d k 0.
Proof. induction d as [| [k' v] d IH]; simpl; [lra |]. by case_decide. Qed.

Lemma dict_set_scale d k v :
  dict_set (scale_ledger c d) k (c * v) = scale_ledger c (dict_set d k v).
Proof.
  induction d as [| [k' v'] d IH]; simpl; [done |].
  case_decide; simpl; [done |]. by rewrite IH.
Qed.

Lemma dict_add_scale d k x :
  dict_add (scale_ledger c d) k (c * x) ≡ scale_ledger c (dict_add d k x).
Proof.
  unfold dict_add. rewrite <- dict_set_scale.
  apply dict_set_proper; [done.. |]. rewrite dict_get_scale. ring.
Qed.

Lemma ledger_at_scale s now :
  ledger_at (scale_state c s) (c * now) ≡ scale_ledger c (ledger_at s now).
Proof.
  unfold ledger_at. simpl. rewrite <- dict_add_scale.
  apply dict_add_proper; [done.. |]. ring.
Qed.

(** The same event is next, at the scaled time. *)
Lemma next_event_scale s :
  next_event (scale_state c s) =
  match next_event s with Arrival => Arrival | Departure d => Departure (c * d) end.
Proof.
  unfold next_event. simpl. destruct (next_departure_time s); simpl; [| done].
  rewrite Qle_bool_scale. by case_match.
Qed.

(** [scale_fields] proves two states equivalent field by field, the
    ledger by [ledger_at_scale] and the numbers by [ring]. *)
Ltac scale_fields :=
  split; simpl; rewrite ?fmap_app; try apply ledger_at_scale;
  try (f_equiv; repeat constructor; simpl); try done;
  try (unfold equiv, Q_equiv; ring).

Lemma initial_state_scale first :
  initial_state (c * first) ≡ scale_state c (initial_state first).
Proof. scale_fields. Qed.

Lemma arrival_starts_service_scale s gap service :
  arrival_starts_service (scale_state c s) (c * gap) (c * service) ≡
  scale_state c (arrival_starts_service s gap service).
Proof. scale_fields. Qed.

Lemma arrival_joins_queue_scale s gap :
  arrival_joins_queue (scale_state c s) (c * gap) ≡
  scale_state c (arrival_joins_queue s gap).
Proof. scale_fields. Qed.

Lemma departure_starts_next_scale s now arrival waiting service :
  departure_starts_next (scale_state c s) (c * now) (c * arrival)
    (Qmult c <$> waiting) (c * service) ≡
  scale_state c (departure_starts_next s now arrival waiting service).
Proof. scale_fields. Qed.

Lemma departure_leaves_idle_scale s now :
  departure_leaves_idle (scale_state c s) (c * now) ≡
  scale_state c (departure_leaves_idle s now).
Proof. scale_fields. Qed.

Lemma final_update_scale T s :
  final_update (c * T) (scale_state c s) ≡ scale_state c (final_update T s).
Proof. scale_fields. Qed.

(** ** The loop in the smaller unit *)

Section loop.
Context {G : Type} `{SampleSource G}.
Implicit Types (s : sim_state) (w : world G).

#[local] Abbreviation times_c := (λ x x' : Q, x' == c * x).

Lemma rate_scale_pos rate : 0 < rate → 0 < rate / c.
Proof. intros Hr. by apply Qdiv_pos. Qed.

Lemma rate_scale_neg rate : rate < 0 → rate / c < 0.
Proof.
  intros Hr. pose proof (Qinv_lt_0_compat c c_pos). unfold Qdiv. nra.
Qed.

(** A draw at the rate [rate / c] is [c] times the draw at the rate
    [rate], and fails as it does. *)
Lemma exponential_of_rate_scale rate :
  sim_rel (G := G) times_c (exponential_of_rate rate) (exponential_of_rate (rate / c)).
Proof.
  intros w. destruct (Q_dec rate 0) as [[Hneg | Hpos] | Hzero].
  - rewrite !exponential_of_rate_negative by (done || by apply rate_scale_neg).
    constructor.
  - rewrite (proj2 (exponential_of_rate_Ok rate w _ _)
               (conj Hpos (conj eq_refl eq_refl))).
    rewrite (proj2 (exponential_of_rate_Ok (rate / c) w _ _)
               (conj (rate_scale_pos rate Hpos) (conj eq_refl eq_refl))).
    constructor. split; simpl; [field; lra | done].
  - rewrite !exponential_of_rate_zero by (done || (rewrite Hzero; field; lra)).
    constructor.
Qed.

Lemma init_state_scale lam :
  sim_rel (G := G) (scaled c) (init_state lam) (init_state (lam / c)).
Proof.
  unfold init_state. eapply sim_rel_bind; [apply exponential_of_rate_scale |].
  intros x x' Hx. apply sim_rel_ret. unfold scaled.
  by rewrite Hx, initial_state_scale.
Qed.

Lemma process_arrival_scale lam mu s s' :
  scaled c s s' →
  sim_rel (G := G) (scaled c) (process_arrival lam mu s)
    (process_arrival (lam / c) (mu / c) s').
Proof.
  unfold scaled. intros Hs. unfold process_arrival.
  eapply sim_rel_bind; [apply exponential_of_rate_scale |]. intros gap gap' Hgap.
  rewrite (equiv_server_busy _ _ Hs). simpl. case_match.
  - eapply sim_rel_bind; [apply exponential_of_rate_scale |]. intros v v' Hv.
    apply sim_rel_ret. unfold scaled.
    by rewrite Hs, Hgap, Hv, arrival_starts_service_scale.
  - apply sim_rel_ret. unfold scaled.
    by rewrite Hs, Hgap, arrival_joins_queue_scale.
Qed.

Lemma process_departure_scale mu now now' s s' :
  scaled c s s' → now' == c * now →
  sim_rel (G := G) (scaled c) (process_departure mu now s)
    (process_departure (mu / c) now' s').
Proof.
  unfold scaled. intros Hs Hnow. unfold process_departure.
  pose proof (equiv_queue _ _ Hs) as Hq. simpl in Hq.
  destruct (queue s) as [| a q]; inversion Hq as [| a' ? q' ? Ha Hq' Heq1 Heq2].
  - apply sim_rel_ret. unfold scaled.
    by rewrite Hs, Hnow, departure_leaves_idle_scale.
  - eapply sim_rel_bind; [apply exponential_of_rate_scale |]. intros v v' Hv.
    apply sim_rel_ret. unfold scaled.
    by rewrite Hs, Hnow, Ha, Hq', Hv, departure_starts_next_scale.
Qed.

(** One iteration: the simulation diagram. *)
Lemma step_scale lam mu s s' :
  scaled c s s' →
  sim_rel (G := G) (scaled c) (step lam mu s) (step (lam / c) (mu / c) s').
Proof.
  intros Hs. unfold step.
  pose proof (next_event_proper _ _ Hs) as Hev. rewrite next_event_scale in Hev.
  destruct (next_event s) as [| now]; inversion Hev as [| now' ? Hnow].
  - by apply process_arrival_scale.
  - by apply process_departure_scale.
Qed.

(** The loop, by induction on the fuel. *)
Lemma event_loop_scale lam mu fuel T s s' :
  scaled c s s' →
  sim_rel (G := G) (scaled c) (event_loop lam mu fuel T s)
    (event_loop (lam / c) (mu / c) fuel (c * T) s').
Proof.
  revert s s'. induction fuel as [| fuel IH]; intros s s' Hs; simpl;
    rewrite (equiv_current_time _ _ Hs); simpl; rewrite Qlt_bool_scale;
    case_match; try (by apply sim_rel_ret); [intros w; constructor |].
  eapply sim_rel_bind; [by apply step_scale | done].
Qed.

Lemma run_to_horizon_scale lam mu fuel T :
  sim_rel (G := G) (scaled c) (run_to_horizon fuel lam mu T)
    (run_to_horizon fuel (lam / c) (mu / c) (c * T)).
Proof.
  unfold run_to_horizon. eapply sim_rel_bind; [apply init_state_scale |].
  intros s0 s0' Hs0. eapply sim_rel_bind; [by apply event_loop_scale |].
  unfold scaled. intros s s' Hs. apply sim_rel_ret.
  by rewrite Hs, final_update_scale.
Qed.

End loop.

(** ** The reducer in the smaller unit *)

Lemma completed_scale T r : completed (c * T) (scale_customer c r) = completed T r.
Proof. unfold completed. simpl. apply Qle_bool_scale. Qed.

Lemma filter_completed_scale T (stats : list customer) :
  filter (λ r, completed (c * T) r = true) (scale_customer c <$> stats) =
  scale_customer c <$> filter (λ r, completed T r = true) stats.
Proof.
  induction stats as [| r stats IH]; [done |].
  rewrite fmap_cons, !filter_cons, completed_scale.
  case_decide; [rewrite fmap_cons |]; by rewrite IH.
Qed.

Lemma py_sum_times (l : list Q) : py_sum (Qmult c <$> l) == c * py_sum l.
Proof.
  induction l as [| x l IH]; [change (0 == c * 0); ring |].
  rewrite fmap_cons, !py_sum_cons, IH. ring.
Qed.

Lemma mean_or_zero_times (l : list Q) : mean_or_zero (Qmult c <$> l) == c * mean_or_zero l.
Proof.
  destruct l as [| x l]; [change (0 == c * 0); ring |].
  pose proof (py_len_pos (x :: l) ltac:(done)) as Hlen.
  unfold mean_or_zero. rewrite fmap_cons. unfold np_mean.
  rewrite <- fmap_cons, py_sum_times. unfold py_len in *.
  rewrite length_fmap. field. lra.
Qed.

(** A time read off a record is multiplied with the record. *)
Section per_customer.
Variable f : customer → Q.
Hypothesis f_scale : ∀ r, f (scale_customer c r) == c * f r.
Implicit Types l : list customer.

Lemma fmap_scale_customer l : f <$> (scale_customer c <$> l) ≡ Qmult c <$> (f <$> l).
Proof. induction l as [| r l IH]; csimpl; constructor; [apply f_scale | done]. Qed.

Lemma py_sum_scale_customer l :
  py_sum (f <$> (scale_customer c <$> l)) == c * py_sum (f <$> l).
Proof. by rewrite fmap_scale_customer, py_sum_times. Qed.

Lemma mean_scale_customer l :
  mean_or_zero (f <$> (scale_customer c <$> l)) == c * mean_or_zero (f <$> l).
Proof. by rewrite fmap_scale_customer, mean_or_zero_times. Qed.

End per_customer.

Lemma system_time_scale r : system_time (scale_customer c r) == c * system_time r.
Proof. unfold system_time. simpl. ring. Qed.

Lemma queue_time_scale r : queue_time (scale_customer c r) == c * queue_time r.
Proof. unfold queue_time. simpl. ring. Qed.

Lemma service_time_scale r : service_time (scale_customer c r) == c * service_time r.
Proof. unfold service_time. simpl. ring. Qed.

Lemma add_partial_service_scale T s busy :
  add_partial_service (c * T) (scale_state c s) (c * busy) ==
  c * add_partial_service T s busy.
Proof.
  unfold add_partial_service, xgt_bool. simpl.
  change (Fin (c * T)) with (scale_xtime c (Fin T)). rewrite xle_bool_scale.
  case_match; ring.
Qed.

Lemma weighted_time_scale weight d :
  weighted_time weight (scale_ledger c d) == c * weighted_time weight d.
Proof.
  unfold weighted_time, dict_items, scale_ledger, dict_map_values.
  induction d as [| [n t] d IH]; [change (0 == c * 0); ring |].
  rewrite !fmap_cons, !py_sum_cons, IH. simpl. ring.
Qed.

Lemma horizon_scale_nonzero T : ¬ T == 0 → ¬ c * T == 0.
Proof. intros HT [Hc | Hz]%Qmult_integral; [lra | done]. Qed.

(** The probabilities do not depend on the unit. *)
Lemma probabilities_scale T d :
  ¬ T == 0 →
  dict_map_values (λ t, t / (c * T)) (scale_ledger c d) ≡
  dict_map_values (λ t, t / T) d.
Proof.
  intros HT. unfold scale_ledger, dict_map_values.
  induction d as [| [n t] d IH]; csimpl; constructor; [| done].
  split; simpl; [done |]. unfold equiv, Q_equiv. field. lra.
Qed.

(** The result of the reducer on the state in the smaller unit. *)
Lemma statistics_scale T s :
  outcome_rel (scaled_result c) (statistics T s)
    (statistics (c * T) (scale_state c s)).
Proof.
  destruct (decide (T == 0)) as [HT | HT].
  { rewrite !statistics_zero by (done || (rewrite HT; ring)). constructor. }
  pose proof (horizon_scale_nonzero T HT) as HcT.
  rewrite !statistics_nonzero by done. constructor. simpl.
  rewrite filter_completed_scale. split; simpl;
    rewrite ?length_fmap, ?py_sum_scale_customer, ?mean_scale_customer,
      ?add_partial_service_scale, ?weighted_time_scale
      by (apply system_time_scale || apply queue_time_scale
          || apply service_time_scale);
    try done; try (field; lra).
  apply dict_of_items_proper, probabilities_scale. done.
Qed.

Lemma statistics_scaled T s s' :
  scaled c s s' →
  outcome_rel (scaled_result c) (statistics T s) (statistics (c * T) s').
Proof.
  intros Hs.
  pose proof (statistics_proper (c * T) (c * T) (reflexivity _) _ _ Hs) as Hst.
  pose proof (statistics_scale T s) as Hsc.
  destruct Hst as [r' r1 Hr | e |]; inversion_clear Hsc; constructor.
  unfold scaled_result in *. by etrans.
Qed.

(** ** The call in the smaller unit *)

Section call.
Context {G : Type} `{SampleSource G}.

Lemma sim_rel_refl {A} (m : sim G A) : sim_rel eq m m.
Proof. intros w. destruct (m w) as [[a w1] | e |]; by constructor. Qed.

Lemma simulate_mm1_queue_scale fuel lam mu T seed :
  sim_rel (G := G) (scaled_result c)
    (simulate_mm1_queue fuel lam mu T seed)
    (simulate_mm1_queue fuel (lam / c) (mu / c) (c * T) seed).
Proof.
  unfold simulate_mm1_queue.
  eapply sim_rel_bind; [apply sim_rel_refl |]. intros _ _ _.
  eapply sim_rel_bind; [apply run_to_horizon_scale |]. intros s s' Hs.
  by apply sim_rel_lift, statistics_scaled.
Qed.

(** C22. Change of the unit of time.  For every [c > 0], the call with the
    rates divided by [c] and the horizon multiplied by [c], on the same
    seed, fuel and generator, raises the same exception as the call it is
    compared with, or runs out of fuel as it does, or returns with the
    generator in the same state a result with the same counts, the same
    utilization, mean lengths and state probabilities, and the total and
    mean times multiplied by [c] (all numbers compared as numbers). *)
Theorem change_of_time_unit fuel lam mu T seed :
  sim_rel (G := G) (scaled_result c)
    (simulate_mm1_queue fuel lam mu T seed)
    (simulate_mm1_queue fuel (lam / c) (mu / c) (c * T) seed).
Proof. apply simulate_mm1_queue_scale. Qed.

(** The events are the same: the state in which the run in the smaller
    unit reaches the reducer is the state of the other run, scaled. *)
Theorem same_events_in_smaller_unit fuel lam mu T w s w' :
  run_to_horizon fuel lam mu T w = Ok (s, w') →
  ∃ s', run_to_horizon fuel (lam / c) (mu / c) (c * T) w = Ok (s', w') ∧
    scaled c s s' ∧ length (customer_stats s') = length (customer_stats s) ∧
    current_state s' = current_state s.
Proof.
  intros Hrun.
  destruct (sim_rel_Ok _ _ _ _ _ _ (run_to_horizon_scale lam mu fuel T) Hrun)
    as (s' & Hrun' & Hs).
  exists s'. split_and!; [done.. | |].
  - rewrite (length_proper _ _ (equiv_customer_stats _ _ Hs)). simpl.
    by rewrite length_fmap.
  - by rewrite (equiv_current_state _ _ Hs).
Qed.

End call.

End scaling.

(** ** The mean times the driver prints

    Lines 153 and 154 print [average_system_time * 60] and
    [average_queue_time * 60]: they are the two mean times of the run with
    the rates per sixtieth of the unit of the arguments.  The totals of
    lines 150 to 152 are printed as they are, in the unit of the
    arguments. *)
Theorem printed_mean_times {G} `{SampleSource G} fuel lam mu T seed
    (w : world G) r w' :
  simulate_mm1_queue fuel lam mu T seed w = Ok (r, w') →
  ∃ r', simulate_mm1_queue fuel (lam / 60) (mu / 60) (60 * T) seed w = Ok (r', w') ∧
    average_system_time r * 60 == average_system_time r' ∧
    average_queue_time r * 60 == average_queue_time r' ∧
    total_system_time r * 60 == total_system_time r' ∧
    server_utilization r == server_utilization r'.
Proof.
  intros Hsim.
  destruct (sim_rel_Ok _ _ _ _ _ _
              (simulate_mm1_queue_scale 60 ltac:(done) fuel lam mu T seed) Hsim)
    as (r' & Hsim' & Hr).
  exists r'. split; [done |]. destruct Hr. simpl in *. split_and!; lra.
Qed.

(** ** On the recorded run *)

Lemma change_of_time_unit_witness :
  sim_rel (scaled_result 60)
    (@simulate_mm1_queue replay demo_source 10 2 (1 # 2) 3 (Some 42%Z))
    (@simulate_mm1_queue replay demo_source 10 (2 / 60) ((1 # 2) / 60) (60 * 3)
       (Some 42%Z)).
Proof. apply (change_of_time_unit 60); reflexivity. Defined.

(** The recorded run at rates 2 and 1/2 to the horizon 3, and in the unit
    sixty times smaller: three customers and two completed in both; a mean
    time in the system of 3/4 and of 45. *)
Example smaller_unit_evaluated :
  ∃ r w' r',
    @simulate_mm1_queue replay demo_source 10 2 (1 # 2) 3 (Some 42%Z) demo_world
      = Ok (r, w') ∧
    @simulate_mm1_queue replay demo_source 10 (2 / 60) ((1 # 2) / 60) (60 * 3)
      (Some 42%Z) demo_world = Ok (r', w') ∧
    total_customers r = 3%nat ∧ total_customers r' = 3%nat ∧
    completed_customers r = 2%nat ∧ completed_customers r' = 2%nat ∧
    average_system_time r == 3 # 4 ∧ average_system_time r' == 45 ∧
    server_utilization r == server_utilization r'.
Proof. eexists _, _, _. split_and!; vm_compute; reflexivity. Qed.
