(* ===== verification/Zeno.v ===== *)
(** * Runs that never reach the horizon

    [Termination.v] bounds the iterations of the loop when every variate
    is at least some [d > 0].  The interface of the generator only says
    that a variate is not negative, as the specification does of the
    durations of the sample source.  This file shows that the lower bound
    cannot be dropped.  When every variate is zero the first arrival is at
    time 0 and the next one is due at time 0 again; the comparison of line
    29 of [src/mm1_queue_simulation.py] gives a tie to the arrival, so the
    loop admits one customer after the other at time 0, never processes a
    departure and never leaves: the clock stays at 0, below every positive
    horizon.  In the model the call is [OutOfFuel] for every fuel, and
    every state at the head of the loop is at the origin. *)

From S2P Require Import Prelude PyRuntime XTime PyDict Sampler Engine Spec.
From S2P Require Import Invariants Stats Simulate.

#[local] Open Scope Q_scope.

(** The generator that returns zero for ever. *)
Definition zero_tape : replay := Replay [] (Fraction 0 1).
Definition zero_source : SampleSource replay := replay_source (λ _, zero_tape).

Section zeno.
Context {G : Type} `{SampleSource G}.
Variables arrival_rate service_rate : Q.
Hypothesis arrival_rate_pos : 0 < arrival_rate.
Hypothesis service_rate_pos : 0 < service_rate.

Implicit Types (s : sim_state) (w : world G) (g : G).

(** Every variate drawn from [g] on is zero. *)
Definition draws_zero g : Prop := ∀ n, variate n g == 0.

(** The states of the loop under such draws: the clock has not moved, the
    next arrival is due now and no departure is due before it. *)
Record at_origin s : Prop := {
  origin_clock : current_time s == 0;
  origin_arrival : next_arrival_time s == 0;
  origin_departure : xle (Fin 0) (next_departure_time s)
}.

Lemma draws_zero_next g : draws_zero g → draws_zero (standard_exponential g).2.
Proof. intros Hz n. rewrite <- variate_S. apply Hz. Qed.

(** A draw at a positive rate returns zero. *)
Lemma zero_draw rate w :
  0 < rate → draws_zero (numpy_rng w) →
  ∃ x w', exponential_of_rate rate w = Ok (x, w') ∧ x == 0 ∧
    draws_zero (numpy_rng w').
Proof.
  intros Hr Hz. eexists _, _. split; [by apply exponential_of_rate_Ok |]. split.
  - pose proof (Hz O) as H0. unfold variate in H0. simpl in H0. rewrite H0. ring.
  - by apply draws_zero_next.
Qed.

(** At the origin the tie of line 29 selects the arrival. *)
Lemma at_origin_arrival s : at_origin s → next_event s = Arrival.
Proof.
  intros [_ Ha Hd]. apply next_event_Arrival, xle_bool_iff.
  destruct (next_departure_time s); simpl in *; [lra | done].
Qed.

(** An iteration at the origin is an arrival and ends at the origin. *)
Lemma step_at_origin s w :
  at_origin s → draws_zero (numpy_rng w) →
  ∃ s' w', step arrival_rate service_rate s w = Ok (s', w') ∧
    at_origin s' ∧ draws_zero (numpy_rng w') ∧
    (length (customer_stats s') + length (queue s') =
     S (length (customer_stats s) + length (queue s)))%nat.
Proof.
  intros Hs Hz. unfold step. rewrite (at_origin_arrival s Hs).
  unfold process_arrival.
  destruct (zero_draw arrival_rate w arrival_rate_pos Hz)
    as (gap & w1 & Hgap & Hgap0 & Hz1).
  rewrite (sim_bind_eq _ _ _ _ _ Hgap). destruct Hs as [Hc Ha Hd].
  destruct (server_busy s); simpl.
  - eexists _, _. split; [reflexivity |].
    split_and!; [split; simpl; (lra || done) | done |].
    simpl. rewrite length_app. simpl. lia.
  - destruct (zero_draw service_rate w1 service_rate_pos Hz1)
      as (service & w2 & Hservice & Hservice0 & Hz2).
    rewrite (sim_bind_eq _ _ _ _ _ Hservice). eexists _, _.
    split; [reflexivity |]. split_and!; [split; simpl; lra | done |].
    simpl. rewrite length_app. simpl. lia.
Qed.

(** The loop does not leave, whatever the fuel. *)
Lemma event_loop_at_origin fuel T s w :
  0 < T → at_origin s → draws_zero (numpy_rng w) →
  event_loop arrival_rate service_rate fuel T s w = OutOfFuel.
Proof.
  intros HT. revert s w. induction fuel as [| fuel IH]; intros s w Hs Hz.
  - apply event_loop_O. destruct Hs. lra.
  - rewrite event_loop_S by (destruct Hs; lra).
    destruct (step_at_origin s w Hs Hz) as (s' & w' & Hstep & Hs' & Hz' & _).
    rewrite (sim_bind_eq _ _ _ _ _ Hstep). by apply IH.
Qed.

(** The initialisation is at the origin. *)
Lemma init_state_at_origin w :
  draws_zero (numpy_rng w) →
  ∃ s w', init_state arrival_rate w = Ok (s, w') ∧
    at_origin s ∧ draws_zero (numpy_rng w').
Proof.
  intros Hz.
  destruct (zero_draw arrival_rate w arrival_rate_pos Hz)
    as (first & w' & Hfirst & Hfirst0 & Hz').
  exists (initial_state first), w'.
  split_and!; [by apply init_state_eq | split; simpl; (lra || done) | done].
Qed.

Lemma run_to_horizon_at_origin fuel T w :
  0 < T → draws_zero (numpy_rng w) →
  run_to_horizon fuel arrival_rate service_rate T w = OutOfFuel.
Proof.
  intros HT Hz. unfold run_to_horizon.
  destruct (init_state_at_origin w Hz) as (s & w' & Hinit & Hs & Hz').
  rewrite (sim_bind_eq _ _ _ _ _ Hinit). unfold mbind, sim_bind.
  by rewrite event_loop_at_origin.
Qed.

(** C16. The loop need not terminate.  At positive rates, with a seed
    that numpy accepts and a
    positive horizon, on a generator whose variates are all zero (which
    the interface allows, a variate being only required not to be
    negative), the call does not return: whatever the fuel the loop is
    still running when it is used up.  Every iteration is an arrival at
    time 0, after which the clock is still 0, the next arrival is due at 0
    and one more customer is recorded or waiting. *)
Theorem zero_draws_never_return fuel T seed w :
  seed_ok seed → 0 < T → draws_zero (numpy_rng (seeded_world seed w)) →
  simulate_mm1_queue fuel arrival_rate service_rate T seed w = OutOfFuel ∧
  ∀ s w1, at_origin s → draws_zero (numpy_rng w1) →
    ∃ s' w', step arrival_rate service_rate s w1 = Ok (s', w') ∧
      next_event s = Arrival ∧ current_time s' < T ∧
      at_origin s' ∧ draws_zero (numpy_rng w') ∧
      (length (customer_stats s') + length (queue s') =
       S (length (customer_stats s) + length (queue s)))%nat.
Proof.
  intros Hseed HT Hz. split.
  - rewrite simulate_unfold by done. unfold mbind, sim_bind.
    by rewrite run_to_horizon_at_origin.
  - intros s w1 Hs Hz1.
    destruct (step_at_origin s w1 Hs Hz1) as (s' & w' & Hstep & Hs' & Hz' & Hgrow).
    exists s', w'. split_and!; [done | by apply at_origin_arrival | | done..].
    destruct Hs'. lra.
Qed.

End zeno.

(** ** On the generator that returns zero *)

Lemma zero_tape_draws_zero : @draws_zero replay zero_source zero_tape.
Proof.
  intros n. unfold variate, zero_tape.
  by rewrite (replay_advance_fallback (λ _, zero_tape)).
Qed.

(** At the rates 2 and 1/2 with the horizon 3 and a thousand iterations. *)
Lemma zero_draws_never_return_witness :
  @simulate_mm1_queue replay zero_source 1000 2 (1 # 2) 3 (Some 42%Z)
    (World zero_tape None) = OutOfFuel ∧
  ∀ s w1, at_origin s → @draws_zero replay zero_source (numpy_rng w1) →
    ∃ s' w', @step replay zero_source 2 (1 # 2) s w1 = Ok (s', w') ∧
      next_event s = Arrival ∧ current_time s' < 3 ∧
      at_origin s' ∧ @draws_zero replay zero_source (numpy_rng w') ∧
      (length (customer_stats s') + length (queue s') =
       S (length (customer_stats s) + length (queue s)))%nat.
Proof.
  apply (@zero_draws_never_return replay zero_source 2 (1 # 2));
    [reflexivity | reflexivity | by vm_compute | reflexivity
    | apply zero_tape_draws_zero].
Defined.

(** The same call evaluated on ten iterations. *)
Example zero_draws_evaluated :
  @simulate_mm1_queue replay zero_source 10 2 (1 # 2) 3 (Some 42%Z)
    (World zero_tape None) = OutOfFuel.
Proof. vm_compute. reflexivity. Qed.
