(* ===== verification/Overlap.v ===== *)
(** * The ledger is a function of the records

    [Little.v] shows that two weighted sums of the ledger [state_time] are
    totals of the times in the records.  This file shows that the records
    determine the whole ledger.  For a distance [j], the time that a
    customer and the [j]-th customer after it spend together in the system,
    summed over the customers, is the sum of the ledger weighted by the
    number of customers above [j]: while [n] customers are present, [n - j]
    such pairs are.  The distances 0 and 1 are the two sums of [Little.v].
    The second difference of these totals is the time spent with exactly
    [n] customers, so every entry of the ledger, and every probability the
    reducer returns, is computed from the arrival and departure times
    alone, up to the time that the final update of line 78 charges to the
    population after the last event.  Cut at the horizon, the same times
    give the ledger closed at the horizon of [Overshoot.v]. *)

From S2P Require Import Prelude PyRuntime XTime PyDict Sampler Engine Spec.
From S2P Require Import Invariants Stats Simulate Busy Fifo Little Overshoot.

#[local] Open Scope Q_scope.

(** ** The reference *)

(** The time from the arrival [a] of a customer to the moment [d] an
    earlier one leaves, when the first is before the second. *)
Definition together (d a : Q) : Q := Qmax 0 (d - a).

(** The customers that entered, the last one first: the moment each left
    the system, or [t] for those still there at [t] ... *)
Definition left_by (t : Q) (stats : list customer) (line : list Q) : list Q :=
  replicate (length line) t ++
  reverse ((λ c, Qmin (departure_time c) t) <$> stats).

(** ... and the moment each arrived. *)
Definition entered (stats : list customer) (line : list Q) : list Q :=
  reverse ((arrival_time <$> stats) ++ line).

(** The time customers at distance [j] spend together: each customer is
    paired with the one that entered [j] places before it. *)
Definition shared (j : nat) (leaves arrivals : list Q) : Q :=
  py_sum (zip_with together (drop j leaves) arrivals).

Definition overlap_at (j : nat) (t : Q) (stats : list customer) (line : list Q) : Q :=
  shared j (left_by t stats line) (entered stats line).

Definition overlap (j : nat) (s : sim_state) : Q :=
  overlap_at j (current_time s) (customer_stats s) (queue s).

(** The number of customers above [j] among [n]. *)
Definition above (j : nat) (n : Z) : Z := Z.max 0 (n - Z.of_nat j).

(** The time spent with exactly [n] customers, from the total time and
    the times [W j] spent with pairs at distance [j]: the second
    difference of [W], and the rest of the time for the empty system. *)
Definition level_entry (total : Q) (W : nat → Q) (n : nat) : Q :=
  match n with
  | O => total - (W 0%nat - W 1%nat)
  | S j => W j - 2 * W (S j) + W (S (S j))
  end.

(** The time spent with exactly [n] customers in the system, from the
    times of the customers. *)
Definition level_time (n : nat) (s : sim_state) : Q :=
  level_entry (current_time s) (λ j, overlap j s) n.

(** The weight that selects the population [n]. *)
Definition at_level (n : nat) (k : Z) : Z :=
  if decide (k = Z.of_nat n) then 1 else 0.

(** The time spent with exactly [n] customers before the horizon [T],
    from the times of the customers: a customer that has not left by [T]
    counts up to [T], and one that arrives after [T] does not count. *)
Definition horizon_time (T : Q) (n : nat) (s : sim_state) : Q :=
  level_entry T (λ j, overlap_at j T (customer_stats s) (queue s)) n.

(** The invariant: at every distance the weighted sum of the ledger is the
    time spent together. *)
Definition level_inv (s : sim_state) : Prop :=
  ∀ j, weighted_time (above j) (state_time s) == overlap j s.

(** The customers whose service is over. *)
Definition served (s : sim_state) : list customer :=
  if server_busy s then removelast (customer_stats s) else customer_stats s.

(** A run at unit rates in which customers wait: arrivals at 1, 2, 3 and
    7, services of 3, 1 and 2. *)
Definition crowded_tape : replay :=
  Replay [Fraction 1 1; Fraction 1 1; Fraction 3 1; Fraction 1 1;
          Fraction 4 1; Fraction 1 1; Fraction 2 1; Fraction 1 1] (Fraction 1 1).

Definition crowded_source : SampleSource replay :=
  replay_source (λ _, crowded_tape).

(** Its last state and its result with the horizon 6. *)
Definition crowded_run : sim_state * world replay := Eval vm_compute in
  match @run_to_horizon replay crowded_source 10 1 1 6
          (@seeded_world replay crowded_source (Some 42%Z) demo_world) with
  | Ok sw => sw
  | _ => (initial_state 0, demo_world)
  end.

Definition crowded_result : sim_result := Eval vm_compute in
  match statistics 6 crowded_run.1 with
  | Ok r => r
  | _ => SimResult 0 0 0 0 0 0 0 0 0 0 []
  end.

(** ** Pairs of customers *)

Lemma together_past d a : d <= a → together d a == 0.
Proof. intros Hd. unfold together. rewrite Q.max_l by lra. done. Qed.

Lemma together_present d a : a <= d → together d a == d - a.
Proof. intros Hd. unfold together. rewrite Q.max_r by lra. done. Qed.

#[export] Instance together_proper : Proper (Qeq ==> Qeq ==> Qeq) together.
Proof.
  intros d d' Hd a a' Ha. unfold together.
  destruct (Qlt_le_dec (d - a) 0).
  - rewrite !Q.max_l by lra. done.
  - rewrite !Q.max_r by lra. lra.
Qed.

Lemma zip_together_proper (l l' arrivals : list Q) :
  Forall2 Qeq l l' →
  Forall2 Qeq (zip_with together l arrivals) (zip_with together l' arrivals).
Proof.
  intros Hl. revert arrivals.
  induction Hl as [| d d' l l' Hd _ IH]; intros [| a arrivals]; simpl;
    constructor; [by rewrite Hd | apply IH].
Qed.

Lemma shared_proper j (l l' arrivals : list Q) :
  Forall2 Qeq l l' → shared j l arrivals == shared j l' arrivals.
Proof.
  intros Hl. unfold shared.
  apply py_sum_proper, zip_together_proper, Forall2_drop, Hl.
Qed.

Lemma shared_nil j arrivals : shared j [] arrivals = 0.
Proof. unfold shared. by rewrite drop_nil. Qed.

(** A customer that enters at [now], when all the others entered and those
    that left did so by [now], has spent no time with anyone. *)
Lemma shared_enter j x leaves now arrivals :
  Forall (λ d, d <= now) (x :: leaves) →
  shared j (x :: leaves) (now :: arrivals) == shared j leaves arrivals.
Proof.
  intros [Hx Hl]%Forall_cons. unfold shared. destruct j as [| j]; simpl.
  - rewrite py_sum_cons, together_past, drop_0 by done. lra.
  - destruct (leaves !! j) as [d |] eqn:Hd.
    + rewrite (drop_S _ _ _ Hd). simpl.
      rewrite py_sum_cons, together_past; [lra |].
      by apply (Forall_lookup_1 _ _ _ _ Hl Hd).
    + apply lookup_ge_None in Hd. rewrite !drop_ge by lia. done.
Qed.

(** The customers present accrue the time that passes, with each of the
    customers that entered after them. *)
Lemma present_accrue n t t' gone arrivals :
  t <= t' → Forall (λ a, a <= t) arrivals → (n ≤ length arrivals)%nat →
  py_sum (zip_with together (replicate n t' ++ gone) arrivals) ==
  py_sum (zip_with together (replicate n t ++ gone) arrivals)
    + inject_Z (Z.of_nat n) * (t' - t).
Proof.
  intros Ht. revert arrivals.
  induction n as [| n IH]; intros arrivals Ha Hn; simpl.
  { change (inject_Z (Z.of_nat 0)) with 0. lra. }
  destruct arrivals as [| a arrivals]; simpl in Hn; [lia |].
  apply Forall_cons in Ha as [Ha Harr]. simpl.
  rewrite !py_sum_cons, IH, !together_present by (done || lia || lra).
  rewrite Nat2Z.inj_succ. unfold Z.succ. rewrite inject_Z_succ. ring.
Qed.

Lemma shared_accrue j n t t' gone arrivals :
  t <= t' → Forall (λ a, a <= t) arrivals → (n ≤ length arrivals)%nat →
  shared j (replicate n t' ++ gone) arrivals ==
  shared j (replicate n t ++ gone) arrivals
    + inject_Z (Z.of_nat (n - j)) * (t' - t).
Proof.
  intros Ht Ha Hn. unfold shared.
  rewrite !drop_app, !drop_replicate, !length_replicate.
  apply present_accrue; [done.. | lia].
Qed.

(** ** The customers that entered *)

(** Nobody has left after [t] by [t]. *)
Lemma left_by_past t stats line : Forall (λ d, d <= t) (left_by t stats line).
Proof.
  unfold left_by. apply Forall_app. split.
  - apply Forall_replicate. lra.
  - apply Forall_reverse, Forall_fmap, Forall_forall. intros c _. simpl.
    apply Q.le_min_r.
Qed.

(** The customers whose service is over left when they departed. *)
Lemma departed_left t (stats : list customer) :
  Forall (λ c, departure_time c <= t) stats →
  Forall2 Qeq (reverse ((λ c, Qmin (departure_time c) t) <$> stats))
    (reverse (departure_time <$> stats)).
Proof.
  intros Hd. apply Forall2_reverse, Forall2_fmap, Forall_Forall2_diag.
  eapply Forall_impl; [exact Hd |]. intros c Hc. simpl. by rewrite Q.min_l.
Qed.

(** The customer that starts service at or after [t] leaves the line for
    the records. *)
Lemma overlap_at_start_service j t stats a start line service :
  t <= start → 0 <= service →
  overlap_at j t (stats ++ [Customer a start (start + service)]) line ==
  overlap_at j t stats (a :: line).
Proof.
  intros Ht Hsvc. unfold overlap_at, entered, left_by.
  rewrite !fmap_app, <- app_assoc, reverse_app. simpl.
  rewrite app_comm_cons, replicate_cons_app, <- app_assoc. simpl.
  apply shared_proper, Forall2_app; [done |].
  constructor; [by rewrite Q.min_r by lra | done].
Qed.

(** The customer that joins the line at or after [t] has spent no time
    with anyone by [t]. *)
Lemma overlap_at_join j t stats line a :
  t <= a → overlap_at j t stats (line ++ [a]) == overlap_at j t stats line.
Proof.
  intros Ht. unfold overlap_at, entered, left_by.
  rewrite app_assoc, reverse_snoc, length_app, Nat.add_1_r. simpl.
  apply shared_enter, Forall_cons. split; [done |].
  eapply Forall_impl; [apply left_by_past |]. intros d Hd. simpl in *. lra.
Qed.

(** An event at or after [t] changes nothing to the time spent together
    by [t]. *)
Lemma transition_keeps_overlap t s s' j :
  population_inv s → transition s s' → t <= current_time s' →
  overlap_at j t (customer_stats s') (queue s') ==
  overlap_at j t (customer_stats s) (queue s).
Proof.
  intros Hp [gap service Hev Hidle Hgap Hsvc | gap Hev Hbusy Hgap
            | now arrival waiting service Hev Hq Hsvc | now Hev Hq]; simpl;
    intros Ht.
  - rewrite (population_idle s Hp Hidle), overlap_at_start_service by done.
    by apply (overlap_at_join j t _ []).
  - by apply overlap_at_join.
  - rewrite Hq. by apply overlap_at_start_service.
  - by rewrite Hq.
Qed.

(** ** Between two events *)

Section accrual.
Variables (s : sim_state) (t' : Q).
Hypotheses (Hc : clock_inv s) (Hp : population_inv s) (Hs : service_inv s)
  (Hf : fifo_inv s).
Hypotheses (Hlater : current_time s <= t')
  (Hbefore : xle (Fin t') (next_departure_time s)).

(** Until the next departure the customers in the system are the last
    [current_state] that entered, and the others left when their service
    ended. *)
Lemma present_are_last t :
  current_time s <= t → t <= t' →
  Forall2 Qeq (left_by t (customer_stats s) (queue s))
    (replicate (Z.to_nat (current_state s)) t ++
     reverse (departure_time <$> served s)).
Proof.
  intros Ht Ht'. rewrite (population_count s Hp). unfold in_system, left_by, served.
  destruct Hs as [Hch Hcur Hidle]. destruct (server_busy s) eqn:Hbusy.
  - destruct (Hcur eq_refl) as (prev & c & Heq & Hstart & Hnext).
    rewrite Hnext in Hbefore. simpl in Hbefore.
    rewrite Heq in Hch |- *. apply chained_snoc_inv in Hch as (Hprev & Hlast & _).
    rewrite removelast_last, fmap_app, reverse_app. simpl.
    replace (Z.to_nat (Z.of_nat (length (queue s)) + 1))
      with (S (length (queue s))) by lia.
    rewrite replicate_S_end, <- app_assoc. apply Forall2_app; [done |].
    simpl. constructor; [by rewrite Q.min_r by lra |].
    apply departed_left, chained_departed; [done |]. rewrite Hstart in Hlast.
    pose proof (clock_start s Hc). lra.
  - rewrite (population_idle s Hp) by done. simpl.
    apply departed_left, chained_departed; [done |]. specialize (Hidle eq_refl). lra.
Qed.

(** All of them have entered. *)
Lemma present_entered :
  (Z.to_nat (current_state s) ≤ length (entered (customer_stats s) (queue s)))%nat.
Proof.
  rewrite (population_count s Hp). unfold in_system, entered.
  rewrite length_reverse, length_app, length_fmap.
  destruct (server_busy s) eqn:Hbusy; [| lia].
  destruct (service_current s Hs Hbusy) as (prev & c & -> & _).
  rewrite length_app. simpl. lia.
Qed.

(** At every distance the pairs present accrue the time that passes. *)
Lemma overlap_accrues j :
  overlap_at j t' (customer_stats s) (queue s) ==
  overlap j s + inject_Z (above j (current_state s)) * (t' - current_time s).
Proof.
  unfold overlap, overlap_at.
  rewrite (shared_proper j _ _ _ (present_are_last t' Hlater ltac:(lra))).
  rewrite (shared_proper j _ _ _ (present_are_last (current_time s) ltac:(lra) Hlater)).
  rewrite (shared_accrue j _ (current_time s) t'); [| done | | apply present_entered].
  - replace (Z.of_nat (Z.to_nat (current_state s) - j))
      with (above j (current_state s)) by (unfold above; lia). done.
  - apply Forall_reverse, (fifo_past s Hf).
Qed.

End accrual.

(** ** The invariant *)

(** The ledger closed at a time [t] before the next event is the time
    spent together by [t]. *)
Lemma ledger_at_levels s s' t j :
  clock_inv s → population_inv s → service_inv s → fifo_inv s → level_inv s →
  transition s s' → current_time s <= t → t <= current_time s' →
  weighted_time (above j) (ledger_at s t) ==
  overlap_at j t (customer_stats s) (queue s).
Proof.
  intros Hc Hp Hs Hf Hl Ht Hlo Hhi.
  pose proof (xle_Fin_trans _ _ _ Hhi (transition_before_departure s s' Ht))
    as Hbefore.
  unfold ledger_at. rewrite weighted_time_add, overlap_accrues by done.
  by rewrite (clock_last_event s Hc), (Hl j).
Qed.

Lemma level_invariant :
  invariant_under
    (λ s, clock_inv s ∧ population_inv s ∧ service_inv s ∧ fifo_inv s) level_inv.
Proof.
  split.
  - intros s [first Hfirst] j. unfold overlap, overlap_at. simpl.
    rewrite shared_nil, weighted_time_cons, weighted_time_nil. ring.
  - intros s s' (Hc & Hp & Hs & Hf) Hl Ht j.
    pose proof (transition_time_mono s s' Hc Ht) as Hlater.
    destruct (transition_ledger s s' Ht) as (-> & _ & _).
    rewrite (ledger_at_levels s s') by (done || lra).
    symmetry. apply transition_keeps_overlap; [done.. | lra].
Qed.

Lemma valid_level_inv s : valid s → level_inv s.
Proof.
  apply (invariant_valid _ _ level_invariant). intros s' Hs'.
  split_and!; [by apply valid_clock_inv | by apply valid_population_inv
              | by apply valid_service_inv | by apply valid_fifo_inv].
Qed.

(** ** Weighted sums of a ledger *)

Section weights.
Implicit Types (d : list (Z * Q)) (w : Z → Z).

Lemma weighted_time_ext w w' d :
  (∀ k, k ∈ dict_keys d → w k = w' k) → weighted_time w d == weighted_time w' d.
Proof.
  induction d as [| [k v] d IH]; intros Hw; [done |].
  rewrite !weighted_time_cons, (Hw k) by apply list_elem_of_here.
  rewrite IH; [done |]. intros k' Hin. by apply Hw, list_elem_of_further.
Qed.

Lemma weighted_time_plus w w' d :
  weighted_time (λ k, w k + w' k)%Z d == weighted_time w d + weighted_time w' d.
Proof.
  induction d as [| [k v] d IH]; [done |].
  rewrite !weighted_time_cons, IH, inject_Z_plus. ring.
Qed.

Lemma weighted_time_times a w d :
  weighted_time (λ k, a * w k)%Z d == inject_Z a * weighted_time w d.
Proof.
  induction d as [| [k v] d IH]; [rewrite !weighted_time_nil; ring |].
  rewrite !weighted_time_cons, IH, inject_Z_mult. ring.
Qed.

Lemma weighted_time_one d : weighted_time (λ _, 1%Z) d == py_sum (dict_values d).
Proof.
  induction d as [| [k v] d IH]; [done |].
  rewrite weighted_time_cons, IH. unfold dict_values. rewrite fmap_cons, py_sum_cons.
  simpl. change (inject_Z 1) with 1. ring.
Qed.

(** The weight that selects a population reads its entry. *)
Lemma weighted_time_at_level d n :
  dict_wf d → weighted_time (at_level n) d == dict_get d (Z.of_nat n) 0.
Proof.
  induction d as [| [k v] d IH]; intros Hwf; [done |].
  apply NoDup_cons in Hwf as [Hk Hwf]. rewrite weighted_time_cons, IH by done.
  unfold at_level. simpl. destruct (decide (Z.of_nat n = k)) as [<- | Hne].
  - rewrite decide_True, dict_get_not_mem by done. change (inject_Z 1) with 1. ring.
  - rewrite decide_False by done. change (inject_Z 0) with 0. ring.
Qed.

End weights.

(** ** From the pairs to the populations *)

(** With exactly [n] customers there is one pair more at the distance
    [n - 1] than the pairs at the distances [n] and [n + 1] account for. *)
Lemma above_second_difference j k :
  at_level (S j) k = (above j k + (-2 * above (S j) k + above (S (S j)) k))%Z.
Proof. unfold at_level, above. case_decide; lia. Qed.

Lemma above_first_difference k :
  (0 <= k)%Z → at_level 0 k = (1 + (-1 * above 0 k + above 1 k))%Z.
Proof. unfold at_level, above. case_decide; lia. Qed.

Lemma level_entry_ext total total' W W' n :
  total == total' → (∀ j, W j == W' j) →
  level_entry total W n == level_entry total' W' n.
Proof. intros Ht HW. destruct n; simpl; rewrite ?Ht, !HW; done. Qed.

(** Charging [x] to the population [N] adds [x] to its entry alone. *)
Lemma level_entry_charge total W n N x :
  (0 <= N)%Z →
  level_entry (total + x) (λ j, W j + inject_Z (above j N) * x) n ==
  level_entry total W n + inject_Z (at_level n N) * x.
Proof.
  intros HN. destruct n as [| j]; simpl.
  - rewrite above_first_difference, !inject_Z_plus, inject_Z_mult by done.
    change (inject_Z 1) with 1. change (inject_Z (-1)) with (- (1)). ring.
  - rewrite above_second_difference, !inject_Z_plus, inject_Z_mult.
    change (inject_Z (-2)) with (- (2)). ring.
Qed.

(** Every entry of a ledger is the second difference of its weighted
    sums. *)
Lemma entry_from_levels (d : list (Z * Q)) n :
  dict_wf d → (∀ k, k ∈ dict_keys d → (0 <= k)%Z) →
  dict_get d (Z.of_nat n) 0 ==
  level_entry (py_sum (dict_values d)) (λ j, weighted_time (above j) d) n.
Proof.
  intros Hwf Hk. rewrite <- weighted_time_at_level by done.
  destruct n as [| j]; simpl.
  - rewrite (weighted_time_ext _ (λ k, 1 + (-1 * above 0 k + above 1 k))%Z)
      by (intros k Hin; apply above_first_difference, Hk, Hin).
    rewrite !weighted_time_plus, weighted_time_times, weighted_time_one.
    change (inject_Z (-1)) with (- (1)). ring.
  - rewrite (weighted_time_ext _
               (λ k, above j k + (-2 * above (S j) k + above (S (S j)) k))%Z)
      by (intros k _; apply above_second_difference).
    rewrite !weighted_time_plus, weighted_time_times.
    change (inject_Z (-2)) with (- (2)). ring.
Qed.

(** At the head of every iteration each entry of the ledger is the time
    spent with that many customers according to the records. *)
Lemma ledger_from_records s n :
  valid s → dict_get (state_time s) (Z.of_nat n) 0 == level_time n s.
Proof.
  intros Hv. destruct (valid_ledger_inv s Hv) as [Hwf Htotal _ Hkeys _ _].
  rewrite entry_from_levels by done. apply level_entry_ext.
  - by rewrite Htotal, (clock_last_event s (valid_clock_inv s Hv)).
  - apply valid_level_inv, Hv.
Qed.

(** ** The returned probabilities *)

(** Line 78 charges the time from the last event to the horizon to the
    pairs present after the last event. *)
Lemma final_update_levels T s j :
  clock_inv s → level_inv s →
  weighted_time (above j) (state_time (final_update T s)) ==
  overlap j s + inject_Z (above j (current_state s)) * (T - current_time s).
Proof.
  intros Hc Hl. simpl. unfold ledger_at.
  by rewrite weighted_time_add, (clock_last_event s Hc), (Hl j).
Qed.

(** The division of line 106 entry by entry. *)
Lemma dict_get_probability (T : Q) (d : list (Z * Q)) k :
  dict_get (dict_map_values (λ t, t / T) d) k 0 == dict_get d k 0 / T.
Proof.
  induction d as [| [k' v] d IH]; simpl.
  - unfold Qdiv. ring.
  - destruct (decide (k = k')); [done | apply IH].
Qed.

Section run.
Context {G : Type} `{SampleSource G}.

Lemma run_to_horizon_levels fuel lam mu T (w : world G) s w' :
  run_to_horizon fuel lam mu T w = Ok (s, w') →
  T <= current_time s ∧ (0 <= current_state s)%Z ∧
  ∀ j, weighted_time (above j) (state_time s) ==
       overlap j s + inject_Z (above j (current_state s)) * (T - current_time s).
Proof.
  intros (s1 & Hreach%reachable_valid & Hexit & ->)%run_to_horizon_Ok.
  split_and!; [done | |].
  - simpl. rewrite (population_count s1 (valid_population_inv s1 Hreach)).
    unfold in_system. destruct (server_busy s1); lia.
  - intros j. apply (final_update_levels T s1);
      [by apply valid_clock_inv | by apply valid_level_inv].
Qed.

(** Every entry of the ledger that reaches the reducer is the time spent
    with that many customers according to the records, and the charge of
    line 78 for the population after the last event. *)
Lemma run_to_horizon_entries fuel lam mu T (w : world G) s w' n :
  run_to_horizon fuel lam mu T w = Ok (s, w') →
  dict_get (state_time s) (Z.of_nat n) 0 ==
  level_time n s + inject_Z (at_level n (current_state s)) * (T - current_time s).
Proof.
  intros Hrun.
  destruct (run_to_horizon_ledger _ _ _ _ _ _ _ Hrun) as [Hwf Htotal].
  destruct (run_to_horizon_shape _ _ _ _ _ _ _ Hrun) as [[_ Hkeys _ _] _].
  destruct (run_to_horizon_levels _ _ _ _ _ _ _ Hrun) as (_ & Hcount & Hlevels).
  rewrite entry_from_levels by done. unfold level_time.
  rewrite <- level_entry_charge by done. apply level_entry_ext; [| done].
  rewrite Htotal. ring.
Qed.

(** C17. The records determine the distribution.  In every returned
    result, for every distance [j], the sum of the ledger weighted by the
    number of customers above [j] is the time that customers [j] places
    apart in the order of arrival spent together in the system up to the
    last event; and for every [n] the probability of the population [n]
    times the horizon is the second difference of these times at [n],
    computed from the arrival and departure times alone.  Both are up to
    the time from the horizon to the last event, which line 78 charges to
    the population after the last event. *)
Theorem probabilities_from_records fuel lam mu T seed (w : world G) r w' :
  simulate_mm1_queue fuel lam mu T seed w = Ok (r, w') →
  ∃ s, run_to_horizon fuel lam mu T (seeded_world seed w) = Ok (s, w') ∧
    T <= current_time s ∧
    (∀ j, weighted_time (above j) (state_time s) ==
          overlap j s
            + inject_Z (above j (current_state s)) * (T - current_time s)) ∧
    ∀ n, dict_get (state_probabilities r) (Z.of_nat n) 0 * T ==
         level_time n s
           + inject_Z (at_level n (current_state s)) * (T - current_time s).
Proof.
  intros Hsim. pose proof (simulate_Ok_horizon _ _ _ _ _ _ _ _ Hsim) as HT.
  apply simulate_Ok_result in Hsim as (s & Hrun & -> & _). exists s.
  destruct (run_to_horizon_levels _ _ _ _ _ _ _ Hrun) as (Hexit & _ & Hlevels).
  split_and!; [done.. |]. intros n.
  rewrite dict_get_probability, Qdiv_mult_cancel by done.
  by apply run_to_horizon_entries with (1 := Hrun).
Qed.

End run.

(** On the run in which customers wait, with the horizon 6: the last
    event is the arrival at 7. *)
Lemma probabilities_from_records_witness :
  ∃ r w' s,
    @simulate_mm1_queue replay crowded_source 10 1 1 6 (Some 42%Z) demo_world
      = Ok (r, w') ∧
    @run_to_horizon replay crowded_source 10 1 1 6
      (@seeded_world replay crowded_source (Some 42%Z) demo_world) = Ok (s, w') ∧
    6 <= current_time s ∧
    (∀ j, weighted_time (above j) (state_time s) ==
          overlap j s
            + inject_Z (above j (current_state s)) * (6 - current_time s)) ∧
    ∀ n, dict_get (state_probabilities r) (Z.of_nat n) 0 * 6 ==
         level_time n s
           + inject_Z (at_level n (current_state s)) * (6 - current_time s).
Proof.
  destruct (@probabilities_from_records replay crowded_source 10 1 1 6
              (Some 42%Z) demo_world _ _ eq_refl) as (s & Hrun & Hrest).
  eexists _, _, s. done.
Defined.

(** On that run the customers spend 10 units of time in the system, 4
    with the next customer and 1 with the one after it; so the system is
    empty for 1 unit of time and holds one, two and three customers for 3,
    2 and 1, up to the arrival at 7.  That arrival finds one customer; the
    final update takes the unit of time from the horizon to 7 from the
    population 2, and the population 1 keeps it. *)
Example crowded_run_evaluated :
  @run_to_horizon replay crowded_source 10 1 1 6
    (@seeded_world replay crowded_source (Some 42%Z) demo_world) = Ok crowded_run ∧
  @simulate_mm1_queue replay crowded_source 10 1 1 6 (Some 42%Z) demo_world
    = Ok (crowded_result, crowded_run.2) ∧
  (overlap 0 crowded_run.1 == 10 ∧ overlap 1 crowded_run.1 == 4 ∧
   overlap 2 crowded_run.1 == 1 ∧ overlap 3 crowded_run.1 == 0) ∧
  (level_time 0 crowded_run.1 == 1 ∧ level_time 1 crowded_run.1 == 3 ∧
   level_time 2 crowded_run.1 == 2 ∧ level_time 3 crowded_run.1 == 1) ∧
  current_state crowded_run.1 = 2%Z ∧ current_time crowded_run.1 == 7 ∧
  dict_get (state_probabilities crowded_result) 1%Z 0 * 6 == 3 ∧
  dict_get (state_probabilities crowded_result) 2%Z 0 * 6 == 1.
Proof. split_and!; vm_compute; reflexivity. Qed.

(** ** At the horizon

    The records that a run returns also give the distribution at the
    horizon itself: the times of the customers cut at the horizon are the
    ledger closed at the horizon before the event that crosses it, which is
    the ledger the specification describes ([Overshoot.v]). *)

Section crossing.
Variables (T : Q) (s s' : sim_state).
Hypotheses (Hv : valid s) (Ht : transition s s').
Hypotheses (Hlo : current_time s <= T) (Hhi : T <= current_time s').

Lemma intended_ledger_levels j :
  weighted_time (above j) (intended_ledger T s) ==
  overlap_at j T (customer_stats s') (queue s').
Proof.
  unfold intended_ledger. rewrite (ledger_at_levels s s');
    [| by apply valid_clock_inv | by apply valid_population_inv
     | by apply valid_service_inv | by apply valid_fifo_inv
     | by apply valid_level_inv | done..].
  symmetry. by apply transition_keeps_overlap; [apply valid_population_inv | |].
Qed.

(** Every entry of the ledger closed at the horizon is the time spent
    with that many customers before the horizon according to the records
    after the crossing event. *)
Lemma intended_ledger_entry n :
  dict_get (intended_ledger T s) (Z.of_nat n) 0 == horizon_time T n s'.
Proof.
  destruct (valid_ledger_inv s Hv) as [Hwf Htotal _ Hkeys _ _].
  unfold horizon_time. rewrite entry_from_levels.
  - apply level_entry_ext; [by apply ledger_at_total | apply intended_ledger_levels].
  - by apply ledger_at_wf.
  - intros k [-> | Hk]%ledger_at_keys; [| by apply Hkeys].
    by apply population_nonneg, valid_population_inv.
Qed.

(** These times are not negative. *)
Lemma horizon_time_nonneg n : 0 <= horizon_time T n s'.
Proof.
  rewrite <- intended_ledger_entry. unfold intended_ledger, ledger_at.
  apply (dict_get_Forall (Qle 0)); [lra |].
  apply dict_add_nonneg; [| apply (ledger_nonneg s), valid_ledger_inv, Hv].
  rewrite (clock_last_event s (valid_clock_inv s Hv)). lra.
Qed.

End crossing.

Section horizon.
Context {G : Type} `{SampleSource G}.

(** C24. The distribution at the horizon.  In every result returned for a
    positive horizon, the times of the returned records and of the line,
    cut at the horizon, give for every [n] the time spent with exactly [n]
    customers before the horizon: it is not negative, it is the entry of
    the ledger closed at the horizon before the event that crosses it, and
    the probability returned for [n], times the horizon, is that time plus
    the overshoot for the population before the crossing event and less
    the overshoot for the population after it. *)
Theorem distribution_at_horizon fuel lam mu T seed (w : world G) r w' :
  0 < T →
  simulate_mm1_queue fuel lam mu T seed w = Ok (r, w') →
  ∃ s_prev s_last,
    transition s_prev s_last ∧ current_time s_prev < T ∧ T <= current_time s_last ∧
    run_to_horizon fuel lam mu T (seeded_world seed w) =
      Ok (final_update T s_last, w') ∧
    ∀ n, 0 <= horizon_time T n s_last ∧
      dict_get (intended_ledger T s_prev) (Z.of_nat n) 0 == horizon_time T n s_last ∧
      dict_get (state_probabilities r) (Z.of_nat n) 0 * T ==
        horizon_time T n s_last
          + charge (Z.of_nat n) (current_state s_prev) (overshoot T s_last)
          - charge (Z.of_nat n) (current_state s_last) (overshoot T s_last).
Proof.
  intros HT Hsim. apply simulate_Ok_result in Hsim as (s & Hrun & -> & _).
  destruct (run_to_horizon_crossing _ _ _ _ _ _ _ HT Hrun)
    as (s_prev & w_prev & s_last & Hreach%reachable_valid & Hlt
        & Hstep%step_refines & Hexit & ->).
  exists s_prev, s_last. split_and!; try done. intros n.
  pose proof (intended_ledger_entry T s_prev s_last Hreach Hstep ltac:(lra) Hexit n)
    as Hentry.
  split_and!; [by apply (horizon_time_nonneg T s_prev); [| | lra |] | done |].
  rewrite dict_get_probability, Qdiv_mult_cancel by lra.
  by rewrite (crossing_ledger T s_prev s_last), Hentry by done.
Qed.

End horizon.

(** On the run in which customers wait, with the horizon 6, which the
    arrival at 7 crosses. *)
Lemma distribution_at_horizon_witness :
  ∃ r w' s_prev s_last,
    @simulate_mm1_queue replay crowded_source 10 1 1 6 (Some 42%Z) demo_world
      = Ok (r, w') ∧
    transition s_prev s_last ∧ current_time s_prev < 6 ∧ 6 <= current_time s_last ∧
    @run_to_horizon replay crowded_source 10 1 1 6
      (@seeded_world replay crowded_source (Some 42%Z) demo_world) =
      Ok (final_update 6 s_last, w') ∧
    ∀ n, 0 <= horizon_time 6 n s_last ∧
      dict_get (intended_ledger 6 s_prev) (Z.of_nat n) 0 == horizon_time 6 n s_last ∧
      dict_get (state_probabilities r) (Z.of_nat n) 0 * 6 ==
        horizon_time 6 n s_last
          + charge (Z.of_nat n) (current_state s_prev) (overshoot 6 s_last)
          - charge (Z.of_nat n) (current_state s_last) (overshoot 6 s_last).
Proof.
  destruct (@distribution_at_horizon replay crowded_source 10 1 1 6 (Some 42%Z)
              demo_world _ _ eq_refl eq_refl) as (s_prev & s_last & Hrest).
  eexists _, _, s_prev, s_last. split; [reflexivity | exact Hrest].
Defined.

(** On that run one, two and three customers are present for 2, 2 and 1
    units of time before the horizon, and nobody for 1; the result has 3
    and 1 for one and two customers. *)
Example crowded_horizon_evaluated :
  horizon_time 6 0 crowded_run.1 == 1 ∧ horizon_time 6 1 crowded_run.1 == 2 ∧
  horizon_time 6 2 crowded_run.1 == 2 ∧ horizon_time 6 3 crowded_run.1 == 1 ∧
  horizon_time 6 4 crowded_run.1 == 0.
Proof. split_and!; vm_compute; reflexivity. Qed.
