(* ===== verification/Errors.v ===== *)
(** * The exceptions of a call

    [simulate_mm1_queue] validates none of its arguments
    ([src/mm1_queue_simulation.py], lines 5-8): an exception is whatever
    the first failing operation raises.  This file gives the decision
    table of the exceptions, [expected_exception], as a function of the
    four arguments alone, and shows that a call raises exactly what the
    table says, whatever the generator and the state it was in.  The table,
    in the order in which the code reaches the operations:

    - line 7: numpy rejects a seed outside [0, 2**32 - 1] ([ValueError]);
    - line 24: the first draw divides by the arrival rate
      ([ZeroDivisionError]) and numpy rejects a negative scale
      ([ValueError]);
    - line 44, under a positive horizon only: the first customer starts
      service and the draw of the service time fails in the same two ways;
    - line 106: the utilization divides by the horizon
      ([ZeroDivisionError]);
    - nothing else raises: at positive rates no iteration of the loop
      does, and the reducer divides by the horizon only. *)

From S2P Require Import Prelude PyRuntime XTime PyDict Sampler Engine Spec.
From S2P Require Import Invariants Stats Simulate Liveness.

#[local] Open Scope Q_scope.

(** What a draw at [rate] raises: the division of [1.0] by the rate, then
    numpy's check of the scale. *)
Definition rate_exception (rate : Q) : option exn :=
  if Qeq_bool rate 0 then Some ZeroDivisionError
  else if Qlt_bool rate 0 then Some ValueError
  else None.

(** The exception of a call, if any, from its arguments. *)
Definition expected_exception (arrival_rate service_rate simulation_time : Q)
  (seed : option Z) : option exn :=
  if decide (seed_ok seed) then
    match rate_exception arrival_rate with
    | Some e => Some e
    | None =>
        if Qlt_bool 0 simulation_time then rate_exception service_rate
        else if Qeq_bool simulation_time 0 then Some ZeroDivisionError
        else None
    end
  else Some ValueError.

(** ** Outcomes and the table *)

Lemma raises_as_expected {A} (o : outcome A) (e0 e : exn) :
  o = Raise e0 → o = Raise e ↔ Some e0 = Some e.
Proof. intros ->. naive_solver. Qed.

Lemma never_raises {A} (o : outcome A) (e : exn) :
  (∀ e', o ≠ Raise e') → o = Raise e ↔ None = Some e.
Proof. intros Hno. split; [by intros ?%Hno | done]. Qed.

Section errors.
Context {G : Type} `{SampleSource G}.
Implicit Types (s : sim_state) (w : world G) (e : exn).

(** ** What a draw raises *)

Lemma rate_exception_None rate : rate_exception rate = None ↔ 0 < rate.
Proof.
  unfold rate_exception. case_qeq rate 0; [split; [done | lra] |].
  case_qlt rate 0; split; (done || lra).
Qed.

Lemma exponential_of_rate_exception rate w e :
  exponential_of_rate rate w = Raise e ↔ rate_exception rate = Some e.
Proof.
  unfold rate_exception. case_qeq rate 0.
  - by apply raises_as_expected, exponential_of_rate_zero.
  - case_qlt rate 0.
    + by apply raises_as_expected, exponential_of_rate_negative.
    + apply never_raises. intros e' He'.
      destruct (exponential_of_rate_positive rate w) as [[x w'] Hx]; [lra |].
      congruence.
Qed.

(** ** At positive rates the loop does not raise *)

Section positive_rates.
Variables arrival_rate service_rate : Q.
Hypotheses (arrival_pos : 0 < arrival_rate) (service_pos : 0 < service_rate).

Lemma event_loop_no_Raise fuel T s w e :
  event_loop arrival_rate service_rate fuel T s w ≠ Raise e.
Proof.
  revert s w. induction fuel as [| fuel IH]; intros s w;
    destruct (decide (current_time s < T)) as [Hlt | Hge].
  - by rewrite event_loop_O.
  - by rewrite event_loop_exit by lra.
  - rewrite event_loop_S by done.
    destruct (step_enabled arrival_rate service_rate arrival_pos service_pos s w)
      as (s' & w' & Hstep).
    rewrite (sim_bind_eq _ _ _ _ _ Hstep). apply IH.
  - by rewrite event_loop_exit by lra.
Qed.

Lemma run_to_horizon_no_Raise fuel T w e :
  run_to_horizon fuel arrival_rate service_rate T w ≠ Raise e.
Proof.
  unfold run_to_horizon.
  destruct (exponential_of_rate_positive arrival_rate w arrival_pos)
    as [[first w1] Hfirst].
  rewrite (sim_bind_eq _ _ _ _ _ (init_state_eq _ _ _ _ Hfirst)).
  intros [Hloop | (s & w2 & _ & Hret)]%sim_bind_Raise; [| done].
  by apply event_loop_no_Raise in Hloop.
Qed.

(** With valid arguments the call does not raise. *)
Lemma simulate_no_Raise fuel T seed w e :
  seed_ok seed → ¬ T == 0 →
  simulate_mm1_queue fuel arrival_rate service_rate T seed w ≠ Raise e.
Proof.
  intros Hseed HT. rewrite simulate_unfold by done.
  intros [Hrun | (s & w' & _ & Hstat)]%sim_bind_Raise.
  - by apply run_to_horizon_no_Raise in Hrun.
  - apply sim_lift_Raise in Hstat. by rewrite statistics_nonzero in Hstat.
Qed.

End positive_rates.

(** ** With an invalid service rate *)

(** Under a horizon that is not positive the service rate is not used. *)
Lemma simulate_no_loop_exception fuel lam mu T seed w e :
  seed_ok seed → 0 < lam → T <= 0 →
  simulate_mm1_queue fuel lam mu T seed w = Raise e ↔
  (if Qeq_bool T 0 then Some ZeroDivisionError else None) = Some e.
Proof.
  intros Hseed Hlam HT. rewrite simulate_unfold by done.
  destruct (run_to_horizon_no_loop fuel lam mu T (seeded_world seed w) Hlam HT)
    as (first & w' & _ & Hrun).
  rewrite (sim_bind_eq _ _ _ _ _ Hrun). case_qeq T 0.
  - apply raises_as_expected, sim_lift_Raise. by apply statistics_zero.
  - apply never_raises. intros e' He'%sim_lift_Raise.
    by rewrite statistics_nonzero in He'.
Qed.

(** Under a positive horizon the first iteration draws a service time. *)
Lemma simulate_service_exception fuel lam mu T seed w e :
  seed_ok seed → 0 < lam → 0 < T →
  simulate_mm1_queue (S fuel) lam mu T seed w = Raise e ↔
  rate_exception mu = Some e.
Proof.
  intros Hseed Hlam HT. destruct (rate_exception mu) as [e0 |] eqn:Hmu.
  - apply raises_as_expected, simulate_Raise_run; [done |].
    apply run_to_horizon_Raise_service; [done.. |].
    intros w2. by apply exponential_of_rate_exception.
  - apply never_raises. intros e'. apply rate_exception_None in Hmu.
    apply simulate_no_Raise; [done.. | lra].
Qed.

(** C21. The exceptions of a call are those of the table, and no other: a
    call with at least one iteration of fuel raises [e] exactly when
    [expected_exception] gives [e] for its arguments.  So an unaccepted
    seed raises [ValueError] at line 7 whatever the other arguments; then
    the arrival rate is looked at (line 24), then, under a positive horizon
    only, the service rate (line 44), and a zero horizon raises at line 106;
    a negative horizon raises nothing, and neither does a call at positive
    rates with a positive horizon and an accepted seed, on any generator
    and from any state of it. *)
Theorem exceptions_of_the_call fuel lam mu T seed w e :
  simulate_mm1_queue (S fuel) lam mu T seed w = Raise e ↔
  expected_exception lam mu T seed = Some e.
Proof.
  unfold expected_exception. destruct (decide (seed_ok seed)) as [Hseed | Hseed];
    [| by apply raises_as_expected, simulate_invalid_seed].
  destruct (rate_exception lam) as [e0 |] eqn:Hlam.
  - apply raises_as_expected, simulate_Raise_run; [done |].
    by apply run_to_horizon_Raise_init, exponential_of_rate_exception.
  - apply rate_exception_None in Hlam. case_qlt 0 T.
    + by apply simulate_service_exception.
    + by apply simulate_no_loop_exception.
Qed.

End errors.

(** ** The table evaluated *)

(** The rows of the table, in the order of the code: the seed is looked at
    before the rates, the arrival rate before the service rate, the service
    rate only under a positive horizon. *)
Example expected_exception_rows :
  expected_exception 0 0 0 (Some (-1)%Z) = Some ValueError ∧
  expected_exception 0 0 0 (Some 4294967296%Z) = Some ValueError ∧
  expected_exception 0 (-1) 0 (Some 42%Z) = Some ZeroDivisionError ∧
  expected_exception (-2) 0 0 None = Some ValueError ∧
  expected_exception 2 0 3 None = Some ZeroDivisionError ∧
  expected_exception 2 (-1) 3 (Some 4294967295%Z) = Some ValueError ∧
  expected_exception 2 (-1) 0 None = Some ZeroDivisionError ∧
  expected_exception 2 (-1) (-3) None = None ∧
  expected_exception 2 (1 # 2) 3 (Some 0%Z) = None.
Proof. by vm_compute. Qed.

(** The recorded generator raises accordingly on a seed that numpy does
    not accept, from the demonstration's world. *)
Example unaccepted_seed_evaluated :
  @simulate_mm1_queue replay demo_source 100 2 (1 # 2) 3 (Some (-1)%Z)
    demo_world = Raise ValueError ∧
  @simulate_mm1_queue replay demo_source 100 2 (1 # 2) 3
    (Some 4294967296%Z) demo_world = Raise ValueError.
Proof. by vm_compute. Qed.
