(* ===== verification/LeftOut.v ===== *)
(** * The customers left out of the averages

    The reducer counts every record in [total_customers] (line 81 of
    [src/mm1_queue_simulation.py]) and averages over the records that
    departed by the horizon only (lines 84 and 92).  This file bounds the
    difference.  The records are in the order of service, so their
    departures are in order and the records left out are the last ones of
    the trace.  Before the event that crosses the horizon every record but
    the one in service has departed, before the horizon; the crossing event
    adds at most one record.  So at most two records are left out, whatever
    the rates, the horizon and the generator: the customer in service when
    the crossing event is processed, and the customer whose service that
    event starts. *)

From S2P Require Import Prelude PyRuntime XTime PyDict Sampler Engine Spec.
From S2P Require Import Invariants Stats Simulate Busy Little Overshoot.
From S2P Require Import Utilization.

#[local] Open Scope Q_scope.

(** The customers of a result that are not counted as completed. *)
Definition left_out (r : sim_result) : nat :=
  total_customers r - completed_customers r.

(** The services that can be under way after the event processed in [s]:
    the one the server is on, and the one the event starts. *)
Definition services_open (s : sim_state) : nat :=
  Nat.b2n (server_busy s) + Nat.b2n (starts_service s).

(** A tape on which the bound is attained, at unit rates: arrivals at 1
    and 2, a first service of 5 and a second of 1, the third arrival at
    12. *)
Definition late_tape : replay :=
  Replay [Fraction 1 1; Fraction 1 1; Fraction 5 1; Fraction 10 1;
          Fraction 1 1] (Fraction 1 1).

Definition late_source : SampleSource replay := replay_source (λ _, late_tape).

(** ** Chains *)

Section chains.
Variable T : Q.
Implicit Types (stats : list customer) (c : customer).

#[local] Abbreviation done_by := (filter (λ c, completed T c = true)).

Lemma unfinished_app stats stats' :
  unfinished T (stats ++ stats') = unfinished T stats ++ unfinished T stats'.
Proof. apply filter_app. Qed.

(** Records that departed by the horizon are all counted. *)
Lemma departed_all_done stats :
  Forall (λ c, departure_time c <= T) stats →
  done_by stats = stats ∧ unfinished T stats = [].
Proof.
  induction 1 as [| c stats Hc _ [IHd IHu]]; [done |].
  unfold unfinished in *. rewrite !filter_cons.
  apply completed_iff in Hc. rewrite Hc, decide_True, decide_False by done.
  by rewrite IHd, IHu.
Qed.

(** After records that have all departed, the records left out are among
    the others. *)
Lemma unfinished_after_departed stats rest :
  Forall (λ c, departure_time c <= T) stats →
  (length (unfinished T (stats ++ rest)) ≤ length rest)%nat.
Proof.
  intros [_ Hu]%departed_all_done. rewrite unfinished_app, Hu. simpl.
  apply length_filter.
Qed.

(** In a chain the records counted come first. *)
Lemma chained_done_first stats :
  chained stats → stats = done_by stats ++ unfinished T stats.
Proof.
  induction 1 as [| stats c Hch IH Hlast Hle]; [done |].
  rewrite unfinished_app, filter_app. unfold unfinished at 2.
  rewrite !filter_cons, !filter_nil.
  destruct (completed T c) eqn:Hc.
  - rewrite decide_True, decide_False, !app_nil_r by done.
    apply completed_iff in Hc.
    destruct (departed_all_done stats) as [-> ->]; [| by rewrite app_nil_r].
    apply chained_departed; [done | lra].
  - rewrite decide_False, decide_True, app_nil_r by done.
    by rewrite app_assoc, <- IH.
Qed.

End chains.

(** ** After the crossing event *)

(** Before the horizon every record but the one in service has departed;
    the event adds at most one. *)
Lemma crossing_records T s s' :
  clock_inv s → service_inv s → transition s s' → current_time s <= T →
  ∃ left rest, customer_stats s' = left ++ rest ∧
    Forall (λ c, departure_time c <= T) left ∧
    (length rest ≤ services_open s)%nat.
Proof.
  intros Hc Hs Ht HT. unfold services_open.
  pose proof (records_left s Hc Hs) as Hleft.
  destruct (transition_records s s' Hc Ht)
    as [[-> ->] | (-> & _ & _ & a & service & _ & _ & ->)];
    destruct (server_busy s); simpl.
  - destruct Hleft as (prev & c & -> & _ & _ & Hprev). exists prev, [c].
    split_and!; [done | by apply (Forall_departed_le (current_time s)) | done].
  - exists (customer_stats s), []. rewrite app_nil_r.
    split_and!; [done | by apply (Forall_departed_le (current_time s)) | done].
  - destruct Hleft as (prev & c & -> & _ & _ & Hprev). eexists prev, [c; _].
    rewrite <- app_assoc.
    split_and!; [done | by apply (Forall_departed_le (current_time s)) | done].
  - eexists (customer_stats s), [_].
    split_and!; [done | by apply (Forall_departed_le (current_time s)) | done].
Qed.

Lemma services_open_le s : (services_open s ≤ 2)%nat.
Proof.
  unfold services_open. destruct (server_busy s), (starts_service s); simpl; lia.
Qed.

Section run.
Context {G : Type} `{SampleSource G}.
Variables arrival_rate service_rate : Q.

(** C36. At most two customers are left out of the averages.  In every
    result returned for a positive horizon, the records not counted as
    completed are the last of the trace: the trace is the completed records
    followed by the others.  They are [total_customers] less
    [completed_customers], and no more than the services under way at the
    event that crosses the horizon, the one the server was on and the one
    the event starts: at most two, whatever the rates, the horizon and
    the generator. *)
Theorem left_out_at_most_two fuel T seed (w : world G) r w' :
  0 < T →
  simulate_mm1_queue fuel arrival_rate service_rate T seed w = Ok (r, w') →
  ∃ s_prev s_last,
    transition s_prev s_last ∧ current_time s_prev < T ∧ T <= current_time s_last ∧
    run_to_horizon fuel arrival_rate service_rate T (seeded_world seed w) =
      Ok (final_update T s_last, w') ∧
    customer_stats s_last =
      filter (λ c, completed T c = true) (customer_stats s_last) ++
      unfinished T (customer_stats s_last) ∧
    (completed_customers r + left_out r)%nat = total_customers r ∧
    left_out r = length (unfinished T (customer_stats s_last)) ∧
    (left_out r ≤ services_open s_prev)%nat ∧ (left_out r ≤ 2)%nat.
Proof.
  intros HT (s & Hrun & Hstat)%simulate_Ok.
  destruct (run_to_horizon_crossing _ _ _ _ _ _ _ HT Hrun)
    as (s_prev & w_prev & s_last & Hv%reachable_valid & Hlt & Hstep%step_refines
        & Hexit & ->).
  apply statistics_inv in Hstat as (_ & Htotal & Hdone & _). simpl in Htotal, Hdone.
  pose proof (valid_service_inv s_last (valid_transition _ _ Hv Hstep)) as [Hch _ _].
  pose proof (chained_done_first T _ Hch) as Hsplit.
  destruct (crossing_records T s_prev s_last) as (left & rest & Heq & Hleft & Hrest);
    [by apply valid_clock_inv | by apply valid_service_inv | done | lra |].
  assert (left_out r = length (unfinished T (customer_stats s_last))) as Hout.
  { unfold left_out. rewrite Htotal, Hdone, Hsplit at 1. rewrite length_app. lia. }
  assert (left_out r ≤ services_open s_prev)%nat as Hopen.
  { rewrite Hout, Heq. etrans; [by apply unfinished_after_departed | done]. }
  pose proof (services_open_le s_prev).
  exists s_prev, s_last. split_and!; try done; [| lia].
  unfold left_out. rewrite Htotal, Hdone.
  pose proof (length_filter (λ c, completed T c = true) (customer_stats s_last)).
  lia.
Qed.

End run.

(** ** On a recorded tape *)

(** On [late_tape] with the horizon 3 the crossing event is the departure
    of the first customer at time 6, which starts the service of the
    second: both records are left out. *)
Lemma left_out_at_most_two_witness :
  ∃ r w' s_prev s_last,
    @simulate_mm1_queue replay late_source 10 1 1 3 (Some 42%Z) demo_world
      = Ok (r, w') ∧
    transition s_prev s_last ∧ current_time s_prev < 3 ∧
    3 <= current_time s_last ∧
    @run_to_horizon replay late_source 10 1 1 3
      (@seeded_world replay late_source (Some 42%Z) demo_world) =
      Ok (final_update 3 s_last, w') ∧
    customer_stats s_last =
      filter (λ c, completed 3 c = true) (customer_stats s_last) ++
      unfinished 3 (customer_stats s_last) ∧
    (completed_customers r + left_out r)%nat = total_customers r ∧
    left_out r = length (unfinished 3 (customer_stats s_last)) ∧
    (left_out r ≤ services_open s_prev)%nat ∧ (left_out r ≤ 2)%nat.
Proof.
  destruct (@left_out_at_most_two replay late_source 1 1 10 3
              (Some 42%Z) demo_world _ _ eq_refl eq_refl)
    as (s_prev & s_last & Hrest).
  eexists _, _, s_prev, s_last. split; [reflexivity | exact Hrest].
Defined.

(** The same call evaluated: two customers recorded, none completed; and
    the recorded run of the demonstration with the horizon 7/4, where the
    departure that crosses the horizon finds nobody waiting: one customer
    is left out of two. *)
Example left_out_evaluated :
  (∃ r w', @simulate_mm1_queue replay late_source 10 1 1 3 (Some 42%Z) demo_world
             = Ok (r, w') ∧
     total_customers r = 2%nat ∧ completed_customers r = 0%nat ∧
     left_out r = 2%nat) ∧
  (∃ r w', @simulate_mm1_queue replay demo_source 10 2 (1 # 2) (7 # 4) (Some 42%Z)
             demo_world = Ok (r, w') ∧
     total_customers r = 2%nat ∧ completed_customers r = 1%nat ∧
     left_out r = 1%nat).
Proof. split; eexists _, _; by vm_compute. Qed.
